(* ===== verification/_CoqProject ===== *)
-Q . S2P
Prelude.v
GoInt.v
GoFloat.v
GoFloatRound.v
OriginState.v
Balancer.v
BalancerConc.v
RateLimit.v
RateLimitRound.v
Mutex.v
RateLimitConc.v
GoStrings.v
Base64.v
Sha256.v
Header.v
Value.v
GoDuration.v
Http.v
Retry.v
Netip.v
NetipText.v
Json.v
Tracing.v
ClientIP.v
Url.v
Cors.v
HttpLog.v
HttpLogConc.v
ResponseHeaders.v
Metrics.v
Plugin.v
JwtGen.v
Proxy.v
Exchange.v
Health.v
Config.v
Mux.v
Router.v
Gateway.v
Generation.v
Pipeline.v
Frames.v
Limited.v
Gates.v
Guarded.v
Distributed.v
Watcher.v
Follow.v
Acme.v
Main.v
Serve.v
Stubs.v
Witness.v
