(* ===== verification/Prelude.v ===== *)
(** * A verification development of the Dealer API gateway

    Dealer is an HTTP gateway written in Go: a YAML file lists services, and a
    request for a service goes through that service's plugins to one of its
    origins. The file is polled and a change replaces the routing table without
    a restart. Paths below are relative to src/.

    ** The program and the files that model it

    A request enters through the root table of cmd/dealer/main.go, passes the
    client address, request id and span middlewares, is dispatched by the
    routing table, recorded by the metrics middleware, goes through the plugins
    in their order, and is proxied to an origin the load balancer picks.

    - [Main], [Serve]: cmd/dealer/main.go, config/info.go, config/version.go. The environment
      ([read_options]), the servers ([main] builds a [startup]), the exit
      ([finish]); in [Serve] the goroutines [main] starts, what ends it, and the
      shutdown, on a list of what happens to the servers.
    - [Acme], [Watcher]: cmd/dealer/internal/acmecert and tlscert, and
      gateway/internal/config/watcher.go. [pollOnce] and [Reloader_pollOnce] take
      what a poll finds on disk as their input.
    - [Gateway]: gateway/gateway.go. [buildMux], [New], [reload] (the watcher's
      callback), [HasHost], [Gateway_ServeHTTP], [Close]. A [Gateway] is the
      contents of the Go struct's atomic pointers and its [runtime]: the
      goroutines it started, each under its context. [Generation] follows the
      objects [buildMux] allocates and has the goroutine that flushes the logs;
      [Pipeline] is a request through all of it, [Follow] the gateway under its
      watcher. [Frames] is what every handler of the chain leaves alone and passes
      on, and that what happened stays on record; [Gates] is what a plugin that refuses
      requests means for the whole gateway; [Limited], [Guarded] and [Distributed] apply them to in-memory rate
      limits, authentication and distributed rate limits.
    - [Config], [Router]: gateway/internal/config (types.go, parse.go) and
      gateway/internal/router.
    - [ClientIP], [Tracing], [Metrics]: gateway/internal/clientip, tracing,
      metrics.
    - [Plugin]: gateway/internal/plugin, the chain and registry, add_header,
      request_size_limiting, jwt_auth, rate_limiting and the shared SugarDB
      start; [Cors], [ResponseHeaders], [HttpLog] are the other plugins,
      and [RateLimit] has the stores of rate_limiting, whose rounding [RateLimitRound]
      bounds. [HttpLogConc] and [RateLimitConc] are http_log and the in-memory store
      for requests that interleave behind their mutex ([Mutex]).
    - [Proxy], [Retry], [Health], [Balancer], [BalancerConc], [OriginState]:
      gateway/internal/proxy. [OriginState] is origin.go; [Balancer] the choice
      of an origin for one request, [BalancerConc] the same loop for requests
      that interleave; [Proxy] the reverse proxy and the hooks that report to
      the origin's state; [Exchange] a request through the balancer and that
      proxy; [Retry] the transport; [Health] the probers.
    - [JwtGen], [Stubs]: loadtest/jwtgen and loadtest/stubs, the token generator
      and the test origins.
    - [Http]: the state of the process. [World] holds the clock, the events
      so far (attempts, sleeps, the commands to the shared SugarDB, the calls of
      [Shutdown], log lines, spans, metrics), the number of readings taken from the
      environment, and a
      [Heap] of the objects handlers share (origin states, round-robin counters,
      log buffers, rate limiting stores, the shared SugarDB). A handler is
      [rw -> Request -> M rw], [M] being a state monad in which a panic is an
      [outcome]; [rw] is the connection under the stack of response writers the
      program wraps around it, with how its takeover by [Hijack] will go.
    - [Value]: what YAML decodes to, the errors built with [fmt.Errorf], the
      conversions of plugin configurations.

    [Prelude] (here), [GoInt], [GoFloat], [GoStrings], [Header], [Url], [Netip],
    [GoDuration], [Mux], [Json], [Base64] and [Sha256] model what the program uses of
    the Go language and its standard library: 64-bit integers with wrap-around,
    saturating durations, binary64 arithmetic, strings, header maps, URLs with the path
    as it was written ([EscapedPath]) and without its escapes, addresses,
    ServeMux (which matches the segments of the escaped path and redirects to clean
    paths and trees) with its precedence and its panics, the encodings (with readers that
    undo them) and HMAC (checked against published test vectors). [GoFloatRound]
    bounds the rounding of each binary64 operation, and [NetipText] shows that the
    text of an address reads back as that address. [Witness] applies each property
    that has hypotheses to a concrete input.

    ** Interfaces

    Code that is not in the repository is a class with the operations the program
    calls, and laws where a theorem needs them: [SugarDB], [SugarNode], [JWT]
    (laws [JWTLaws], and [HS256Laws] for what RFC 7515 and RFC 7519 say),
    [Tracer], [TraceContext], [ConfigSource] (the file and the YAML decoder), [OS]
    (environment variables, temporary directories), [Env] (the answers of origins
    and probes, randomness, the rendering of local time).
    [Platform] is what Go leaves to the processor in a conversion, [MapRange] the
    order in which [range] visits a map: theorems hold for every order.
    [TokenBucketStore] is the Go interface of the same name; [GoFloat] makes the
    rate limiter's definitions run on binary64 and be reasoned about on exact
    rationals, and [GoFloatRounds] says how far the two are apart.

    ** What the theorems show

    - Origin health (C1, C2, C8): the record refines the history of calls,
      availability is decided by that history, and an origin recovers.
    - Load balancing (C3 to C7, C30): the choice is complete and fair, never dials an
      origin whose breaker is open, alone or under every interleaving, and the
      selection loop ends; the interleaved steps refine the sequential choice.
    - The gateway as a whole (C9, C14, C16 to C18, C20, C37, C40): what a request meets on its
      way and which service's backend serves it; that a configuration is built
      from new objects beside those in use; that one generation of goroutines runs
      after any reloads, that of the last configuration that could be built, and none
      after [Close]; that a reload is all or nothing and
      the gateway follows its file, short of a file that makes the build panic; that no
      service escapes the body limit; and what the parser accepts.
    - Retries (C10, C11): the attempts made, the backoffs between them, and that
      unsafe methods are never repeated.
    - Rate limiting (C12, C13, C15, C19, C21): in the arithmetic the code runs, the
      store is the ideal token bucket up to rounding, and the rate is bounded over
      any interleaving of requests whose clock readings reach the store out of
      order; a limit in the configuration bounds how many requests of a client reach
      an origin, whatever else the gateway serves; the distributed window admits no
      more than its limit, and a distributed limit in the configuration lets nothing
      reach an origin before its counter in the shared store, asked for that request,
      admitted it. In
      exact arithmetic the bounds of the store hold without an error term
      ([RateLimit.allow_exact], [RateLimitConc.exact_rate_bound]); what rounding and
      the cap do to a burst below one is [RateLimit.sub_unit_burst_denies].
    - Authentication (C24, C34): a service with authentication is closed to requests
      without a valid token, whatever its other plugins (short of one that adds the
      credentials itself); a minted token is admitted.
    - Requests and responses (C22, C23, C25 to C29, C31 to C33, C35): the client's
      address, and that it tells clients apart, request ids, the plugins, the
      metrics, the access log under concurrent requests, the exchange with an origin
      and whom it is charged to, probes.
    - The program (C36, C38, C39): what ends it, what it says and closes and in which
      order, the certificate served, the listener's TLS.

    Theorems without a number prove behaviour its authors may not expect: an
    escalation that overflows, an unbounded number of half-open trials, a counter
    wrap that skips an origin, requests that are charged to an origin they never
    reached, a configuration that panics on reload, services that
    share the counters of their distributed limits, and others next to the
    component they are about. Some are steps of the numbered ones that
    stand on their own: one line of the log, a failed exchange, one poll of the
    watcher, the schedule of an escalation, the routes of the root, what the
    test origins count.

    ** Bounds and fuel

    [Retry.attempts] is given [maxAttempts] iterations, the bound of the Go loop;
    [Balancer.scan] the number of origins. [GoDuration.duration_terms] has the
    length of the string, each term consuming a character;
    [Netip.parse6_groups] the eight groups of an address and [Netip.hex_digits]
    the digits of a 16-bit group; [Json.read_fields] the length of the text, each
    field taking a character of it. [Sha256.schedule] makes the forty-eight words
    after the first sixteen. The loops that run until a context ends
    ([Health.probe_loop], [Watcher.poll_loop], [Watcher.Reloader_loop],
    [Generation.flush_loop]) recurse on the signals they receive, so that they end
    is a property of each prefix.
    Theorems about long histories assume at most 2^63-1 calls, and those about
    the round-robin counter say when it must not wrap. Those about rate limits in
    binary64 say how large the numbers may be; how many requests there may be is bounded
    only where clock readings go back ([RateLimitConc.concurrent_rate_bound]).

    ** What is not modelled

    Sockets, TLS handshakes, the delivery of signals and accept loops; the profiles
    themselves, of which the rates are set; the bytes tunnelled after a protocol
    upgrade; informational responses before a round trip that then fails; the Prometheus registry (what the program tells it is an event); YAML,
    JWT, SugarDB and autocert themselves; the race detector flags of the tests.
    Handlers run one at a time on the [World], except in [BalancerConc],
    [HttpLogConc] and [RateLimitConc], where their atomic actions interleave, and in
    the reload races of [Gateway]; the other shared objects of the program are each
    guarded by a mutex around a single operation of the model. Writes to standard
    output succeed. A multiplication and an addition are two operations, each
    rounded, as on amd64; Go lets a compiler fuse them on other processors.
    [ToLower] and [TrimSpace] act on ASCII. *)

From stdpp Require Export base tactics numbers list strings gmap fin_maps.
From Stdlib Require Export ZArith Lia.

#[global] Open Scope Z_scope.

(** ** Results of Go functions

    A Go function returning [(T, error)] is modelled by [result E T], with one
    constructor of the error type [E] per [return] of an error. *)

Inductive result (E A : Type) : Type :=
| Ok (a : A)
| Err (e : E).

Arguments Ok {E A} a.
Arguments Err {E A} e.

Definition rbind {E A B} (m : result E A) (k : A -> result E B) : result E B :=
  match m with
  | Ok a => k a
  | Err e => Err e
  end.

Definition rmap_err {E E' A} (f : E -> E') (m : result E A) : result E' A :=
  match m with
  | Ok a => Ok a
  | Err e => Err (f e)
  end.

Definition is_ok {E A} (m : result E A) : bool :=
  match m with
  | Ok _ => true
  | Err _ => false
  end.

(** A run-time panic aborts the goroutine; [outcome] is a computation that may
    panic, the panic carrying what raised it. *)

Inductive outcome (A : Type) : Type :=
| Ret (a : A)
| Panic (why : string).

Arguments Ret {A} a.
Arguments Panic {A} why.

Definition obind {A B} (m : outcome A) (k : A -> outcome B) : outcome B :=
  match m with
  | Ret a => k a
  | Panic w => Panic w
  end.

Definition panics {A} (m : outcome A) : bool :=
  match m with
  | Ret _ => false
  | Panic _ => true
  end.

Declare Scope dealer_scope.
Delimit Scope dealer_scope with dealer.

Notation "'let?' x ':=' m 'in' k" := (rbind m (fun x => k))
  (at level 10, x pattern, m at level 100, k at level 200) : dealer_scope.
Notation "'let!' x ':=' m 'in' k" := (obind m (fun x => k))
  (at level 10, x pattern, m at level 100, k at level 200) : dealer_scope.

#[global] Open Scope dealer_scope.

(** ** Automation *)

Create HintDb dealer.

(** Case analysis on every [match] of the goal, discharging the absurd and the
    arithmetic cases. *)
Ltac cases := repeat (case_match; simplify_eq/=); try done; try lia.

(** The same for a hypothesis that says what a function returned. *)
Ltac cases_in H := repeat (case_match; simplify_eq/=); try done.

(** ** Lists *)

Section lists.
Context {A B : Type}.
Implicit Types (l : list A).

(** The first element satisfying [f], as a Go loop with an early return finds
    it. *)
Definition find_first (f : A -> bool) (l : list A) : option A := List.find f l.

Lemma find_first_None f l :
  find_first f l = None <-> Forall (fun x => f x = false) l.
Proof.
  unfold find_first. induction l as [|x l IH]; simpl; [done|].
  rewrite Forall_cons. destruct (f x) eqn:E; naive_solver.
Qed.

Lemma find_first_Some f l x :
  find_first f l = Some x -> x ∈ l /\ f x = true.
Proof.
  unfold find_first. intros H. apply List.find_some in H.
  by rewrite list_elem_of_In.
Qed.

Lemma find_first_app f l1 l2 :
  Forall (fun x => f x = false) l1 -> find_first f (l1 ++ l2) = find_first f l2.
Proof.
  unfold find_first. induction 1 as [|x l1 Hx _ IH]; simpl; [done|]. by rewrite Hx.
Qed.

Lemma find_first_split f l x :
  find_first f l = Some x ->
  exists before after, l = before ++ x :: after /\ f x = true /\ Forall (fun y => f y = false) before.
Proof.
  unfold find_first. induction l as [|y l IH]; simpl; [done|].
  destruct (f y) eqn:E; intros H; simplify_eq.
  - by exists [], l.
  - destruct (IH H) as (b & a & -> & Hx & Hb). exists (y :: b), a. naive_solver.
Qed.

End lists.

Lemma existsb_find {A} (f : A -> bool) l :
  existsb f l = true <-> exists x, x ∈ l /\ f x = true.
Proof. rewrite existsb_exists. by setoid_rewrite list_elem_of_In. Qed.

Lemma existsb_false {A} (f : A -> bool) l :
  existsb f l = false <-> Forall (fun x => f x = false) l.
Proof.
  induction l as [|x l IH]; simpl; [done|].
  rewrite orb_false_iff, Forall_cons. naive_solver.
Qed.

(** Filtering a list all of whose elements, or none of whose, have the property. *)
Lemma list_filter_all {A} (P : A -> Prop) `{!forall x, Decision (P x)} l :
  Forall P l -> base.filter P l = l.
Proof. induction 1; [done|]. by rewrite filter_cons_True, IHForall. Qed.

Lemma list_filter_none {A} (P : A -> Prop) `{!forall x, Decision (P x)} l :
  Forall (fun x => ~ P x) l -> base.filter P l = [].
Proof. induction 1; [done|]. by rewrite filter_cons_False, IHForall. Qed.
