(* ===== verification/GoInt.v ===== *)
(** * Machine integers, durations and times

    Go's [int]/[int64] and [uint64] are [Z] values kept in range by explicit
    wrap-around; [time.Duration] is an [int64] number of nanoseconds and
    [time.Time] a number of nanoseconds since the zero time. *)

From S2P Require Import Prelude.

(** ** Two's complement wrap-around *)

Definition two63 : Z := 2 ^ 63.
Definition two64 : Z := 2 ^ 64.
Definition maxInt64 : Z := two63 - 1.
Definition minInt64 : Z := - two63.

Definition wrap64 (z : Z) : Z := (z + two63) mod two64 - two63.
Definition wrapu64 (z : Z) : Z := z mod two64.

Definition int64_ok (z : Z) : Prop := minInt64 <= z <= maxInt64.
Definition uint64_ok (z : Z) : Prop := 0 <= z < two64.

Lemma two63_val : two63 = 9223372036854775808. Proof. reflexivity. Qed.
Lemma two64_val : two64 = 18446744073709551616. Proof. reflexivity. Qed.

Ltac int_lia :=
  unfold int64_ok, uint64_ok, maxInt64, minInt64 in *;
  rewrite ?two63_val, ?two64_val in *; lia.

Lemma wrap64_ok z : int64_ok (wrap64 z).
Proof.
  unfold wrap64. pose proof (Z.mod_pos_bound (z + two63) two64 ltac:(int_lia)). int_lia.
Qed.

Lemma wrap64_id z : int64_ok z -> wrap64 z = z.
Proof. intros H. unfold wrap64. rewrite Z.mod_small; int_lia. Qed.

Lemma wrapu64_ok z : uint64_ok (wrapu64 z).
Proof. apply Z.mod_pos_bound. int_lia. Qed.

Lemma wrapu64_id z : uint64_ok z -> wrapu64 z = z.
Proof. intros H. apply Z.mod_small. int_lia. Qed.

#[export] Hint Resolve wrap64_ok wrapu64_ok : dealer.

(** [x << s] on [int64], for a shift count that is not negative (a negative
    one panics; the callers below are shown never to pass one). *)
Definition shl64 (x s : Z) : Z := wrap64 (Z.shiftl x s).

Lemma shl64_exact x s :
  0 <= s -> int64_ok (x * 2 ^ s) -> shl64 x s = x * 2 ^ s.
Proof. intros Hs H. unfold shl64. rewrite Z.shiftl_mul_pow2 by lia. by apply wrap64_id. Qed.

Lemma shl64_big x s : 64 <= s -> shl64 x s = 0.
Proof.
  intros Hs. unfold shl64, wrap64. rewrite Z.shiftl_mul_pow2 by lia.
  replace s with (64 + (s - 64)) by lia. rewrite Z.pow_add_r by lia.
  change (2 ^ 64) with two64.
  replace (x * (two64 * 2 ^ (s - 64)) + two63)
    with (two63 + (x * 2 ^ (s - 64)) * two64) by ring.
  rewrite Z_mod_plus_full. rewrite Z.mod_small; int_lia.
Qed.

(** ** Durations and times *)

Definition Duration := Z.
Definition Time := Z.

Definition Nanosecond : Duration := 1.
Definition Microsecond : Duration := 1000 * Nanosecond.
Definition Millisecond : Duration := 1000 * Microsecond.
Definition Second : Duration := 1000 * Millisecond.
Definition Minute : Duration := 60 * Second.
Definition Hour : Duration := 60 * Minute.

Definition zeroTime : Time := 0.
Definition IsZero (t : Time) : bool := t =? zeroTime.

(** [t.Sub(u)] saturates at the ends of [Duration]. *)
Definition Sub (t u : Time) : Duration :=
  if t - u <? minInt64 then minInt64
  else if maxInt64 <? t - u then maxInt64
  else t - u.

Lemma Sub_exact t u : int64_ok (t - u) -> Sub t u = t - u.
Proof. intros H. unfold Sub. cases; int_lia. Qed.

Lemma Sub_ok t u : int64_ok (Sub t u).
Proof. unfold Sub. cases; int_lia. Qed.

(** Saturation never changes the answer of a comparison with a duration below
    the largest one. *)
Lemma Sub_gt t u d : minInt64 <= d < maxInt64 -> (d < Sub t u <-> d < t - u).
Proof. intros H. unfold Sub. cases; int_lia. Qed.

Lemma Sub_mono t t' u : t <= t' -> Sub t u <= Sub t' u.
Proof. intros H. unfold Sub. cases; int_lia. Qed.

#[export] Hint Resolve Sub_ok : dealer.
