(* ===== verification/GoFloat.v ===== *)
(** * Floating-point arithmetic

    What the program uses of [float64]. The operations are an interface,
    [GoFloat], with two implementations: [binary64], the IEEE 754 arithmetic Go
    specifies (the executable [spec_float] of the Standard Library, at precision
    53), and [Q], the exact arithmetic the former rounds. Definitions of the
    program are generic in the interface; [GoFloatOrder] gives the order facts
    that hold of both, so a theorem proved from it holds of the running code,
    and theorems about accumulated quantities are stated in exact arithmetic. *)

From S2P Require Import Prelude GoInt.
From Stdlib Require Import QArith Qround Lqa SpecFloat.
#[global] Open Scope Z_scope.

Class GoFloat (F : Type) := {
  fadd : F -> F -> F;
  fsub : F -> F -> F;
  fmul : F -> F -> F;
  fdiv : F -> F -> F;
  fltb : F -> F -> bool;       (* x < y, false on NaN *)
  fleb : F -> F -> bool;       (* x <= y, false on NaN *)
  fofZ : Z -> F;               (* float64(n) *)
  ftrunc : F -> option Z       (* truncation towards zero, when there is one *)
}.

(** A value that is not NaN. *)
Definition number `{GoFloat F} (x : F) : Prop := fleb x x = true.

Class GoFloatOrder (F : Type) `{GoFloat F} := {
  not_ltb x y : number x -> number y -> fltb x y = false <-> fleb y x = true;
  leb_ltb_trans x y z : fleb x y = true -> fltb y z = true -> fltb x z = true;
  ltb_number x y : fltb x y = true -> number x /\ number y
}.

(** What an out-of-range conversion of a float to an integer gives is left to
    the implementation by the Go specification. *)
Class Platform := {
  oorInt : Z;
  oorInt_ok : int64_ok oorInt
}.

(** [int64(x)] and [int(x)]. *)
Definition toInt `{Platform} `{GoFloat F} (x : F) : Z :=
  match ftrunc x with
  | Some z => if (minInt64 <=? z) && (z <=? maxInt64) then z else oorInt
  | None => oorInt
  end.

Lemma toInt_ok `{Platform} `{GoFloat F} (x : F) : int64_ok (toInt x).
Proof.
  unfold toInt. destruct (ftrunc x) as [z|]; [|apply oorInt_ok].
  case_match; [|apply oorInt_ok]. unfold int64_ok. lia.
Qed.

#[export] Hint Resolve toInt_ok : dealer.

(** The conversion instruction of amd64. *)
#[export] Instance amd64 : Platform.
Proof. by refine {| oorInt := minInt64 |}. Defined.

(** [d.Seconds()]. *)
Definition Seconds `{GoFloat F} (d : Duration) : F :=
  fadd (fofZ (Z.quot d Second)) (fdiv (fofZ (Z.rem d Second)) (fofZ Second)).

(** ** IEEE 754 binary64 *)

Definition float64 : Type := spec_float.

Definition sf_trunc (x : float64) : option Z :=
  match x with
  | S754_zero _ => Some 0
  | S754_finite s m e =>
      let a := if 0 <=? e then Z.shiftl (Z.pos m) e else Z.shiftr (Z.pos m) (- e) in
      Some (if s then - a else a)
  | _ => None
  end.

#[export] Instance binary64 : GoFloat float64 := {
  fadd := SFadd 53 1024;
  fsub := SFsub 53 1024;
  fmul := SFmul 53 1024;
  fdiv := SFdiv 53 1024;
  fltb := SFltb;
  fleb := SFleb;
  fofZ z := binary_normalize 53 1024 z 0 false;
  ftrunc := sf_trunc
}.

(** The comparison of two numbers, read on the signed magnitude. *)
Definition sf_key (x : float64) : option (Z * Z * Z) :=
  match x with
  | S754_nan => None
  | S754_infinity s => Some (if s then -2 else 2, 0, 0)
  | S754_zero _ => Some (0, 0, 0)
  | S754_finite s m e => Some (if s then (-1, - e, Z.neg m) else (1, e, Z.pos m))
  end.

Definition key_compare (x y : Z * Z * Z) : comparison :=
  match Z.compare x.1.1 y.1.1 with
  | Eq => match Z.compare x.1.2 y.1.2 with
          | Eq => Z.compare x.2 y.2
          | c => c
          end
  | c => c
  end.

Lemma SFcompare_key x y :
  SFcompare x y =
  match sf_key x, sf_key y with
  | Some a, Some b => Some (key_compare a b)
  | _, _ => None
  end.
Proof.
  destruct x as [s|s| |s m e], y as [s'|s'| |s' m' e']; simpl; try (by destruct s);
    try (by destruct s'); try done; try (by destruct s, s').
  destruct s, s'; try done; unfold key_compare; simpl.
  rewrite Z.compare_opp, (Z.compare_antisym e e'). by destruct (e ?= e').
Qed.

Lemma key_compare_lt_trans a b c :
  key_compare a b <> Gt -> key_compare b c = Lt -> key_compare a c = Lt.
Proof.
  destruct a as [[a1 a2] a3], b as [[b1 b2] b3], c as [[c1 c2] c3]; unfold key_compare; simpl.
  destruct (Z.compare_spec a1 b1), (Z.compare_spec b1 c1), (Z.compare_spec a1 c1);
    subst; try done; try lia;
    destruct (Z.compare_spec a2 b2), (Z.compare_spec b2 c2), (Z.compare_spec a2 c2);
    subst; try done; try lia;
    destruct (Z.compare_spec a3 b3), (Z.compare_spec b3 c3), (Z.compare_spec a3 c3);
    subst; try done; try lia.
Qed.

Lemma key_compare_antisym a b : key_compare b a = CompOpp (key_compare a b).
Proof.
  unfold key_compare. rewrite (Z.compare_antisym a.1.1), (Z.compare_antisym a.1.2), (Z.compare_antisym a.2).
  destruct (a.1.1 ?= b.1.1), (a.1.2 ?= b.1.2), (a.2 ?= b.2); done.
Qed.

Lemma key_compare_refl a : key_compare a a = Eq.
Proof. unfold key_compare. by rewrite !Z.compare_refl. Qed.

Lemma sf_number x : number x <-> is_Some (sf_key x).
Proof.
  unfold number. simpl. unfold SFleb. rewrite SFcompare_key. split.
  - destruct (sf_key x); [eauto|done].
  - intros [a ->]. by rewrite key_compare_refl.
Qed.

#[export] Instance binary64_order : GoFloatOrder float64.
Proof.
  split; simpl; unfold SFltb, SFleb.
  - intros x y [a Ha]%sf_number [b Hb]%sf_number.
    rewrite (SFcompare_key x y), (SFcompare_key y x), Ha, Hb, (key_compare_antisym a b).
    by destruct (key_compare a b).
  - intros x y z. rewrite !SFcompare_key.
    destruct (sf_key x) as [a|], (sf_key y) as [b|], (sf_key z) as [c|]; try done.
    intros H1 H2. destruct (key_compare b c) eqn:E; try done.
    rewrite (key_compare_lt_trans a b c); [done| |done]. by destruct (key_compare a b).
  - intros x y. rewrite !sf_number, SFcompare_key.
    destruct (sf_key x), (sf_key y); naive_solver eauto.
Qed.

(** ** Exact arithmetic *)

Definition q_trunc (x : Q) : option Z := Some (Z.quot (Qnum x) (QDen x)).

#[export] Instance exactQ : GoFloat Q := {
  fadd := Qplus;
  fsub := Qminus;
  fmul := Qmult;
  fdiv := Qdiv;
  fltb x y := negb (Qle_bool y x);
  fleb := Qle_bool;
  fofZ := inject_Z;
  ftrunc := q_trunc
}.

Lemma q_ltb x y : fltb x y = true <-> (x < y)%Q.
Proof.
  simpl. rewrite negb_true_iff, <- not_true_iff_false, Qle_bool_iff. split.
  - apply Qnot_le_lt.
  - apply Qlt_not_le.
Qed.

Lemma q_ltb_false x y : fltb x y = false <-> (y <= x)%Q.
Proof. simpl. by rewrite negb_false_iff, Qle_bool_iff. Qed.

#[export] Instance exactQ_order : GoFloatOrder Q.
Proof.
  split.
  - intros x y _ _. simpl. by rewrite negb_false_iff.
  - intros x y z H1 H2. apply q_ltb. apply q_ltb in H2. apply Qle_bool_iff in H1. lra.
  - intros x y _. split; apply Qle_bool_iff; apply Qle_refl.
Qed.

Lemma Seconds_exact (d : Duration) : (Seconds d == d # 1000000000)%Q.
Proof.
  unfold Seconds. simpl. change Second with 1000000000.
  rewrite (Z.quot_rem' d 1000000000) at 3.
  unfold Qeq, Qdiv, Qinv, Qmult, Qplus. simpl. lia.
Qed.
