(* ===== verification/GoFloatRound.v ===== *)
(** * Rounding

    How far the results of binary64 arithmetic are from the exact ones: each
    operation is within one unit in the last place of the exact result, as long as
    that is not too large. [GoFloatRounds] states it for both implementations of
    [GoFloat]; the exact one has no error. *)

From S2P Require Import Prelude GoInt GoFloat.
From Stdlib Require Import QArith Qpower Qabs Lqa SpecFloat.
#[local] Open Scope Z_scope.

(** ** Powers of two *)

Definition pow2 (e : Z) : Q := Qpower 2 e.

Lemma pow2_pos e : (0 < pow2 e)%Q.
Proof. by apply Qpower_0_lt. Qed.

Lemma pow2_add a b : (pow2 (a + b) == pow2 a * pow2 b)%Q.
Proof. by apply Qpower_plus. Qed.

Lemma pow2_mono a b : a <= b -> (pow2 a <= pow2 b)%Q.
Proof. intros. by apply Qpower_le_compat_l. Qed.

Lemma pow2_Z k : 0 <= k -> (pow2 k == inject_Z (2 ^ k))%Q.
Proof. intros. unfold pow2. by rewrite Zpower_Qpower. Qed.

(** [m * 2^e]. *)
Definition scaled (m e : Z) : Q := (inject_Z m * pow2 e)%Q.

Lemma scaled_mono m m' e : m <= m' -> (scaled m e <= scaled m' e)%Q.
Proof.
  intros H. apply Qmult_le_compat_r; [by rewrite <- Zle_Qle|]. apply Qlt_le_weak, pow2_pos.
Qed.

Lemma scaled_plus m m' e : (scaled (m + m') e == scaled m e + scaled m' e)%Q.
Proof. unfold scaled. rewrite inject_Z_plus. ring. Qed.

Lemma scaled_opp m e : (scaled (- m) e == - scaled m e)%Q.
Proof. unfold scaled. rewrite inject_Z_opp. ring. Qed.

Lemma scaled_shift m e n : 0 <= n -> (scaled (m * 2 ^ n) e == scaled m (e + n))%Q.
Proof.
  intros Hn. unfold scaled. rewrite inject_Z_mult, <- pow2_Z, Z.add_comm, pow2_add by done. ring.
Qed.

Lemma scaled_pow2 k e : 0 <= k -> (scaled (2 ^ k) e == pow2 (k + e))%Q.
Proof. intros. unfold scaled. by rewrite <- pow2_Z, pow2_add. Qed.

Lemma scaled_mult m m' e e' : (scaled (m * m') (e + e') == scaled m e * scaled m' e')%Q.
Proof. unfold scaled. rewrite inject_Z_mult, pow2_add. ring. Qed.

(** ** Digits and shifts *)

Lemma digits_spec p : 2 ^ (Z.pos (digits2_pos p) - 1) <= Z.pos p < 2 ^ Z.pos (digits2_pos p).
Proof.
  induction p as [p IH|p IH|]; cbn [digits2_pos]; [..|done];
    rewrite Pos2Z.inj_succ, Z.sub_1_r, Z.pred_succ, Z.pow_succ_r by lia;
    replace (2 ^ Z.pos (digits2_pos p)) with (2 * 2 ^ (Z.pos (digits2_pos p) - 1)) in *
      by (rewrite <- Z.pow_succ_r by lia; f_equal; lia); lia.
Qed.

Lemma Zdigits_spec m : 0 < m -> 2 ^ (Zdigits2 m - 1) <= m < 2 ^ Zdigits2 m.
Proof. destruct m as [|p|p]; [done|intros _; apply digits_spec|done]. Qed.

Lemma Zdigits_nonneg m : 0 <= Zdigits2 m.
Proof. by destruct m. Qed.

Lemma Zdigits_unique m d : 0 < d -> 2 ^ (d - 1) <= m < 2 ^ d -> Zdigits2 m = d.
Proof.
  intros Hd [H1 H2]. assert (Hm : 0 < m) by (pose proof (Z.pow_pos_nonneg 2 (d - 1)); lia).
  pose proof (Zdigits_spec m Hm) as [H3 H4]. pose proof (Zdigits_nonneg m).
  assert (d - 1 < Zdigits2 m) by (apply (Z.pow_lt_mono_r_iff 2); lia).
  assert (Zdigits2 m - 1 < d) by (apply (Z.pow_lt_mono_r_iff 2); lia). lia.
Qed.

Lemma Zdigits_lt m k : 0 <= m < 2 ^ k -> 0 <= k -> Zdigits2 m <= k.
Proof.
  intros [H1 H2] Hk. destruct (Z.eq_dec m 0) as [->|]; [done|].
  pose proof (Zdigits_spec m ltac:(lia)) as [H3 _].
  assert (Zdigits2 m - 1 < k) by (apply (Z.pow_lt_mono_r_iff 2); lia). lia.
Qed.

Lemma shr_1_m r : 0 <= shr_m r -> shr_m (shr_1 r) = shr_m r / 2.
Proof.
  destruct r as [[|[p|p|]|p] a b]; simpl; intros H; try done.
  - by rewrite (Pos2Z.inj_xI p), Z.mul_comm, Z.div_add_l.
  - by rewrite (Pos2Z.inj_xO p), Z.mul_comm, Z.div_mul.
Qed.

Lemma iter_shr_m n r : 0 <= shr_m r -> shr_m (iter_pos shr_1 n r) = shr_m r / 2 ^ Z.pos n.
Proof.
  assert (Hpos : forall m k, 0 <= m -> 0 <= m / 2 ^ Z.pos k) by (intros; apply Z.div_pos; lia).
  assert (Htwo : forall k, 0 < 2 ^ Z.pos k) by (intros; by apply Z.pow_pos_nonneg).
  revert r. induction n as [n IH|n IH|]; intros r Hr; cbn [iter_pos]; [..|by rewrite shr_1_m].
  - assert (H1 : shr_m (shr_1 r) = shr_m r / 2) by by apply shr_1_m.
    assert (H2 : 0 <= shr_m (shr_1 r)) by (rewrite H1; by apply Z.div_pos).
    assert (H3 := IH _ H2). rewrite IH, H3, H1, !Z.div_div by (rewrite ?H3; auto; specialize (Htwo n); lia).
    f_equal. rewrite (Pos2Z.inj_xI n), Z.pow_add_r, Z.mul_comm by lia. rewrite <- Z.add_diag, Z.pow_add_r by lia. lia.
  - assert (H1 := IH _ Hr). rewrite IH, H1, Z.div_div by (rewrite ?H1; auto; specialize (Htwo n); lia).
    f_equal. rewrite (Pos2Z.inj_xO n), <- Z.add_diag, Z.pow_add_r by lia. lia.
Qed.

Lemma shr_spec r e n :
  0 <= shr_m r -> 0 <= n -> shr_m (shr r e n).1 = shr_m r / 2 ^ n /\ (shr r e n).2 = e + n.
Proof.
  intros Hr Hn. destruct n as [|n|n]; simpl; [by rewrite Z.div_1_r, Z.add_0_r| |lia].
  by rewrite iter_shr_m.
Qed.

Lemma shr_none r e n : n <= 0 -> shr r e n = (r, e).
Proof. by destruct n. Qed.

Lemma shr_m_of_loc m l : shr_m (shr_record_of_loc m l) = m.
Proof. by destruct l as [|[]]. Qed.

Lemma round_nearest_even_m m l : round_nearest_even m l = m \/ round_nearest_even m l = m + 1.
Proof. destruct l as [|[]]; simpl; auto. destruct (Z.even m); auto. Qed.

(** ** Finite values *)

(** The mantissa and exponent of a nonzero finite value: normal, or subnormal. *)
Definition canon (m e : Z) : bool :=
  (0 <? m) && (m <? 2 ^ 53) && (-1074 <=? e) && (e <=? 971) && ((2 ^ 52 <=? m) || (e =? -1074)).

Definition sf_finite (x : float64) : bool :=
  match x with
  | S754_zero _ => true
  | S754_finite _ m e => canon (Z.pos m) e
  | _ => false
  end.

Definition sf_value (x : float64) : Q :=
  match x with
  | S754_finite s m e => scaled (cond_Zopp s (Z.pos m)) e
  | _ => 0%Q
  end.

Lemma canon_spec m e :
  canon m e = true <-> 0 < m < 2 ^ 53 /\ -1074 <= e <= 971 /\ (2 ^ 52 <= m \/ e = -1074).
Proof. unfold canon. rewrite !andb_true_iff, orb_true_iff. lia. Qed.

(** The order of canonical values. *)
Lemma canon_lt m e m' e' : canon m e = true -> canon m' e' = true -> e < e' -> (scaled m e < scaled m' e')%Q.
Proof.
  intros (Hm & He & _)%canon_spec (_ & _ & Hm')%canon_spec Hlt.
  replace e' with (e + (e' - e)) by lia. rewrite <- scaled_shift by lia.
  unfold scaled. apply Qmult_lt_compat_r; [apply pow2_pos|]. rewrite <- Zlt_Qlt.
  assert (H2 : 2 ^ 1 <= 2 ^ (e' - e)) by (apply Z.pow_le_mono_r; lia).
  destruct Hm' as [Hm'|]; [|lia]. apply Z.lt_le_trans with (2 ^ 52 * 2 ^ 1); [lia|].
  apply Z.mul_le_mono_nonneg; lia.
Qed.

Lemma scaled_compare m m' e : ((scaled m e ?= scaled m' e)%Q = (m ?= m')).
Proof.
  destruct (Z.compare_spec m m') as [->|H|H].
  - by apply Qeq_alt.
  - apply Qlt_alt, Qmult_lt_compat_r; [apply pow2_pos|by rewrite <- Zlt_Qlt].
  - apply Qgt_alt, Qmult_lt_compat_r; [apply pow2_pos|by rewrite <- Zlt_Qlt].
Qed.

Lemma canon_compare m e m' e' :
  canon m e = true -> canon m' e' = true ->
  (scaled m e ?= scaled m' e')%Q = match e ?= e' with Eq => m ?= m' | c => c end.
Proof.
  intros H H'. destruct (Z.compare_spec e e') as [->|Hlt|Hgt].
  - apply scaled_compare.
  - by apply Qlt_alt, canon_lt.
  - by apply Qgt_alt, canon_lt.
Qed.

Lemma scaled_pos m e : 0 < m -> (0 < scaled m e)%Q.
Proof. intros. apply Qmult_lt_0_compat; [by rewrite <- (Zlt_Qlt 0)|apply pow2_pos]. Qed.

Lemma scaled_neg m e : 0 < m -> (scaled (- m) e < 0)%Q.
Proof. intros Hm. rewrite scaled_opp. pose proof (scaled_pos m e Hm). lra. Qed.

Lemma Qcompare_opp p q : (- p ?= - q)%Q = CompOpp (p ?= q)%Q.
Proof. unfold Qcompare. simpl. by rewrite !Z.mul_opp_l, <- Z.compare_antisym, Z.compare_opp. Qed.

Lemma SFcompare_value x y :
  sf_finite x = true -> sf_finite y = true -> SFcompare x y = Some (sf_value x ?= sf_value y)%Q.
Proof.
  assert (Hlt : forall p q, (p < q)%Q -> Lt = (p ?= q)%Q) by (intros; symmetry; by apply Qlt_alt).
  assert (Hgt : forall p q, (q < p)%Q -> Gt = (p ?= q)%Q) by (intros; symmetry; by apply Qgt_alt).
  destruct x as [s|s| |s m e], y as [s'|s'| |s' m' e']; cbn [sf_finite SFcompare sf_value]; try done; intros H H'; f_equal.
  - destruct s'; cbn [cond_Zopp]; [apply Hgt, scaled_neg|apply Hlt, scaled_pos]; done.
  - destruct s; cbn [cond_Zopp]; [apply Hlt, scaled_neg|apply Hgt, scaled_pos]; done.
  - pose proof (scaled_pos (Z.pos m) e eq_refl). pose proof (scaled_pos (Z.pos m') e' eq_refl).
    pose proof (scaled_neg (Z.pos m) e eq_refl). pose proof (scaled_neg (Z.pos m') e' eq_refl).
    destruct s, s'; cbn [cond_Zopp Z.opp] in *; [|apply Hlt; lra|apply Hgt; lra|].
    + change (Z.neg m) with (- Z.pos m). change (Z.neg m') with (- Z.pos m').
      rewrite !scaled_opp, Qcompare_opp, canon_compare by done. by destruct (e ?= e').
    + by rewrite canon_compare.
Qed.

(** ** One rounding *)

(** The exponent a value with its leading digit below [2^e] is rounded at. *)
Definition fexp64 (e : Z) : Z := Z.max (e - 53) (-1074).

(** The mantissas and exponents before the check for overflow. *)
Definition rounded (m e : Z) : Prop := 0 <= m < 2 ^ 53 /\ -1074 <= e /\ (2 ^ 52 <= m \/ e = -1074).

Lemma div_pow2_bounds m n k : 0 <= n -> 0 <= k -> 2 ^ (k + n) <= m -> 2 ^ k <= m / 2 ^ n.
Proof.
  intros Hn Hk H. rewrite Z.pow_add_r in H by done. apply Z.div_le_lower_bound; [by apply Z.pow_pos_nonneg|lia].
Qed.

Lemma first_shift m e l :
  0 <= m -> e <= fexp64 (Zdigits2 m + e) ->
  let mrs := shr_fexp 53 1024 m e l in
  mrs.2 = fexp64 (Zdigits2 m + e) /\ shr_m mrs.1 = m / 2 ^ (mrs.2 - e) /\ rounded (shr_m mrs.1) mrs.2.
Proof.
  intros Hm He. unfold shr_fexp. change (fexp 53 1024) with fexp64.
  destruct (shr_spec (shr_record_of_loc m l) e (fexp64 (Zdigits2 m + e) - e)) as [H1 H2]; [by rewrite shr_m_of_loc|lia|].
  rewrite shr_m_of_loc in H1. cbv zeta. rewrite H1, H2.
  replace (e + (fexp64 (Zdigits2 m + e) - e)) with (fexp64 (Zdigits2 m + e)) by lia.
  split_and!; [done..|]. unfold rounded. pose proof (Zdigits_nonneg m).
  set (n := fexp64 (Zdigits2 m + e) - e) in *. unfold fexp64 in *.
  destruct (Z.eq_dec m 0) as [->|Hm0]; [rewrite Z.div_0_l by (apply Z.pow_nonzero; lia); simpl in *; lia|].
  pose proof (Zdigits_spec m ltac:(lia)) as [H3 H4].
  assert (m / 2 ^ n < 2 ^ 53).
  { apply Z.div_lt_upper_bound; [apply Z.pow_pos_nonneg; lia|]. rewrite <- Z.pow_add_r by lia.
    eapply Z.lt_le_trans; [exact H4|]. apply Z.pow_le_mono_r; lia. }
  split_and!; [apply Z.div_pos; [lia|apply Z.pow_pos_nonneg; lia]|done|lia|].
  destruct (Z.le_gt_cases (Zdigits2 m + e - 53) (-1074)); [right; lia|left].
  apply div_pow2_bounds; [lia..|]. replace (52 + n) with (Zdigits2 m - 1) by lia. done.
Qed.

Lemma second_shift m e :
  0 <= m <= 2 ^ 53 -> -1074 <= e -> 2 ^ 52 <= m \/ e = -1074 ->
  let mrs := shr_fexp 53 1024 m e loc_Exact in
  rounded (shr_m mrs.1) mrs.2 /\ (scaled (shr_m mrs.1) mrs.2 == scaled m e)%Q.
Proof.
  intros Hm He Hn. unfold shr_fexp. change (fexp 53 1024) with fexp64. cbv zeta.
  destruct (Z.eq_dec m (2 ^ 53)) as [->|Hm'].
  - replace (fexp64 (Zdigits2 (2 ^ 53) + e) - e) with 1 by (change (Zdigits2 (2 ^ 53)) with 54; unfold fexp64; lia).
    cbn [shr fst snd]. change (shr_m _) with (2 ^ 52). split; [unfold rounded; lia|].
    rewrite <- scaled_shift by lia. reflexivity.
  - rewrite shr_none; [cbn [fst snd shr_m shr_record_of_loc]; split; [unfold rounded; lia|reflexivity]|].
    unfold fexp64. pose proof (Zdigits_lt m 53 ltac:(lia) ltac:(lia)). lia.
Qed.

(** One unit in the last place, relative to the value or to one. *)
Definition ulp64 : Q := pow2 (-52).

Lemma rounded_ulp m e (x : Q) :
  rounded m e -> (scaled m e <= x)%Q -> (pow2 e <= ulp64 * x)%Q \/ (pow2 e <= ulp64)%Q.
Proof.
  intros (_ & _ & [Hm| ->]) Hx; [left|by right].
  replace e with (-52 + (52 + e)) by lia. rewrite pow2_add, <- scaled_pow2 by lia.
  apply Qmult_le_l; [apply pow2_pos|]. eapply Qle_trans; [|exact Hx]. by apply scaled_mono.
Qed.

(** The result of an operation is finite, not negative when the exact one is not, and
    close to it. *)
Definition near (finite : bool) (v ulp q : Q) : Prop :=
  finite = true /\ ((0 <= q)%Q -> (0 <= v)%Q) /\
  forall B, (1 <= B)%Q -> (- B <= q <= B)%Q -> (- (ulp * B) <= v - q <= ulp * B)%Q.

Definition rounds64 (r : float64) (q : Q) : Prop := near (sf_finite r) (sf_value r) ulp64 q.

(** Far below the largest finite value. *)
Definition huge : Q := pow2 1000.

Lemma scaled_div m n e :
  0 <= n -> (scaled (m / 2 ^ n) (e + n) <= scaled m e)%Q /\ (scaled (m + 1) e <= scaled (m / 2 ^ n + 1) (e + n))%Q.
Proof.
  intros Hn. rewrite <- !scaled_shift by done. assert (0 < 2 ^ n) by by apply Z.pow_pos_nonneg.
  pose proof (Z.div_mod m (2 ^ n) ltac:(lia)). pose proof (Z.mod_pos_bound m (2 ^ n) ltac:(lia)).
  split; apply scaled_mono; nia.
Qed.

(** The value before the check for overflow. *)
Lemma round_close m e l (x : Q) :
  0 <= m -> e <= fexp64 (Zdigits2 m + e) -> (scaled m e <= x <= scaled (m + 1) e)%Q ->
  let mrs := shr_fexp 53 1024 m e l in
  let mrs' := shr_fexp 53 1024 (round_nearest_even (shr_m mrs.1) (loc_of_shr_record mrs.1)) mrs.2 loc_Exact in
  rounded (shr_m mrs'.1) mrs'.2 /\
  exists u, ((u <= ulp64 * x) \/ (u <= ulp64))%Q /\ (- u <= scaled (shr_m mrs'.1) mrs'.2 - x <= u)%Q.
Proof.
  intros Hm He [Hx1 Hx2] mrs. destruct (first_shift m e l Hm He) as (H1 & H2 & H3). fold mrs in H1, H2, H3.
  destruct (scaled_div m (mrs.2 - e) e ltac:(lia)) as [H4 H5]. rewrite <- H2 in H4, H5.
  replace (e + (mrs.2 - e)) with mrs.2 in H4, H5 by lia. rewrite (scaled_plus (shr_m mrs.1)) in H5.
  assert (Hu : (scaled 1 mrs.2 == pow2 mrs.2)%Q) by (unfold scaled; ring).
  set (mr := round_nearest_even _ _).
  assert (Hmr : mr = shr_m mrs.1 \/ mr = shr_m mrs.1 + 1) by apply round_nearest_even_m.
  destruct (second_shift mr mrs.2) as [H6 H7]; [unfold rounded in H3; lia..|].
  split; [done|]. exists (pow2 mrs.2). split; [by eapply rounded_ulp; [exact H3|lra]|].
  rewrite H7. pose proof (pow2_pos mrs.2). destruct Hmr as [-> | ->]; rewrite ?scaled_plus; lra.
Qed.

Lemma round_aux_near s m e l (x : Q) :
  0 <= m -> e <= fexp64 (Zdigits2 m + e) -> (scaled m e <= x <= scaled (m + 1) e)%Q -> (0 < x <= huge)%Q ->
  rounds64 (binary_round_aux 53 1024 s m e l) (if s then - x else x).
Proof.
  intros Hm He Hx [Hx0 Hhuge]. destruct (round_close m e l x Hm He Hx) as (Hr & u & Hu & Hc). revert Hr Hc.
  unfold binary_round_aux. destruct (shr_fexp 53 1024 m e l) as [r1 e1]. cbn [fst snd].
  destruct (shr_fexp 53 1024 _ e1 loc_Exact) as [r2 e2]. cbn [fst snd]. intros Hr Hc.
  assert (H0 : (0 <= scaled m e)%Q).
  { apply Qmult_le_0_compat; [by rewrite <- (Zle_Qle 0)|]. apply Qlt_le_weak, pow2_pos. }
  assert (Hulp : (0 < ulp64 < 1 # 2)%Q) by by vm_compute.
  assert (Hclose : forall B, (1 <= B)%Q -> (x <= B)%Q -> (u <= ulp64 * B)%Q).
  { intros B H1 H2. assert (ulp64 * x <= ulp64 * B)%Q by (apply Qmult_le_l; lra).
    assert (ulp64 * 1 <= ulp64 * B)%Q by (apply Qmult_le_l; lra). destruct Hu; lra. }
  revert Hr Hc. destruct (shr_m r2) as [|m2|m2]; intros Hr Hc; [| |unfold rounded in Hr; lia].
  - split; [done|]. split; [done|]. intros B HB Hq. cbn [sf_value]. assert (x <= B)%Q by (destruct s; lra).
    specialize (Hclose B HB ltac:(done)). unfold scaled in Hc. change (inject_Z 0) with 0%Q in Hc. destruct s; lra.
  - destruct (Z.leb_spec e2 (1024 - 53)) as [He2|He2].
    + split; [apply canon_spec; unfold rounded in Hr; lia|]. split.
      { destruct s; [intros; lra|]. intros _. cbn [sf_value cond_Zopp]. apply Qlt_le_weak, scaled_pos. done. }
      intros B HB Hq. cbn [sf_value]. assert (x <= B)%Q by (destruct s; lra).
      specialize (Hclose B HB ltac:(done)). destruct s; cbn [cond_Zopp]; [rewrite (scaled_opp (Z.pos m2))|]; lra.
    + exfalso. assert (Hbig : (scaled (2 ^ 52) 972 <= scaled (Z.pos m2) e2)%Q).
      { rewrite scaled_pow2 by lia. apply Qle_trans with (scaled (2 ^ 52) e2).
        - rewrite scaled_pow2 by lia. apply pow2_mono. lia.
        - apply scaled_mono. unfold rounded in Hr. lia. }
      assert (H1 : (1 <= huge)%Q) by by vm_compute.
      specialize (Hclose huge H1 Hhuge). assert (huge + (1 # 2) * huge < scaled (2 ^ 52) 972)%Q by by vm_compute.
      assert (ulp64 * huge <= (1 # 2) * huge)%Q by (apply Qmult_le_compat_r; lra). lra.
Qed.

(** ** The operations *)

Lemma iter_xO m n : Z.pos (Pos.iter xO m n) = Z.pos m * 2 ^ Z.pos n.
Proof.
  induction n as [|n IH] using Pos.peano_ind; [by rewrite Pos2Z.inj_xO, Z.mul_comm|].
  rewrite Pos.iter_succ, Pos2Z.inj_xO, IH, Pos2Z.inj_succ, Z.pow_succ_r by lia. lia.
Qed.

Lemma shl_align_lower m e e' : e' <= e -> Z.pos (shl_align m e e').1 = Z.pos m * 2 ^ (e - e').
Proof.
  intros H. unfold shl_align. destruct (e' - e) as [|p|p] eqn:E; cbn [fst]; [|lia|].
  - replace (e - e') with 0 by lia. lia.
  - rewrite iter_xO. do 2 f_equal. lia.
Qed.

Lemma shl_align_digits m e e' :
  let me := shl_align m e e' in
  Zdigits2 (Z.pos me.1) + me.2 = Zdigits2 (Z.pos m) + e /\ me.2 = Z.min e e' /\
  (scaled (Z.pos me.1) me.2 == scaled (Z.pos m) e)%Q.
Proof.
  unfold shl_align. destruct (e' - e) as [|p|p] eqn:E; cbn [fst snd]; [split_and!; [done|lia|reflexivity]..|].
  rewrite iter_xO, scaled_shift by lia. replace (e' + Z.pos p) with e by lia.
  split_and!; [|lia|reflexivity]. pose proof (Zdigits_spec (Z.pos m) eq_refl) as [H1 H2].
  assert (0 < Zdigits2 (Z.pos m)) by done.
  rewrite (Zdigits_unique _ (Zdigits2 (Z.pos m) + Z.pos p)); [lia|lia|].
  replace (Zdigits2 (Z.pos m) + Z.pos p - 1) with (Zdigits2 (Z.pos m) - 1 + Z.pos p) by lia.
  rewrite !Z.pow_add_r by lia. assert (0 < 2 ^ Z.pos p) by by apply Z.pow_pos_nonneg. nia.
Qed.

Lemma binary_round_near s m e :
  (scaled (Z.pos m) e <= huge)%Q -> rounds64 (binary_round 53 1024 s m e) (if s then - scaled (Z.pos m) e else scaled (Z.pos m) e).
Proof.
  intros Hh. unfold binary_round. change (fexp 53 1024 (Z.pos (digits2_pos m) + e)) with (fexp64 (Zdigits2 (Z.pos m) + e)).
  set (f := fexp64 _). destruct (shl_align_digits m e f) as (H1 & H2 & H3).
  destruct (shl_align m e f) as [mz ez]. cbn [fst snd] in *.
  apply round_aux_near; [lia|rewrite H1; fold f; lia| |by split; [apply scaled_pos|]].
  rewrite scaled_plus, H3. pose proof (scaled_pos 1 ez eq_refl). lra.
Qed.

Lemma near_eq f v u q q' : (q == q')%Q -> near f v u q -> near f v u q'.
Proof.
  intros Hq (Hf & Hs & Hn). split; [done|]. split; [intros H0; apply Hs; by rewrite Hq|].
  intros B HB HB'. rewrite <- Hq in *. by apply Hn.
Qed.

Lemma exact_near f v u q : f = true -> (0 <= u)%Q -> (v == q)%Q -> near f v u q.
Proof.
  intros Hf Hu Hv. split; [done|]. split; [intros; by rewrite Hv|]. intros B HB _. assert (0 <= u * B)%Q by (apply Qmult_le_0_compat; lra). lra.
Qed.

Lemma ulp64_nonneg : (0 <= ulp64)%Q.
Proof. apply Qlt_le_weak, pow2_pos. Qed.

(** An operation that gives the exact result. *)
Ltac exact_op := apply exact_near; [done|apply ulp64_nonneg|cbn [sf_value]; unfold scaled; try ring].

Lemma binary_normalize_near z e s :
  (- huge <= scaled z e <= huge)%Q -> rounds64 (binary_normalize 53 1024 z e s) (scaled z e).
Proof.
  intros Hh. destruct z as [|m|m]; cbn [binary_normalize].
  - exact_op.
  - apply (binary_round_near false). lra.
  - assert (He : (scaled (Z.neg m) e == - scaled (Z.pos m) e)%Q) by apply (scaled_opp (Z.pos m)).
    eapply near_eq; [symmetry; exact He|]. apply (binary_round_near true). lra.
Qed.

(** Both operands of a sum at the smaller exponent. *)
Lemma aligned s m e ez :
  ez <= e -> (scaled (cond_Zopp s (Z.pos (shl_align m e ez).1)) ez == scaled (cond_Zopp s (Z.pos m)) e)%Q.
Proof.
  intros H. rewrite shl_align_lower by done.
  assert (He : (scaled (Z.pos m * 2 ^ (e - ez)) ez == scaled (Z.pos m) e)%Q)
    by (rewrite scaled_shift by lia; by replace (ez + (e - ez)) with e by lia).
  destruct s; cbn [cond_Zopp]; [|done]. by rewrite (scaled_opp (Z.pos m)), scaled_opp, He.
Qed.

Lemma SFadd_near x y :
  sf_finite x = true -> sf_finite y = true -> (- huge <= sf_value x + sf_value y <= huge)%Q ->
  rounds64 (SFadd 53 1024 x y) (sf_value x + sf_value y).
Proof.
  destruct x as [s|s| |s m e], y as [s'|s'| |s' m' e']; try done; intros Hx Hy Hh; cbn [SFadd].
  1: destruct s, s'; exact_op.
  1, 2: exact_op.
  cbn [sf_value] in *. rewrite <- (aligned s m e (Z.min e e')), <- (aligned s' m' e' (Z.min e e')), <- scaled_plus in Hh by lia.
  eapply near_eq; [|by apply binary_normalize_near]. by rewrite scaled_plus, !aligned by lia.
Qed.

Lemma SFsub_near x y :
  sf_finite x = true -> sf_finite y = true -> (- huge <= sf_value x - sf_value y <= huge)%Q ->
  rounds64 (SFsub 53 1024 x y) (sf_value x - sf_value y).
Proof.
  destruct x as [s|s| |s m e], y as [s'|s'| |s' m' e']; try done; intros Hx Hy Hh; cbn [SFsub].
  1: destruct s, s'; exact_op.
  1: destruct s'; exact_op; cbn [negb cond_Zopp Z.opp];
     (change (Z.neg m') with (- Z.pos m'); rewrite inject_Z_opp; ring).
  1: exact_op.
  assert (Hsub : forall a b z, (scaled (a - b) z == scaled a z - scaled b z)%Q).
  { intros. unfold Z.sub. by rewrite scaled_plus, scaled_opp. }
  cbn [sf_value] in *. rewrite <- (aligned s m e (Z.min e e')), <- (aligned s' m' e' (Z.min e e')), <- Hsub in Hh by lia.
  eapply near_eq; [|by apply binary_normalize_near]. by rewrite Hsub, !aligned by lia.
Qed.

Lemma cond_Zopp_mult s s' m m' e e' :
  (scaled (cond_Zopp s m) e * scaled (cond_Zopp s' m') e' ==
   if xorb s s' then - scaled (m * m') (e + e') else scaled (m * m') (e + e'))%Q.
Proof. destruct s, s'; cbn [cond_Zopp xorb]; rewrite scaled_mult, ?scaled_opp; ring. Qed.

Lemma canon_digits m e : canon (Z.pos m) e = true -> Zdigits2 (Z.pos m) = 53 \/ e = -1074.
Proof. intros (Hm & _ & [H|H])%canon_spec; [left; apply Zdigits_unique; lia|by right]. Qed.

Lemma Zdigits_mono m m' : 0 < m <= m' -> Zdigits2 m <= Zdigits2 m'.
Proof.
  intros H. pose proof (Zdigits_spec m ltac:(lia)) as [H1 _]. pose proof (Zdigits_spec m' ltac:(lia)) as [_ H2].
  pose proof (Zdigits_nonneg m'). assert (Zdigits2 m - 1 < Zdigits2 m'); [|lia].
  apply (Z.pow_lt_mono_r_iff 2); lia.
Qed.

Lemma SFmul_near x y :
  sf_finite x = true -> sf_finite y = true -> (- huge <= sf_value x * sf_value y <= huge)%Q ->
  rounds64 (SFmul 53 1024 x y) (sf_value x * sf_value y).
Proof.
  destruct x as [s|s| |s m e], y as [s'|s'| |s' m' e']; try done; intros Hx Hy Hh; cbn [SFmul]; try exact_op.
  cbn [sf_value sf_finite] in *. rewrite cond_Zopp_mult in Hh.
  eapply near_eq; [symmetry; apply cond_Zopp_mult|].
  apply round_aux_near; [lia| |split; [apply Qle_refl|apply scaled_mono; lia]|split; [by apply scaled_pos|by destruct (xorb s s'); lra]].
  unfold fexp64. pose proof (canon_digits _ _ Hx). pose proof (canon_digits _ _ Hy).
  pose proof (Zdigits_mono (Z.pos m) (Z.pos (m * m')) ltac:(nia)).
  pose proof (Zdigits_mono (Z.pos m') (Z.pos (m * m')) ltac:(nia)). lia.
Qed.

(** The quotient and its exponent. *)
Lemma div_core m1 e1 m2 e2 :
  let '(q, e, l) := SFdiv_core_binary 53 1024 (Z.pos m1) e1 (Z.pos m2) e2 in
  0 <= q /\ e <= fexp64 (Zdigits2 q + e) /\
  (scaled q e <= scaled (Z.pos m1) e1 / scaled (Z.pos m2) e2 <= scaled (q + 1) e)%Q.
Proof.
  unfold SFdiv_core_binary. set (d1 := Zdigits2 (Z.pos m1)). set (d2 := Zdigits2 (Z.pos m2)).
  change (fexp 53 1024) with fexp64. set (e := Z.min _ _). set (s := e1 - e2 - e).
  assert (Hs : 0 <= s) by lia.
  replace (match s with 0 => Z.pos m1 | Z.pos _ => Z.shiftl (Z.pos m1) s | Z.neg _ => 0 end) with (Z.pos m1 * 2 ^ s)
    by (destruct s as [|p|p]; [lia|by rewrite Z.shiftl_mul_pow2 by lia|lia]).
  assert (H2s : 0 < 2 ^ s) by by apply Z.pow_pos_nonneg.
  pose proof (Z_div_mod (Z.pos m1 * 2 ^ s) (Z.pos m2) eq_refl) as Hq.
  destruct (Z.div_eucl (Z.pos m1 * 2 ^ s) (Z.pos m2)) as [q r]. destruct Hq as [Hq Hr].
  assert (Hq0 : 0 <= q) by nia. split_and!; [done| | |].
  - destruct (Z.le_gt_cases e (-1074)) as [|He]; [unfold fexp64; lia|].
    pose proof (Zdigits_spec (Z.pos m1) eq_refl) as [H1 _]. pose proof (Zdigits_spec (Z.pos m2) eq_refl) as [_ H2].
    fold d1 in H1. fold d2 in H2. unfold fexp64 in e.
    assert (Hd : 0 < d1 /\ 0 < d2) by done.
    assert (H53 : 2 ^ (d1 - 1 + s - d2) <= q).
    { apply Z.lt_succ_r, (Z.mul_lt_mono_pos_l (Z.pos m2)); [done|].
      apply Z.le_lt_trans with (Z.pos m1 * 2 ^ s); [|lia].
      apply Z.le_trans with (2 ^ d2 * 2 ^ (d1 - 1 + s - d2)); [apply Z.mul_le_mono_nonneg_r; [apply Z.pow_nonneg; lia|lia]|].
      rewrite <- Z.pow_add_r by lia. replace (d2 + (d1 - 1 + s - d2)) with (d1 - 1 + s) by lia.
      rewrite Z.pow_add_r by lia. nia. }
    assert (H0q : 0 < q) by (pose proof (Z.pow_pos_nonneg 2 (d1 - 1 + s - d2)); lia).
    pose proof (Zdigits_spec q H0q) as [_ H4]. pose proof (Zdigits_nonneg q).
    assert (d1 - 1 + s - d2 < Zdigits2 q) by (apply (Z.pow_lt_mono_r_iff 2); lia). unfold fexp64. lia.
  - apply Qle_shift_div_l; [by apply scaled_pos|]. rewrite <- scaled_mult.
    replace e1 with (e + e2 + s) by lia. rewrite <- (scaled_shift (Z.pos m1) (e + e2) s) by done. apply scaled_mono. lia.
  - apply Qle_shift_div_r; [by apply scaled_pos|]. rewrite <- scaled_mult.
    replace e1 with (e + e2 + s) by lia. rewrite <- (scaled_shift (Z.pos m1) (e + e2) s) by done. apply scaled_mono. lia.
Qed.

Lemma SFdiv_near x y :
  sf_finite x = true -> sf_finite y = true -> ~ (sf_value y == 0)%Q -> (- huge <= sf_value x / sf_value y <= huge)%Q ->
  rounds64 (SFdiv 53 1024 x y) (sf_value x / sf_value y).
Proof.
  destruct x as [s|s| |s m e], y as [s'|s'| |s' m' e']; try done; intros Hx Hy H0 Hh; cbn [SFdiv]; try (by destruct H0).
  1: exact_op; unfold Qdiv; ring.
  cbn [sf_value sf_finite] in *.
  pose proof (div_core m e m' e') as Hd. destruct (SFdiv_core_binary _ _ _ _ _ _) as [[q ez] l].
  destruct Hd as (Hq & He & Hx1).
  assert (Heq : (scaled (cond_Zopp s (Z.pos m)) e / scaled (cond_Zopp s' (Z.pos m')) e' ==
    if xorb s s' then - (scaled (Z.pos m) e / scaled (Z.pos m') e') else scaled (Z.pos m) e / scaled (Z.pos m') e')%Q).
  { pose proof (scaled_pos (Z.pos m') e' eq_refl).
    assert (forall z, ~ z == 0 -> / (- z) == - / z)%Q as Hinv by (intros; field; done).
    assert (~ scaled (Z.pos m') e' == 0)%Q by lra.
    unfold Qdiv. destruct s, s'; cbn [cond_Zopp xorb]; rewrite ?(scaled_opp (Z.pos m)), ?(scaled_opp (Z.pos m')), ?Hinv by done; ring. }
  rewrite Heq in Hh. eapply near_eq; [symmetry; exact Heq|].
  apply round_aux_near; [done..|split; [|destruct (xorb s s'); lra]].
  apply Qlt_shift_div_l; [by apply scaled_pos|]. pose proof (scaled_pos (Z.pos m) e eq_refl). lra.
Qed.

(** Integers below 2^53 are exact. *)
Lemma round_aux_exact s m e :
  e = fexp64 (Zdigits2 (Z.pos m) + e) -> e <= 971 ->
  binary_round_aux 53 1024 s (Z.pos m) e loc_Exact = S754_finite s m e /\ canon (Z.pos m) e = true.
Proof.
  intros He Hle. destruct (first_shift (Z.pos m) e loc_Exact ltac:(lia) ltac:(lia)) as (_ & _ & Hr).
  assert (Hs : shr_fexp 53 1024 (Z.pos m) e loc_Exact = (Build_shr_record (Z.pos m) false false, e)).
  { unfold shr_fexp. apply shr_none. change (fexp 53 1024) with fexp64. lia. }
  rewrite Hs in Hr. unfold binary_round_aux. rewrite Hs. cbn [shr_m loc_of_shr_record round_nearest_even]. rewrite Hs.
  cbn [shr_m fst snd] in *. split; [|apply canon_spec; unfold rounded in Hr; lia].
  by rewrite (proj2 (Z.leb_le e (1024 - 53))) by lia.
Qed.

Lemma binary_round_small s m :
  Z.pos m < 2 ^ 53 ->
  let x := binary_round 53 1024 s m 0 in
  sf_finite x = true /\ (sf_value x == inject_Z (cond_Zopp s (Z.pos m)))%Q.
Proof.
  intros Hm. unfold binary_round. change (fexp 53 1024 (Z.pos (digits2_pos m) + 0)) with (fexp64 (Zdigits2 (Z.pos m) + 0)).
  set (f := fexp64 _). destruct (shl_align_digits m 0 f) as (H1 & H2 & H3). destruct (shl_align m 0 f) as [mz ez]. cbn [fst snd] in *.
  pose proof (Zdigits_lt (Z.pos m) 53 ltac:(lia) ltac:(lia)).
  assert (Hf : ez = f) by (unfold f, fexp64 in *; lia).
  destruct (round_aux_exact s mz ez) as [-> Hc]; [by rewrite H1|unfold f, fexp64 in *; lia|].
  cbn [sf_finite sf_value]. split; [done|].
  assert (He : (scaled (Z.pos mz) ez == inject_Z (Z.pos m))%Q) by (rewrite H3; unfold scaled, pow2; cbn [Qpower]; ring).
  destruct s; cbn [cond_Zopp]; [by rewrite scaled_opp, He, inject_Z_opp|done].
Qed.

Lemma fofZ_exact z :
  - 2 ^ 53 < z < 2 ^ 53 ->
  sf_finite (fofZ z) = true /\ (sf_value (fofZ z) == inject_Z z)%Q.
Proof.
  intros Hz. cbn [fofZ binary64]. destruct z as [|m|m]; cbn [binary_normalize]; [done|..].
  - apply (binary_round_small false). lia.
  - apply (binary_round_small true). lia.
Qed.

(** ** The interface *)

(** The finite values, the numbers they stand for, and the bound on the error of
    one operation. *)
Class GoFloatRounds (F : Type) `{GoFloat F} := {
  finite : F -> bool;
  value : F -> Q;
  ulp : Q;
  ulp_small : (0 <= ulp <= ulp64)%Q;
  fltb_value x y : finite x = true -> finite y = true -> fltb x y = true <-> (value x < value y)%Q;
  fofZ_value z : - 2 ^ 53 < z < 2 ^ 53 -> finite (fofZ z) = true /\ (value (fofZ z) == inject_Z z)%Q;
  fadd_near x y : finite x = true -> finite y = true -> (- huge <= value x + value y <= huge)%Q ->
    near (finite (fadd x y)) (value (fadd x y)) ulp (value x + value y);
  fsub_near x y : finite x = true -> finite y = true -> (- huge <= value x - value y <= huge)%Q ->
    near (finite (fsub x y)) (value (fsub x y)) ulp (value x - value y);
  fmul_near x y : finite x = true -> finite y = true -> (- huge <= value x * value y <= huge)%Q ->
    near (finite (fmul x y)) (value (fmul x y)) ulp (value x * value y);
  fdiv_near x y : finite x = true -> finite y = true -> ~ (value y == 0)%Q -> (- huge <= value x / value y <= huge)%Q ->
    near (finite (fdiv x y)) (value (fdiv x y)) ulp (value x / value y)
}.

Arguments ulp F {_ _}.
Arguments ulp_small F {_ _}.

#[export] Instance binary64_rounds : GoFloatRounds float64.
Proof.
  refine {| finite := sf_finite; value := sf_value; ulp := ulp64 |}.
  - by vm_compute.
  - intros x y Hx Hy. cbn [fltb binary64]. unfold SFltb. rewrite SFcompare_value by done.
    rewrite Qlt_alt. by destruct (sf_value x ?= sf_value y)%Q.
  - exact fofZ_exact.
  - exact SFadd_near.
  - exact SFsub_near.
  - exact SFmul_near.
  - exact SFdiv_near.
Defined.

#[export] Instance exactQ_rounds : GoFloatRounds Q.
Proof.
  refine {| finite _ := true; value x := x; ulp := 0 |}.
  - by vm_compute.
  - intros x y _ _. apply q_ltb.
  - done.
  - intros. by apply exact_near.
  - intros. by apply exact_near.
  - intros. by apply exact_near.
  - intros. by apply exact_near.
Defined.

(** The comparison [<=], the other way round. *)
Lemma fleb_value {F} `{GoFloat F, !GoFloatOrder F, !GoFloatRounds F} (x y : F) :
  number x -> number y -> finite x = true -> finite y = true -> fleb x y = false -> (value y < value x)%Q.
Proof.
  intros Hx Hy Fx Fy Hle. apply (fltb_value y x Fy Fx). destruct (fltb y x) eqn:E; [done|].
  apply (not_ltb y x Hy Hx) in E. congruence.
Qed.

Lemma finite_number (x : float64) : finite x = true -> number x.
Proof. intros Hx. apply sf_number. destruct x; done || by eexists. Qed.
