(* ===== verification/OriginState.v ===== *)
(** * Origin health: reactive cooldown, circuit breaker, active probing

    Models gateway/internal/proxy/origin.go. The mutex of [originState] makes
    every method atomic, so a method is a function on the record; a history of
    calls, in whatever order the goroutines made them, is a list of [op]s.

    The abstract specification is the history itself: [streak], [lastFailure]
    and [probedDown] read the origin's condition off the calls made so far, and
    [run_refines] shows the record always holds exactly that. *)

From S2P Require Import Prelude GoInt.

Definition maxBreakerCooldownShift : Z := 10.

Record originState := mkOriginState {
  lastFailureAt : Time;
  forcedDown : bool;
  consecutiveFailures : Z
}.

Definition newOriginState : originState := mkOriginState zeroTime false 0.

Definition recordFailure (now : Time) (s : originState) : originState :=
  mkOriginState now (forcedDown s) (wrap64 (consecutiveFailures s + 1)).

Definition recordSuccess (s : originState) : originState :=
  mkOriginState zeroTime (forcedDown s) 0.

Definition setForcedDown (down : bool) (s : originState) : originState :=
  mkOriginState (lastFailureAt s) down (consecutiveFailures s).

Definition escalatedCooldown (base : Duration) (shift : Z) : Duration :=
  let shift := if maxBreakerCooldownShift <? shift then maxBreakerCooldownShift else shift in
  shl64 base shift.

Definition available (s : originState) (now : Time) (cooldown : Duration)
    (breakerThreshold : Z) (breakerCooldown : Duration) : bool :=
  if forcedDown s then false
  else if IsZero (lastFailureAt s) then true
  else
    let effective :=
      if (0 <? breakerThreshold) && (breakerThreshold <=? consecutiveFailures s)
      then escalatedCooldown breakerCooldown (wrap64 (consecutiveFailures s - breakerThreshold))
      else cooldown in
    effective <? Sub now (lastFailureAt s).

Definition breakerOpen (s : originState) (now : Time)
    (breakerThreshold : Z) (breakerCooldown : Duration) : bool :=
  if (breakerThreshold <=? 0) || (consecutiveFailures s <? breakerThreshold) then false
  else
    let effective :=
      escalatedCooldown breakerCooldown (wrap64 (consecutiveFailures s - breakerThreshold)) in
    Sub now (lastFailureAt s) <=? effective.

(** ** Histories *)

Inductive op :=
| RecordFailure (now : Time)
| RecordSuccess
| SetForcedDown (down : bool).

Definition apply_op (o : op) (s : originState) : originState :=
  match o with
  | RecordFailure now => recordFailure now s
  | RecordSuccess => recordSuccess s
  | SetForcedDown down => setForcedDown down s
  end.

(** Histories are listed newest call first. *)
Fixpoint run (h : list op) : originState :=
  match h with
  | [] => newOriginState
  | o :: h => apply_op o (run h)
  end.

(** Failures since the last success. *)
Fixpoint streak (h : list op) : Z :=
  match h with
  | [] | RecordSuccess :: _ => 0
  | RecordFailure _ :: h => 1 + streak h
  | SetForcedDown _ :: h => streak h
  end.

Fixpoint lastFailure (h : list op) : option Time :=
  match h with
  | [] | RecordSuccess :: _ => None
  | RecordFailure t :: _ => Some t
  | SetForcedDown _ :: h => lastFailure h
  end.

Fixpoint probedDown (h : list op) : bool :=
  match h with
  | [] => false
  | SetForcedDown down :: _ => down
  | _ :: h => probedDown h
  end.

(** A clock reading recorded in a failure is after the zero time, and there
    were fewer calls than an [int] can count. *)
Definition op_ok (o : op) : Prop :=
  match o with
  | RecordFailure now => zeroTime < now
  | _ => True
  end.

Definition history_ok (h : list op) : Prop :=
  Forall op_ok h /\ Z.of_nat (length h) <= maxInt64.

(** ** Lemmas on histories *)

Lemma streak_bounds h : 0 <= streak h <= Z.of_nat (length h).
Proof. induction h as [|[] h IH]; simpl in *; lia. Qed.

Lemma lastFailure_streak h : lastFailure h = None <-> streak h = 0.
Proof.
  induction h as [|[] h IH]; simpl; try done.
  split; [done|]. pose proof (streak_bounds h). lia.
Qed.

Lemma history_ok_cons o h : history_ok (o :: h) -> op_ok o /\ history_ok h.
Proof. intros [H1 H2]. inversion H1. simpl in H2. split; [done|]. split; [done|lia]. Qed.

Lemma lastFailure_ok h t : history_ok h -> lastFailure h = Some t -> zeroTime < t.
Proof.
  induction h as [|o h IH]; simpl; [done|].
  intros [Ho Hh]%history_ok_cons. destruct o; simpl in *; naive_solver.
Qed.

Lemma run_refines h :
  history_ok h ->
  run h = mkOriginState (default zeroTime (lastFailure h)) (probedDown h) (streak h).
Proof.
  induction h as [|o h IH]; [done|].
  intros Hall. destruct (history_ok_cons _ _ Hall) as [_ Hh].
  simpl. rewrite (IH Hh). destruct Hall as [_ Hlen].
  pose proof (streak_bounds (o :: h)) as Hb.
  destruct o; simpl in *; unfold recordFailure, recordSuccess, setForcedDown; simpl; [|done..].
  f_equal. rewrite wrap64_id; int_lia.
Qed.

(** The zero-time sentinel of the code stands exactly for "no failure since the
    last success". *)
Lemma run_IsZero h :
  history_ok h -> IsZero (lastFailureAt (run h)) = (streak h =? 0).
Proof.
  intros Hh. rewrite run_refines by done. simpl.
  destruct (lastFailure h) as [t|] eqn:E; simpl.
  - assert (streak h <> 0) by (intros H0%lastFailure_streak; congruence).
    pose proof (lastFailure_ok h t Hh E). unfold IsZero, zeroTime in *. lia.
  - apply lastFailure_streak in E. by rewrite E.
Qed.

(** ** The escalating cooldown *)

Lemma escalatedCooldown_exact base shift :
  0 <= base -> base * 2 ^ maxBreakerCooldownShift <= maxInt64 -> 0 <= shift ->
  escalatedCooldown base shift = base * 2 ^ Z.min shift maxBreakerCooldownShift.
Proof.
  intros Hb Hmax Hs. unfold escalatedCooldown.
  assert (Hpow : forall s, 0 <= s <= 10 -> base * 2 ^ s <= base * 2 ^ 10).
  { intros s Hs'. apply Z.mul_le_mono_nonneg_l; [done|]. apply Z.pow_le_mono_r; lia. }
  unfold maxBreakerCooldownShift in *.
  case_match eqn:E; [rewrite Z.min_r by lia|rewrite Z.min_l by lia].
  - apply shl64_exact; [lia|]. split; [|done]. int_lia.
  - apply shl64_exact; [lia|]. specialize (Hpow shift ltac:(lia)).
    pose proof (Z.pow_nonneg 2 shift ltac:(lia)). split; [int_lia|lia].
Qed.

Lemma escalated_pos base shift :
  0 <= base -> base * 2 ^ maxBreakerCooldownShift <= maxInt64 -> 0 <= shift ->
  base <= escalatedCooldown base shift <= maxInt64.
Proof.
  intros Hb Hmax Hs. rewrite escalatedCooldown_exact by done.
  unfold maxBreakerCooldownShift in *.
  assert (1 <= 2 ^ Z.min shift 10 <= 2 ^ 10) as [? ?].
  { split; [change 1 with (2 ^ 0)|]; apply Z.pow_le_mono_r; lia. }
  split; [nia|]. transitivity (base * 2 ^ 10); [|done]. by apply Z.mul_le_mono_nonneg_l.
Qed.

(** Both callers reach the shift with [0 < threshold <= failures], so its count
    is a non-negative [int] and never panics. *)
Lemma shift_nonneg h thr :
  history_ok h -> 0 < thr -> thr <= streak h ->
  wrap64 (streak h - thr) = streak h - thr /\ 0 <= streak h - thr.
Proof.
  intros [_ Hlen] Hthr Hs. pose proof (streak_bounds h). split; [|lia].
  apply wrap64_id. int_lia.
Qed.

(** The cooldown in force, read off the history. *)
Definition effectiveCooldown (h : list op) (cooldown : Duration) (thr : Z) (bcd : Duration) : Duration :=
  if (0 <? thr) && (thr <=? streak h)
  then bcd * 2 ^ Z.min (streak h - thr) maxBreakerCooldownShift
  else cooldown.

Definition tripped (h : list op) (thr : Z) : bool := (0 <? thr) && (thr <=? streak h).

Lemma available_run h now cooldown thr bcd :
  history_ok h ->
  0 <= bcd -> bcd * 2 ^ maxBreakerCooldownShift <= maxInt64 ->
  available (run h) now cooldown thr bcd =
  negb (probedDown h) &&
  match lastFailure h with
  | None => true
  | Some t => effectiveCooldown h cooldown thr bcd <? Sub now t
  end.
Proof.
  intros Hh Hb Hmax. unfold available. rewrite run_IsZero by done.
  rewrite run_refines by done. simpl.
  destruct (probedDown h); [done|]; simpl.
  destruct (lastFailure h) as [t|] eqn:E; simpl.
  - assert (streak h <> 0) by (intros H0%lastFailure_streak; congruence).
    destruct (Z.eqb_spec (streak h) 0); [done|].
    unfold effectiveCooldown. destruct ((0 <? thr) && (thr <=? streak h)) eqn:Et; [|done].
    apply andb_true_iff in Et as [Ht1 Ht2].
    destruct (shift_nonneg h thr Hh ltac:(lia) ltac:(lia)) as [-> ?].
    by rewrite escalatedCooldown_exact.
  - apply lastFailure_streak in E. by rewrite E.
Qed.

Lemma breakerOpen_run h now thr bcd :
  history_ok h ->
  0 <= bcd -> bcd * 2 ^ maxBreakerCooldownShift <= maxInt64 ->
  breakerOpen (run h) now thr bcd =
  tripped h thr &&
  match lastFailure h with
  | None => false
  | Some t => Sub now t <=? bcd * 2 ^ Z.min (streak h - thr) maxBreakerCooldownShift
  end.
Proof.
  intros Hh Hb Hmax. unfold breakerOpen, tripped. rewrite run_refines by done. simpl.
  destruct (Z.ltb_spec 0 thr), (Z.leb_spec thr 0); try lia; simpl; try done.
  destruct (Z.leb_spec thr (streak h)), (Z.ltb_spec (streak h) thr); try lia; simpl; try done.
  destruct (shift_nonneg h thr Hh ltac:(lia) ltac:(lia)) as [-> ?].
  rewrite escalatedCooldown_exact by (done || lia).
  destruct (lastFailure h) as [t|] eqn:E; [done|].
  apply lastFailure_streak in E. lia.
Qed.

(** A single fact behind the last-resort fallback: whatever the parameters (an
    overflowing cooldown included), an origin whose breaker is open is never
    reported available. *)
Lemma open_not_available s now cooldown thr bcd :
  IsZero (lastFailureAt s) = (consecutiveFailures s =? 0) ->
  breakerOpen s now thr bcd = true -> available s now cooldown thr bcd = false.
Proof.
  intros Hz. unfold breakerOpen, available.
  destruct (Z.leb_spec thr 0), (Z.ltb_spec (consecutiveFailures s) thr); simpl; try done.
  intros Hopen. destruct (forcedDown s); [done|]. rewrite Hz.
  destruct (Z.eqb_spec (consecutiveFailures s) 0); [lia|].
  destruct (Z.ltb_spec 0 thr), (Z.leb_spec thr (consecutiveFailures s)); try lia; simpl. lia.
Qed.

Lemma run_zero_iff h :
  history_ok h ->
  IsZero (lastFailureAt (run h)) = (consecutiveFailures (run h) =? 0).
Proof. intros Hh. rewrite run_IsZero by done. by rewrite run_refines. Qed.

#[export] Hint Resolve run_zero_iff : dealer.

(** The cooldown in force never exceeds the larger of the two bounds. *)
Lemma effectiveCooldown_bounds h cooldown thr bcd :
  0 <= bcd ->
  Z.min 0 cooldown <= effectiveCooldown h cooldown thr bcd
  <= Z.max cooldown (bcd * 2 ^ maxBreakerCooldownShift).
Proof.
  intros Hb. unfold effectiveCooldown, maxBreakerCooldownShift.
  destruct ((0 <? thr) && (thr <=? streak h)); [|lia].
  assert (2 ^ Z.min (streak h - thr) 10 <= 2 ^ 10) by (apply Z.pow_le_mono_r; lia).
  pose proof (Z.pow_nonneg 2 (Z.min (streak h - thr) 10) ltac:(lia)).
  split; [|transitivity (bcd * 2 ^ 10)]; nia.
Qed.

(** Past the bound, the capped shift overflows into the sign bit. *)
Lemma escalated_negative base shift :
  2 ^ 53 <= base < 2 ^ 54 -> maxBreakerCooldownShift <= shift -> escalatedCooldown base shift < 0.
Proof.
  intros Hb Hs. unfold escalatedCooldown, maxBreakerCooldownShift in *.
  replace (if 10 <? shift then 10 else shift) with 10 by (case_match; lia).
  unfold shl64, wrap64. rewrite Z.shiftl_mul_pow2 by lia.
  replace (base * 2 ^ 10 + two63) with (base * 2 ^ 10 - two63 + 1 * two64) by int_lia.
  rewrite Z_mod_plus_full, Z.mod_small; int_lia.
Qed.

(** ** Properties *)

(** C1. The record is exactly the digest of the calls made so far: the time of
    the last failure not followed by a success, the last probe's verdict and
    the number of failures since the last success. *)
Theorem origin_refines_history (h : list op) (Hh : history_ok h) :
  run h = mkOriginState (default zeroTime (lastFailure h)) (probedDown h) (streak h)
  /\ (IsZero (lastFailureAt (run h)) = true <-> streak h = 0).
Proof.
  split; [by apply run_refines|]. rewrite run_IsZero by done. lia.
Qed.

(** C2. [available] in terms of the history: the origin is attempted unless the
    last probe marked it down or it is still within the cooldown in force, which
    is the plain one below the threshold and the escalated one, doubling with
    each further failure up to 2^10 times the base, from the threshold on. The base
    is to be short enough that 2^10 times it is a [time.Duration]. *)
Theorem available_iff (h : list op) (now : Time) (cooldown : Duration) (thr : Z) (bcd : Duration)
    (Hh : history_ok h) (Hcd : 0 <= cooldown < maxInt64)
    (Hb : 0 <= bcd) (Hmax : bcd * 2 ^ maxBreakerCooldownShift < maxInt64) :
  available (run h) now cooldown thr bcd = true <->
  probedDown h = false /\
  (streak h = 0 \/
   exists t, lastFailure h = Some t /\ effectiveCooldown h cooldown thr bcd < now - t).
Proof.
  rewrite available_run by (done || lia).
  rewrite andb_true_iff, negb_true_iff, <- lastFailure_streak.
  destruct (lastFailure h) as [t|]; [|naive_solver].
  assert (minInt64 <= effectiveCooldown h cooldown thr bcd < maxInt64).
  { pose proof (effectiveCooldown_bounds h cooldown thr bcd). int_lia. }
  rewrite Z.ltb_lt, Sub_gt by done. naive_solver.
Qed.

(** Whatever the configuration and the calls made, an origin whose circuit
    breaker is open is not available: the fast-fail test of the load balancer
    and its selection test never disagree. *)
Theorem open_breaker_unavailable (h : list op) (now : Time) (cooldown : Duration) (thr : Z)
    (bcd : Duration) (Hh : history_ok h) (Hopen : breakerOpen (run h) now thr bcd = true) :
  available (run h) now cooldown thr bcd = false.
Proof. eapply open_not_available; eauto with dealer. Qed.

(** For every base cooldown up to 2^63/2^10 nanoseconds the escalation does
    not overflow: it starts at the base, doubles with each failed trial, and
    stays at 2^10 times the base from the tenth on. *)
Theorem escalation_schedule (base shift : Z)
    (Hb : 0 <= base) (Hmax : base * 2 ^ maxBreakerCooldownShift <= maxInt64) (Hs : 0 <= shift) :
  escalatedCooldown base 0 = base /\
  escalatedCooldown base (shift + 1) =
    (if shift <? maxBreakerCooldownShift then 2 * escalatedCooldown base shift
     else escalatedCooldown base shift) /\
  base <= escalatedCooldown base shift <= base * 2 ^ maxBreakerCooldownShift.
Proof.
  pose proof (escalated_pos base shift Hb Hmax Hs) as [Hlo _]. revert Hlo.
  rewrite !escalatedCooldown_exact by (done || lia).
  unfold maxBreakerCooldownShift in *. intros Hlo. split; [apply Z.mul_1_r|]. split.
  - destruct (Z.ltb_spec shift 10).
    + rewrite !Z.min_l, Z.pow_add_r by lia. change (2 ^ 1) with 2. lia.
    + by rewrite !Z.min_r by lia.
  - split; [done|]. apply Z.mul_le_mono_nonneg_l; [done|]. apply Z.pow_le_mono_r; lia.
Qed.

(** A base cooldown of 2^53 ns (about 104 days) or more, below 2^54, does
    overflow despite the cap: from the tenth failed trial on the escalated
    cooldown is negative, so the breaker never reports open again and the origin
    is attempted at once. *)
Theorem escalation_overflow (h : list op) (now t : Time) (cooldown : Duration) (thr : Z)
    (base : Duration)
    (Hh : history_ok h) (Hbase : 2 ^ 53 <= base < 2 ^ 54)
    (Hthr : 0 < thr) (Hs : thr + maxBreakerCooldownShift <= streak h)
    (Hp : probedDown h = false) (Ht : lastFailure h = Some t) (Hnow : t <= now) :
  escalatedCooldown base (streak h - thr) < 0 /\
  breakerOpen (run h) now thr base = false /\
  available (run h) now cooldown thr base = true.
Proof.
  unfold maxBreakerCooldownShift in *.
  assert (Hneg : escalatedCooldown base (streak h - thr) < 0).
  { by apply escalated_negative; unfold maxBreakerCooldownShift; lia. }
  destruct (shift_nonneg h thr Hh ltac:(lia) ltac:(lia)) as [Hw _].
  assert (0 <= Sub now t) by (unfold Sub; cases; int_lia).
  split; [done|].
  unfold breakerOpen, available. rewrite run_IsZero, run_refines by done. simpl.
  rewrite Hp, Ht, Hw. simpl.
  replace (streak h =? 0) with false by lia.
  replace (0 <? thr) with true by lia. replace (thr <=? streak h) with true by lia.
  replace ((thr <=? 0) || (streak h <? thr)) with false by lia. simpl. lia.
Qed.

(** C8. Recovery. One success makes the origin available at once, whatever came
    before, unless the prober holds it down; and without any success it becomes
    available again once the largest cooldown, which a [time.Duration] is to hold, has
    passed since the last failure. *)
Theorem origin_recovers (h : list op) (cooldown : Duration) (thr : Z) (bcd : Duration)
    (Hh : history_ok (RecordSuccess :: h)) (Hcd : 0 <= cooldown < maxInt64)
    (Hb : 0 <= bcd) (Hmax : bcd * 2 ^ maxBreakerCooldownShift < maxInt64) :
  (forall now, available (run (RecordSuccess :: h)) now cooldown thr bcd = negb (probedDown h)) /\
  (forall now t, probedDown h = false -> lastFailure h = Some t ->
     Z.max cooldown (bcd * 2 ^ maxBreakerCooldownShift) < now - t ->
     available (run h) now cooldown thr bcd = true).
Proof.
  split.
  - intros now. rewrite available_run by (done || lia). simpl. by rewrite andb_true_r.
  - intros now t Hp Ht Hlate. apply history_ok_cons in Hh as [_ Hh].
    rewrite available_run, Hp, Ht by (done || lia). simpl.
    pose proof (effectiveCooldown_bounds h cooldown thr bcd Hb).
    apply Z.ltb_lt, Sub_gt; int_lia.
Qed.

(** A tripped breaker whose trial request fails at [now] is open for twice
    the cooldown it just waited out (once, when at the cap), to the nanosecond,
    and lets the next trial through right after. *)
Theorem failed_trial_reopens (h : list op) (now now' : Time) (cooldown : Duration) (thr : Z)
    (bcd : Duration)
    (Hh : history_ok (RecordFailure now :: h)) (Hp : probedDown h = false)
    (Hb : 0 <= bcd) (Hmax : bcd * 2 ^ maxBreakerCooldownShift < maxInt64)
    (Htrip : tripped h thr = true) (Hnow : now <= now') :
  let window :=
    bcd * 2 ^ Z.min (streak h + 1 - thr) maxBreakerCooldownShift in
  breakerOpen (run (RecordFailure now :: h)) now' thr bcd = (now' - now <=? window) /\
  available (run (RecordFailure now :: h)) now' cooldown thr bcd = (window <? now' - now).
Proof.
  intros window. apply andb_true_iff in Htrip as [Ht1 Ht2].
  assert (Hwin : 0 <= window < maxInt64).
  { pose proof (effectiveCooldown_bounds (RecordFailure now :: h) 0 thr bcd Hb) as He.
    unfold effectiveCooldown in He. simpl streak in He.
    replace (1 + streak h) with (streak h + 1) in He by lia.
    replace ((0 <? thr) && (thr <=? streak h + 1)) with true in He by lia.
    subst window. lia. }
  rewrite breakerOpen_run, available_run by (done || lia).
  unfold tripped, effectiveCooldown. simpl.
  replace ((0 <? thr) && (thr <=? 1 + streak h)) with true by lia.
  replace (1 + streak h) with (streak h + 1) by lia. rewrite Hp. simpl. fold window.
  assert (Hlt : window < Sub now' now <-> window < now' - now) by (apply Sub_gt; int_lia).
  split; destruct (Z.ltb_spec window (now' - now)), (Z.leb_spec (now' - now) window),
    (Z.leb_spec (Sub now' now) window), (Z.ltb_spec window (Sub now' now)); lia || done.
Qed.
