(* ===== verification/Balancer.v ===== *)
(** * Round-robin load balancing over origins

    Models the control part of gateway/internal/proxy/loadbalancer.go: which
    origin a request is sent to, and when it fails fast. What serving a request
    through the chosen origin does is in [Proxy.v].

    [choose] is one request run alone; requests that interleave are in
    [BalancerConc.v]. *)

From S2P Require Import Prelude GoInt OriginState.

Record BreakerOptions := mkBreakerOptions {
  Threshold : Z;
  Cooldown : Duration
}.

Record roundRobinOrigin := mkRoundRobinOrigin {
  o_url : string;
  o_state : originState
}.

Record roundRobinProxy := mkRoundRobinProxy {
  lb_name : string;
  lb_origins : list roundRobinOrigin;
  lb_cooldown : Duration;
  lb_breaker : BreakerOptions;
  lb_next : Z
}.

Inductive decision :=
| Dial (k : nat)
| FailFast (k : nat).

Definition origin_available (lb : roundRobinProxy) (now : Time) (o : roundRobinOrigin) : bool :=
  available (o_state o) now (lb_cooldown lb) (Threshold (lb_breaker lb)) (Cooldown (lb_breaker lb)).

Definition origin_open (lb : roundRobinProxy) (now : Time) (o : roundRobinOrigin) : bool :=
  breakerOpen (o_state o) now (Threshold (lb_breaker lb)) (Cooldown (lb_breaker lb)).

(** The index expression [(start+i)%n], on [uint64]. *)
Definition slot (n : nat) (start i : Z) : nat :=
  Z.to_nat (wrapu64 (start + i) mod Z.of_nat n).

(** The selection loop, from iteration [i]; it runs [length origins] times. *)
Fixpoint scan (lb : roundRobinProxy) (now : Time) (start i : Z) (iters : nat) : option nat :=
  match iters with
  | O => None
  | S iters =>
      let k := slot (length (lb_origins lb)) start i in
      match lb_origins lb !! k with
      | Some o => if origin_available lb now o then Some k else scan lb now start (i + 1) iters
      | None => None
      end
  end.

Definition bump (lb : roundRobinProxy) : roundRobinProxy :=
  mkRoundRobinProxy (lb_name lb) (lb_origins lb) (lb_cooldown lb) (lb_breaker lb)
    (wrapu64 (lb_next lb + 1)).

Arguments bump : simpl never.

(** The choice [roundRobinProxy.ServeHTTP] makes for one request. *)
Definition choose (lb : roundRobinProxy) (now : Time) : roundRobinProxy * decision :=
  let lb := bump lb in
  let start := lb_next lb in
  let n := length (lb_origins lb) in
  match scan lb now start 0 n with
  | Some k => (lb, Dial k)
  | None =>
      let k := slot n start 0 in
      match lb_origins lb !! k with
      | Some fallback => (lb, if origin_open lb now fallback then FailFast k else Dial k)
      | None => (lb, FailFast k)
      end
  end.

(** ** The rotation *)

Lemma slot_lt n start i : (0 < n)%nat -> (slot n start i < n)%nat.
Proof.
  intros Hn. unfold slot.
  pose proof (Z.mod_pos_bound (wrapu64 (start + i)) (Z.of_nat n) ltac:(lia)). lia.
Qed.

(** The slots visited from [start] on, in order. *)
Definition rotation (n : nat) (start : Z) : list nat :=
  (fun i => slot n start (Z.of_nat i)) <$> seq 0 n.

Lemma slot_step n start i :
  (0 < n)%nat -> 0 <= start -> 0 <= i -> start + i < two64 ->
  slot n start i = Z.to_nat ((start + i) mod Z.of_nat n).
Proof. intros Hn Hs Hi Hlt. unfold slot. rewrite wrapu64_id; [done|int_lia]. Qed.

(** While the counter does not wrap within the loop, distinct iterations visit
    distinct origins. *)
Lemma slot_inj n start i j :
  (0 < n)%nat -> 0 <= start -> start + Z.of_nat n <= two64 ->
  (i < n)%nat -> (j < n)%nat ->
  slot n start (Z.of_nat i) = slot n start (Z.of_nat j) -> i = j.
Proof.
  intros Hn Hs Hlt Hi Hj. rewrite !slot_step by lia. intros H.
  assert (Hmod : (start + Z.of_nat i) mod Z.of_nat n = (start + Z.of_nat j) mod Z.of_nat n).
  { pose proof (Z.mod_pos_bound (start + Z.of_nat i) (Z.of_nat n) ltac:(lia)).
    pose proof (Z.mod_pos_bound (start + Z.of_nat j) (Z.of_nat n) ltac:(lia)). lia. }
  pose proof (Z.div_mod (start + Z.of_nat i) (Z.of_nat n) ltac:(lia)) as Di.
  pose proof (Z.div_mod (start + Z.of_nat j) (Z.of_nat n) ltac:(lia)) as Dj.
  rewrite Hmod in Di.
  set (q := (start + Z.of_nat i) / Z.of_nat n) in *.
  set (r := (start + Z.of_nat j) / Z.of_nat n) in *.
  assert (Z.of_nat n * (q - r) = Z.of_nat i - Z.of_nat j) by lia.
  assert (q - r = 0) by nia. lia.
Qed.

Lemma rotation_perm n start :
  (0 < n)%nat -> 0 <= start -> start + Z.of_nat n <= two64 ->
  rotation n start ≡ₚ seq 0 n.
Proof.
  intros Hn Hs Hlt.
  assert (Hnd : NoDup (rotation n start)).
  { unfold rotation. apply NoDup_fmap_2_strong; [|apply NoDup_seq].
    intros i j [_ Hi]%elem_of_seq [_ Hj]%elem_of_seq. by apply slot_inj. }
  apply submseteq_length_Permutation.
  - apply NoDup_submseteq; [done|]. intros k Hk.
    apply list_elem_of_fmap in Hk as (i & -> & _). apply elem_of_seq.
    pose proof (slot_lt n start (Z.of_nat i) Hn). lia.
  - unfold rotation. by rewrite length_fmap.
Qed.

(** ** The selection loop *)

Section scan.
Context (lb : roundRobinProxy) (now : Time) (start : Z).
Let n := length (lb_origins lb).

(** Whether the origin at slot [k] is available. *)
Definition available_at (k : nat) : bool :=
  match lb_origins lb !! k with
  | Some o => origin_available lb now o
  | None => false
  end.

Lemma scan_find i iters :
  (0 < n)%nat ->
  scan lb now start (Z.of_nat i) iters =
  find_first available_at ((fun j => slot n start (Z.of_nat j)) <$> seq i iters).
Proof.
  intros Hn. revert i. induction iters as [|iters IH]; intros i; [done|].
  cbn [scan seq fmap list_fmap]. fold n. unfold find_first in *. simpl.
  unfold available_at at 1.
  destruct (lb_origins lb !! slot n start (Z.of_nat i)) as [o|] eqn:E.
  - replace (Z.of_nat i + 1) with (Z.of_nat (S i)) by lia. by rewrite IH.
  - apply lookup_ge_None in E. pose proof (slot_lt n start (Z.of_nat i) Hn). subst n. lia.
Qed.

Lemma scan_rotation :
  (0 < n)%nat -> scan lb now start 0 n = find_first available_at (rotation n start).
Proof. intros Hn. by apply (scan_find 0). Qed.

End scan.

(** ** Requests one at a time *)

(** Every origin's record is the digest of some history of calls. *)
Definition origins_reachable (lb : roundRobinProxy) : Prop :=
  Forall (fun o => exists h, history_ok h /\ o_state o = run h) (lb_origins lb).

Lemma origins_reachable_open lb now k o :
  origins_reachable lb -> lb_origins lb !! k = Some o ->
  origin_available lb now o = true -> origin_open lb now o = false.
Proof.
  intros Hr Ho. unfold origin_available, origin_open.
  destruct (Forall_lookup_1 _ _ _ _ Hr Ho) as (h & Hh & ->).
  destruct (breakerOpen (run h) now _ _) eqn:E; [|done].
  intros Ha. rewrite (open_not_available _ _ (lb_cooldown lb) _ _ (run_zero_iff h Hh) E) in Ha. done.
Qed.

Lemma start_lt lb : 0 <= lb_next lb -> lb_next lb + 1 < two64 -> lb_next (bump lb) = lb_next lb + 1.
Proof. intros. unfold bump. simpl. apply wrapu64_id. int_lia. Qed.

Lemma choose_fst lb now : fst (choose lb now) = bump lb.
Proof. unfold choose. cases. Qed.

(** [choose] in terms of the rotation. *)
Lemma choose_rotation lb now :
  (0 < length (lb_origins lb))%nat ->
  choose lb now =
  (bump lb,
   match find_first (available_at lb now) (rotation (length (lb_origins lb)) (lb_next (bump lb))) with
   | Some k => Dial k
   | None =>
       let k := slot (length (lb_origins lb)) (lb_next (bump lb)) 0 in
       match lb_origins lb !! k with
       | Some o => if origin_open lb now o then FailFast k else Dial k
       | None => FailFast k
       end
   end).
Proof.
  intros Hn. unfold choose.
  rewrite (scan_rotation (bump lb) now (lb_next (bump lb))) by done.
  change (lb_origins (bump lb)) with (lb_origins lb).
  change (available_at (bump lb) now) with (available_at lb now).
  destruct (find_first _ _); [done|]. simpl. by case_match.
Qed.

Lemma choose_lt lb now k :
  (0 < length (lb_origins lb))%nat -> snd (choose lb now) = Dial k -> (k < length (lb_origins lb))%nat.
Proof.
  intros Hn. rewrite choose_rotation by done. simpl. destruct (find_first _ _) as [k'|] eqn:E.
  - intros [= ->]. apply find_first_Some in E as [Hin _]. unfold rotation in Hin.
    apply list_elem_of_fmap in Hin as (i & -> & _). by apply slot_lt.
  - cases. intros [= <-]. by apply slot_lt.
Qed.

(** The decisions for a run of requests arriving at the given times, the
    origins' health unchanged meanwhile. *)
Fixpoint choose_all (lb : roundRobinProxy) (nows : list Time) : list decision :=
  match nows with
  | [] => []
  | now :: nows => let '(lb, d) := choose lb now in d :: choose_all lb nows
  end.

Lemma choose_all_rotation lb nows :
  (0 < length (lb_origins lb))%nat -> 0 <= lb_next lb ->
  lb_next lb + 1 + Z.of_nat (length nows) <= two64 ->
  Forall (fun now => forall k, (k < length (lb_origins lb))%nat -> available_at lb now k = true) nows ->
  choose_all lb nows =
  (fun j => Dial (slot (length (lb_origins lb)) (lb_next lb + 1) (Z.of_nat j))) <$> seq 0 (length nows).
Proof.
  intros Hn. revert lb Hn. induction nows as [|now nows IH]; intros lb Hn Hs Hlt Hall; [done|].
  inversion Hall as [|? ? Ha Hall']; subst. cbn [choose_all length seq fmap list_fmap].
  rewrite choose_rotation by done. simpl length in Hlt.
  assert (Hb : lb_next (bump lb) = lb_next lb + 1) by (apply start_lt; int_lia).
  rewrite Hb. destruct (length (lb_origins lb)) as [|n] eqn:En; [lia|].
  unfold rotation, find_first. simpl.
  rewrite Ha by (apply slot_lt; lia). f_equal.
  rewrite IH; rewrite ?Hb; change (lb_origins (bump lb)) with (lb_origins lb); rewrite ?En;
    [|lia..|].
  - rewrite <- fmap_S_seq, <- list_fmap_compose. apply list_fmap_ext.
    intros _ j _. simpl. unfold slot. do 4 f_equal. lia.
  - exact Hall'.
Qed.

(** ** Properties of one request *)

(** C3. As long as the request counter does not wrap within the loop, the load
    balancer is complete: it dials an unavailable origin, or fails fast, only
    when every origin is unavailable, and otherwise dials an available origin
    with none available before it in rotation order. *)
Theorem choose_complete (lb : roundRobinProxy) (now : Time) (d : decision)
    (Hn : (0 < length (lb_origins lb))%nat) (Hs : 0 <= lb_next lb)
    (Hwrap : lb_next lb + 1 + Z.of_nat (length (lb_origins lb)) <= two64)
    (Hd : snd (choose lb now) = d) :
  (exists k before after,
      d = Dial k /\ available_at lb now k = true /\
      rotation (length (lb_origins lb)) (lb_next lb + 1) = before ++ k :: after /\
      Forall (fun j => available_at lb now j = false) before)
  \/ (forall k, (k < length (lb_origins lb))%nat -> available_at lb now k = false).
Proof.
  rewrite choose_rotation in Hd by done. rewrite start_lt in Hd by int_lia. simpl in Hd.
  destruct (find_first _ _) as [k|] eqn:E.
  - left. apply find_first_split in E as (before & after & Hrot & Hk & Hbefore).
    exists k, before, after. done.
  - right. intros k Hk. apply find_first_None in E. rewrite Forall_forall in E. apply E.
    rewrite rotation_perm by lia. apply elem_of_seq. lia.
Qed.

(** Fast fail exactly when it should: with no origin available, the origin the
    rotation starts at is dialed as a last resort, and the request fails fast
    instead precisely when that origin's breaker is open. *)
Theorem choose_fallback (lb : roundRobinProxy) (now : Time) (o : roundRobinOrigin)
    (Hn : (0 < length (lb_origins lb))%nat)
    (Hnone : forall k, (k < length (lb_origins lb))%nat -> available_at lb now k = false) :
  let start := slot (length (lb_origins lb)) (wrapu64 (lb_next lb + 1)) 0 in
  lb_origins lb !! start = Some o ->
  snd (choose lb now) = if origin_open lb now o then FailFast start else Dial start.
Proof.
  intros start Ho. rewrite choose_rotation by done.
  destruct (find_first _ _) as [k|] eqn:E.
  - apply find_first_Some in E as [Hin Ha]. unfold rotation in Hin.
    apply list_elem_of_fmap in Hin as (i & -> & _). rewrite Hnone in Ha by (by apply slot_lt). done.
  - simpl. subst start. by rewrite Ho.
Qed.

(** C5. Fairness: when every origin is available, any [n] consecutive requests are
    spread over the [n] origins, one each, as long as the 64-bit counter of requests
    does not wrap round among them. *)
Theorem choose_fair (lb : roundRobinProxy) (nows : list Time)
    (Hn : (0 < length (lb_origins lb))%nat) (Hs : 0 <= lb_next lb)
    (Hwrap : lb_next lb + 1 + Z.of_nat (length (lb_origins lb)) <= two64)
    (Hlen : length nows = length (lb_origins lb))
    (Hall : Forall (fun now => forall k, (k < length (lb_origins lb))%nat -> available_at lb now k = true) nows) :
  choose_all lb nows ≡ₚ Dial <$> seq 0 (length (lb_origins lb)).
Proof.
  rewrite choose_all_rotation by (done || lia).
  transitivity (Dial <$> rotation (length (lb_origins lb)) (lb_next lb + 1)).
  - unfold rotation. by rewrite Hlen, <- list_fmap_compose.
  - by rewrite rotation_perm by lia.
Qed.

(** C4. Safety, counter wrap included: a request is never sent to an origin whose
    circuit breaker is open. *)
Theorem choose_never_dials_open (lb : roundRobinProxy) (now : Time) (k : nat) (o : roundRobinOrigin)
    (Hr : origins_reachable lb) (Hd : snd (choose lb now) = Dial k)
    (Ho : lb_origins lb !! k = Some o) :
  origin_open lb now o = false.
Proof.
  assert (Hn : (0 < length (lb_origins lb))%nat) by (apply lookup_lt_Some in Ho; lia).
  rewrite choose_rotation in Hd by done. simpl in Hd.
  destruct (find_first _ _) as [k'|] eqn:E; simplify_eq.
  - apply find_first_Some in E as [_ Ha]. unfold available_at in Ha. rewrite Ho in Ha.
    eauto using origins_reachable_open.
  - cases_in Hd.
Qed.

(** The wrap of the 64-bit request counter inside the loop is not harmless:
    with three origins, the request for which the counter reads 2^64-1 looks at
    origin 0 twice and never at origin 2, so it is sent to an unavailable origin
    while an available one exists. *)
Theorem choose_wrap_skips :
  exists lb now, length (lb_origins lb) = 3%nat /\ uint64_ok (lb_next lb) /\
    origins_reachable lb /\
    available_at lb now 2 = true /\
    snd (choose lb now) = Dial 0 /\ available_at lb now 0 = false.
Proof.
  exists (mkRoundRobinProxy "catalog"
    [mkRoundRobinOrigin "http://a" (run [RecordFailure 100]);
     mkRoundRobinOrigin "http://b" (run [RecordFailure 100]);
     mkRoundRobinOrigin "http://c" (run [])]
    (10 * Second) (mkBreakerOptions 0 (30 * Second)) (two64 - 2)), 200.
  split; [done|]. split; [simpl; int_lia|]. split; [|by vm_compute].
  repeat constructor; (eexists; split; [|reflexivity]; split; [repeat constructor|by vm_compute]).
Qed.
