(* ===== verification/BalancerConc.v ===== *)
(** * Concurrent requests through the load balancer

    The interleaving semantics of [roundRobinProxy.ServeHTTP] with the
    completions of the requests and with the prober, at the granularity of the
    code's own atomic actions: the [next] counter is one atomic add, and every
    method of an [originState] runs under its mutex. Each request holds the clock
    reading it took when it arrived and its place in the selection loop. *)

From S2P Require Import Prelude GoInt OriginState Balancer.

(** Where a request is in [ServeHTTP]. *)
Inductive pc :=
| Scanning (start i : Z) (now : Time)   (* in the selection loop, at index [i] *)
| Dialing (k : nat)                     (* inside [o.handler.ServeHTTP] *)
| Relaying (k : nat)                    (* there, after [ModifyResponse] *)
| Answered                              (* the handler returned *)
| FastFailed.                           (* answered 502 without dialing *)

Record sys := mkSys {
  next : Z;
  origins : list originState;
  threads : gmap nat pc
}.

Section concurrent.
Context (cooldown : Duration) (breaker : BreakerOptions).

Definition avail (s : originState) (now : Time) : bool :=
  available s now cooldown (Threshold breaker) (Cooldown breaker).

Definition isopen (s : originState) (now : Time) : bool :=
  breakerOpen s now (Threshold breaker) (Cooldown breaker).

(** One atomic action of request [t] (or of the prober). *)
Inductive step : sys -> sys -> Prop :=
| step_arrive t now n os ts :
    ts !! t = None -> zeroTime < now ->
    step (mkSys n os ts)
      (mkSys (wrapu64 (n + 1)) os (<[t := Scanning (wrapu64 (n + 1)) 0 now]> ts))
| step_try t start i now s n os ts :
    ts !! t = Some (Scanning start i now) -> i < Z.of_nat (length os) ->
    os !! slot (length os) start i = Some s -> avail s now = true ->
    step (mkSys n os ts) (mkSys n os (<[t := Dialing (slot (length os) start i)]> ts))
| step_skip t start i now s n os ts :
    ts !! t = Some (Scanning start i now) -> i < Z.of_nat (length os) ->
    os !! slot (length os) start i = Some s -> avail s now = false ->
    step (mkSys n os ts) (mkSys n os (<[t := Scanning start (i + 1) now]> ts))
| step_last_resort t start i now s n os ts :
    ts !! t = Some (Scanning start i now) -> Z.of_nat (length os) <= i ->
    os !! slot (length os) start 0 = Some s -> isopen s now = false ->
    step (mkSys n os ts) (mkSys n os (<[t := Dialing (slot (length os) start 0)]> ts))
| step_fail_fast t start i now s n os ts :
    ts !! t = Some (Scanning start i now) -> Z.of_nat (length os) <= i ->
    os !! slot (length os) start 0 = Some s -> isopen s now = true ->
    step (mkSys n os ts) (mkSys n os (<[t := FastFailed]> ts))
| step_success t k s n os ts :
    ts !! t = Some (Dialing k) -> os !! k = Some s ->
    step (mkSys n os ts) (mkSys n (<[k := recordSuccess s]> os) (<[t := Relaying k]> ts))
| step_failure t k s now n os ts :
    ts !! t = Some (Dialing k) -> os !! k = Some s -> zeroTime < now ->
    step (mkSys n os ts) (mkSys n (<[k := recordFailure now s]> os) (<[t := Answered]> ts))
| step_upgrade_refused t k s now n os ts :
    (* an answer that switches to a protocol the client did not ask for *)
    ts !! t = Some (Relaying k) -> os !! k = Some s -> zeroTime < now ->
    step (mkSys n os ts) (mkSys n (<[k := recordFailure now s]> os) (<[t := Answered]> ts))
| step_answer t k p n os ts :
    (* the handler returned, or panicked, as it does when a body breaks off *)
    ts !! t = Some p -> p = Dialing k \/ p = Relaying k ->
    step (mkSys n os ts) (mkSys n os (<[t := Answered]> ts))
| step_probe k s down n os ts :
    os !! k = Some s ->
    step (mkSys n os ts) (mkSys n (<[k := setForcedDown down s]> os) ts).

Definition init (norigins : nat) : sys := mkSys 0 (replicate norigins newOriginState) ∅.

(** [reach m σ]: [σ] is reached in [m] actions. *)
Inductive reach (norigins : nat) : nat -> sys -> Prop :=
| reach_init : reach norigins 0 (init norigins)
| reach_step m σ σ' : reach norigins m σ -> step σ σ' -> reach norigins (S m) σ'.

(** ** The invariant *)

Record inv (norigins m : nat) (σ : sys) : Prop := mkInv {
  inv_length : length (origins σ) = norigins;
  inv_history k s :
    origins σ !! k = Some s -> exists h, s = run h /\ Forall op_ok h /\ (length h <= m)%nat;
  inv_scanning t start i now :
    threads σ !! t = Some (Scanning start i now) ->
    uint64_ok start /\ 0 <= i <= Z.of_nat norigins /\ zeroTime < now;
  inv_dialing t k : threads σ !! t = Some (Dialing k) -> (k < norigins)%nat;
  inv_relaying t k : threads σ !! t = Some (Relaying k) -> (k < norigins)%nat
}.

Lemma inv_init norigins : inv norigins 0 (init norigins).
Proof.
  constructor; simpl.
  - apply length_replicate.
  - intros k s [-> _]%lookup_replicate. by exists [].
  - done.
  - done.
  - done.
Qed.

(** Recording a call on origin [k] extends that origin's history. *)
Lemma history_insert (os : list originState) (k : nat) s o m :
  (forall k s, os !! k = Some s -> exists h, s = run h /\ Forall op_ok h /\ (length h <= m)%nat) ->
  os !! k = Some s -> op_ok o ->
  forall k' s', <[k := apply_op o s]> os !! k' = Some s' ->
    exists h, s' = run h /\ Forall op_ok h /\ (length h <= S m)%nat.
Proof.
  intros Hos Hk Ho k' s' Hk'. destruct (Hos k s Hk) as (h & -> & Hh & Hlen).
  apply list_lookup_insert_Some in Hk' as [(<- & <- & _)|[_ Hk']].
  - exists (o :: h). split; [done|]. split; [by constructor|simpl; lia].
  - destruct (Hos k' s' Hk') as (h' & -> & Hh' & Hlen'). exists h'. eauto with lia.
Qed.

Lemma history_weaken (os : list originState) m :
  (forall k s, os !! k = Some s -> exists h, s = run h /\ Forall op_ok h /\ (length h <= m)%nat) ->
  forall k (s : originState), os !! k = Some s ->
    exists h, s = run h /\ Forall op_ok h /\ (length h <= S m)%nat.
Proof. intros Hos k s (h & -> & Hh & Hlen)%Hos. exists h. eauto with lia. Qed.

(** The threads' part of the invariant, through an update of one thread. *)
Ltac thread_cases :=
  intros; match goal with
  | H : <[_ := _]> _ !! _ = Some _ |- _ =>
      apply lookup_insert_Some in H as [[? ?]|[? ?]]; simplify_eq; eauto
  end.

Lemma inv_step norigins m σ σ' : inv norigins m σ -> step σ σ' -> inv norigins (S m) σ'.
Proof.
  intros [Hlen Hhist Hscan Hdial Hrel] Hstep.
  inversion Hstep; subst; simpl in *; constructor; simpl;
    rewrite ?length_insert;
    try done; try (by eapply history_weaken); try thread_cases.
  - split; [apply wrapu64_ok|lia].
  - destruct (Hscan _ _ _ _ H) as (? & ? & ?). apply slot_lt. lia.
  - destruct (Hscan _ _ _ _ H) as (? & ? & ?). split; [done|lia].
  - apply lookup_lt_Some in H1. lia.
  - by apply (history_insert os k s RecordSuccess m).
  - by apply (history_insert os k s (RecordFailure now) m).
  - by apply (history_insert os k s (RecordFailure now) m).
  - by apply (history_insert os k s (SetForcedDown down) m).
Qed.

Lemma reach_inv norigins m σ : reach norigins m σ -> inv norigins m σ.
Proof. induction 1; eauto using inv_init, inv_step. Qed.

(** A reachable origin's record satisfies what the open/available coherence
    lemma asks of it. *)
Lemma reach_zero_iff norigins m σ k s :
  reach norigins m σ -> Z.of_nat m <= maxInt64 -> origins σ !! k = Some s ->
  IsZero (lastFailureAt s) = (consecutiveFailures s =? 0).
Proof.
  intros Hr Hm Hk. destruct (inv_history _ _ _ (reach_inv _ _ _ Hr) k s Hk) as (h & -> & Hh & Hlen).
  apply run_zero_iff. split; [done|lia].
Qed.

(** ** Properties *)

(** C6. Under every interleaving, a request never starts dialing an origin whose
    breaker is open at the request's clock reading. *)
Theorem concurrent_never_dials_open (norigins m : nat) (σ σ' : sys) (t k : nat)
    (start i : Z) (now : Time) (s : originState)
    (Hr : reach norigins m σ) (Hm : Z.of_nat m <= maxInt64) (Hstep : step σ σ')
    (Hscan : threads σ !! t = Some (Scanning start i now))
    (Hdial : threads σ' !! t = Some (Dialing k))
    (Hs : origins σ !! k = Some s) :
  isopen s now = false.
Proof.
  assert (Hz := reach_zero_iff _ _ _ _ _ Hr Hm Hs).
  inversion Hstep; subst; simpl in *; try (rewrite Hscan in Hdial; done);
    (apply lookup_insert_Some in Hdial as [[<- Hd]|[? Hd]]; [|rewrite Hscan in Hd; done]);
    simplify_eq; try done.
  destruct (isopen s now) eqn:E; [|done].
  unfold avail, isopen in *. erewrite open_not_available in H2; done.
Qed.

(** What one action of the request itself does to its place in the loop. *)
Definition moves_on (norigins : nat) (start i : Z) (now : Time) (p : pc) : Prop :=
  p = Scanning start (i + 1) now /\ i < Z.of_nat norigins \/ (exists k, p = Dialing k) \/ p = FastFailed.

Lemma scanning_moves norigins σ σ' t start i now p :
  length (origins σ) = norigins -> step σ σ' ->
  threads σ !! t = Some (Scanning start i now) -> threads σ' !! t = Some p ->
  p = Scanning start i now \/ moves_on norigins start i now p.
Proof.
  intros Hlen Hstep Hscan Hp. unfold moves_on.
  inversion Hstep; subst; simpl in *; try (rewrite Hscan in Hp; naive_solver);
    (apply lookup_insert_Some in Hp as [[<- <-]|[? Hp]]; [|rewrite Hscan in Hp; naive_solver]);
    simplify_eq; naive_solver.
Qed.

(** C7. A request in the selection loop is never stuck and never scans for ever:
    it always has a next action, and every action of its own takes it one
    iteration on, of which there are [norigins], or out of the loop. *)
Theorem scanning_progress (norigins m : nat) (σ : sys) (t : nat) (start i : Z) (now : Time)
    (Hn : (0 < norigins)%nat) (Hr : reach norigins m σ)
    (Hscan : threads σ !! t = Some (Scanning start i now)) :
  0 <= i <= Z.of_nat norigins /\
  (exists σ' p, step σ σ' /\ threads σ' !! t = Some p /\ moves_on norigins start i now p) /\
  (forall σ' p, step σ σ' -> threads σ' !! t = Some p ->
     p = Scanning start i now \/ moves_on norigins start i now p).
Proof.
  destruct (reach_inv _ _ _ Hr) as [Hlen _ Hsc _ _]. destruct (Hsc _ _ _ _ Hscan) as (_ & Hi & _).
  split; [lia|]. split; [|intros σ' p Hstep Hp; by eapply scanning_moves].
  destruct σ as [n os ts]; simpl in *.
  assert (Hlook : forall j, exists s, os !! slot (length os) start j = Some s).
  { intros j. apply lookup_lt_is_Some_2, slot_lt. lia. }
  unfold moves_on. destruct (Z.lt_ge_cases i (Z.of_nat (length os))) as [Hlt|Hge].
  - destruct (Hlook i) as [s Hs]. destruct (avail s now) eqn:E; do 2 eexists;
      (split; [first [by eapply step_try | by eapply step_skip]|]); simpl; rewrite lookup_insert_eq; eauto with lia.
  - destruct (Hlook 0) as [s Hs]. destruct (isopen s now) eqn:E; do 2 eexists;
      (split; [first [by eapply step_fail_fast | by eapply step_last_resort]|]); simpl; rewrite lookup_insert_eq; eauto.
Qed.

(** ** A request that nothing interrupts *)

(** The selection as [Balancer] describes it, on the same origins. *)
Definition balancer (σ : sys) : roundRobinProxy :=
  mkRoundRobinProxy "" (mkRoundRobinOrigin "" <$> origins σ) cooldown breaker (next σ).

Definition outcome_pc (d : decision) : pc :=
  match d with Dial k => Dialing k | FailFast _ => FastFailed end.

(** The loop, from iteration [i] on, with [iters] iterations left. *)
Lemma scan_steps iters t start i now n os ts (lb : roundRobinProxy) :
  (0 < length os)%nat -> 0 <= i -> i + Z.of_nat iters = Z.of_nat (length os) ->
  lb_origins lb = mkRoundRobinOrigin "" <$> os -> lb_cooldown lb = cooldown -> lb_breaker lb = breaker ->
  ts !! t = Some (Scanning start i now) ->
  rtc step (mkSys n os ts)
    (mkSys n os (<[t := match scan lb now start i iters with
                        | Some k => Dialing k
                        | None => Scanning start (Z.of_nat (length os)) now
                        end]> ts)).
Proof.
  intros Hn Hi Hsum Hos Hcd Hbr. revert i ts Hi Hsum. induction iters as [|iters IH]; intros i ts Hi Hsum Ht.
  - cbn [scan]. replace (Z.of_nat (length os)) with i by lia. by rewrite insert_id.
  - destruct (lookup_lt_is_Some_2 os (slot (length os) start i)) as [s Hs]; [by apply slot_lt|].
    cbn [scan]. rewrite Hos, length_fmap, list_lookup_fmap, Hs. cbn [fmap option_fmap option_map].
    unfold origin_available. rewrite Hcd, Hbr. simpl o_state.
    destruct (available s now cooldown (Threshold breaker) (Cooldown breaker)) eqn:Ea.
    + apply rtc_once. eapply step_try; [done|lia|done|done].
    + eapply rtc_l; [eapply step_skip; [done|lia|done|done]|].
      specialize (IH (i + 1) (<[t := Scanning start (i + 1) now]> ts) ltac:(lia) ltac:(lia)).
      rewrite lookup_insert_eq, insert_insert_eq in IH. by apply IH.
Qed.

(** C30. The two accounts of the selection agree: a request that arrives and is not
    interrupted ends up, by atomic actions of its own, exactly where
    [Balancer.choose] sends it, and leaves the counter as [choose] does and the
    origins and the other requests alone. *)
Theorem alone_refines_choose (t : nat) (now : Time) (n : Z) (os : list originState) (ts : gmap nat pc)
    (Hn : (0 < length os)%nat) (Hnow : zeroTime < now) (Hnew : ts !! t = None) :
  let '(lb', d) := choose (balancer (mkSys n os ts)) now in
  rtc step (mkSys n os ts) (mkSys (lb_next lb') os (<[t := outcome_pc d]> ts)).
Proof.
  set (lb := balancer (mkSys n os ts)). set (start := wrapu64 (n + 1)).
  assert (Hscan := scan_steps (length os) t start 0 now start os (<[t := Scanning start 0 now]> ts) (bump lb)
                     Hn ltac:(lia) ltac:(lia) eq_refl eq_refl eq_refl (lookup_insert_eq _ _ _)).
  rewrite insert_insert_eq in Hscan. destruct (choose lb now) as [lb' d] eqn:Ec.
  assert (Hlb : lb' = bump lb) by (by rewrite <- (choose_fst lb now), Ec). subst lb'.
  eapply rtc_l; [by apply (step_arrive t now)|]. unfold choose in Ec.
  change (lb_next (bump lb)) with start in *. change (lb_origins (bump lb)) with (mkRoundRobinOrigin "" <$> os) in Ec.
  rewrite length_fmap, list_lookup_fmap in Ec.
  destruct (scan (bump lb) now start 0 (length os)) as [k|]; [by injection Ec as <-|].
  etransitivity; [exact Hscan|].
  destruct (lookup_lt_is_Some_2 os (slot (length os) start 0)) as [s Hs]; [by apply slot_lt|].
  rewrite Hs in Ec. simpl in Ec. injection Ec as <-. unfold origin_open. simpl o_state.
  apply rtc_once. destruct (breakerOpen s now _ _) eqn:Eo; simpl outcome_pc.
  - rewrite <- (insert_insert_eq ts t FastFailed (Scanning start (Z.of_nat (length os)) now)).
    eapply step_fail_fast; [apply lookup_insert_eq|lia|done|done].
  - rewrite <- (insert_insert_eq ts t (Dialing _) (Scanning start (Z.of_nat (length os)) now)).
    eapply step_last_resort; [apply lookup_insert_eq|lia|done|done].
Qed.

End concurrent.

(** ** The half-open state admits any number of trials *)

Definition demo_breaker : BreakerOptions := mkBreakerOptions 1 (30 * Second).

(** [m] requests that arrived after the cooldown, all dialing origin 0. *)
Lemma half_open_crowd (m : nat) :
  exists cnt n ts,
    reach (10 * Second) demo_breaker 1 cnt
      (mkSys n [recordFailure Second newOriginState] ts) /\
    (forall i, (i < m)%nat -> ts !! S i = Some (Dialing 0)) /\
    (forall i, (m <= i)%nat -> ts !! S i = None).
Proof.
  induction m as [|m (cnt & n & ts & Hr & Hin & Hout)].
  - do 3 eexists. split.
    + eapply reach_step; [eapply reach_step; [eapply reach_step; [apply reach_init|]|]|].
      * by apply (step_arrive _ _ 0%nat Second).
      * by eapply (step_try _ _ 0%nat _ _ _ newOriginState).
      * by apply (step_failure _ _ 0%nat 0%nat newOriginState Second).
    + split; [lia|]. intros i _. by rewrite !lookup_insert_ne.
  - do 3 eexists. split; [|split].
    + eapply reach_step; [eapply reach_step; [exact Hr|]|].
      * apply (step_arrive _ _ (S m) (40 * Second)); [by apply Hout|done].
      * eapply (step_try _ _ (S m)); [by rewrite lookup_insert_eq|done| |].
        -- unfold slot. simpl. by rewrite Z.mod_1_r.
        -- by vm_compute.
    + intros i Hi. unfold slot. simpl. rewrite Z.mod_1_r. rewrite insert_insert_eq.
      destruct (decide (i = m)) as [->|]; [by rewrite lookup_insert_eq|].
      rewrite lookup_insert_ne by lia. apply Hin. lia.
    + intros i Hi. rewrite !lookup_insert_ne by lia. apply Hout. lia.
Qed.

(** The half-open state is not a single trial: once the cooldown of a tripped
    breaker has elapsed, any number of concurrent requests dial the origin
    before the first of them has reported, its failures still at the
    threshold. *)
Theorem half_open_unbounded (m : nat) :
  exists cnt σ s,
    reach (10 * Second) demo_breaker 1 cnt σ /\
    origins σ = [s] /\ Threshold demo_breaker <= consecutiveFailures s /\
    forall i, (i < m)%nat -> threads σ !! S i = Some (Dialing 0).
Proof.
  destruct (half_open_crowd m) as (cnt & n & ts & Hr & Hin & _).
  exists cnt, (mkSys n [recordFailure Second newOriginState] ts), (recordFailure Second newOriginState).
  by vm_compute Threshold.
Qed.
