(* ===== verification/RateLimit.v ===== *)
(** * Rate limiting stores

    Models the stores behind the [rate_limiting] plugin:
    gateway/internal/plugin/rate_limiting.go (the in-memory token bucket and the
    key prefixing) and ratelimit_sugardb.go (the distributed window counter).
    The Go interface [tokenBucketStore] is the class [TokenBucketStore]; SugarDB
    itself is third-party code and enters as the class [SugarDB] of the two
    commands the program issues, with their documented behaviour in
    [SugarDBLaws]. *)

From S2P Require Import Prelude GoInt GoFloat.
From Stdlib Require Import QArith Qminmax Lqa.
#[global] Open Scope Z_scope.

Definition staleAfter : Duration := 10 * Minute.
Definition sweepEvery : Z := 1000.

Class TokenBucketStore (S F : Type) :=
  allow : S -> string -> F -> F -> Time -> S * bool.

Record visitor (F : Type) := mkVisitor {
  tokens : F;
  lastSeen : Time
}.
Arguments mkVisitor {F} _ _.
Arguments tokens {F} _.
Arguments lastSeen {F} _.

Record memoryStore (F : Type) := mkMemoryStore {
  visitors : gmap string (visitor F);
  calls : Z
}.
Arguments mkMemoryStore {F} _ _.
Arguments visitors {F} _.
Arguments calls {F} _.

Definition newMemoryStore {F} : memoryStore F := mkMemoryStore ∅ 0.

(** ** The in-memory token bucket *)

Section memory.
Context {F : Type} `{GoFloat F}.

Definition stale (now : Time) (v : visitor F) : bool := staleAfter <? Sub now (lastSeen v).

Definition sweepLocked (now : Time) (vs : gmap string (visitor F)) : gmap string (visitor F) :=
  filter (fun kv => stale now kv.2 = false) vs.

(** The refilled and capped token count of a known visitor. *)
Definition refill (v : visitor F) (requestsPerSecond burst : F) (now : Time) : F :=
  let elapsed := Seconds (Sub now (lastSeen v)) in
  let t := fadd (tokens v) (fmul elapsed requestsPerSecond) in
  if fltb burst t then burst else t.

Definition memoryStore_allow (s : memoryStore F) (key : string)
    (requestsPerSecond burst : F) (now : Time) : memoryStore F * bool :=
  let calls' := wrapu64 (calls s + 1) in
  let vs := if calls' mod sweepEvery =? 0 then sweepLocked now (visitors s) else visitors s in
  match vs !! key with
  | None =>
      (mkMemoryStore (<[key := mkVisitor (fsub burst (fofZ 1)) now]> vs) calls', true)
  | Some v =>
      let t := refill v requestsPerSecond burst now in
      if fltb t (fofZ 1) then (mkMemoryStore (<[key := mkVisitor t now]> vs) calls', false)
      else (mkMemoryStore (<[key := mkVisitor (fsub t (fofZ 1)) now]> vs) calls', true)
  end.

#[export] Instance memory_TokenBucketStore : TokenBucketStore (memoryStore F) F := memoryStore_allow.

(** A sequence of calls, each a key and a clock reading. *)
Fixpoint serve (rps burst : F) (s : memoryStore F) (reqs : list (string * Time))
    : memoryStore F * list (string * bool) :=
  match reqs with
  | [] => (s, [])
  | (k, t) :: reqs =>
      let '(s, ok) := memoryStore_allow s k rps burst t in
      let '(s, oks) := serve rps burst s reqs in
      (s, (k, ok) :: oks)
  end.

Fixpoint in_order (now : Time) (reqs : list (string * Time)) : Prop :=
  match reqs with
  | [] => True
  | (_, t) :: reqs => now <= t /\ in_order t reqs
  end.

Fixpoint last_time (now : Time) (reqs : list (string * Time)) : Time :=
  match reqs with
  | [] => now
  | (_, t) :: reqs => last_time t reqs
  end.

Fixpoint admitted (key : string) (oks : list (string * bool)) : Z :=
  match oks with
  | [] => 0
  | (k, ok) :: oks => (if bool_decide (k = key) && ok then 1 else 0) + admitted key oks
  end.

(** ** Lemmas of the in-memory store *)

(** The visitors a call works on: all of them, or those a sweep keeps. *)
Definition swept (s : memoryStore F) (now : Time) : gmap string (visitor F) :=
  if wrapu64 (calls s + 1) mod sweepEvery =? 0 then sweepLocked now (visitors s) else visitors s.

Lemma sweepLocked_lookup now vs k v :
  sweepLocked now vs !! k = Some v <-> vs !! k = Some v /\ stale now v = false.
Proof. unfold sweepLocked. by rewrite map_lookup_filter_Some. Qed.

Lemma swept_Some s now k v : swept s now !! k = Some v -> visitors s !! k = Some v.
Proof. unfold swept. case_match; [|done]. by intros [? _]%sweepLocked_lookup. Qed.

Lemma swept_None s now k :
  swept s now !! k = None ->
  visitors s !! k = None \/ exists v, visitors s !! k = Some v /\ stale now v = true.
Proof.
  unfold swept. case_match; [|by left]. intros Hk.
  destruct (visitors s !! k) as [v|] eqn:Ev; [|by left]. right. exists v. split; [done|].
  apply not_false_is_true. intros Hst.
  by rewrite (proj2 (sweepLocked_lookup now _ k v)) in Hk.
Qed.

Lemma memoryStore_allow_unfold s key rps burst now :
  memoryStore_allow s key rps burst now =
  let t := match swept s now !! key with
           | None => burst
           | Some v => refill v rps burst now
           end in
  let ok := match swept s now !! key with
            | None => true
            | Some _ => negb (fltb t (fofZ 1))
            end in
  (mkMemoryStore (<[key := mkVisitor (if ok then fsub t (fofZ 1) else t) now]> (swept s now))
     (wrapu64 (calls s + 1)), ok).
Proof.
  unfold memoryStore_allow. fold (swept s now).
  destruct (swept s now !! key) as [v|]; simpl; [|done].
  by destruct (fltb (refill v rps burst now) (fofZ 1)).
Qed.

(** A call touches its own key; the others keep their visitor, or lose it to a
    sweep when stale. *)
Lemma memoryStore_allow_other s key key' rps burst now :
  key <> key' ->
  visitors (fst (memoryStore_allow s key rps burst now)) !! key' = swept s now !! key'.
Proof. intros Hne. rewrite memoryStore_allow_unfold. simpl. by rewrite lookup_insert_ne. Qed.

Lemma memoryStore_allow_lookup s key rps burst now :
  visitors (fst (memoryStore_allow s key rps burst now)) !! key =
  Some (mkVisitor
    (let t := match swept s now !! key with
              | None => burst
              | Some v => refill v rps burst now
              end in
     if snd (memoryStore_allow s key rps burst now) then fsub t (fofZ 1) else t) now).
Proof. rewrite memoryStore_allow_unfold. simpl. by rewrite lookup_insert_eq. Qed.

(** The cap: a refilled bucket never compares above the burst. *)
Lemma refill_capped `{!GoFloatOrder F} v rps burst now :
  number burst -> fltb burst (refill v rps burst now) = false.
Proof.
  intros Hb. unfold refill. case_match eqn:E; [|done]. apply not_ltb; done.
Qed.

End memory.

(** ** Key prefixing *)

Record namespacedStore (S : Type) := mkNamespacedStore {
  ns_prefix : string;
  ns_inner : S
}.
Arguments mkNamespacedStore {S} _ _.
Arguments ns_prefix {S} _.
Arguments ns_inner {S} _.

Definition namespaced_key (prefix key : string) : string := (prefix +:+ ":" +:+ key)%string.

#[export] Instance namespaced_TokenBucketStore {S F} `{TokenBucketStore S F} :
    TokenBucketStore (namespacedStore S) F := fun s key rps burst now =>
  let '(inner, ok) := allow (ns_inner s) (namespaced_key (ns_prefix s) key) rps burst now in
  (mkNamespacedStore (ns_prefix s) inner, ok).

(** ** The distributed store *)

(** The commands of the embedded database the program issues. *)
Class SugarDB (DB : Type) := {
  Incr : DB -> string -> DB * result unit Z;
  Expire : DB -> string -> Z -> DB * result unit bool
}.

(** Their documented behaviour, on the counter a key holds (0 when it has none)
    and on whether it is due to expire. *)
Class SugarDBLaws (DB : Type) `{SugarDB DB} := {
  counter : DB -> string -> Z;
  expires : DB -> string -> bool;
  counter_nonneg db k : 0 <= counter db k;
  Incr_Ok db k db' c :
    Incr db k = (db', Ok c) ->
    c = counter db k + 1 /\ counter db' k = c /\ expires db' k = expires db k /\
    (forall k', k' <> k -> counter db' k' = counter db k' /\ expires db' k' = expires db k');
  Incr_Err db k db' e :
    Incr db k = (db', Err e) ->
    forall k', counter db' k' = counter db k' /\ expires db' k' = expires db k';
  Expire_counter db k n db' r :
    Expire db k n = (db', r) -> forall k', counter db' k' = counter db k';
  Expire_expires db k n db' r :
    Expire db k n = (db', r) ->
    (forall k', k' <> k -> expires db' k' = expires db k') /\
    expires db' k = match r with Ok _ => true | Err _ => expires db k end
}.

Section sugardb.
Context `{Platform} {F : Type} `{GoFloat F} {DB : Type} `{SugarDB DB}.

Definition sugar_limit (burst : F) : Z :=
  let limit := toInt burst in
  if limit <? 1 then 1 else limit.

Definition sugarDBStore_allow (db : DB) (key : string) (requestsPerSecond burst : F) (now : Time)
    : DB * bool :=
  let limit := sugar_limit burst in
  match Incr db key with
  | (db, Err _) => (db, false)
  | (db, Ok count) =>
      if count =? 1 then
        match Expire db key 1 with
        | (db, Err _) => (db, false)
        | (db, Ok _) => (db, count <=? limit)
        end
      else (db, count <=? limit)
  end.

End sugardb.

(** ** Exact-arithmetic account of the token bucket

    One store serves one plugin instance, so the rate and the burst are fixed;
    [newRateLimiting] only builds positive rates, and [burst >= 1] whenever
    [burst] is configured. *)

(** [lra] after evaluating the integer constants. *)
Ltac q_lra := try change (inject_Z 0) with 0%Q in *; try change (inject_Z 1) with 1%Q in *; lra.

Definition secs (d : Z) : Q := d # 1000000000.

Section exact.
Context (rps burst : Q) (Hrps : (0 < rps)%Q) (Hburst : (1 <= burst)%Q).
Implicit Types (s : memoryStore Q) (v : visitor Q).

(** What a key may still spend at [now]. *)
Definition budget s (key : string) (now : Time) : Q :=
  match visitors s !! key with
  | None => burst
  | Some v => refill v rps burst now
  end.

Definition store_ok s (now : Time) : Prop :=
  forall k v, visitors s !! k = Some v ->
    (0 <= tokens v)%Q /\ (tokens v <= burst)%Q /\ lastSeen v <= now.

Lemma secs_mono a b : a <= b -> (secs a <= secs b)%Q.
Proof. unfold secs, Qle. simpl. lia. Qed.

Lemma secs_mul a b : a <= b -> (secs a * rps <= secs b * rps)%Q.
Proof. intros. apply Qmult_le_compat_r; [by apply secs_mono|lra]. Qed.

Lemma secs_add a b : (secs (a + b) * rps == secs a * rps + secs b * rps)%Q.
Proof.
  rewrite <- Qmult_plus_distr_l. apply Qmult_comp; [|reflexivity].
  unfold secs, Qeq, Qplus. simpl. lia.
Qed.

(** The bucket of [v] at [now], before the cap. *)
Definition uncapped v (now : Time) : Q := (tokens v + secs (Sub now (lastSeen v)) * rps)%Q.

Lemma refill_exact v now :
  (refill v rps burst now <= burst)%Q /\ (refill v rps burst now <= uncapped v now)%Q /\
  ((refill v rps burst now == burst)%Q \/ (refill v rps burst now == uncapped v now)%Q).
Proof.
  unfold refill.
  assert (Ht : (fadd (tokens v) (fmul (Seconds (Sub now (lastSeen v))) rps) == uncapped v now)%Q).
  { apply Qplus_comp; [reflexivity|]. apply Qmult_comp; [apply Seconds_exact|reflexivity]. }
  destruct (fltb burst _) eqn:E; [apply q_ltb in E|apply q_ltb_false in E].
  - rewrite Ht in E. split_and!; [lra|lra|by left].
  - rewrite Ht in E. split_and!; [|lra|by right]. by rewrite Ht.
Qed.

Lemma Sub_lipschitz now now' u : now <= now' -> Sub now' u <= Sub now u + (now' - now).
Proof. intros. unfold Sub. cases; int_lia. Qed.

(** The budget grows no faster than the configured rate. *)
Lemma budget_time s key now now' :
  now <= now' ->
  (budget s key now <= budget s key now' <= budget s key now + secs (now' - now) * rps)%Q.
Proof.
  intros Hle. unfold budget.
  assert (0 <= secs (now' - now) * rps)%Q.
  { apply Qmult_le_0_compat; [|lra]. unfold secs, Qle. simpl. lia. }
  destruct (visitors s !! key) as [v|]; [|split; lra].
  destruct (refill_exact v now) as (H1 & H2 & H3), (refill_exact v now') as (H4 & H5 & H6).
  pose proof (secs_mul _ _ (Sub_mono now now' (lastSeen v) Hle)).
  pose proof (secs_mul _ _ (Sub_lipschitz now now' (lastSeen v) Hle)) as Hlip.
  rewrite secs_add in Hlip. unfold uncapped in *.
  split; destruct H3 as [H3|H3], H6 as [H6|H6]; lra.
Qed.

(** The hypothesis under which evicting a stale visitor is invisible: an idle
    bucket is full again by the time it is swept. *)
Definition sweep_safe : Prop := (burst <= secs staleAfter * rps)%Q.

Lemma stale_full v now :
  sweep_safe -> (0 <= tokens v)%Q -> stale now v = true -> (refill v rps burst now == burst)%Q.
Proof.
  intros Hsafe Htok Hst. destruct (refill_exact v now) as (H1 & _ & [H3|H3]); [done|].
  unfold stale in Hst. apply Z.ltb_lt in Hst.
  pose proof (secs_mul _ _ (Z.lt_le_incl _ _ Hst)). unfold sweep_safe, uncapped in *. lra.
Qed.

(** The budget a call sees, after its sweep. *)
Lemma budget_swept s key now :
  sweep_safe -> store_ok s now ->
  (match swept s now !! key with None => burst | Some v => refill v rps burst now end
   == budget s key now)%Q.
Proof.
  intros Hsafe Hok. unfold budget. destruct (swept s now !! key) as [v|] eqn:E.
  - by rewrite (swept_Some _ _ _ _ E).
  - apply swept_None in E as [->|(v & Hv & Hst)]; [done|]. rewrite Hv.
    destruct (Hok _ _ Hv) as (H0 & _ & _). by rewrite (stale_full v now).
Qed.

Lemma budget_bounds s key now :
  store_ok s now -> (0 <= budget s key now <= burst)%Q.
Proof.
  intros Hok. unfold budget. destruct (visitors s !! key) as [v|] eqn:E; [|split; lra].
  destruct (Hok _ _ E) as (H0 & H1 & Hl), (refill_exact v now) as (H2 & _ & [H3|H3]);
    [split; lra|].
  split; [|done]. rewrite H3. unfold uncapped.
  assert (0 <= secs (Sub now (lastSeen v)) * rps)%Q; [|lra].
  apply Qmult_le_0_compat; [|lra]. unfold secs, Qle. simpl.
  assert (0 <= Sub now (lastSeen v)) by (unfold Sub; cases; int_lia). lia.
Qed.

(** One call, in terms of the budget. *)
Lemma allow_budget s key now :
  sweep_safe -> store_ok s now ->
  snd (memoryStore_allow s key rps burst now) = Qle_bool 1 (budget s key now).
Proof.
  intros Hsafe Hok. rewrite memoryStore_allow_unfold. simpl snd.
  pose proof (budget_swept s key now Hsafe Hok) as Hb.
  destruct (swept s now !! key) as [v|]; symmetry.
  - simpl. rewrite negb_involutive. by rewrite Hb.
  - apply Qle_bool_iff. lra.
Qed.

Lemma refill_now t now : (t <= burst)%Q -> (refill (mkVisitor t now) rps burst now == t)%Q.
Proof.
  intros Ht. destruct (refill_exact (mkVisitor t now) now) as (H1 & H2 & H3).
  assert (Hu : (uncapped (mkVisitor t now) now == t)%Q).
  { unfold uncapped. simpl. rewrite Sub_exact, Z.sub_diag by int_lia. unfold secs, Qeq. simpl. lia. }
  destruct H3 as [H3|H3]; lra.
Qed.

Lemma allow_spends s key now :
  sweep_safe -> store_ok s now ->
  (budget (fst (memoryStore_allow s key rps burst now)) key now ==
   budget s key now - (if snd (memoryStore_allow s key rps burst now) then 1 else 0))%Q.
Proof.
  intros Hsafe Hok. unfold budget at 1. rewrite memoryStore_allow_lookup.
  pose proof (budget_swept s key now Hsafe Hok) as Hb.
  pose proof (budget_bounds s key now Hok).
  cbv zeta. set (t := match swept s now !! key with None => burst | Some v => refill v rps burst now end) in *.
  rewrite refill_now; (destruct (snd _); [change (fsub t (fofZ 1)) with (t - 1)%Q|]).
  all: lra.
Qed.

Lemma allow_spares s key key' now :
  sweep_safe -> store_ok s now -> key <> key' ->
  (budget (fst (memoryStore_allow s key rps burst now)) key' now == budget s key' now)%Q.
Proof.
  intros Hsafe Hok Hne. unfold budget at 1. rewrite memoryStore_allow_other by done.
  by apply budget_swept.
Qed.

Lemma allow_store_ok s key now :
  sweep_safe -> store_ok s now -> store_ok (fst (memoryStore_allow s key rps burst now)) now.
Proof.
  intros Hsafe Hok k v Hk. destruct (decide (key = k)) as [<-|Hne].
  - pose proof (allow_budget s key now Hsafe Hok) as Ha.
    rewrite memoryStore_allow_lookup in Hk. simplify_eq/=.
    pose proof (budget_swept s key now Hsafe Hok) as Hb.
    pose proof (budget_bounds s key now Hok).
    set (t := match swept s now !! key with None => burst | Some v => refill v rps burst now end) in *.
    rewrite Ha. destruct (Qle_bool 1 (budget s key now)) eqn:E.
    + apply Qle_bool_iff in E. split_and!; [q_lra|q_lra|lia].
    + split_and!; [lra|lra|lia].
  - rewrite memoryStore_allow_other in Hk by done. by apply (Hok k), (swept_Some s now).
Qed.

Lemma store_ok_later s now now' : store_ok s now -> now <= now' -> store_ok s now'.
Proof. intros Hok Hle k v Hk. destruct (Hok k v Hk) as (? & ? & ?). split_and!; [done..|lia]. Qed.

(** The ideal bucket: it gains [rps] tokens a second, by the clock and without
    bound on the time, and holds at most [burst]. *)
Definition allowance s (key : string) (now : Time) : Q :=
  match visitors s !! key with
  | None => burst
  | Some v => Qmin burst (tokens v + secs (now - lastSeen v) * rps)
  end.

Lemma Qmin_r a b : (b <= a)%Q -> (Qmin a b == b)%Q.
Proof. apply Q.min_r. Qed.
Lemma Qmin_l a b : (a <= b)%Q -> (Qmin a b == a)%Q.
Proof. apply Q.min_l. Qed.

(** The code's bucket is the ideal one, although its clock difference saturates:
    after 292 years any bucket that refills in ten minutes is full. *)
Lemma budget_allowance s key now :
  sweep_safe -> store_ok s now -> (budget s key now == allowance s key now)%Q.
Proof.
  intros Hsafe Hok. unfold budget, allowance. destruct (visitors s !! key) as [v|] eqn:Ev; [|done].
  destruct (Hok _ _ Ev) as (H0 & _ & Hl), (refill_exact v now) as (H1 & H2 & H3). unfold uncapped in *.
  destruct (Z.le_gt_cases (now - lastSeen v) maxInt64) as [Hd|Hd].
  - rewrite Sub_exact in H2, H3 by int_lia.
    destruct H3 as [H3|H3]; rewrite H3; symmetry; [apply Qmin_l|apply Qmin_r]; lra.
  - assert (Hs : Sub now (lastSeen v) = maxInt64) by (unfold Sub; cases; int_lia). rewrite Hs in H2, H3.
    unfold sweep_safe in Hsafe. pose proof (secs_mul staleAfter maxInt64 ltac:(done)).
    pose proof (secs_mul maxInt64 (now - lastSeen v) ltac:(lia)).
    rewrite Qmin_l by lra. destruct H3 as [H3|H3]; lra.
Qed.

(** Every admitted request was paid for. *)
Lemma serve_potential key reqs s now :
  sweep_safe -> store_ok s now -> in_order now reqs ->
  (inject_Z (admitted key (snd (serve rps burst s reqs))) <=
   budget s key now + secs (last_time now reqs - now) * rps)%Q.
Proof.
  intros Hsafe. revert s now. induction reqs as [|[k t] reqs IH]; intros s now Hok Hord; simpl.
  - rewrite Z.sub_diag. pose proof (budget_bounds s key now Hok).
    assert (secs 0 * rps == 0)%Q by (unfold secs, Qeq; simpl; lia). simpl. q_lra.
  - destruct Hord as [Hle Hord]. assert (Hokt := store_ok_later s now t Hok Hle).
    destruct (budget_time s key now t Hle) as [_ Hgrow].
    pose proof (allow_store_ok s k t Hsafe Hokt) as Hok'.
    specialize (IH _ t Hok' Hord).
    pose proof (allow_spends s k t Hsafe Hokt) as Hself.
    pose proof (fun Hne => allow_spares s k key t Hsafe Hokt Hne) as Hother.
    destruct (memoryStore_allow s k rps burst t) as [s' ok] eqn:Ea. simpl in *.
    destruct (serve rps burst s' reqs) as [s'' oks]. simpl in *.
    rewrite inject_Z_plus.
    assert (Hsplit : (secs (last_time t reqs - now) * rps ==
                      secs (last_time t reqs - t) * rps + secs (t - now) * rps)%Q).
    { rewrite <- secs_add. replace (last_time t reqs - t + (t - now)) with (last_time t reqs - now) by lia.
      reflexivity. }
    rewrite Hsplit. destruct (decide (k = key)) as [->|Hne].
    + rewrite bool_decide_true by done. destruct ok; simpl; q_lra.
    + rewrite bool_decide_false by done. specialize (Hother Hne). simpl. q_lra.
Qed.

End exact.

(** ** Lemmas of the distributed store *)

Section sugardb_facts.
Context `{Platform} {F : Type} `{GoFloat F} {DB : Type} `{SugarDBLaws DB}.
Context (key : string) (rps burst : F).

Lemma sugar_limit_pos : 1 <= sugar_limit burst.
Proof. unfold sugar_limit. cases. Qed.

(** A call adds one to its key's counter unless the increment failed, and is
    admitted only if the new value is within the limit. *)
Lemma sugar_allow_counter db key' now db' ok :
  sugarDBStore_allow db key' rps burst now = (db', ok) ->
  (forall k, k <> key' -> counter db' k = counter db k) /\
  counter db key' <= counter db' key' <= counter db key' + 1 /\
  (ok = true -> counter db' key' = counter db key' + 1 /\ counter db' key' <= sugar_limit burst).
Proof.
  unfold sugarDBStore_allow. destruct (Incr db key') as [db1 [c|e]] eqn:Ei.
  - apply Incr_Ok in Ei as (Hc & Hc' & _ & Hother).
    destruct (c =? 1); [destruct (Expire db1 key' 1) as [db2 r] eqn:Ee;
      pose proof (Expire_counter _ _ _ _ _ Ee) as Hx; destruct r|]; intros [= <- <-];
      (split_and!; [intros k Hk; rewrite ?Hx; by apply Hother|rewrite ?Hx; lia..|]);
      intros Hok; rewrite ?Hx; lia || done.
  - pose proof (Incr_Err _ _ _ _ Ei) as Hx. intros [= <- <-].
    split_and!; [intros k _; apply Hx|destruct (Hx key'); lia..|done].
Qed.

(** A run of calls by every client of the cluster, between two expiries of
    [key]: other nodes' calls may raise counters, nothing lowers that of
    [key]. *)
Inductive window : DB -> list (string * bool) -> DB -> Prop :=
| window_nil db : window db [] db
| window_call db k now db' ok oks db'' :
    sugarDBStore_allow db k rps burst now = (db', ok) ->
    window db' oks db'' -> window db ((k, ok) :: oks) db''
| window_other db db' oks db'' :
    counter db key <= counter db' key ->
    window db' oks db'' -> window db oks db''.

Lemma window_bound db oks db' :
  window db oks db' ->
  admitted key oks <= Z.max 0 (sugar_limit burst - counter db key).
Proof.
  induction 1 as [db|db k now db' ok oks db'' Hcall _ IH|db db' oks db'' Hle _ IH]; simpl; [lia| |lia].
  destruct (sugar_allow_counter _ _ _ _ _ Hcall) as (Hother & Hself & Hok).
  destruct (decide (k = key)) as [->|Hne].
  - rewrite bool_decide_true by done. destruct ok; simpl; [specialize (Hok eq_refl)|]; lia.
  - rewrite bool_decide_false by done. simpl. rewrite <- (Hother key); lia || done.
Qed.

(** A database in which [key] counts without being due to expire. *)
Definition stuck (db : DB) : Prop := 1 <= counter db key /\ expires db key = false.

(** What can happen to such a database: calls of this node on any key, and
    actions of the rest of the cluster, which lower no counter that is not due
    to expire and set no expiry either (the code sets one only when it
    increments a counter to 1). *)
Inductive later : DB -> DB -> Prop :=
| later_refl db : later db db
| later_call db k now db' ok db'' :
    sugarDBStore_allow db k rps burst now = (db', ok) -> later db' db'' -> later db db''
| later_other db db' db'' :
    (expires db key = false -> counter db key <= counter db' key /\ expires db' key = false) ->
    later db' db'' -> later db db''.

Lemma sugar_allow_stuck db k now db' ok :
  stuck db -> sugarDBStore_allow db k rps burst now = (db', ok) ->
  stuck db' /\ counter db key <= counter db' key.
Proof.
  intros [Hc Hx]. unfold stuck. unfold sugarDBStore_allow.
  destruct (Incr db k) as [db1 [c|e]] eqn:Ei.
  - apply Incr_Ok in Ei as (Hc1 & Hc1' & Hx1 & Hother).
    destruct (Z.eqb_spec c 1) as [->|Hc2].
    + assert (Hne : key <> k) by (intros <-; lia). destruct (Hother key Hne) as [Ho1 Ho2].
      destruct (Expire db1 k 1) as [db2 r] eqn:Ee.
      destruct (Expire_expires _ _ _ _ _ Ee) as [Hx2 _].
      destruct r; intros [= <- <-]; rewrite !(Expire_counter _ _ _ _ _ Ee), (Hx2 key Hne), Ho1, Ho2;
        split_and!; done || lia.
    + intros [= <- <-]. destruct (decide (key = k)) as [->|Hne].
      * rewrite Hx1. split_and!; done || lia.
      * destruct (Hother key Hne) as [-> ->]. split_and!; done || lia.
  - intros [= <- <-]. destruct (Incr_Err _ _ _ _ Ei key) as [-> ->]. split_and!; done || lia.
Qed.

Lemma later_stuck db db' : later db db' -> stuck db -> stuck db' /\ counter db key <= counter db' key.
Proof.
  induction 1 as [|db k now db' ok db'' Hcall _ IH|db db' db'' Hother _ IH]; intros Hst.
  - split; [done|lia].
  - destruct (sugar_allow_stuck _ _ _ _ _ Hst Hcall) as [Hst' ?]. destruct (IH Hst'). split; [done|lia].
  - destruct Hst as [Hc Hx]. destruct (Hother Hx) as [? ?].
    destruct IH; [by split; [lia|]|]. split; [done|lia].
Qed.

End sugardb_facts.

(** ** Properties *)

(** The in-memory store is the ideal token bucket, in exact arithmetic: a
    request is admitted exactly when the bucket of its key, which gains [rps]
    tokens a second and holds at most [burst], has a full token; it then spends
    exactly one, a refused request spends nothing, and no other key's bucket
    changes. The hypothesis [sweep_safe] says an idle bucket refills within the
    ten minutes after which it may be evicted. *)
Theorem allow_exact (rps burst : Q) (s : memoryStore Q) (key : string) (now : Time)
    (Hrps : (0 < rps)%Q) (Hburst : (1 <= burst)%Q)
    (Hsafe : sweep_safe rps burst) (Hok : store_ok burst s now) :
  let '(s', ok) := allow s key rps burst now in
  (ok = true <-> (1 <= allowance rps burst s key now)%Q) /\
  (allowance rps burst s' key now == allowance rps burst s key now - (if ok then 1 else 0))%Q /\
  (forall key', key' <> key ->
     (allowance rps burst s' key' now == allowance rps burst s key' now)%Q) /\
  store_ok burst s' now.
Proof.
  pose proof (allow_budget rps burst Hrps Hburst s key now Hsafe Hok) as Ha.
  pose proof (allow_spends rps burst Hrps Hburst s key now Hsafe Hok) as Hs.
  pose proof (fun k => allow_spares rps burst Hrps s key k now Hsafe Hok) as Ho.
  pose proof (allow_store_ok rps burst Hrps Hburst s key now Hsafe Hok) as Hk.
  change (allow s key rps burst now) with (memoryStore_allow s key rps burst now).
  destruct (memoryStore_allow s key rps burst now) as [s' ok]. simpl in *.
  pose proof (fun k => budget_allowance rps burst Hrps s k now Hsafe Hok) as Hi.
  pose proof (fun k => budget_allowance rps burst Hrps s' k now Hsafe Hk) as Hi'.
  split_and!; [|by rewrite <- Hi, <- Hi'| |done].
  - rewrite Ha, <- Hi. apply Qle_bool_iff.
  - intros key' Hne. rewrite <- Hi, <- Hi'. by apply Ho.
Qed.

(** The rate limit: over any sequence of requests by any clients, at most
    [burst + rps * duration] requests of one key are admitted. *)
Theorem rate_bound (rps burst : Q) (key : string) (reqs : list (string * Time)) (now : Time)
    (Hrps : (0 < rps)%Q) (Hburst : (1 <= burst)%Q) (Hsafe : sweep_safe rps burst)
    (Hord : in_order now reqs) :
  (inject_Z (admitted key (snd (serve rps burst newMemoryStore reqs))) <=
   burst + secs (last_time now reqs - now) * rps)%Q.
Proof.
  pose proof (serve_potential rps burst Hrps Hburst key reqs newMemoryStore now Hsafe) as Hp.
  unfold budget in Hp at 1. simpl visitors in Hp. rewrite lookup_empty in Hp.
  apply Hp; [|done]. intros k v Hk. simpl in Hk. by rewrite lookup_empty in Hk.
Qed.

(** No client is shut out for good: whatever it did before, a client that
    stays away for [1/rps] seconds has its next request admitted. *)
Theorem waiting_suffices (rps burst : Q) (s : memoryStore Q) (key : string) (now now' : Time)
    (Hrps : (0 < rps)%Q) (Hburst : (1 <= burst)%Q)
    (Hsafe : sweep_safe rps burst) (Hok : store_ok burst s now)
    (Hwait : (1 <= secs (now' - now) * rps)%Q) (Hrange : now <= now' <= now + maxInt64) :
  snd (allow s key rps burst now') = true.
Proof.
  assert (Hle : now <= now') by lia.
  assert (Hok' := store_ok_later burst s now now' Hok Hle).
  change (allow s key rps burst now') with (memoryStore_allow s key rps burst now').
  rewrite (allow_budget rps burst Hrps Hburst s key now' Hsafe Hok'). apply Qle_bool_iff.
  unfold budget. destruct (visitors s !! key) as [v|] eqn:Ev; [|done].
  destruct (Hok _ _ Ev) as (H0 & _ & Hl).
  destruct (refill_exact rps burst v now') as (_ & _ & [Hr|Hr]); [lra|].
  rewrite Hr. unfold uncapped.
  assert (Hd : now' - now <= Sub now' (lastSeen v)) by (unfold Sub; cases; int_lia).
  pose proof (secs_mul rps Hrps _ _ Hd). lra.
Qed.

(** In the arithmetic the code runs, IEEE rounding included, a burst below one
    refuses every request of a known client, however long it waited, as long as
    the client is not evicted: the refilled bucket is capped below one token. *)
Theorem sub_unit_burst_denies {F} `{GoFloatOrder F} (s : memoryStore F) (key : string)
    (v : visitor F) (rps burst : F) (now : Time)
    (Hburst : fltb burst (fofZ 1) = true)
    (Hknown : visitors s !! key = Some v) (Hfresh : stale now v = false)
    (Hnum : number (refill v rps burst now)) :
  snd (allow s key rps burst now) = false /\
  exists t, visitors (fst (allow s key rps burst now)) !! key = Some (mkVisitor t now).
Proof.
  change (allow s key rps burst now) with (memoryStore_allow s key rps burst now).
  split; [|rewrite memoryStore_allow_lookup; by eexists].
  rewrite memoryStore_allow_unfold. simpl.
  assert (Hsw : swept s now !! key = Some v).
  { unfold swept. case_match; [|done]. by apply sweepLocked_lookup. }
  rewrite Hsw, negb_false_iff.
  destruct (ltb_number _ _ Hburst) as [Hb _].
  eapply leb_ltb_trans; [|exact Hburst].
  apply not_ltb; [done..|]. by apply refill_capped.
Qed.

(** C15. The window of the distributed store: between two expiries of its counter,
    a key is admitted at most [limit] times in the whole cluster, where [limit]
    is the burst truncated and at least one. *)
Theorem window_limit `{Platform} {F} `{GoFloat F} {DB} `{SugarDBLaws DB}
    (key : string) (rps burst : F) (db db' : DB) (oks : list (string * bool))
    (Hw : window key rps burst db oks db') (Hzero : counter db key = 0) :
  admitted key oks <= sugar_limit burst.
Proof. apply window_bound in Hw. pose proof (sugar_limit_pos burst). lia. Qed.

(** Increment and expiry are not one action, and a failed expiry is never
    retried: if the first [Expire] of a key fails, the key's counter is never
    due to expire again, and once it has reached the limit every further request
    of that key is refused, for ever. *)
Theorem failed_expire_locks_out `{Platform} {F} `{GoFloat F} {DB} `{SugarDBLaws DB}
    (key : string) (rps burst : F) (db db1 db2 db3 db4 : DB) (now : Time) (ok : bool)
    (Hfresh : expires db key = false)
    (Hincr : Incr db key = (db1, Ok 1)) (Hexp : Expire db1 key 1 = (db2, Err tt))
    (Hlater : later key rps burst db2 db3) (Hreached : sugar_limit burst <= counter db3 key)
    (Hnext : sugarDBStore_allow db3 key rps burst now = (db4, ok)) :
  sugarDBStore_allow db key rps burst now = (db2, false) /\
  ok = false /\ expires db4 key = false /\ sugar_limit burst <= counter db4 key.
Proof.
  assert (Hst : stuck key db2).
  { destruct (Incr_Ok _ _ _ _ Hincr) as (_ & Hc & Hx & _).
    destruct (Expire_expires _ _ _ _ _ Hexp) as [_ Hx2].
    split; [rewrite (Expire_counter _ _ _ _ _ Hexp); lia|congruence]. }
  destruct (later_stuck _ _ _ _ _ Hlater Hst) as [Hst3 _].
  destruct (sugar_allow_stuck _ _ _ _ _ _ _ _ Hst3 Hnext) as [[Hc4 Hx4] Hmono].
  destruct (sugar_allow_counter _ _ _ _ _ _ _ Hnext) as (_ & _ & Hok).
  split_and!; [|destruct ok; [specialize (Hok eq_refl); lia|done]|done|lia].
  unfold sugarDBStore_allow. by rewrite Hincr, Hexp.
Qed.

(** ** Two configurations the code accepts, in the arithmetic it runs *)

Definition half : float64 := fdiv (fofZ 1) (fofZ 2).

(** One request per second of a single client. *)
Definition every_second (from n : nat) : list (string * Time) :=
  (fun i => ("10.0.0.1"%string, Z.of_nat (S i) * Second)) <$> seq from n.

Definition drained (x : float64) : Prop := x = fsub half (fofZ 1) \/ x = fofZ 0 \/ x = half.

Lemma drained_refill x t t' :
  drained x -> Sub t' t = Second ->
  drained (refill (mkVisitor x t) half half t') /\
  fltb (refill (mkVisitor x t) half half t') (fofZ 1) = true.
Proof.
  intros Hx Hs. unfold refill, drained. simpl tokens. simpl lastSeen. rewrite Hs.
  destruct Hx as [-> | [-> | ->]]; split; vm_compute; tauto.
Qed.

Lemma drained_serve n i s x :
  visitors s !! "10.0.0.1"%string = Some (mkVisitor x (Z.of_nat i * Second)) ->
  drained x -> Z.of_nat (i + n) < 1000000000 ->
  admitted "10.0.0.1" (snd (serve half half s (every_second i n))) = 0.
Proof.
  revert i s x. induction n as [|n IH]; intros i s x Hv Hx Hrange; [done|].
  assert (Hs : Sub (Z.of_nat (S i) * Second) (Z.of_nat i * Second) = Second).
  { rewrite Sub_exact; [lia|]. replace (Z.of_nat (S i) * Second - Z.of_nat i * Second) with Second by lia.
    by vm_compute. }
  destruct (drained_refill x _ _ Hx Hs) as [Hd Hlt].
  assert (Hsw : swept s (Z.of_nat (S i) * Second) !! "10.0.0.1"%string = Some (mkVisitor x (Z.of_nat i * Second))).
  { unfold swept. case_match; [|done]. apply sweepLocked_lookup. split; [done|].
    unfold stale. simpl lastSeen. by rewrite Hs. }
  cbn [every_second seq fmap list_fmap serve]. rewrite memoryStore_allow_unfold.
  cbv zeta. rewrite Hsw, Hlt. cbn [negb].
  match goal with |- context [serve half half ?s' _] => set (s1 := s') end.
  specialize (IH (S i) s1 _ (lookup_insert_eq _ _ _) Hd ltac:(lia)).
  change (_ <$> seq (S i) n) with (every_second (S i) n).
  destruct (serve half half s1 (every_second (S i) n)) as [s2 oks]. simpl in *. by rewrite IH.
Qed.

(** [requests_per_second: 0.5] with no [burst] is accepted and gives a burst of
    0.5: a client sending one request per second is admitted once and never
    again, although the configured rate allows every other request. *)
Theorem half_rate_admits_once (n : nat) (Hn : Z.of_nat n < 100000000) :
  admitted "10.0.0.1" (snd (serve half half newMemoryStore (every_second 0 (S n)))) = 1.
Proof.
  cbn [every_second seq fmap list_fmap serve].
  rewrite memoryStore_allow_unfold. cbv zeta.
  rewrite (eq_refl : swept (F := float64) newMemoryStore (Z.of_nat 1 * Second) !! _ = None).
  cbn beta iota.
  match goal with |- context [serve half half ?s' _] => set (s1 := s') end.
  change (_ <$> seq 1 n) with (every_second 1 n).
  pose proof (drained_serve n 1 s1 (fsub half (fofZ 1)) (lookup_insert_eq _ _ _)
    (or_introl eq_refl) ltac:(lia)) as Hrest.
  destruct (serve half half s1 (every_second 1 n)) as [s2 oks]. simpl in *. by rewrite Hrest.
Qed.

(** Evicting a stale visitor gives it a full bucket: with [burst: 100] and
    [requests_per_second: 0.001], a client whose bucket is empty is refused ten
    minutes later, unless its request happens to be the one that sweeps, in which
    case it is admitted with 99 more requests to spend at once. *)
Theorem sweep_refills_early :
  exists (v : visitor float64) (rps burst : float64) (now : Time) (sweeping : Z),
    let store n := mkMemoryStore {["10.0.0.1"%string := v]} n in
    stale now v = true /\
    snd (allow (store 0) "10.0.0.1" rps burst now) = false /\
    snd (allow (store sweeping) "10.0.0.1" rps burst now) = true /\
    visitors (fst (allow (store sweeping) "10.0.0.1" rps burst now)) !! "10.0.0.1"%string =
      Some (mkVisitor (fofZ 99) now).
Proof.
  exists (mkVisitor (fofZ 0) Second), (fdiv (fofZ 1) (fofZ 1000)), (fofZ 100), (602 * Second), 999.
  by vm_compute.
Qed.
