(* ===== verification/RateLimitRound.v ===== *)
(** * The token bucket in floating point

    [memoryStore.allow] (gateway/internal/plugin/rate_limiting.go) computes in binary64:
    every refill and every token taken is rounded. How far that can move a bucket
    from the ideal one of exact arithmetic. *)

From S2P Require Import Prelude GoInt GoFloat GoFloatRound RateLimit.
From Stdlib Require Import QArith Qminmax Lqa.
#[local] Open Scope Z_scope.

(** ** Rounding of one refill *)

Section rounding.
Context {F : Type} `{GoFloatRounds F} (rps burst : F).
Context (Hfr : finite rps = true) (Hfb : finite burst = true).
Context (Hrps : (0 < value rps)%Q) (Hburst : (1 <= value burst)%Q).
(** The longest time the bucket computes with. *)
Context (span : Z) (Hspan : 0 <= span <= maxInt64).

(** What the numbers involved stay below, and the most one call is off by. *)
Definition magnitude : Q := (1 + value burst + (secs span + 3) * value rps)%Q.
Definition drift : Q := (8 * ulp F * magnitude)%Q.

Context (Hsize : (magnitude <= pow2 990)%Q) (Hdrift : (drift <= 1)%Q).

Lemma secs_nonneg d : 0 <= d -> (0 <= secs d)%Q.
Proof. intros. unfold secs, Qle. simpl. lia. Qed.

Lemma magnitude_burst : (0 <= secs span /\ value burst + 1 <= magnitude /\ 2 + (secs span + 3) * value rps <= magnitude /\
  3 * value rps <= magnitude /\ 0 <= secs span * value rps)%Q.
Proof.
  pose proof (secs_nonneg span ltac:(lia)) as Hs. assert (0 <= secs span * value rps)%Q by (apply Qmult_le_0_compat; lra).
  unfold magnitude. split_and!; lra.
Qed.

Lemma ulp_magnitude : (0 <= ulp F * magnitude)%Q.
Proof. pose proof magnitude_burst. apply Qmult_le_0_compat; [apply (ulp_small F)|lra]. Qed.

Lemma magnitude_huge c : (0 <= c <= 4)%Q -> (c * magnitude <= huge)%Q.
Proof.
  intros Hc. pose proof magnitude_burst. apply Qle_trans with (4 * magnitude)%Q; [apply Qmult_le_compat_r; lra|].
  apply Qle_trans with (4 * pow2 990)%Q; [lra|by vm_compute].
Qed.

Lemma secs_small : (secs span <= 10000000000)%Q.
Proof. unfold secs, Qle. simpl. int_lia. Qed.

Lemma Seconds_near d :
  - span <= d <= span ->
  finite (Seconds d) = true /\ (0 <= d -> (0 <= value (Seconds d))%Q) /\
  (- (ulp F * (secs span + 3)) <= value (Seconds d) - secs d <= ulp F * (secs span + 3))%Q.
Proof.
  intros Hd. unfold Seconds. change Second with 1000000000.
  assert (Hqr : d = 1000000000 * Z.quot d 1000000000 + Z.rem d 1000000000) by apply Z.quot_rem'.
  assert (Hr : - 1000000000 < Z.rem d 1000000000 < 1000000000) by (pose proof (Z.rem_bound_abs d 1000000000); lia).
  destruct (fofZ_value (Z.quot d 1000000000)) as [Fq Vq]; [int_lia|].
  destruct (fofZ_value (Z.rem d 1000000000)) as [Fr Vr]; [int_lia|].
  destruct (fofZ_value 1000000000) as [Fs Vs]; [by vm_compute|].
  revert Vq Vr Vs. set (q := Z.quot _ _) in *. set (r := Z.rem _ _) in *. intros Vq Vr Vs.
  pose proof magnitude_burst as (Hs0 & _). pose proof (ulp_small F) as Hu. pose proof secs_add.
  assert (Hsecs : (secs d == inject_Z q + inject_Z r / inject_Z 1000000000)%Q).
  { rewrite Hqr. unfold secs, Qeq, Qdiv, Qinv, Qmult, Qplus. simpl. lia. }
  assert (Hfrac : (- (1) <= inject_Z r / inject_Z 1000000000 <= 1)%Q) by (split; unfold Qle; simpl; lia).
  assert (Hspan' : (- secs span <= secs d <= secs span)%Q) by (unfold secs; split; unfold Qle; simpl; lia).
  destruct (fdiv_near (fofZ r) (fofZ 1000000000) Fr Fs) as (Fd & Sd & Hd1).
  { rewrite Vs. by vm_compute. }
  { rewrite Vr, Vs. assert (1 <= huge)%Q by by vm_compute. lra. }
  specialize (Hd1 1%Q (Qle_refl _)). rewrite Vr, Vs in Hd1. specialize (Hd1 Hfrac).
  assert (Hu1 : (ulp F <= 1)%Q) by (apply Qle_trans with ulp64; [apply Hu|by vm_compute]).
  destruct (fadd_near (fofZ q) (fdiv (fofZ r) (fofZ 1000000000)) Fq Fd) as (Fa & Sa & Ha).
  { rewrite Vq. assert (secs span + 2 <= huge)%Q; [|lra]. pose proof secs_small. assert (10000000002 <= huge)%Q by by vm_compute. lra. }
  split; [done|]. split.
  { intros Hd0. apply Sa. rewrite Vq. assert (0 <= value (fdiv (fofZ r) (fofZ 1000000000 : F)))%Q.
    - apply Sd. rewrite Vr, Vs. apply Qle_shift_div_l; [done|]. pose proof (Z.rem_nonneg d 1000000000). unfold Qle. simpl. lia.
    - assert (0 <= inject_Z q)%Q; [|lra]. rewrite <- (Zle_Qle 0). apply Z.quot_pos; lia. }
  specialize (Ha (secs span + 2)%Q). rewrite Vq in Ha.
  pose proof (Ha ltac:(lra) ltac:(lra)). lra.
Qed.

Lemma ulp_le c : (0 <= c <= 100000000000)%Q -> (0 <= ulp F * c <= 1)%Q.
Proof.
  intros [Hc1 Hc2]. pose proof (ulp_small F) as [H1 H2]. split; [by apply Qmult_le_0_compat|].
  apply Qle_trans with (ulp64 * 100000000000)%Q; [|by vm_compute]. by apply Qmult_le_compat_nonneg.
Qed.

(** The time since the last request, in tokens. *)
Lemma gain_near d :
  - span <= d <= span ->
  let p := fmul (Seconds d) rps in
  finite p = true /\ (0 <= d -> (0 <= value p)%Q) /\
  (- (2 * (ulp F * magnitude)) <= value p - secs d * value rps <= 2 * (ulp F * magnitude))%Q /\
  (- magnitude <= value p <= magnitude)%Q.
Proof.
  intros Hd p. destruct (Seconds_near d Hd) as (Fs & Hsign & Hs). pose proof magnitude_burst as (Hs0 & Hm1 & Hm2 & Hm3 & Hm4).
  pose proof secs_small as Hsmall. pose proof (ulp_le (secs span + 3) ltac:(lra)) as Hu1.
  assert (Hspan' : (- secs span <= secs d <= secs span)%Q) by (unfold secs; split; unfold Qle; simpl; lia).
  set (e := (ulp F * (secs span + 3))%Q) in *.
  assert (Her : (e * value rps <= ulp F * magnitude)%Q).
  { unfold e. rewrite <- Qmult_assoc. rewrite (Qmult_comm (ulp F)), (Qmult_comm (ulp F)).
    apply Qmult_le_compat_r; [lra|apply (ulp_small F)]. }
  assert (Hmul : forall a b, (a <= b -> a * value rps <= b * value rps)%Q) by (intros; apply Qmult_le_compat_r; lra).
  pose proof (Hmul _ _ (proj1 Hs)) as Hl. pose proof (Hmul _ _ (proj2 Hs)) as Hr.
  pose proof (Hmul _ _ (proj1 Hspan')). pose proof (Hmul _ _ (proj2 Hspan')). pose proof (Hmul _ _ (proj2 Hu1)).
  pose proof (magnitude_huge 1 ltac:(lra)).
  destruct (fmul_near (Seconds d) rps Fs Hfr) as (Fp & Sp & Hp); [lra|]. specialize (Hp magnitude ltac:(lra) ltac:(lra)).
  unfold drift in Hdrift. subst p. split_and!; [done|intros Hd0; apply Sp, Qmult_le_0_compat; [by apply Hsign|lra]|lra..].
Qed.

(** What the visitor has at [now], before the cap, in exact arithmetic. *)
Definition refilled (v : visitor F) (now : Time) : Q :=
  (value (tokens v) + secs (now - lastSeen v) * value rps)%Q.

Lemma refill_near v now :
  finite (tokens v) = true -> (- magnitude <= value (tokens v) <= magnitude)%Q ->
  - span <= now - lastSeen v <= span ->
  let t := refill v rps burst now in
  finite t = true /\ ((0 <= value (tokens v))%Q -> lastSeen v <= now -> (0 <= value t)%Q) /\
  (value t <= value burst)%Q /\ (value t <= refilled v now + 4 * (ulp F * magnitude))%Q /\
  ((value t == value burst)%Q \/ (refilled v now - 4 * (ulp F * magnitude) <= value t)%Q).
Proof.
  intros Fv Hv Hd. unfold refill, refilled. rewrite Sub_exact by int_lia.
  destruct (gain_near (now - lastSeen v) Hd) as (Fp & Hsign & Hp & Hpm). set (p := fmul _ rps) in *.
  pose proof (magnitude_huge 2 ltac:(lra)). pose proof ulp_magnitude. pose proof magnitude_burst as (_ & Hm & _).
  destruct (fadd_near (tokens v) p Fv Fp) as (Ft & St & Ht); [lra|].
  specialize (Ht (2 * magnitude)%Q ltac:(lra) ltac:(lra)).
  destruct (fltb burst _) eqn:E; cbv zeta.
  - apply (fltb_value _ _ Hfb Ft) in E. split_and!; [done|intros; lra|lra|lra|left; lra].
  - assert (Hcap : ~ (value burst < value (fadd (tokens v) p))%Q) by (intros Hlt; apply fltb_value in Hlt; congruence).
    apply Qnot_lt_le in Hcap. split_and!; [done| |done|lra|right; lra].
    intros Hv0 Hl. apply St. pose proof (Hsign ltac:(lia)). lra.
Qed.

Lemma one_value : finite (fofZ 1 : F) = true /\ (value (fofZ 1 : F) == 1)%Q.
Proof. by apply (fofZ_value 1). Qed.

Lemma fltb_one t : finite t = true -> if fltb t (fofZ 1) then (value t < 1)%Q else (1 <= value t)%Q.
Proof.
  intros Ft. destruct one_value as [F1 V1]. destruct (fltb t (fofZ 1)) eqn:E.
  - apply (fltb_value _ _ Ft F1) in E. by rewrite V1 in E.
  - apply Qnot_lt_le. rewrite <- V1 at 1. intros Hlt. apply fltb_value in Hlt; congruence.
Qed.

(** Taking one token. *)
Lemma take_near t :
  finite t = true -> (1 <= value t <= value burst)%Q ->
  finite (fsub t (fofZ 1)) = true /\ (0 <= value (fsub t (fofZ 1)))%Q /\
  (- (ulp F * magnitude) <= value (fsub t (fofZ 1)) - (value t - 1) <= ulp F * magnitude)%Q.
Proof.
  intros Ft Ht. destruct one_value as [F1 V1]. pose proof magnitude_burst as (_ & Hm & _).
  pose proof (magnitude_huge 1 ltac:(lra)).
  destruct (fsub_near t (fofZ 1) Ft F1) as (Fs & Ss & Hs); [rewrite V1; lra|]. split; [done|]. split; [apply Ss; rewrite V1; lra|].
  specialize (Hs magnitude ltac:(lra)). rewrite V1 in Hs. apply Hs. lra.
Qed.

End rounding.

(** ** One call against the ideal bucket *)

Section call.
Context {F : Type} `{GoFloatRounds F} (rps burst : F).
Context (Hfr : finite rps = true) (Hfb : finite burst = true).
Context (Hrps : (0 < value rps)%Q) (Hburst : (1 <= value burst)%Q).
Context (span : Z) (Hspan : 0 <= span <= maxInt64).
Context (Hsize : (magnitude rps burst span <= pow2 990)%Q) (Hdrift : (drift rps burst span <= 1)%Q).
Implicit Types (s : memoryStore F) (v : visitor F).

(** What the ideal bucket holds that starts from the visitor the store has: it gains
    [rps] tokens a second and holds at most [burst]. *)
Definition level s (key : string) (now : Time) : Q :=
  match visitors s !! key with
  | None => value burst
  | Some v => Qmin (value burst) (refilled rps v now)
  end.

(** Every bucket holds a number of tokens from none to the burst, and was last used at
    most [span] ago. *)
Definition bucket_ok v (now : Time) : Prop :=
  finite (tokens v) = true /\ (0 <= value (tokens v) <= value burst)%Q /\ now - span <= lastSeen v <= now.

Definition buckets_ok s (now : Time) : Prop := forall k v, visitors s !! k = Some v -> bucket_ok v now.

Context (Hsafe : (value burst <= secs staleAfter * value rps)%Q).

Lemma swept_level s key now :
  buckets_ok s now ->
  (match swept s now !! key with None => value burst | Some v => Qmin (value burst) (refilled rps v now) end
   == level s key now)%Q.
Proof.
  intros Hok. unfold level. destruct (swept s now !! key) as [v|] eqn:E; [by rewrite (swept_Some _ _ _ _ E)|].
  apply swept_None in E as [->|(v & E & Hst)]; [done|]. rewrite E. destruct (Hok _ _ E) as (_ & Ht & Hl).
  unfold stale in Hst. rewrite Sub_exact in Hst by int_lia. apply Z.ltb_lt in Hst. rewrite Qmin_l; [done|].
  pose proof (secs_mul _ Hrps _ _ (Z.lt_le_incl _ _ Hst)). unfold refilled. lra.
Qed.

Lemma level_now t now : (value t <= value burst)%Q -> (Qmin (value burst) (refilled rps (mkVisitor t now) now) == value t)%Q.
Proof.
  intros Ht. unfold refilled. cbn [tokens lastSeen]. rewrite Z.sub_diag.
  assert (Hz : (secs 0 * value rps == 0)%Q) by (unfold secs, Qeq; simpl; lia). rewrite Hz, Qmin_r; lra.
Qed.

(** The tokens a call finds. *)
Definition found s key now : F :=
  match swept s now !! key with None => burst | Some v => refill v rps burst now end.

Lemma found_near s key now :
  buckets_ok s now ->
  finite (found s key now) = true /\ (0 <= value (found s key now) <= value burst)%Q /\
  (- (4 * (ulp F * magnitude rps burst span)) <= value (found s key now) - level s key now <=
   4 * (ulp F * magnitude rps burst span))%Q.
Proof.
  intros Hok. rewrite <- (swept_level s key now Hok).
  pose proof (ulp_magnitude rps burst Hrps Hburst span Hspan) as Hu.
  pose proof (magnitude_burst rps burst Hrps Hburst span Hspan) as (_ & Hm & _).
  unfold found. destruct (swept s now !! key) as [v|] eqn:E; [|split_and!; [done|lra..]].
  apply swept_Some, Hok in E as (Fv & Hv & Hl).
  destruct (refill_near rps burst Hfr Hfb Hrps Hburst span Hspan Hsize Hdrift v now Fv ltac:(lra) ltac:(lia))
    as (Ft & Hsign & Hcap & Hle & Heq). cbv zeta in *. specialize (Hsign ltac:(lra) ltac:(lia)).
  split_and!; [done|done|done| |]; destruct (Q.min_spec (value burst) (refilled rps v now)) as [[Hlt ->]|[Hge ->]];
    destruct Heq; lra.
Qed.

Lemma buckets_ok_later s now key v :
  buckets_ok s now -> bucket_ok v now -> forall calls, buckets_ok (mkMemoryStore (<[key := v]> (swept s now)) calls) now.
Proof.
  intros Hok Hv c k w. cbn [visitors]. intros [[<- <-]|[_ Hw]]%lookup_insert_Some; [done|]. by apply (Hok k), (swept_Some s now).
Qed.

Lemma call_rounded s key now :
  buckets_ok s now ->
  let '(s', ok) := memoryStore_allow s key rps burst now in
  (if ok then 1 - drift rps burst span <= level s key now else level s key now < 1 + drift rps burst span)%Q /\
  (- drift rps burst span <= level s' key now - (level s key now - (if ok then 1 else 0)) <= drift rps burst span)%Q /\
  (forall key', key' <> key -> (level s' key' now == level s key' now)%Q) /\
  buckets_ok s' now.
Proof.
  intros Hok. destruct (found_near s key now Hok) as (Ft & Ht & Hl).
  assert (Hd : (drift rps burst span == 8 * (ulp F * magnitude rps burst span))%Q) by (unfold drift; ring).
  pose proof (ulp_magnitude rps burst Hrps Hburst span Hspan) as Hu.
  pose proof (fltb_one (found s key now) Ft) as Hone.
  assert (Hall : memoryStore_allow s key rps burst now =
    let ok := negb (fltb (found s key now) (fofZ 1)) in
    (mkMemoryStore (<[key := mkVisitor (if ok then fsub (found s key now) (fofZ 1) else found s key now) now]> (swept s now))
       (wrapu64 (calls s + 1)), ok)).
  { rewrite memoryStore_allow_unfold. unfold found in *. destruct (swept s now !! key) as [v|]; [done|].
    cbv zeta. destruct (fltb burst (fofZ 1)); [lra|done]. }
  rewrite Hall. cbv zeta.
  set (t' := if negb (fltb (found s key now) (fofZ 1)) then fsub (found s key now) (fofZ 1) else found s key now).
  assert (Ht' : finite t' = true /\ (0 <= value t' <= value burst)%Q /\
    (- (ulp F * magnitude rps burst span) <= value t' - (value (found s key now) -
       (if negb (fltb (found s key now) (fofZ 1)) then 1 else 0)) <= ulp F * magnitude rps burst span)%Q).
  { subst t'. destruct (fltb (found s key now) (fofZ 1)); cbn [negb]; [split_and!; [done|lra..]|].
    destruct (take_near rps burst Hrps Hburst span Hspan Hsize _ Ft ltac:(lra)) as (Fs & Hf0 & Hs). split_and!; [done|lra..]. }
  destruct Ht' as (Ft' & Hb' & Hn'). split_and!.
  - destruct (fltb (found s key now) (fofZ 1)); cbn [negb]; lra.
  - unfold level at 1. cbn [visitors]. rewrite lookup_insert_eq, level_now by lra. lra.
  - unfold level at 1. cbn [visitors]. rewrite lookup_insert_eq, level_now by lra. lra.
  - intros key' Hne. rewrite <- (swept_level s key' now Hok). unfold level. cbn [visitors]. by rewrite lookup_insert_ne.
  - apply buckets_ok_later; [done|]. unfold bucket_ok. cbn [tokens lastSeen]. split_and!; [done|lra|lra|lia..].
Qed.

End call.

(** ** Properties *)

(** C21. The in-memory store is the ideal token bucket, up to rounding, in the binary64
    arithmetic the code runs. Let [level] be the tokens of a key's ideal bucket, which
    gains [rps] a second and holds at most [burst]. A request is admitted only if its
    bucket has a full token, and refused only if it has not, to within [drift], that
    is [2^-49] of the magnitude of the numbers involved; an admitted request spends
    one token and a refused one none, again to within [drift]; no other key's bucket
    changes at all, evictions included; and the buckets stay between empty and full,
    finite and never NaN. The hypothesis [Hsafe] says an idle bucket refills within the
    ten minutes after which it may be evicted. *)
Theorem allow_rounded (rps burst : float64) (s : memoryStore float64) (key : string) (now : Time) (span : Z)
    (Hfinite : finite rps = true /\ finite burst = true)
    (Hrps : (0 < value rps)%Q) (Hburst : (1 <= value burst)%Q) (Hspan : 0 <= span <= maxInt64)
    (Hsize : (magnitude rps burst span <= pow2 990)%Q) (Hdrift : (drift rps burst span <= 1)%Q)
    (Hsafe : (value burst <= secs staleAfter * value rps)%Q)
    (Hok : buckets_ok burst span s now) :
  let '(s', ok) := allow s key rps burst now in
  (if ok then 1 - drift rps burst span <= level rps burst s key now
   else level rps burst s key now < 1 + drift rps burst span)%Q /\
  (- drift rps burst span <=
   level rps burst s' key now - (level rps burst s key now - (if ok then 1 else 0)) <=
   drift rps burst span)%Q /\
  (forall key', key' <> key -> (level rps burst s' key' now == level rps burst s key' now)%Q) /\
  buckets_ok burst span s' now.
Proof.
  destruct Hfinite as [Hfr Hfb]. by apply call_rounded.
Qed.
