(* ===== verification/Mutex.v ===== *)
(** * Critical sections

    Every object the handlers share is guarded by a [sync.Mutex]: a method locks
    it, acts on the object step by step, and unlocks it on return. Here calls
    interleave step by step; that only one is ever inside its critical section,
    and that the object is at all times what the calls made so far leave it in
    one after the other, in the order in which they took the lock, is proved once
    for any object and any methods. *)

From S2P Require Import Prelude.
From stdpp Require Import relations.

Section mutex.
(** The guarded state, the calls that can be made, and the steps of each between
    [Lock] and [Unlock]. *)
Context {S C : Type} (body : C -> list (S -> S)).

Inductive mpc :=
| Waiting (c : C)                        (* before [Lock] *)
| Inside (rest : list (S -> S))          (* steps left before [Unlock] *)
| Left.

Record msys := mkMsys {
  shared : S;
  owner : option nat;                    (* the goroutine that holds the mutex *)
  callers : gmap nat mpc
}.

(** One step of one goroutine; [Some c] when [c] takes the lock. Only [Lock] looks
    at the mutex: nothing but the protocol keeps the others out. *)
Inductive mstep : msys -> option C -> msys -> Prop :=
| mstep_call t c s o ts :
    ts !! t = None -> mstep (mkMsys s o ts) None (mkMsys s o (<[t := Waiting c]> ts))
| mstep_lock t c s ts :
    ts !! t = Some (Waiting c) ->
    mstep (mkMsys s None ts) (Some c) (mkMsys s (Some t) (<[t := Inside (body c)]> ts))
| mstep_act t f rest s o ts :
    ts !! t = Some (Inside (f :: rest)) ->
    mstep (mkMsys s o ts) None (mkMsys (f s) o (<[t := Inside rest]> ts))
| mstep_unlock t s o ts :
    ts !! t = Some (Inside []) ->
    mstep (mkMsys s o ts) None (mkMsys s None (<[t := Left]> ts)).

(** [mreach s0 hist σ]: [σ] is reached from [s0], the calls [hist] having taken the
    lock, in that order. *)
Inductive mreach (s0 : S) : list C -> msys -> Prop :=
| mreach_init : mreach s0 [] (mkMsys s0 None ∅)
| mreach_step hist l σ σ' :
    mreach s0 hist σ -> mstep σ l σ' -> mreach s0 (hist ++ option_list l) σ'.

(** Steps, and whole calls, one after the other. *)
Definition run_actions (fs : list (S -> S)) (s : S) : S := foldl (fun s f => f s) s fs.
Definition run_calls (cs : list C) (s : S) : S := foldl (fun s c => run_actions (body c) s) s cs.

Lemma run_calls_snoc cs c s : run_calls (cs ++ [c]) s = run_actions (body c) (run_calls cs s).
Proof. unfold run_calls. by rewrite foldl_app. Qed.

Lemma run_actions_snoc fs f s : run_actions (fs ++ [f]) s = f (run_actions fs s).
Proof. unfold run_actions. by rewrite foldl_app. Qed.

(** What holds between the mutex, the goroutines and the object. *)
Definition minv (s0 : S) (hist : list C) (σ : msys) : Prop :=
  (forall t rest, callers σ !! t = Some (Inside rest) -> owner σ = Some t) /\
  match owner σ with
  | None => shared σ = run_calls hist s0
  | Some t => exists before c acts rest,
      hist = before ++ [c] /\ body c = acts ++ rest /\ callers σ !! t = Some (Inside rest) /\
      shared σ = run_actions acts (run_calls before s0)
  end.

Lemma minv_step s0 hist l σ σ' :
  minv s0 hist σ -> mstep σ l σ' -> minv s0 (hist ++ option_list l) σ'.
Proof.
  intros [Hin Hown] Hstep.
  inversion Hstep as [t c s o ts Ht|t c s ts Ht|t f rest s o ts Ht|t s o ts Ht]; subst; simpl in *;
    rewrite ?app_nil_r; (split; simpl; [intros t' rest'|]).
  - intros [[? ?]|[? ?]]%lookup_insert_Some; simplify_eq; eauto.
  - destruct o as [u|]; [|done]. destruct Hown as (before & c' & acts & rest & ? & ? & Hu & ?).
    exists before, c', acts, rest. split_and!; try done. by rewrite lookup_insert_ne by congruence.
  - intros [[-> _]|[_ Ht']]%lookup_insert_Some; [done|]. by specialize (Hin _ _ Ht').
  - exists hist, c, [], (body c). split_and!; try done. apply lookup_insert_eq.
  - intros [[<- _]|[_ Ht']]%lookup_insert_Some; eauto.
  - rewrite (Hin _ _ Ht) in *. destruct Hown as (before & c & acts & rest' & -> & Hb & Ht' & ->). simplify_eq.
    exists before, c, (acts ++ [f]), rest. rewrite run_actions_snoc, lookup_insert_eq, Hb, <- app_assoc. done.
  - intros [[_ ?]|[Hne Ht']]%lookup_insert_Some; [done|].
    pose proof (Hin _ _ Ht) as H1. pose proof (Hin _ _ Ht') as H2. congruence.
  - rewrite (Hin _ _ Ht) in *. destruct Hown as (before & c & acts & rest' & -> & Hb & Ht' & ->). simplify_eq.
    by rewrite run_calls_snoc, Hb, app_nil_r.
Qed.

Lemma mreach_inv s0 hist σ : mreach s0 hist σ -> minv s0 hist σ.
Proof.
  induction 1 as [|hist l σ σ' _ IH Hstep]; [|by eapply minv_step].
  split; [|done]. simpl. intros t rest Ht. by rewrite lookup_empty in Ht.
Qed.

(** At most one goroutine is inside. *)
Lemma mutual_exclusion s0 hist σ t t' rest rest' :
  mreach s0 hist σ -> callers σ !! t = Some (Inside rest) -> callers σ !! t' = Some (Inside rest') -> t = t'.
Proof. intros [Hin _]%mreach_inv Ht%Hin Ht'%Hin. congruence. Qed.

(** An invariant of the object that every step of every call preserves holds at
    every moment. *)
Lemma mreach_preserves (P : S -> Prop) s0 hist σ :
  P s0 -> (forall c s f, f ∈ body c -> P s -> P (f s)) -> mreach s0 hist σ -> P (shared σ).
Proof.
  intros H0 Hf Hr%mreach_inv.
  assert (Hacts : forall c fs s, (forall f, f ∈ fs -> f ∈ body c) -> P s -> P (run_actions fs s)).
  { intros c fs. induction fs as [|f fs IH]; intros s Hsub Hs; [done|]. simpl. apply IH.
    - intros f' Hf'. apply Hsub. by right.
    - apply (Hf c); [apply Hsub; by left|done]. }
  assert (Hcalls : forall cs s, P s -> P (run_calls cs s)).
  { induction cs as [|c cs IH]; intros s Hs; [done|]. simpl. apply IH. by apply (Hacts c). }
  destruct Hr as [_ Hown]. destruct (owner σ) as [t|]; [|rewrite Hown; by apply Hcalls].
  destruct Hown as (before & c & acts & rest & _ & Hb & _ & ->). apply (Hacts c); [|by apply Hcalls].
  intros f Hin. rewrite Hb. apply elem_of_app. by left.
Qed.

Lemma mreach_quiet s0 hist σ σ' : mreach s0 hist σ -> mstep σ None σ' -> mreach s0 hist σ'.
Proof. intros Hr Hs. rewrite <- (app_nil_r hist). by apply (mreach_step s0 hist None σ). Qed.

Lemma mreach_acts s0 hist t fs s ts :
  mreach s0 hist (mkMsys s (Some t) (<[t := Inside fs]> ts)) ->
  mreach s0 hist (mkMsys (run_actions fs s) (Some t) (<[t := Inside []]> ts)).
Proof.
  revert s ts. induction fs as [|f fs IH]; intros s ts Hr; [done|]. simpl. apply IH.
  apply (mreach_quiet _ _ _ _ Hr). rewrite <- (insert_insert_eq ts t (Inside fs) (Inside (f :: fs))).
  apply (mstep_act t f). apply lookup_insert_eq.
Qed.

(** Every order of calls is that of some run, in which they come one by one. *)
Lemma mreach_sequential s0 cs :
  exists ts, mreach s0 cs (mkMsys (run_calls cs s0) None ts).
Proof.
  induction cs as [|c cs [ts IH]] using rev_ind; [exists ∅; constructor|].
  set (t := fresh (dom ts)).
  assert (Ht : ts !! t = None) by (apply not_elem_of_dom, is_fresh).
  exists (<[t := Left]> (<[t := Inside []]> (<[t := Waiting c]> ts))).
  eapply mreach_quiet; [|apply mstep_unlock, lookup_insert_eq].
  rewrite run_calls_snoc. apply mreach_acts, (mreach_step _ _ (Some c) (mkMsys (run_calls cs s0) None (<[t := Waiting c]> ts))).
  - eapply mreach_quiet; [exact IH|]. by apply mstep_call.
  - apply mstep_lock, lookup_insert_eq.
Qed.

End mutex.

Arguments msys S C : clear implicits.
Arguments mpc S C : clear implicits.
