(* ===== verification/RateLimitConc.v ===== *)
(** * Rate limiting under concurrent requests

    [memoryStore.allow] (gateway/internal/plugin/rate_limiting.go) runs under the
    store's mutex, but each request reads its clock before it takes the lock: the
    readings come in the order of the lock only up to some skew. The bucket is in
    floating point, and every refill and every token taken is rounded. *)

From S2P Require Import Prelude GoInt GoFloat GoFloatRound RateLimit RateLimitRound Mutex.
From Stdlib Require Import QArith Lqa.
#[local] Open Scope Z_scope.

(** ** The store behind its mutex *)

(** The store, and the answers given so far, oldest first. *)
Definition limiter (F : Type) : Type := memoryStore F * list (string * bool).

Section body.
Context {F : Type} `{GoFloat F} (rps burst : F).

(** Between [Lock] and [Unlock]: count the call and sweep; then look at the bucket. *)
Definition sweep_step (now : Time) (l : limiter F) : limiter F :=
  (mkMemoryStore (swept l.1 now) (wrapu64 (calls l.1 + 1)), l.2).

Definition bucket_step (key : string) (now : Time) (l : limiter F) : limiter F :=
  let vs := visitors l.1 in
  match vs !! key with
  | None => (mkMemoryStore (<[key := mkVisitor (fsub burst (fofZ 1)) now]> vs) (calls l.1), l.2 ++ [(key, true)])
  | Some v =>
      let t := refill v rps burst now in
      if fltb t (fofZ 1) then (mkMemoryStore (<[key := mkVisitor t now]> vs) (calls l.1), l.2 ++ [(key, false)])
      else (mkMemoryStore (<[key := mkVisitor (fsub t (fofZ 1)) now]> vs) (calls l.1), l.2 ++ [(key, true)])
  end.

Definition allow_body (c : string * Time) : list (limiter F -> limiter F) := [sweep_step c.2; bucket_step c.1 c.2].

(** Together they are [allow]. *)
Lemma allow_body_run c l :
  run_actions (allow_body c) l =
  let '(s, ok) := memoryStore_allow l.1 c.1 rps burst c.2 in (s, l.2 ++ [(c.1, ok)]).
Proof.
  destruct l as [s log], c as [key now]. unfold run_actions, allow_body, sweep_step, bucket_step, memoryStore_allow.
  cbn [foldl fst snd visitors calls]. fold (swept s now). destruct (swept s now !! key) as [v|]; [|done].
  by destruct (fltb (refill v rps burst now) (fofZ 1)).
Qed.

(** Between two steps of a call the log is that of the calls before it, or of the
    calls up to it. *)
Lemma log_mid_call c acts rest l :
  allow_body c = acts ++ rest ->
  (run_actions acts l).2 = l.2 \/ (run_actions acts l).2 = (run_actions (allow_body c) l).2.
Proof.
  intros Hb. destruct acts as [|f [|g acts]]; [by left|..]; injection Hb as <-.
  - by left.
  - subst g. right. destruct acts; [done|]. by destruct acts.
Qed.

End body.

Lemma admitted_snoc key oks k ok :
  admitted key (oks ++ [(k, ok)]) = admitted key oks + (if bool_decide (k = key) && ok then 1 else 0).
Proof. induction oks as [|[k' ok'] oks IH]; cbn [admitted app]; [lia|]. rewrite IH. lia. Qed.

(** ** The account of one key *)

Section account.
Context {F : Type} `{GoFloatRounds F} (rps burst : F).
Context (Hfr : finite rps = true) (Hfb : finite burst = true).
Context (Hrps : (0 < value rps)%Q) (Hburst : (1 <= value burst)%Q).
(** The readings lie between [t0] and [t1]; none is more than [δ] behind one used
    before it; and an idle bucket is full by the time it is swept, skew included. *)
Context (key : string) (δ t0 t1 : Z) (Hδ : 0 <= δ) (Hrange : 0 <= t1 - t0 <= maxInt64).
Context (Hsafe : (value burst + secs (2 * δ) * value rps <= secs staleAfter * value rps)%Q).

Abbreviation magnitude := (magnitude rps burst (t1 - t0)).
Abbreviation drift := (drift rps burst (t1 - t0)).

Context (Hsize : (magnitude <= pow2 990)%Q) (Hdrift : (drift <= 1)%Q).

(** The tokens gained since [t0]. *)
Definition gained (t : Time) : Q := (secs (t - t0) * value rps)%Q.

(** What the visitor of the key, or its absence, says of the requests admitted,
    when rounding has added up to [e]; [l] is its part since the visitor was last
    known to have no fewer tokens than none; readings in order leave it with no fewer. *)
Definition accounted (e : Q) (n : Z) (o : option (visitor F)) (top : Time) : Prop :=
  match o with
  | Some v => t0 <= lastSeen v <= t1 /\ finite (tokens v) = true /\ (value (tokens v) <= value burst)%Q /\
      (δ = 0 -> (0 <= value (tokens v))%Q) /\ exists l m, (0 <= l <= e)%Q /\ (inject_Z n + value (tokens v) + l <= value burst + gained (lastSeen v) + 2 * e)%Q /\
        lastSeen v <= m <= lastSeen v + δ /\ m <= top /\ (gained (lastSeen v) - gained m - l <= value (tokens v))%Q
  | None => forall t, t0 <= t -> top - δ <= t -> (inject_Z n <= gained t + 2 * e)%Q
  end.

Lemma gained_mono a b : a <= b -> (gained a <= gained b)%Q.
Proof. intros H1. apply secs_mul; [done|lia]. Qed.

Lemma gained_diff a b d : b - a = d -> (gained b == gained a + secs d * value rps)%Q.
Proof.
  intros <-. unfold gained. rewrite Qplus_comm, <- secs_add. replace (b - a + (a - t0)) with (b - t0) by lia. reflexivity.
Qed.

Lemma gained_zero : (gained t0 == 0)%Q.
Proof. unfold gained. by rewrite Z.sub_diag. Qed.

Lemma accounted_later e n o top top' : accounted e n o top -> top <= top' -> accounted e n o top'.
Proof.
  intros Ha Htop. destruct o as [v|]; simpl in *.
  - destruct Ha as (? & ? & ? & ? & l & m & ? & ? & ? & ? & ?). split_and!; [lia..|done|done|done|].
    exists l, m. split_and!; [lra|lra|done|lia..|lia|done].
  - intros t H1 Ht. apply Ha; lia.
Qed.

Lemma accounted_more e e' n o top : (e <= e')%Q -> accounted e n o top -> accounted e' n o top.
Proof.
  intros He Ha. destruct o as [v|]; simpl in *.
  - destruct Ha as (? & ? & ? & ? & l & m & ? & ? & ? & ? & ?). split_and!; [lia..|done|done|done|].
    exists l, m. split_and!; [lra|lra|lra|lia|lia|lia|done].
  - intros t H1 Ht. specialize (Ha t H1 Ht). lra.
Qed.

(** A sweep takes away only what is full again. *)
Lemma accounted_swept e n s now top :
  accounted e n (visitors s !! key) top -> t0 <= now <= t1 -> now <= top -> top - δ <= now ->
  accounted e n (swept s now !! key) top.
Proof.
  intros Ha Hnow Htop Hlate. destruct (swept s now !! key) as [v|] eqn:E.
  - by rewrite (swept_Some _ _ _ _ E) in Ha.
  - apply swept_None in E as [E|(v & E & Hst)]; rewrite E in Ha; [done|].
    destruct Ha as (Hls & _ & _ & _ & l & m & Hl & Hn & Hm & Hmt & Ht). unfold stale in Hst. rewrite Sub_exact in Hst by int_lia.
    intros t Ht0 Hlt.
    pose proof (gained_mono (lastSeen v + staleAfter - δ) t ltac:(lia)) as H1.
    rewrite (gained_diff (lastSeen v) (lastSeen v + staleAfter - δ) (staleAfter + - δ) ltac:(lia)) in H1.
    pose proof (gained_mono m (lastSeen v + δ) ltac:(lia)) as H2.
    rewrite (gained_diff (lastSeen v) (lastSeen v + δ) δ ltac:(lia)) in H2.
    rewrite secs_add in H1. assert (secs (- δ) * value rps == - (secs δ * value rps))%Q as Hneg.
    { unfold secs, Qeq, Qmult, Qopp. simpl. lia. }
    assert (secs (2 * δ) * value rps == secs δ * value rps + secs δ * value rps)%Q as Htwo.
    { rewrite <- secs_add. replace (δ + δ) with (2 * δ) by lia. reflexivity. }
    lra.
Qed.

Lemma drift_eq : (drift == 8 * (ulp F * magnitude))%Q.
Proof. unfold RateLimitRound.drift. ring. Qed.

Lemma drift_nonneg : (0 <= drift)%Q.
Proof. rewrite drift_eq. pose proof (ulp_magnitude rps burst Hrps Hburst (t1 - t0) Hrange). lra. Qed.

(** The visitor after an admitted request that found [t] tokens. *)
Lemma taken_accounted e n t now top :
  finite t = true -> (1 <= value t <= value burst)%Q -> t0 <= now <= t1 -> now <= top -> (0 <= e)%Q ->
  (inject_Z n + value t <= value burst + gained now + 2 * e + 4 * (ulp F * magnitude))%Q ->
  accounted (e + drift) (n + 1) (Some (mkVisitor (fsub t (fofZ 1)) now)) top.
Proof.
  intros Ft Ht Hnow Htop He Hn. pose proof drift_eq.
  pose proof (ulp_magnitude rps burst Hrps Hburst (t1 - t0) Hrange).
  destruct (take_near rps burst Hrps Hburst (t1 - t0) Hrange Hsize t Ft Ht) as (Fs & Hz & Hs).
  cbn [accounted lastSeen tokens]. rewrite inject_Z_plus. change (inject_Z 1) with 1%Q.
  split_and!; [lia|lia|done|lra|done|]. exists drift, now. split_and!; [lra|lra|lra|lia|lia|lia|lra].
Qed.

(** Rounding that cannot take the tokens out of range: the readings are in order, or it
    adds up to a token at most. *)
Definition tolerable (e : Q) : Prop := δ = 0 \/ (e <= 1)%Q.

(** What a visitor that is accounted for may hold. *)
Lemma accounted_tokens e n v top :
  accounted e n (Some v) top -> tolerable e -> top <= t1 -> (- magnitude <= value (tokens v) <= magnitude)%Q.
Proof.
  intros (Hls & _ & Hcap & Hz & l & m & Hl & _ & Hm & Hmt & Ht) He Htop.
  pose proof (magnitude_burst rps burst Hrps Hburst (t1 - t0) Hrange) as (_ & H1 & H2 & _ & _).
  pose proof (gained_mono m t1 ltac:(lia)) as H3. pose proof (gained_mono t0 (lastSeen v) ltac:(lia)) as H4.
  rewrite gained_zero in H4. change (gained t1) with (secs (t1 - t0) * value rps)%Q in H3.
  destruct He as [Hd|He]; [specialize (Hz Hd)|]; lra.
Qed.

(** A call that finds the key's visitor. *)
Lemma refilled_accounted e n v now top :
  accounted e n (Some v) top -> (0 <= e)%Q -> tolerable e -> top <= t1 -> t0 <= now <= t1 -> now <= top -> top - δ <= now ->
  let t := refill v rps burst now in
  let ok := negb (fltb t (fofZ 1)) in
  accounted (e + drift) (n + if ok then 1 else 0) (Some (mkVisitor (if ok then fsub t (fofZ 1) else t) now)) top.
Proof.
  intros Ha He Htol Ht1 Hnow Htop Hlate t ok. pose proof (accounted_tokens e n v top Ha Htol Ht1) as Hv.
  destruct Ha as (Hls & Fv & _ & Hz & l & m & Hl & Hn & Hm & Hmt & Htok).
  destruct (refill_near rps burst Hfr Hfb Hrps Hburst (t1 - t0) Hrange Hsize Hdrift v now Fv Hv ltac:(lia)) as (Ft & Hsign & Hcap & Hle & Heq).
  fold t in Ft, Hsign, Hcap, Hle, Heq. unfold refilled in Hle, Heq.
  pose proof (gained_diff (lastSeen v) now _ eq_refl) as Hd. pose proof drift_eq.
  pose proof (ulp_magnitude rps burst Hrps Hburst (t1 - t0) Hrange).
  pose proof (fltb_one t Ft) as Hone. subst ok. destruct (fltb t (fofZ 1)); cbn [negb].
  - rewrite Z.add_0_r. destruct Heq as [Heq|Heq]; [lra|]. cbn [accounted lastSeen tokens].
    split_and!; [lia|lia|done|done|intros Hd0; apply Hsign; [by apply Hz|lia]|]. exists (l + drift)%Q. destruct (Z.le_gt_cases now m) as [Hc|Hc].
    + exists m. split_and!; [lra|lra|lra|lia|lia|lia|lra].
    + exists now. pose proof (gained_mono m now ltac:(lia)). split_and!; [lra|lra|lra|lia|lia|lia|lra].
  - apply taken_accounted; [done|lra|lia|lia|lra|lra].
Qed.

(** One call of any key. *)
Lemma accounted_call e n s k now top :
  accounted e n (visitors s !! key) top -> (0 <= e)%Q -> tolerable e -> top <= t1 -> t0 <= now <= t1 -> top - δ <= now ->
  let '(s', ok) := memoryStore_allow s k rps burst now in
  accounted (e + if bool_decide (k = key) then drift else 0) (n + if bool_decide (k = key) && ok then 1 else 0) (visitors s' !! key) (Z.max now top).
Proof.
  intros Ha%(accounted_later _ _ _ _ (Z.max now top)) He Htol Ht1 Hnow Hlate; [|lia].
  apply (accounted_swept _ _ _ now) in Ha; [|lia..].
  pose proof (memoryStore_allow_other s k key rps burst now) as Hother.
  pose proof (memoryStore_allow_lookup s k rps burst now) as Hself.
  rewrite memoryStore_allow_unfold in *. cbn beta iota zeta in *. cbn [fst snd] in *.
  destruct (decide (k = key)) as [->|Hne].
  - rewrite bool_decide_true, Hself by done. cbn [andb]. clear Hother Hself.
    destruct (swept s now !! key) as [v|] eqn:E.
    + apply refilled_accounted; [done|lra|done|lia..].
    + specialize (Ha now ltac:(lia) ltac:(lia)).
      pose proof (ulp_magnitude rps burst Hrps Hburst (t1 - t0) Hrange).
      apply taken_accounted; [done|lra|lia|lia|lra|lra].
  - rewrite bool_decide_false, Hother by done. cbn [andb]. rewrite Z.add_0_r.
    apply (accounted_more e); [lra|done].
Qed.

(** Any number of calls. *)
Fixpoint near_order (top : Time) (hist : list (string * Time)) : Prop :=
  match hist with
  | [] => True
  | (_, t) :: hist => top - δ <= t /\ t0 <= t <= t1 /\ near_order (Z.max t top) hist
  end.

Lemma near_order_prefix top h1 h2 : near_order top (h1 ++ h2) -> near_order top h1.
Proof. revert top. induction h1 as [|[k t] h1 IH]; intros top; simpl; [done|]. intros (? & ? & ?). auto. Qed.

(** How many of them are for the key. *)
Definition of_key (hist : list (string * Time)) : nat := length (base.filter (fun c => c.1 = key) hist).

Lemma of_key_cons k now hist : of_key ((k, now) :: hist) = ((if bool_decide (k = key) then 1 else 0) + of_key hist)%nat.
Proof.
  unfold of_key. case_bool_decide as Hk; [by rewrite filter_cons_True|by rewrite filter_cons_False].
Qed.

Lemma of_key_app h1 h2 : of_key (h1 ++ h2) = (of_key h1 + of_key h2)%nat.
Proof. unfold of_key. by rewrite filter_app, length_app. Qed.

(** The rounding of [n] calls. *)
Definition drifted (n : nat) : Q := (inject_Z (Z.of_nat n) * drift)%Q.

Lemma drifted_S n : (drifted (S n) == drifted n + drift)%Q.
Proof. unfold drifted. rewrite Nat2Z.inj_succ, <- Z.add_1_r, inject_Z_plus. change (inject_Z 1) with 1%Q. ring. Qed.

Lemma drifted_nonneg n : (0 <= drifted n)%Q.
Proof. apply Qmult_le_0_compat; [|apply drift_nonneg]. rewrite <- (Zle_Qle 0). lia. Qed.

Lemma drifted_mono m n : (m <= n)%nat -> (drifted m <= drifted n)%Q.
Proof. intros Hmn. apply Qmult_le_compat_r; [|apply drift_nonneg]. rewrite <- Zle_Qle. lia. Qed.

Lemma tolerable_less e e' : tolerable e' -> (e <= e')%Q -> tolerable e.
Proof. intros [Hd|He'] Hle; [by left|right; lra]. Qed.

Lemma accounted_calls hist e s log top :
  accounted e (admitted key log) (visitors s !! key) top -> (0 <= e)%Q -> tolerable (e + drifted (of_key hist)) ->
  top <= t1 -> near_order top hist ->
  let l := run_calls (allow_body rps burst) hist (s, log) in
  exists top', top' <= t1 /\ accounted (e + drifted (of_key hist)) (admitted key l.2) (visitors l.1 !! key) top'.
Proof.
  revert e s log top. induction hist as [|[k now] hist IH]; intros e s log top Ha He Hsum Htop Hnear.
  - exists top. split; [done|]. apply (accounted_more e); [|done]. pose proof (drifted_nonneg 0). change (of_key []) with 0%nat. lra.
  - destruct Hnear as (Hlate & Hnow & Hrest). unfold run_calls. cbn [foldl]. rewrite allow_body_run. cbn [fst snd] in *.
    set (d := if bool_decide (k = key) then drift else 0%Q).
    assert (Hd : (drifted (of_key ((k, now) :: hist)) == d + drifted (of_key hist))%Q).
    { rewrite of_key_cons. subst d. case_bool_decide; cbn [Nat.add]; [rewrite drifted_S|]; ring. }
    assert (Hd0 : (0 <= d)%Q) by (pose proof drift_nonneg; subst d; case_bool_decide; lra).
    pose proof (drifted_nonneg (of_key hist)).
    pose proof (accounted_call e _ s k now top Ha He (tolerable_less e _ Hsum ltac:(lra)) Htop Hnow Hlate) as Hc. fold d in Hc.
    destruct (memoryStore_allow s k rps burst now) as [s' ok].
    destruct (IH (e + d)%Q s' (log ++ [(k, ok)]) (Z.max now top)) as (top' & Ht' & Ha');
      [by rewrite admitted_snoc|lra|apply (tolerable_less _ _ Hsum); lra|lia|done|].
    exists top'. split; [done|]. apply (accounted_more (e + d + drifted (of_key hist))); [lra|done].
Qed.

Lemma accounted_bound e n o top :
  accounted e n o top -> top <= t1 -> (inject_Z n <= value burst + gained t1 + 2 * e)%Q.
Proof.
  intros Ha Htop. destruct o as [v|]; simpl in Ha.
  - destruct Ha as (Hls & _ & _ & _ & l & m & Hl & Hn & Hm & Hmt & Ht). pose proof (gained_mono m t1 ltac:(lia)). lra.
  - specialize (Ha t1 ltac:(lia) ltac:(lia)). lra.
Qed.

End account.

(** Any number of calls of a new store, one after the other. *)
Lemma sequential_rate_bound {F} `{GoFloatRounds F} (rps burst : F) (key : string) (δ t0 t1 : Z)
    (hist : list (string * Time)) (n : nat) :
  finite rps = true -> finite burst = true -> (0 < value rps)%Q -> (1 <= value burst)%Q ->
  0 <= δ -> 0 <= t1 - t0 <= maxInt64 ->
  (value burst + secs (2 * δ) * value rps <= secs staleAfter * value rps)%Q ->
  (magnitude rps burst (t1 - t0) <= pow2 990)%Q -> (drift rps burst (t1 - t0) <= 1)%Q ->
  tolerable δ (drifted rps burst t0 t1 n) -> (of_key key hist <= n)%nat -> near_order δ t0 t1 t0 hist ->
  (inject_Z (admitted key (run_calls (allow_body rps burst) hist (newMemoryStore, [])).2) <=
   value burst + secs (t1 - t0) * value rps + 2 * drifted rps burst t0 t1 n)%Q.
Proof.
  intros Hfr Hfb Hrps Hburst Hδ Hrange Hsafe Hsize Hdrift Hsum Hlen Hh.
  pose proof (drifted_mono rps burst Hrps Hburst t0 t1 Hrange _ _ Hlen) as Hmono.
  destruct (accounted_calls rps burst Hfr Hfb Hrps Hburst key δ t0 t1 Hδ Hrange Hsafe Hsize Hdrift hist 0 newMemoryStore [] t0)
    as (top & Htop & Ha); [|lra|apply (tolerable_less _ _ _ Hsum); lra|lia|exact Hh|].
  - unfold newMemoryStore. cbn [visitors]. rewrite lookup_empty. intros t Ht _.
    pose proof (gained_mono rps Hrps t0 t0 t Ht) as Hg. rewrite gained_zero in Hg. cbn [admitted]. change (inject_Z 0) with 0%Q. lra.
  - apply (accounted_bound rps burst Hrps Hburst δ t0 t1 Hδ Hrange) in Ha; [|done].
    change (gained rps t0 t1) with (secs (t1 - t0) * value rps)%Q in Ha. lra.
Qed.

(** At every moment of every interleaving. *)
Lemma rounded_rate_bound {F} `{GoFloatRounds F} (rps burst : F) (key : string) (δ t0 t1 : Z)
    (hist : list (string * Time)) (σ : msys (limiter F) (string * Time)) :
  finite rps = true -> finite burst = true -> (0 < value rps)%Q -> (1 <= value burst)%Q ->
  0 <= δ -> 0 <= t1 - t0 <= maxInt64 ->
  (value burst + secs (2 * δ) * value rps <= secs staleAfter * value rps)%Q ->
  (magnitude rps burst (t1 - t0) <= pow2 990)%Q -> (drift rps burst (t1 - t0) <= 1)%Q ->
  tolerable δ (drifted rps burst t0 t1 (of_key key hist)) -> near_order δ t0 t1 t0 hist ->
  mreach (allow_body rps burst) (newMemoryStore, []) hist σ ->
  (inject_Z (admitted key (shared σ).2) <=
   value burst + secs (t1 - t0) * value rps + 2 * drifted rps burst t0 t1 (of_key key hist))%Q.
Proof.
  intros Hfr Hfb Hrps Hburst Hδ Hrange Hsafe Hsize Hdrift Hsum Hnear Hreach.
  assert (Hcalls : forall h, (of_key key h <= of_key key hist)%nat -> near_order δ t0 t1 t0 h ->
      (inject_Z (admitted key (run_calls (allow_body rps burst) h (newMemoryStore, [])).2) <=
       value burst + secs (t1 - t0) * value rps + 2 * drifted rps burst t0 t1 (of_key key hist))%Q).
  { intros h Hlen Hh. by apply (sequential_rate_bound _ _ _ δ). }
  apply mreach_inv in Hreach as [_ Hown]. destruct (owner σ) as [u|]; [|rewrite Hown; by apply Hcalls].
  destruct Hown as (before & c & acts & rest & -> & Hb & _ & ->).
  destruct (log_mid_call rps burst c acts rest (run_calls (allow_body rps burst) before (newMemoryStore, [])) Hb) as [->| ->].
  - apply Hcalls; [rewrite of_key_app; lia|]. by eapply near_order_prefix.
  - rewrite <- run_calls_snoc. by apply Hcalls.
Qed.

(** The rounding of [n] calls in binary64. *)
Lemma drifted_float64 (rps burst : float64) t0 t1 n :
  (drifted rps burst t0 t1 n == inject_Z (Z.of_nat n) * pow2 (-49) * magnitude rps burst (t1 - t0))%Q.
Proof.
  unfold drifted, drift. assert (Hu : (8 * ulp float64 == pow2 (-49))%Q) by by vm_compute. rewrite <- Hu. ring.
Qed.

Lemma magnitude_float64 (rps burst : float64) span :
  (magnitude rps burst span <= pow2 49)%Q -> (magnitude rps burst span <= pow2 990)%Q /\ (drift rps burst span <= 1)%Q.
Proof.
  intros Hm. split; [apply Qle_trans with (pow2 49); [done|by vm_compute]|]. unfold drift.
  apply Qle_trans with (8 * ulp float64 * pow2 49)%Q; [|by vm_compute].
  rewrite !(Qmult_comm (8 * ulp float64)). by apply Qmult_le_compat_r.
Qed.

(** In exact arithmetic nothing is added. *)
Theorem exact_rate_bound (rps burst : Q) (key : string) (δ t0 t1 : Z)
    (hist : list (string * Time)) (σ : msys (limiter Q) (string * Time))
    (Hrps : (0 < rps)%Q) (Hburst : (1 <= burst)%Q) (Hδ : 0 <= δ) (Hrange : 0 <= t1 - t0 <= maxInt64)
    (Hsafe : (burst + secs (2 * δ) * rps <= secs staleAfter * rps)%Q)
    (Hsize : (magnitude rps burst (t1 - t0) <= pow2 990)%Q)
    (Hnear : near_order δ t0 t1 t0 hist)
    (Hreach : mreach (allow_body rps burst) (newMemoryStore, []) hist σ) :
  (inject_Z (admitted key (shared σ).2) <= burst + secs (t1 - t0) * rps)%Q.
Proof.
  assert (Hd : (drift rps burst (t1 - t0) == 0)%Q) by (unfold drift; change (ulp Q) with 0%Q; ring).
  assert (H0 : (drifted rps burst t0 t1 (of_key key hist) == 0)%Q).
  { unfold drifted, drift. change (ulp Q) with 0%Q. ring. }
  pose proof (rounded_rate_bound rps burst key δ t0 t1 hist σ eq_refl eq_refl Hrps Hburst Hδ Hrange Hsafe Hsize) as Hb.
  unfold tolerable in Hb. rewrite H0 in Hb. change (value rps) with rps in Hb. change (value burst) with burst in Hb.
  pose proof (Hb ltac:(lra) ltac:(right; lra) Hnear Hreach). lra.
Qed.

(** ** Properties *)

(** C12. The rate limit, in the arithmetic the code runs and for requests that run
    concurrently, for a limit whose numbers are finite, whose rate is positive and whose
    burst is at least one and is given back, with the tokens of [2 * δ] besides, by the ten minutes after which an
    idle bucket is swept.
    Each request reads its clock, waits for the mutex, and then
    spends from the bucket of its key; the bucket sees readings that go back by up
    to [δ], so that the elapsed time it computes may be negative, and every refill
    and every token taken is rounded to binary64. Still, at every moment of every
    interleaving, between two steps of a call included, no more requests of one key
    have been admitted than [burst + rps * duration] and twice what the calls for that
    key can have been off by, which is [2^-49] of the magnitude of the numbers involved
    for each. The magnitude is to be below [2^49]; and when readings do go back, what
    those calls can have been off by is to add up to a token at most, which bounds
    their number. *)
Theorem concurrent_rate_bound (rps burst : float64) (key : string) (δ t0 t1 : Z)
    (hist : list (string * Time)) (σ : msys (limiter float64) (string * Time))
    (Hfinite : finite rps = true /\ finite burst = true)
    (Hrps : (0 < value rps)%Q) (Hburst : (1 <= value burst)%Q) (Hδ : 0 <= δ) (Hrange : 0 <= t1 - t0 <= maxInt64)
    (Hsafe : (value burst + secs (2 * δ) * value rps <= secs staleAfter * value rps)%Q)
    (Hsize : (magnitude rps burst (t1 - t0) <= pow2 49)%Q)
    (Hcalls : δ = 0 \/ (inject_Z (Z.of_nat (of_key key hist)) * pow2 (-49) * magnitude rps burst (t1 - t0) <= 1)%Q)
    (Hnear : near_order δ t0 t1 t0 hist)
    (Hreach : mreach (allow_body rps burst) (newMemoryStore, []) hist σ) :
  (inject_Z (admitted key (shared σ).2) <=
   value burst + secs (t1 - t0) * value rps +
   2 * (inject_Z (Z.of_nat (of_key key hist)) * pow2 (-49) * magnitude rps burst (t1 - t0)))%Q.
Proof.
  rewrite <- drifted_float64 in *. destruct Hfinite, (magnitude_float64 _ _ _ Hsize). by apply (rounded_rate_bound _ _ _ δ).
Qed.
