(* ===== verification/GoStrings.v ===== *)
(** * Strings

    The functions of Go's [strings] and [strconv] packages the program uses, on
    byte strings. [ToLower] and [TrimSpace] act on ASCII, which is all the
    program applies them to meaningfully (host names, media types, addresses). *)

From S2P Require Import Prelude.
From stdpp Require Import pretty.
From Stdlib Require Import Ascii.
#[local] Open Scope Z_scope.

Definition code (a : ascii) : Z := Z.of_N (N_of_ascii a).

Definition is_lower (a : ascii) : bool := (97 <=? code a) && (code a <=? 122).
Definition is_upper (a : ascii) : bool := (65 <=? code a) && (code a <=? 90).
Definition is_digit (a : ascii) : bool := (48 <=? code a) && (code a <=? 57).

Definition lower (a : ascii) : ascii :=
  if is_upper a then ascii_of_N (Z.to_N (code a + 32)) else a.
Definition upper (a : ascii) : ascii :=
  if is_lower a then ascii_of_N (Z.to_N (code a - 32)) else a.

(** White space: tab, newline, vertical tab, form feed, return, blank. *)
Definition is_space (a : ascii) : bool :=
  (code a =? 32) || ((9 <=? code a) && (code a <=? 13)).

Fixpoint string_map (f : ascii -> ascii) (s : string) : string :=
  match s with
  | EmptyString => EmptyString
  | String a s => String (f a) (string_map f s)
  end.

Fixpoint string_forallb (f : ascii -> bool) (s : string) : bool :=
  match s with
  | EmptyString => true
  | String a s => f a && string_forallb f s
  end.

Definition ToLower (s : string) : string := string_map lower s.

(** [strings.CutPrefix]. *)
Fixpoint CutPrefix (s p : string) {struct p} : option string :=
  match p, s with
  | EmptyString, _ => Some s
  | String a p, String b s => if Ascii.eqb a b then CutPrefix s p else None
  | String _ _, EmptyString => None
  end.

(** [s[:n]] and [s[n:]]. *)
Fixpoint str_take (n : nat) (s : string) : string :=
  match n, s with
  | S n, String a s => String a (str_take n s)
  | _, _ => EmptyString
  end.

Fixpoint str_drop (n : nat) (s : string) : string :=
  match n, s with
  | S n, String _ s => str_drop n s
  | _, s => s
  end.

Definition HasPrefix (s p : string) : bool :=
  match CutPrefix s p with
  | Some _ => true
  | None => false
  end.

Fixpoint TrimLeft (s : string) : string :=
  match s with
  | String a s' => if is_space a then TrimLeft s' else s
  | EmptyString => EmptyString
  end.

(** Drop the trailing white space. *)
Fixpoint TrimRight (s : string) : string :=
  match s with
  | EmptyString => EmptyString
  | String a s =>
      match TrimRight s with
      | EmptyString => if is_space a then EmptyString else String a EmptyString
      | s => String a s
      end
  end.

Definition TrimSpace (s : string) : string := TrimRight (TrimLeft s).

(** [strings.TrimSuffix] for a suffix of one byte. *)
Fixpoint TrimSuffix1 (c : ascii) (s : string) : string :=
  match s with
  | EmptyString => EmptyString
  | String a EmptyString => if Ascii.eqb a c then EmptyString else s
  | String a s => String a (TrimSuffix1 c s)
  end.

(** [strings.Split] for a separator of one byte: never empty. *)
Fixpoint Split (c : ascii) (s : string) : list string :=
  match s with
  | EmptyString => [EmptyString]
  | String a s =>
      if Ascii.eqb a c then EmptyString :: Split c s
      else match Split c s with
           | w :: ws => String a w :: ws
           | [] => [String a EmptyString]
           end
  end.

Fixpoint Join (l : list string) (sep : string) : string :=
  match l with
  | [] => EmptyString
  | [s] => s
  | s :: l => (s +:+ sep +:+ Join l sep)%string
  end.

(** [strconv.Itoa] and [strconv.FormatInt] in base ten. *)
Definition Itoa (z : Z) : string := pretty z.

(** ** Lemmas *)

Lemma str_app_cons a (s t : string) : (String a s +:+ t)%string = String a (s +:+ t).
Proof. done. Qed.

Lemma str_app_length s t : String.length (s +:+ t) = (String.length s + String.length t)%nat.
Proof. induction s as [|a s IH]; [done|]. rewrite str_app_cons. simpl. by rewrite IH. Qed.

Lemma str_app_assoc (s t u : string) : (s +:+ (t +:+ u) = (s +:+ t) +:+ u)%string.
Proof. induction s as [|a s IH]; [done|]. by rewrite ?str_app_cons, IH. Qed.

Lemma str_app_nil_r (s : string) : (s +:+ EmptyString)%string = s.
Proof. induction s as [|a s IH]; [done|]. by rewrite ?str_app_cons, IH. Qed.

Lemma string_eqb_refl s : String.eqb s s = true.
Proof. apply String.eqb_refl. Qed.

Lemma string_map_map f g s : string_map f (string_map g s) = string_map (fun a => f (g a)) s.
Proof. induction s as [|a s IH]; simpl; [done|]. by rewrite IH. Qed.

Lemma lower_idem a : lower (lower a) = lower a.
Proof. by destruct a as [[] [] [] [] [] [] [] []]. Qed.

Lemma ToLower_idem s : ToLower (ToLower s) = ToLower s.
Proof.
  unfold ToLower. rewrite string_map_map. induction s as [|a s IH]; simpl; [done|].
  by rewrite lower_idem, IH.
Qed.

Lemma CutPrefix_app p s : CutPrefix (p +:+ s) p = Some s.
Proof. induction p as [|a p IH]; simpl; [done|]. by rewrite Ascii.eqb_refl. Qed.

Lemma CutPrefix_Some p s r : CutPrefix s p = Some r -> s = (p +:+ r)%string.
Proof.
  revert s. induction p as [|a p IH]; intros s; simpl; [by intros [= ->]|].
  destruct s as [|b s]; [done|]. destruct (Ascii.eqb_spec a b) as [->|]; [|done]. intros H. by rewrite (IH s H).
Qed.

Lemma HasPrefix_spec s p : HasPrefix s p = true <-> exists r, s = (p +:+ r)%string.
Proof.
  unfold HasPrefix. split.
  - destruct (CutPrefix s p) as [r|] eqn:E; [|done]. exists r. by apply CutPrefix_Some.
  - intros [r ->]. by rewrite CutPrefix_app.
Qed.

Lemma Split_nonempty c s : Split c s <> [].
Proof. induction s as [|a s IH]; simpl; [done|]. by destruct (Ascii.eqb a c), (Split c s). Qed.

(** Splitting what was joined with the separator gives the pieces back. *)
Lemma Split_app c s t :
  string_forallb (fun a => negb (Ascii.eqb a c)) s = true ->
  Split c (s +:+ String c t) = s :: Split c t.
Proof.
  induction s as [|a s IH]; simpl; [by rewrite Ascii.eqb_refl|].
  intros [Ha Hs]%andb_true_iff. rewrite negb_true_iff in Ha. by rewrite Ha, IH.
Qed.

Lemma Split_single c s :
  string_forallb (fun a => negb (Ascii.eqb a c)) s = true -> Split c s = [s].
Proof.
  induction s as [|a s IH]; simpl; [done|].
  intros [Ha Hs]%andb_true_iff. rewrite negb_true_iff in Ha. by rewrite Ha, IH.
Qed.

Lemma Split_Join c ws :
  ws <> [] -> Forall (fun w => string_forallb (fun a => negb (Ascii.eqb a c)) w = true) ws ->
  Split c (Join ws (String c EmptyString)) = ws.
Proof.
  intros Hne Hall. induction Hall as [|w ws Hw Hall IH]; [done|].
  destruct ws as [|w' ws]; [by apply Split_single|].
  change (Split c (w +:+ String c (Join (w' :: ws) (String c EmptyString))) = w :: w' :: ws).
  by rewrite Split_app, IH.
Qed.

Lemma Itoa_inj z z' : Itoa z = Itoa z' -> z = z'.
Proof. apply (inj pretty). Qed.

Lemma Join_Split c s : Join (Split c s) (String c EmptyString) = s.
Proof.
  induction s as [|a s IH]; [done|]. cbn [Split]. pose proof (Split_nonempty c s) as Hne.
  destruct (Ascii.eqb_spec a c) as [->|].
  - destruct (Split c s) as [|w ws]; [done|].
    change (Join ("" :: w :: ws) (String c ""))%string with (String c (Join (w :: ws) (String c "")))%string. by rewrite IH.
  - destruct (Split c s) as [|w [|w' ws]]; [done|by rewrite <- IH|].
    rewrite <- IH. done.
Qed.
