(* ===== verification/Base64.v ===== *)
(** * base64.RawURLEncoding

    The unpadded URL alphabet of [encoding/base64], in which a token's three parts
    are written (loadtest/jwtgen). Three bytes make four characters; the decoder is
    the one a verifier uses, and gives every encoded string back. *)

From S2P Require Import Prelude GoStrings.
From Stdlib Require Import Ascii.
#[local] Open Scope Z_scope.

(** ** The alphabet *)

(** The letters, capital and small, the digits, and two marks. *)
Definition enc_char (v : Z) : ascii :=
  ascii_of_N (Z.to_N (if v <? 26 then v + 65 else if v <? 52 then v + 71 else if v <? 62 then v - 4
                      else if v =? 62 then 45 else 95)).

Definition dec_char (a : ascii) : option Z :=
  if is_upper a then Some (code a - 65)
  else if is_lower a then Some (code a - 71)
  else if is_digit a then Some (code a + 4)
  else if Ascii.eqb a "-" then Some 62
  else if Ascii.eqb a "_" then Some 63
  else None.

Definition byte_of (z : Z) : ascii := ascii_of_N (Z.to_N z).

(** ** Encoding and decoding *)

(** The sextet of [v] at a bit offset. *)
Definition sextet (v i : Z) : ascii := enc_char (Z.land (Z.shiftr v i) 63).

(** [EncodeToString]. *)
Fixpoint EncodeToString (s : string) : string :=
  match s with
  | EmptyString => EmptyString
  | String a EmptyString =>
      let v := Z.shiftl (code a) 16 in
      String (sextet v 18) (String (sextet v 12) EmptyString)
  | String a (String b EmptyString) =>
      let v := Z.lor (Z.shiftl (code a) 16) (Z.shiftl (code b) 8) in
      String (sextet v 18) (String (sextet v 12) (String (sextet v 6) EmptyString))
  | String a (String b (String c s)) =>
      let v := Z.lor (Z.lor (Z.shiftl (code a) 16) (Z.shiftl (code b) 8)) (code c) in
      String (sextet v 18) (String (sextet v 12) (String (sextet v 6) (String (sextet v 0) (EncodeToString s))))
  end.

(** [DecodeString]; the bits after the last byte are not looked at. *)
Fixpoint DecodeString (s : string) : option string :=
  match s with
  | EmptyString => Some EmptyString
  | String a (String b s') =>
      match dec_char a, dec_char b with
      | Some va, Some vb =>
          let x := byte_of (va * 4 + vb / 16) in
          match s' with
          | EmptyString => Some (String x EmptyString)
          | String c s'' =>
              match dec_char c with
              | Some vc =>
                  let y := byte_of (vb mod 16 * 16 + vc / 4) in
                  match s'' with
                  | EmptyString => Some (String x (String y EmptyString))
                  | String d rest =>
                      match dec_char d, DecodeString rest with
                      | Some vd, Some t => Some (String x (String y (String (byte_of (vc mod 4 * 64 + vd)) t)))
                      | _, _ => None
                      end
                  end
              | None => None
              end
          end
      | _, _ => None
      end
  | String _ EmptyString => None
  end.

(** ** Decoding gives back what was encoded *)

Definition char_ok (v : Z) : bool :=
  match dec_char (enc_char v) with
  | Some v' => (v' =? v) && negb (Ascii.eqb (enc_char v) ".")
  | None => false
  end.

Lemma enc_char_spec v : 0 <= v < 64 -> dec_char (enc_char v) = Some v /\ Ascii.eqb (enc_char v) "." = false.
Proof.
  intros Hv.
  assert (Hall : forallb char_ok (Z.of_nat <$> seq 0 64) = true) by by vm_compute.
  rewrite forallb_forall in Hall. specialize (Hall v).
  assert (Hin : In v (Z.of_nat <$> seq 0 64)).
  { apply list_elem_of_In, list_elem_of_fmap. exists (Z.to_nat v).
    split; [by rewrite Z2Nat.id by lia|]. apply elem_of_seq. lia. }
  specialize (Hall Hin). unfold char_ok in Hall. destruct (dec_char _) as [v'|]; [|done].
  apply andb_true_iff in Hall as [Heq Hdot]. split; [f_equal; lia|by destruct (Ascii.eqb _ _)].
Qed.

Lemma sextet_spec v i :
  0 <= i -> dec_char (sextet v i) = Some (v / 2 ^ i mod 64) /\ Ascii.eqb (sextet v i) "." = false.
Proof.
  intros Hi. unfold sextet. change 63 with (Z.ones 6). rewrite Z.land_ones, Z.shiftr_div_pow2 by lia.
  apply enc_char_spec, Z.mod_pos_bound. lia.
Qed.

Lemma byte_code a : 0 <= code a < 256.
Proof. unfold code. pose proof (N_ascii_bounded a). lia. Qed.

Lemma byte_of_code a z : z = code a -> byte_of z = a.
Proof. intros ->. unfold byte_of, code. rewrite N2Z.id. apply ascii_N_embedding. Qed.

(** Bytes side by side. *)
Lemma lor_sum a b k : 0 <= b < 2 ^ k -> Z.lor (Z.shiftl a k) b = a * 2 ^ k + b.
Proof.
  intros Hb. destruct (Z.neg_nonneg_cases k) as [Hk|Hk]; [rewrite Z.pow_neg_r in Hb by done; lia|].
  rewrite <- Z.shiftl_mul_pow2 by done. symmetry. rewrite Z.add_nocarry_lxor, Z.lxor_lor; [done|..].
  all: apply Z.bits_inj'; intros i Hi; rewrite Z.land_spec, Z.bits_0;
    rewrite <- (Z.mod_small b (2 ^ k)) by done.
  all: destruct (Z.lt_ge_cases i k);
    [by rewrite Z.shiftl_spec_low | rewrite Z.mod_pow2_bits_high by lia; apply andb_false_r].
Qed.

Lemma join3 a b c :
  0 <= b < 256 -> 0 <= c < 256 ->
  Z.lor (Z.lor (Z.shiftl a 16) (Z.shiftl b 8)) c = a * 65536 + b * 256 + c.
Proof.
  intros Hb Hc. rewrite <- Z.lor_assoc, (lor_sum b c 8) by done. rewrite lor_sum by lia.
  change (2 ^ 16) with 65536. change (2 ^ 8) with 256. lia.
Qed.

Lemma sextet_dec v i : 0 <= i -> dec_char (sextet v i) = Some (v / 2 ^ i mod 64).
Proof. apply sextet_spec. Qed.

Ltac regroup :=
  change (2 ^ 18) with 262144; change (2 ^ 12) with 4096; change (2 ^ 6) with 64; change (2 ^ 0) with 1;
  repeat match goal with |- context [code ?a] =>
    lazymatch goal with H : 0 <= code a < 256 |- _ => fail | _ => pose proof (byte_code a) end end;
  try (apply byte_of_code; Z.div_mod_to_equations; lia).

Lemma decode3 a b c s t :
  DecodeString s = Some t ->
  let v := code a * 65536 + code b * 256 + code c in
  DecodeString (String (sextet v 18) (String (sextet v 12) (String (sextet v 6) (String (sextet v 0) s)))) =
  Some (String a (String b (String c t))).
Proof.
  intros Hs v. cbn [DecodeString]. rewrite !sextet_dec by lia. rewrite Hs. unfold v. do 2 f_equal; [regroup|f_equal; [regroup|f_equal; regroup]].
Qed.

(** Every string is given back. *)
Lemma decode_encode s : DecodeString (EncodeToString s) = Some s.
Proof.
  remember (String.length s) as n eqn:En. revert s En. induction (lt_wf n) as [n _ IH].
  intros [|a [|b [|c s]]] En; [done| | |].
  - cbn [EncodeToString DecodeString]. rewrite Z.shiftl_mul_pow2 by lia. rewrite !sextet_dec by lia.
    do 2 f_equal. change (2 ^ 16) with 65536. regroup.
  - cbn [EncodeToString DecodeString]. rewrite <- (Z.lor_0_r (Z.lor _ _)), join3 by (apply byte_code || lia).
    rewrite !sextet_dec by lia. do 2 f_equal; [regroup|f_equal; regroup].
  - cbn [EncodeToString]. rewrite join3 by apply byte_code. apply decode3, (IH (String.length s)); [simpl in En; lia|done].
Qed.

(** The dot that separates a token's parts is not in the alphabet. *)
Definition no_dot (s : string) : bool := string_forallb (fun a => negb (Ascii.eqb a ".")) s.

Lemma encode_no_dot s : no_dot (EncodeToString s) = true.
Proof.
  assert (Hs : forall v i, 0 <= i -> negb (Ascii.eqb (sextet v i) ".") = true).
  { intros v i Hi. by rewrite (proj2 (sextet_spec v i Hi)). }
  unfold no_dot. remember (String.length s) as n eqn:En. revert s En. induction (lt_wf n) as [n _ IH].
  intros [|a [|b [|c s]]] En; [done| | |]; cbn [EncodeToString string_forallb]; rewrite !Hs by lia; [done..|].
  apply (IH (String.length s)); [simpl in En; lia|done].
Qed.

Example encode_example : EncodeToString "fo"%string = "Zm8"%string /\ EncodeToString "f"%string = "Zg"%string.
Proof. split; reflexivity. Qed.
