(* ===== verification/Sha256.v ===== *)
(** * SHA-256 and HMAC

    [crypto/sha256] and [crypto/hmac] as FIPS 180-4 and RFC 2104 define them, with
    which a token is signed (loadtest/jwtgen). A word is a [Z] below 2^32; the round
    constants are computed from the roots of the primes rather than listed. *)

From S2P Require Import Prelude GoStrings.
From Stdlib Require Import Ascii.
#[local] Open Scope Z_scope.

(** ** Words *)

Definition mask32 (x : Z) : Z := Z.land x (Z.ones 32).
Definition add32 (x y : Z) : Z := mask32 (x + y).
Definition rotr (n x : Z) : Z := Z.lor (Z.shiftr x n) (mask32 (Z.shiftl x (32 - n))).
Definition not32 (x : Z) : Z := Z.lxor x (Z.ones 32).

Definition xor3 (x y z : Z) : Z := Z.lxor x (Z.lxor y z).
Definition big_sigma0 (x : Z) : Z := xor3 (rotr 2 x) (rotr 13 x) (rotr 22 x).
Definition big_sigma1 (x : Z) : Z := xor3 (rotr 6 x) (rotr 11 x) (rotr 25 x).
Definition small_sigma0 (x : Z) : Z := xor3 (rotr 7 x) (rotr 18 x) (Z.shiftr x 3).
Definition small_sigma1 (x : Z) : Z := xor3 (rotr 17 x) (rotr 19 x) (Z.shiftr x 10).
Definition choice (x y z : Z) : Z := Z.lxor (Z.land x y) (Z.land (not32 x) z).
Definition majority (x y z : Z) : Z := xor3 (Z.land x y) (Z.land x z) (Z.land y z).

(** ** Constants *)

Definition is_prime (n : nat) : bool :=
  Nat.leb 2 n && forallb (fun d => negb (Nat.eqb (n mod d) 0)) (seq 2 (n - 2)).

(** The first sixty-four primes. *)
Definition primes : list Z := Eval vm_compute in Z.of_nat <$> List.filter is_prime (seq 0 312).

(** The integer cube root, a bit at a time. *)
Fixpoint cube_root (bits : nat) (n r : Z) : Z :=
  match bits with
  | O => r
  | S bits =>
      let r' := r + 2 ^ Z.of_nat bits in
      cube_root bits n (if r' * r' * r' <=? n then r' else r)
  end.

(** The first thirty-two bits of the fractional parts. *)
Definition round_constants : list Z :=
  Eval vm_compute in (fun p => cube_root 36 (p * 2 ^ 96) 0 mod 2 ^ 32) <$> primes.
Definition initial_words : list Z :=
  Eval vm_compute in (fun p => Z.sqrt (p * 2 ^ 64) mod 2 ^ 32) <$> take 8 primes.

(** ** The hash *)

Record digest := mkDigest { da : Z; db : Z; dc : Z; dd : Z; de : Z; df : Z; dg : Z; dh : Z }.

Definition words_of (h : digest) : list Z := [da h; db h; dc h; dd h; de h; df h; dg h; dh h].

Definition digest_of (l : list Z) : digest :=
  let n i := nth i l 0 in mkDigest (n 0%nat) (n 1%nat) (n 2%nat) (n 3%nat) (n 4%nat) (n 5%nat) (n 6%nat) (n 7%nat).

(** The message schedule, latest word first. *)
Fixpoint schedule (n : nat) (w : list Z) : list Z :=
  match n with
  | O => w
  | S n =>
      let at_ i := nth i w 0 in
      let x := add32 (add32 (small_sigma1 (at_ 1%nat)) (at_ 6%nat)) (add32 (small_sigma0 (at_ 14%nat)) (at_ 15%nat)) in
      schedule n (x :: w)
  end.

Definition round (h : digest) (kw : Z * Z) : digest :=
  let t1 := add32 (add32 (dh h) (big_sigma1 (de h)))
              (add32 (choice (de h) (df h) (dg h)) (add32 kw.1 kw.2)) in
  let t2 := add32 (big_sigma0 (da h)) (majority (da h) (db h) (dc h)) in
  mkDigest (add32 t1 t2) (da h) (db h) (dc h) (add32 (dd h) t1) (de h) (df h) (dg h).

Definition compress (h : digest) (block : list Z) : digest :=
  let w := rev (schedule 48 (rev block)) in
  let h' := foldl round h (combine round_constants w) in
  digest_of (zip_with add32 (words_of h) (words_of h')).

Definition byte_list (s : string) : list Z := code <$> String.list_ascii_of_string s.
Definition of_bytes (l : list Z) : string :=
  String.string_of_list_ascii ((fun z => ascii_of_N (Z.to_N z)) <$> l).

(** The padding: a one bit, zeroes, the length in bits as 64. *)
Definition padding (len : nat) : list Z :=
  let zeroes := Z.to_nat ((55 - Z.of_nat len) mod 64) in
  128 :: replicate zeroes 0 ++
  ((fun i => Z.land (Z.shiftr (8 * Z.of_nat len) (8 * i)) 255) <$> [7; 6; 5; 4; 3; 2; 1; 0]).

Definition pad (m : list Z) : list Z := m ++ padding (length m).

Fixpoint words (l : list Z) : list Z :=
  match l with
  | a :: b :: c :: d :: l => (((a * 256 + b) * 256 + c) * 256 + d) :: words l
  | _ => []
  end.

Fixpoint blocks (n : nat) (l : list Z) : list (list Z) :=
  match n with
  | O => []
  | S n => take 16 l :: blocks n (drop 16 l)
  end.

Definition bytes_of_word (x : Z) : list Z := (fun i => Z.land (Z.shiftr x (8 * i)) 255) <$> [3; 2; 1; 0].

Definition hash_bytes (m : list Z) : list Z :=
  let ws := words (pad m) in
  let h := foldl compress (digest_of initial_words) (blocks (length ws / 16) ws) in
  mjoin (bytes_of_word <$> words_of h).

(** [sha256.Sum256]. *)
Definition Sum256 (s : string) : string := of_bytes (hash_bytes (byte_list s)).

(** ** HMAC *)

(** A key of one block: hashed when it is longer, filled up with zeroes. *)
Definition block_key (key : list Z) : list Z :=
  let key := if Nat.ltb 64 (length key) then hash_bytes key else key in
  key ++ replicate (64 - length key) 0.

(** [hmac.New(sha256.New, key)], written to, and its [Sum(nil)]. *)
Definition hmac_bytes (key msg : list Z) : list Z :=
  let k := block_key key in
  hash_bytes ((Z.lxor 92 <$> k) ++ hash_bytes ((Z.lxor 54 <$> k) ++ msg)).

Definition HMAC (key msg : string) : string := of_bytes (hmac_bytes (byte_list key) (byte_list msg)).

(** ** Published test vectors *)

Definition hex_value (s : string) : list Z :=
  let digit a := if is_digit a then code a - 48 else code a - 87 in
  (fix go l := match l with a :: b :: l => (digit a * 16 + digit b) :: go l | _ => [] end) (String.list_ascii_of_string s).

Example sha256_empty :
  hash_bytes [] = hex_value "e3b0c44298fc1c149afbf4c8996fb92427ae41e4649b934ca495991b7852b855".
Proof. vm_compute. reflexivity. Qed.
Example sha256_abc :
  hash_bytes (byte_list "abc") = hex_value "ba7816bf8f01cfea414140de5dae2223b00361a396177a9cb410ff61f20015ad".
Proof. vm_compute. reflexivity. Qed.
Example sha256_two_blocks :
  hash_bytes (byte_list "abcdbcdecdefdefgefghfghighijhijkijkljklmklmnlmnomnopnopq") =
  hex_value "248d6a61d20638b8e5c026930c3e6039a33ce45964ff2167f6ecedd419db06c1".
Proof. vm_compute. reflexivity. Qed.
Example hmac_jefe :
  hmac_bytes (byte_list "Jefe") (byte_list "what do ya want for nothing?") =
  hex_value "5bdcc146bf60754e6a042426089575c75a003f089d2739839dec58b964ec3843".
Proof. vm_compute. reflexivity. Qed.

(** ** Lengths *)

Lemma pad_length m : (length (pad m) mod 64 = 0)%nat.
Proof.
  unfold pad, padding. rewrite length_app. cbn [length]. rewrite length_app, length_replicate, length_fmap.
  cbn [length]. pose proof (Z.mod_pos_bound (55 - Z.of_nat (length m)) 64 ltac:(lia)) as Hb.
  apply Nat2Z.inj. rewrite Nat2Z.inj_mod, !Nat2Z.inj_add, !Nat2Z.inj_succ, Nat2Z.inj_add, Z2Nat.id by lia.
  simpl Z.of_nat. Z.div_mod_to_equations. lia.
Qed.

Lemma hash_bytes_length m : length (hash_bytes m) = 32%nat.
Proof. unfold hash_bytes. by destruct (foldl compress _ _). Qed.

(** A long key acts as its hash, and zeroes at the end of a short one do not count. *)
Lemma block_key_length key : length (block_key key) = 64%nat.
Proof.
  unfold block_key. rewrite length_app, length_replicate.
  destruct (Nat.ltb_spec 64 (length key)); [rewrite hash_bytes_length|]; lia.
Qed.

Lemma hmac_long_key key msg :
  (64 < length key)%nat -> hmac_bytes key msg = hmac_bytes (hash_bytes key) msg.
Proof.
  intros Hk. unfold hmac_bytes. enough (block_key key = block_key (hash_bytes key)) as -> by done.
  unfold block_key. rewrite hash_bytes_length. by rewrite (proj2 (Nat.ltb_lt _ _) Hk).
Qed.
