(* ===== verification/Header.v ===== *)
(** * HTTP headers

    [http.Header]: a map from canonical names to the list of their values. *)

From S2P Require Import Prelude GoStrings.
From Stdlib Require Import Ascii.
#[local] Open Scope Z_scope.

(** ** Canonical names *)

(** The bytes of an HTTP token. *)
Definition is_token (a : ascii) : bool :=
  is_lower a || is_upper a || is_digit a ||
  existsb (Ascii.eqb a) ["!"; "#"; "$"; "%"; "&"; "'"; "*"; "+"; "-"; "."; "^"; "_"; "`"; "|"; "~"]%char.

Fixpoint canon_from (up : bool) (s : string) : string :=
  match s with
  | EmptyString => EmptyString
  | String a s =>
      let a := if up then upper a else lower a in
      String a (canon_from (Ascii.eqb a "-"%char) s)
  end.

(** [textproto.CanonicalMIMEHeaderKey]: a name with a byte that is not a token
    byte is left alone. *)
Definition CanonicalHeaderKey (s : string) : string :=
  if string_forallb is_token s then canon_from true s else s.

(** ** The map *)

Abbreviation header := (gmap string (list string)).

Definition Values (h : header) (k : string) : list string :=
  default [] (h !! CanonicalHeaderKey k).

(** [Get]: the first value, or the empty string. *)
Definition Get (h : header) (k : string) : string :=
  match Values h k with
  | v :: _ => v
  | [] => EmptyString
  end.

Definition Set_ (k v : string) (h : header) : header := <[CanonicalHeaderKey k := [v]]> h.

Definition Add (k v : string) (h : header) : header :=
  <[CanonicalHeaderKey k := Values h k ++ [v]]> h.

Definition Del (k : string) (h : header) : header := delete (CanonicalHeaderKey k) h.

(** [for k, v := range m { h.Set(k, v) }] for the pairs in iteration order. *)
Definition set_all (kvs : list (string * string)) (h : header) : header :=
  foldl (fun h kv => Set_ kv.1 kv.2 h) h kvs.

(** ** Iteration order

    A [range] over a Go map visits its entries in an order the language leaves
    open. A definition that ranges over a map takes the order from this class,
    so what is proved of it holds whatever the order. *)
Class MapRange := {
  range_map {A} : gmap string A -> list (string * A);
  range_map_perm {A} (m : gmap string A) : range_map m ≡ₚ map_to_list m
}.

#[export] Instance sorted_range : MapRange :=
  { range_map A := map_to_list; range_map_perm A m := Permutation_refl _ }.

(** ** Lemmas *)

Lemma is_token_upper a : is_token a = true -> is_token (upper a) = true.
Proof. by destruct a as [[] [] [] [] [] [] [] []]. Qed.

Lemma is_token_lower a : is_token a = true -> is_token (lower a) = true.
Proof. by destruct a as [[] [] [] [] [] [] [] []]. Qed.

Lemma upper_idem a : upper (upper a) = upper a.
Proof. by destruct a as [[] [] [] [] [] [] [] []]. Qed.

Lemma canon_from_token up s :
  string_forallb is_token s = true -> string_forallb is_token (canon_from up s) = true.
Proof.
  revert up. induction s as [|a s IH]; intros up; simpl; [done|].
  intros [Ha Hs]%andb_true_iff. rewrite IH, andb_true_r by done.
  destruct up; auto using is_token_upper, is_token_lower.
Qed.

Lemma canon_from_idem up s : canon_from up (canon_from up s) = canon_from up s.
Proof.
  revert up. induction s as [|a s IH]; intros up; simpl; [done|].
  destruct up; simpl; rewrite ?upper_idem, ?lower_idem, IH; done.
Qed.

Lemma CanonicalHeaderKey_idem s : CanonicalHeaderKey (CanonicalHeaderKey s) = CanonicalHeaderKey s.
Proof.
  unfold CanonicalHeaderKey. destruct (string_forallb is_token s) eqn:E; [|by rewrite E].
  by rewrite canon_from_token, canon_from_idem.
Qed.

Lemma Values_Set h k v k' :
  Values (Set_ k v h) k' =
  if decide (CanonicalHeaderKey k = CanonicalHeaderKey k') then [v] else Values h k'.
Proof. unfold Values, Set_. rewrite lookup_insert. by case_decide. Qed.

Lemma Get_Set_eq h k v : Get (Set_ k v h) k = v.
Proof. unfold Get. rewrite Values_Set. by rewrite decide_True. Qed.

Lemma Get_Set_ne h k v k' :
  CanonicalHeaderKey k <> CanonicalHeaderKey k' -> Get (Set_ k v h) k' = Get h k'.
Proof. intros Hne. unfold Get. rewrite Values_Set. by rewrite decide_False. Qed.

Lemma Values_Del h k k' :
  Values (Del k h) k' =
  if decide (CanonicalHeaderKey k = CanonicalHeaderKey k') then [] else Values h k'.
Proof. unfold Values, Del. rewrite lookup_delete. by case_decide. Qed.

Lemma Values_Add h k v k' :
  Values (Add k v h) k' =
  if decide (CanonicalHeaderKey k = CanonicalHeaderKey k') then Values h k ++ [v] else Values h k'.
Proof. unfold Values, Add. rewrite lookup_insert. by case_decide. Qed.

(** Setting the entries of a map: a name no entry has is untouched. *)
Lemma set_all_other kvs h k :
  Forall (fun kv => CanonicalHeaderKey kv.1 <> CanonicalHeaderKey k) kvs ->
  Values (set_all kvs h) k = Values h k.
Proof.
  unfold set_all. revert h. induction kvs as [|[k1 v1] kvs IH]; intros h; simpl; [done|].
  intros [Hne Hall]%Forall_cons. rewrite IH by done. rewrite Values_Set. by rewrite decide_False.
Qed.

(** When no two entries have the same canonical name, each entry is what its
    name holds afterwards. *)
Lemma set_all_spec kvs h k v :
  NoDup ((fun kv => CanonicalHeaderKey kv.1) <$> kvs) -> (k, v) ∈ kvs ->
  Values (set_all kvs h) k = [v].
Proof.
  unfold set_all. revert h. induction kvs as [|[k1 v1] kvs IH]; intros h; simpl; [by intros _ ?%elem_of_nil|].
  intros [Hnin Hnd]%NoDup_cons [Heq|Hin]%elem_of_cons; [|by apply IH].
  simplify_eq. fold (set_all kvs (Set_ k1 v1 h)). rewrite set_all_other.
  - rewrite Values_Set. by rewrite decide_True.
  - apply Forall_forall. intros [k2 v2] Hin. simpl. intros Heq. apply Hnin.
    apply list_elem_of_fmap. exists (k2, v2). by split.
Qed.

(** The entries have distinct canonical names. *)
Definition canon_inj (m : gmap string string) : Prop :=
  forall k k', is_Some (m !! k) -> is_Some (m !! k') ->
    CanonicalHeaderKey k = CanonicalHeaderKey k' -> k = k'.

Section range.
Context `{MapRange}.
Implicit Types (m : gmap string string).

Lemma range_elem {A} (m : gmap string A) k v : (k, v) ∈ range_map m <-> m !! k = Some v.
Proof. rewrite range_map_perm. apply elem_of_map_to_list. Qed.

Lemma range_canon_NoDup m :
  canon_inj m -> NoDup ((fun kv => CanonicalHeaderKey kv.1) <$> range_map m).
Proof.
  intros Hinj. apply NoDup_fmap_2_strong.
  - intros [k v] [k' v'] Hk%range_elem Hk'%range_elem Heq. simpl in *.
    assert (k = k') as -> by (eapply Hinj; eauto). simplify_eq. done.
  - rewrite range_map_perm. apply NoDup_map_to_list.
Qed.

(** The map's own entries, whatever order they were set in. *)
Lemma range_set_Some m h k v :
  canon_inj m -> m !! k = Some v -> Values (set_all (range_map m) h) k = [v].
Proof. intros Hinj Hk. apply set_all_spec; [by apply range_canon_NoDup|]. by apply range_elem. Qed.

Lemma range_set_None m h k :
  (forall k', is_Some (m !! k') -> CanonicalHeaderKey k' <> CanonicalHeaderKey k) ->
  Values (set_all (range_map m) h) k = Values h k.
Proof.
  intros Hno. apply set_all_other, Forall_forall. intros [k' v'] Hin%range_elem. simpl.
  apply Hno. eauto.
Qed.

End range.
