(* ===== verification/Value.v ===== *)
(** * Configuration values and errors

    The values a YAML document decodes to in Go ([any]), the errors the program
    builds with [fmt.Errorf], and the conversions the plugins read their
    configuration with: [toInt64] (request_size_limiting.go), [toFloat64]
    (rate_limiting.go), [toStringSlice] (cors.go) and [stringMap]
    (response_headers.go). *)

From S2P Require Import Prelude GoInt GoFloat GoStrings Header.
From Stdlib Require Import Ascii SpecFloat.
#[local] Open Scope Z_scope.

(** ** Errors *)

(** [Errorf format args cause]: the format string, what it formats, and the error
    it wraps with [%w]; [Opaque] is an error made outside the program. *)
Inductive error :=
| Errorf (format : string) (args : list string) (cause : option error)
| OpaqueError (text : string).

Definition Errorf0 (format : string) : error := Errorf format [] None.
Definition Errorf1 (format arg : string) : error := Errorf format [arg] None.
Definition Wrapf (format : string) (e : error) : error := Errorf format [] (Some e).

Definition dquote : string := String (ascii_of_nat 34) EmptyString.

(** ** Values *)

Inductive any :=
| Nil
| Bool (b : bool)
| Int (n : Z)
| Int64 (n : Z)
| Float64 (x : float64)
| Str (s : string)
| Slice (l : list any)
| Map (m : gmap string any)
| Other (type : string).      (* any other Go type: uint64, time.Time, map[any]any *)

Abbreviation config := (gmap string any).

(** [%T]. *)
Definition TypeName (v : any) : string :=
  match v with
  | Nil => "<nil>"
  | Bool _ => "bool"
  | Int _ => "int"
  | Int64 _ => "int64"
  | Float64 _ => "float64"
  | Str _ => "string"
  | Slice _ => "[]interface {}"
  | Map _ => "map[string]interface {}"
  | Other t => t
  end.

(** [v, _ := x.(string)] and [v, _ := x.(bool)] of a map entry. *)
Definition as_string (v : option any) : string :=
  match v with Some (Str s) => s | _ => EmptyString end.
Definition as_bool (v : option any) : bool :=
  match v with Some (Bool b) => b | _ => false end.

(** ** Conversions *)

Definition toInt64 `{Platform} (v : any) : result error Z :=
  match v with
  | Int n => Ok n
  | Int64 n => Ok n
  | Float64 n => Ok (toInt n)
  | v => Err (Errorf1 "expected a number, got %T" (TypeName v))
  end.

Definition toFloat64 (v : any) : result error float64 :=
  match v with
  | Int n => Ok (fofZ n)
  | Int64 n => Ok (fofZ n)
  | Float64 n => Ok n
  | v => Err (Errorf1 "expected a number, got %T" (TypeName v))
  end.

(** The loop of [toStringSlice]. *)
Fixpoint string_entries (key : string) (rawSlice : list any) : result error (list string) :=
  match rawSlice with
  | [] => Ok []
  | Str s :: rest => let? out := string_entries key rest in Ok (s :: out)
  | v :: _ => Err (Errorf "config.%s entries must be strings, got %T" [key; TypeName v] None)
  end.

(** [None] is the nil slice: the key is absent. *)
Definition toStringSlice (cfg : config) (key : string) : result error (option (list string)) :=
  match cfg !! key with
  | None | Some Nil => Ok None
  | Some (Slice rawSlice) => let? out := string_entries key rawSlice in Ok (Some out)
  | Some raw => Err (Errorf "config.%s must be a list, got %T" [key; TypeName raw] None)
  end.

(** The loop over a map of header names to values, in iteration order. [bad] is
    the error for an entry that is not a string. *)
Fixpoint map_entries (bad : string -> any -> error) (kvs : list (string * any))
    (out : gmap string string) : result error (gmap string string) :=
  match kvs with
  | [] => Ok out
  | (k, Str s) :: kvs => map_entries bad kvs (<[k := s]> out)
  | (k, v) :: _ => Err (bad k v)
  end.

Definition stringMap `{MapRange} (raw : option any) (field : string)
    : result error (gmap string string) :=
  match raw with
  | None | Some Nil => Ok ∅
  | Some (Map rawMap) =>
      map_entries (fun k v => Errorf "%s[%q] must be a string, got %T" [field; k; TypeName v] None)
        (range_map rawMap) ∅
  | Some raw => Err (Errorf "%s must be a map, got %T" [field; TypeName raw] None)
  end.

(** ** Lemmas *)

Definition string_of (v : any) : option string :=
  match v with Str s => Some s | _ => None end.

Lemma string_entries_Ok key l out :
  string_entries key l = Ok out <-> l = Str <$> out.
Proof.
  revert out. induction l as [|v l IH]; intros out; simpl.
  - split; [by intros [= <-]|]. by destruct out.
  - split.
    + destruct v; try done. destruct (string_entries key l) as [o|] eqn:E; [|done].
      intros [= <-]. simpl. f_equal. by apply IH.
    + destruct out as [|s out]; [done|]. intros [= -> ->]. by rewrite (proj2 (IH out)).
Qed.

Lemma map_entries_Ok bad kvs m out :
  NoDup (kvs.*1) ->
  map_entries bad kvs m = Ok out <->
  Forall (fun kv => is_Some (string_of kv.2)) kvs /\
  out = omap string_of (list_to_map kvs : gmap string any) ∪ m.
Proof.
  revert m. induction kvs as [|[k v] kvs IH]; intros m Hnd; simpl.
  - rewrite omap_empty, (left_id_L ∅ (∪)). split; [by intros [= <-]|]. by intros [_ ->].
  - apply NoDup_cons in Hnd as [Hk Hnd].
    destruct v as [|b|n|n|x|s|l|m'|t]; try (split; [done|]; intros [[[? [=]] _]%Forall_cons _]).
    rewrite IH by done. rewrite Forall_cons. simpl.
    rewrite (omap_insert_Some _ _ k (Str s) s) by done.
    assert (Hfresh : omap string_of (list_to_map kvs : gmap string any) !! k = None).
    { rewrite lookup_omap, not_elem_of_list_to_map_1; done. }
    rewrite <- insert_union_r, insert_union_l by done. naive_solver.
Qed.

Lemma list_to_map_range `{MapRange} {A} (m : gmap string A) : list_to_map (range_map m) = m.
Proof.
  rewrite <- (list_to_map_to_list m) at 2. apply list_to_map_proper; [|apply range_map_perm].
  rewrite range_map_perm. apply NoDup_fst_map_to_list.
Qed.

(** What [stringMap] accepts, whatever the iteration order: absent, null, or a map
    of strings, of which it returns the entries. *)
Lemma stringMap_Ok `{MapRange} raw field out :
  stringMap raw field = Ok out <->
  match default Nil raw with
  | Nil => out = ∅
  | Map m => (forall k v, m !! k = Some v -> is_Some (string_of v)) /\ out = omap string_of m
  | _ => False
  end.
Proof.
  destruct raw as [v|]; simpl; [|split; [by intros [= <-]|by intros ->]].
  destruct v; simpl; try done; [by split; [intros [= <-]|intros ->]|].
  rewrite map_entries_Ok by (rewrite range_map_perm; apply NoDup_fst_map_to_list).
  rewrite (right_id_L ∅ (∪)), Forall_forall, list_to_map_range.
  split; intros [Hall ->]; (split; [|done]).
  - intros k v Hk. apply (Hall (k, v)). by apply range_elem.
  - intros [k v] Hin%range_elem. by apply (Hall k v).
Qed.
