(* ===== verification/GoDuration.v ===== *)
(** * [time.ParseDuration]

    The parser of the standard library, with its overflow checks: a duration is
    signed 64 bits of nanoseconds. *)

From S2P Require Import Prelude GoInt GoFloat GoStrings Value.
From Stdlib Require Import Ascii SpecFloat.
#[local] Open Scope Z_scope.

(** [leadingInt]: the leading digits and the rest; [None] when they overflow. *)
Fixpoint leadingInt (x : Z) (s : string) : option (Z * string) :=
  match s with
  | String c s' =>
      if is_digit c then
        if two63 / 10 <? x then None
        else
          let x := x * 10 + (code c - 48) in
          if two63 <? x then None else leadingInt x s'
      else Some (x, s)
  | EmptyString => Some (x, s)
  end.

(** [leadingFraction]: the digits as an integer and its scale; digits past the
    precision are dropped. *)
Fixpoint leadingFraction (x : Z) (scale : float64) (overflow : bool) (s : string) : Z * float64 * string :=
  match s with
  | String c s' =>
      if is_digit c then
        if overflow then leadingFraction x scale overflow s'
        else if maxInt64 / 10 <? x then leadingFraction x scale true s'
        else
          let y := x * 10 + (code c - 48) in
          if two63 <? y then leadingFraction x scale true s'
          else leadingFraction y (fmul scale (fofZ 10)) false s'
      else (x, scale, s)
  | EmptyString => (x, scale, s)
  end.

Fixpoint cut_unit (s : string) : string * string :=
  match s with
  | String c s' =>
      if Ascii.eqb c "." || is_digit c then (EmptyString, s)
      else let '(u, r) := cut_unit s' in (String c u, r)
  | EmptyString => (EmptyString, EmptyString)
  end.

(** [unitMap]; the micro sign has two encodings. *)
Definition micro (a b : nat) : string :=
  String (ascii_of_nat a) (String (ascii_of_nat b) (String "s" EmptyString)).

Definition unitMap (u : string) : option Z :=
  if String.eqb u "ns" then Some 1
  else if String.eqb u "us" || String.eqb u (micro 194 181) || String.eqb u (micro 206 188) then Some 1000
  else if String.eqb u "ms" then Some Millisecond
  else if String.eqb u "s" then Some Second
  else if String.eqb u "m" then Some Minute
  else if String.eqb u "h" then Some Hour
  else None.

(** One number and its unit, and the rest. *)
Definition duration_term (s : string) : option (Z * string) :=
  match s with
  | EmptyString => None
  | String c _ =>
      if negb (Ascii.eqb c "." || is_digit c) then None
      else match leadingInt 0 s with
      | None => None
      | Some (v, s1) =>
          let pre := negb (Nat.eqb (String.length s1) (String.length s)) in
          let '(f, scale, s2, post) :=
            match s1 with
            | String "." s1 =>
                let '(f, scale, s2) := leadingFraction 0 (fofZ 1) false s1 in
                (f, scale, s2, negb (Nat.eqb (String.length s2) (String.length s1)))
            | _ => (0, fofZ 1, s1, false)
            end in
          if negb pre && negb post then None
          else
            let '(u, rest) := cut_unit s2 in
            match unitMap u with
            | None => None
            | Some unit =>
                if two63 / unit <? v then None
                else
                  let v := v * unit in
                  let frac := if 0 <? f then default 0 (ftrunc (fmul (fofZ f) (fdiv (fofZ unit) scale))) else 0 in
                  if two63 <? v + frac then None else Some (v + frac, rest)
            end
      end
  end.

(** The loop over the terms; a term takes at least one byte. *)
Fixpoint duration_terms (fuel : nat) (d : Z) (s : string) : option Z :=
  match s, fuel with
  | EmptyString, _ => Some d
  | _, O => None
  | s, S fuel =>
      match duration_term s with
      | None => None
      | Some (v, rest) => if two63 <? d + v then None else duration_terms fuel (d + v) rest
      end
  end.

Definition ParseDuration (s : string) : result error Duration :=
  let '(neg, s') := match s with
                    | String "-" s => (true, s)
                    | String "+" s => (false, s)
                    | s => (false, s)
                    end in
  let bad := Err (OpaqueError "time: invalid duration") in
  if String.eqb s' "0" then Ok 0
  else if String.eqb s' "" then bad
  else match duration_terms (String.length s') 0 s' with
  | None => bad
  | Some d =>
      if neg then Ok (- d)
      else if maxInt64 <? d then bad
      else Ok d
  end.

Example ParseDuration_terms : ParseDuration "1h15m30.5s" = Ok (4530500 * Millisecond).
Proof. vm_compute. reflexivity. Qed.
Example ParseDuration_negative : ParseDuration "-1.5h" = Ok (- (90 * Minute)).
Proof. vm_compute. reflexivity. Qed.
Example ParseDuration_bare : is_ok (ParseDuration "10") = false.
Proof. vm_compute. reflexivity. Qed.
