(* ===== verification/Http.v ===== *)
(** * Requests, response writers, and the state of the running gateway

    What the program uses of [net/http]: the request, the response writer of a
    connection and the wrappers the program puts around it, and the handler. A
    handler is a computation in the state of the process ([World]); what the
    process reads from outside (network, randomness) is the class [Env]. *)

From S2P Require Import Prelude GoInt GoFloat GoStrings Header OriginState RateLimit Value.
From Stdlib Require Import Ascii.
#[local] Open Scope Z_scope.

(** ** Requests and responses *)

(** An error value, and whether [errors.As] finds a [net.Error] in its chain. *)
Record gerror := mkGerror {
  e_text : string;
  e_net : bool
}.

(** A request body: the bytes the client will send, the error the stream ends
    with if it does not end well, and the limits of the [http.MaxBytesReader]s
    wrapped around it. *)
Record body := mkBody {
  b_data : string;
  b_fail : option gerror;
  b_limits : list Z
}.

(** The values the program stores in a request's context. *)
Record Context_ := mkContext {
  ctx_clientIP : option string;
  ctx_requestID : option string;
  ctx_inboundID : option string;
  ctx_span : option string         (* the active span, opaque *)
}.

Definition background : Context_ := mkContext None None None None.

Record Request := mkRequest {
  r_Method : string;
  r_Scheme : string;         (* URL.Scheme, empty on an incoming request *)
  r_URLHost : string;        (* URL.Host *)
  r_Path : string;           (* URL.Path *)
  r_RawPath : string;        (* URL.RawPath *)
  r_RawQuery : string;
  r_Host : string;
  r_RemoteAddr : string;
  r_Header : header;
  r_Body : option body;
  r_ContentLength : Z;
  r_ctx : Context_
}.

Definition with_Header (h : header) (r : Request) : Request :=
  mkRequest (r_Method r) (r_Scheme r) (r_URLHost r) (r_Path r) (r_RawPath r) (r_RawQuery r) (r_Host r)
    (r_RemoteAddr r) h (r_Body r) (r_ContentLength r) (r_ctx r).
Definition with_Body (b : option body) (r : Request) : Request :=
  mkRequest (r_Method r) (r_Scheme r) (r_URLHost r) (r_Path r) (r_RawPath r) (r_RawQuery r) (r_Host r)
    (r_RemoteAddr r) (r_Header r) b (r_ContentLength r) (r_ctx r).
Definition WithContext (c : Context_) (r : Request) : Request :=
  mkRequest (r_Method r) (r_Scheme r) (r_URLHost r) (r_Path r) (r_RawPath r) (r_RawQuery r) (r_Host r)
    (r_RemoteAddr r) (r_Header r) (r_Body r) (r_ContentLength r) c.

(** What [http.MaxBytesReader] reports past its limit; not a [net.Error]. *)
Definition errTooLarge : gerror := mkGerror "http: request body too large" false.

(** [io.ReadAll] of a body. *)
Definition ReadAll (b : body) : result gerror string :=
  if existsb (fun n => n <? Z.of_nat (String.length (b_data b))) (b_limits b)
  then Err errTooLarge
  else match b_fail b with
       | Some e => Err e
       | None => Ok (b_data b)
       end.

Record Response := mkResponse {
  s_Status : Z;
  s_Header : header;
  s_Body : list string;       (* the chunks the origin sends *)
  s_broken : bool;            (* the origin's body ends in an error *)
  s_info : list (Z * header)  (* 1xx responses that came before *)
}.

(** ** Response writers *)

(** The configuration of a [response_headers] plugin (response_headers.go); its
    writer is one of the wrappers below. *)
Record responseHeaderRule := mkRule {
  rule_contentType : string;
  rule_headers : gmap string string
}.

Record responseHeaders := mkResponseHeaders {
  rh_headers : gmap string string;
  rh_rules : list responseHeaderRule
}.

(** The server's own writer for one exchange. [c_sent] is the final status line
    with the header as it was when it was written. [c_takeover] is what taking the
    connection over will give: an error, or a connection to which an answer can be
    written or not. *)
Record conn := mkConn {
  c_header : header;
  c_sent : option (Z * header);
  c_info : list Z;
  c_body : list string;
  c_hijacked : bool;
  c_takeover : result gerror (option gerror)
}.

Definition newConn : conn := mkConn ∅ None [] [] false (Ok None).

(** A wrapper holds the writer below it: [statusWriter] (metrics.go) and
    [responseHeadersWriter] (response_headers.go). *)
Inductive wrapper :=
| statusWriter (status : Z)
| responseHeadersWriter (plugin : responseHeaders) (applied : bool).

(** A response writer: the wrappers, outermost first, around the server's. *)
Record rw := mkRw {
  rw_wrappers : list wrapper;
  rw_conn : conn
}.

(** [w.Header()] is the connection's header map, through every wrapper. *)
Definition rw_Header (w : rw) : header := c_header (rw_conn w).

Definition conn_update (f : header -> header) (c : conn) : conn :=
  mkConn (f (c_header c)) (c_sent c) (c_info c) (c_body c) (c_hijacked c) (c_takeover c).

Definition update_Header (f : header -> header) (w : rw) : rw :=
  mkRw (rw_wrappers w) (conn_update f (rw_conn w)).

Definition push (x : wrapper) (w : rw) : rw := mkRw (x :: rw_wrappers w) (rw_conn w).

(** Leave a wrapper, keeping what it did to the writer below. *)
Definition pop (w : rw) : rw := mkRw (tail (rw_wrappers w)) (rw_conn w).

(** The server's [WriteHeader]: ignored once the status is out or the connection
    taken over; a 1xx other than 101 is sent at once and is not final. *)
Definition conn_WriteHeader (c : conn) (code : Z) : outcome conn :=
  if c_hijacked c then Ret c
  else match c_sent c with
  | Some _ => Ret c
  | None =>
      if (code <? 100) || (999 <? code) then Panic "invalid WriteHeader code"
      else if (code <=? 199) && negb (code =? 101) then
        Ret (mkConn (c_header c) None (c_info c ++ [code]) (c_body c) false (c_takeover c))
      else Ret (mkConn (c_header c) (Some (code, c_header c)) (c_info c) (c_body c) false (c_takeover c))
  end.

Definition conn_Write (c : conn) (data : string) : outcome conn :=
  if c_hijacked c then Ret c
  else
    let! c := conn_WriteHeader c 200 in
    Ret (mkConn (c_header c) (c_sent c) (c_info c) (c_body c ++ [data]) (c_hijacked c) (c_takeover c)).

Definition conn_Flush (c : conn) : outcome conn := conn_WriteHeader c 200.

(** The server's [Hijack]: its error, or the writer without its connection. *)
Definition conn_Hijack (c : conn) : conn * option gerror :=
  if c_hijacked c then (c, Some (mkGerror "http: connection has been hijacked" false))
  else match c_takeover c with
  | Err e => (c, Some e)
  | Ok _ => (mkConn (c_header c) (c_sent c) (c_info c) (c_body c) true (c_takeover c), None)
  end.

(** What is written to the connection itself once it was taken over: the status line
    and the header, or the error of writing them. *)
Definition conn_switch (code : Z) (c : conn) : conn * option gerror :=
  match c_takeover c with
  | Ok None => (mkConn (c_header c) (Some (code, c_header c)) (c_info c) (c_body c) (c_hijacked c) (c_takeover c), None)
  | Ok (Some e) | Err e => (c, Some e)
  end.

Section writers.
Context `{MapRange}.

(** [responseHeaders.apply]. *)
Definition apply (p : responseHeaders) (h : header) : header :=
  let h := set_all (range_map (rh_headers p)) h in
  match rh_rules p with
  | [] => h
  | rules =>
      let contentType := ToLower (Get h "Content-Type") in
      foldl (fun h rule =>
        if HasPrefix contentType (rule_contentType rule)
        then set_all (range_map (rule_headers rule)) h else h) h rules
  end.

(** [responseHeadersWriter.applyOnce]. *)
Definition applyOnce (p : responseHeaders) (applied : bool) (c : conn) : conn :=
  if applied then c else conn_update (apply p) c.

(** [WriteHeader], through the wrappers: [statusWriter] records the code,
    [responseHeadersWriter] applies its headers first unless the code is
    informational. *)
Fixpoint writeHeader (ws : list wrapper) (c : conn) (code : Z) : outcome (list wrapper * conn) :=
  match ws with
  | [] => let! c := conn_WriteHeader c code in Ret ([], c)
  | statusWriter _ :: ws =>
      let! (ws, c) := writeHeader ws c code in Ret (statusWriter code :: ws, c)
  | responseHeadersWriter p applied :: ws =>
      let '(applied, c) :=
        if 200 <=? code then (true, applyOnce p applied c) else (applied, c) in
      let! (ws, c) := writeHeader ws c code in Ret (responseHeadersWriter p applied :: ws, c)
  end.

(** [Write]; [statusWriter] inherits the inner one. *)
Fixpoint write (ws : list wrapper) (c : conn) (data : string) : outcome (list wrapper * conn) :=
  match ws with
  | [] => let! c := conn_Write c data in Ret ([], c)
  | statusWriter st :: ws =>
      let! (ws, c) := write ws c data in Ret (statusWriter st :: ws, c)
  | responseHeadersWriter p applied :: ws =>
      let! (ws, c) := write ws (applyOnce p applied c) data in
      Ret (responseHeadersWriter p true :: ws, c)
  end.

(** [http.NewResponseController(w).Flush()]: [statusWriter] has no [Flush] and
    is unwrapped, [responseHeadersWriter] has its own. *)
Fixpoint flush (ws : list wrapper) (c : conn) : outcome (list wrapper * conn) :=
  match ws with
  | [] => let! c := conn_Flush c in Ret ([], c)
  | statusWriter st :: ws =>
      let! (ws, c) := flush ws c in Ret (statusWriter st :: ws, c)
  | responseHeadersWriter p applied :: ws =>
      let! (ws, c) := flush ws (applyOnce p applied c) in
      Ret (responseHeadersWriter p true :: ws, c)
  end.

(** [http.NewResponseController(w).Hijack()]: [statusWriter] records the switch unless
    there was an error, [responseHeadersWriter] is unwrapped. *)
Fixpoint hijack (ws : list wrapper) (c : conn) : list wrapper * conn * option gerror :=
  match ws with
  | [] => let '(c, err) := conn_Hijack c in ([], c, err)
  | statusWriter st :: ws =>
      let '(ws, c, err) := hijack ws c in
      (statusWriter (match err with None => 101 | Some _ => st end) :: ws, c, err)
  | responseHeadersWriter p applied :: ws =>
      let '(ws, c, err) := hijack ws c in (responseHeadersWriter p applied :: ws, c, err)
  end.

Definition on_rw (f : list wrapper -> conn -> outcome (list wrapper * conn)) (w : rw) : outcome rw :=
  let! (ws, c) := f (rw_wrappers w) (rw_conn w) in Ret (mkRw ws c).

Definition WriteHeader (w : rw) (code : Z) : outcome rw :=
  on_rw (fun ws c => writeHeader ws c code) w.
Definition Write (w : rw) (data : string) : outcome rw := on_rw (fun ws c => write ws c data) w.
Definition Flush (w : rw) : outcome rw := on_rw flush w.
Definition Hijack (w : rw) : rw * option gerror :=
  let '(ws, c, err) := hijack (rw_wrappers w) (rw_conn w) in (mkRw ws c, err).
Definition Switch (w : rw) (code : Z) : rw * option gerror :=
  let '(c, err) := conn_switch code (rw_conn w) in (mkRw (rw_wrappers w) c, err).

(** [http.Error]: plain text, a final newline. *)
Definition newline : string := String (ascii_of_nat 10) EmptyString.

Definition http_Error (w : rw) (text : string) (status : Z) : outcome rw :=
  let w := update_Header (Del "Content-Length") w in
  let w := update_Header (Set_ "Content-Type" "text/plain; charset=utf-8") w in
  let w := update_Header (Set_ "X-Content-Type-Options" "nosniff") w in
  let! w := WriteHeader w status in
  Write w (text +:+ newline).

End writers.

Arguments apply {_} p h : simpl never.
Arguments applyOnce {_} p applied c : simpl never.

(** ** The process *)

(** Observable actions, as the program issues them. *)
Inductive event :=
| EvRoundTrip (req : Request) (sent : option string)   (* an attempt, with the body it carried *)
| EvSleep (d : Duration)
| EvIncr (n : nat) (key : string)                      (* an INCR to the shared SugarDB, answered by reading [n] *)
| EvExpire (n : nat) (key : string) (seconds : Z)      (* likewise an EXPIRE *)
| EvShutdown (addr : string)                           (* http.Server.Shutdown *)
| EvLog (format : string) (args : list string)         (* log.Printf *)
| EvStdout (text : string)                             (* a flush of an http_log buffer *)
| EvSpanStart (name : string)
| EvSpanAttribute (key value : string)
| EvSpanEnd
| EvTracerShutdown                                     (* what is left of the spans is exported *)
| EvObserve (service method : string) (seconds : float64)
| EvInc (service method status : string).

(** The objects the handlers share, by address. *)
Record Heap := mkHeap {
  h_origins : gmap nat originState;
  h_next : gmap nat Z;                      (* round-robin counters *)
  h_logs : gmap nat string;                 (* the bytes in http_log's buffers *)
  h_stores : gmap nat (memoryStore float64);
  h_sugar : option (result error unit)      (* sharedSugarDBOnce: not run, or its outcome *)
}.

Record World := mkWorld {
  w_now : Time;
  w_tick : nat;                             (* readings taken from [Env] so far *)
  w_events : list event;                    (* oldest first *)
  w_heap : Heap
}.

(** The outside: the answer to the n-th round trip and the time it took, and the
    n-th random numbers. *)
Class Env := {
  env_net : nat -> Request -> Duration * result gerror Response;
  env_get : nat -> string -> Duration * option Z;        (* a health probe: its status *)
  env_rand : nat -> Z;
  env_bytes : nat -> option (list Z);
  env_incr : nat -> string -> result unit Z;             (* the shared SugarDB *)
  env_expire : nat -> string -> Z -> result unit bool;
  env_stamp : Time -> string                (* the local time zone's rendering *)
}.

Definition M (A : Type) : Type := World -> World * outcome A.

Definition ret {A} (a : A) : M A := fun σ => (σ, Ret a).
Definition bind {A B} (m : M A) (k : A -> M B) : M B := fun σ =>
  match m σ with
  | (σ, Ret a) => k a σ
  | (σ, Panic why) => (σ, Panic why)
  end.
Definition lift {A} (o : outcome A) : M A := fun σ => (σ, o).
Definition get {A} (f : World -> A) : M A := fun σ => (σ, Ret (f σ)).
Definition modify (f : World -> World) : M unit := fun σ => (f σ, Ret tt).

(** [defer d] around [m]: [d] runs whether [m] returns or panics. *)
Definition defer {A} (d : M unit) (m : M A) : M A := fun σ =>
  match m σ with
  | (σ, Ret a) => bind d (fun _ => ret a) σ
  | (σ, Panic why) => bind d (fun _ => lift (Panic why)) σ
  end.

Notation "'let*' x ':=' m 'in' k" := (bind m (fun x => k))
  (at level 10, x pattern, m at level 100, k at level 200) : dealer_scope.
Notation "m ';;' k" := (bind m (fun _ => k))
  (at level 100, k at level 200, right associativity) : dealer_scope.

Definition emit (e : event) : M unit :=
  modify (fun σ => mkWorld (w_now σ) (w_tick σ) (w_events σ ++ [e]) (w_heap σ)).
Definition elapse (d : Duration) : M unit :=
  modify (fun σ => mkWorld (w_now σ + d) (w_tick σ) (w_events σ) (w_heap σ)).
Definition on_heap (f : Heap -> Heap) : M unit :=
  modify (fun σ => mkWorld (w_now σ) (w_tick σ) (w_events σ) (f (w_heap σ))).
(** Take one reading from the environment. *)
Definition reading {A} (f : nat -> A) : M A := fun σ =>
  (mkWorld (w_now σ) (S (w_tick σ)) (w_events σ) (w_heap σ), Ret (f (w_tick σ))).

Definition Now : M Time := get w_now.

Definition set_origins (f : gmap nat originState -> gmap nat originState) (h : Heap) : Heap :=
  mkHeap (f (h_origins h)) (h_next h) (h_logs h) (h_stores h) (h_sugar h).
Definition set_next (f : gmap nat Z -> gmap nat Z) (h : Heap) : Heap :=
  mkHeap (h_origins h) (f (h_next h)) (h_logs h) (h_stores h) (h_sugar h).
Definition set_logs (f : gmap nat string -> gmap nat string) (h : Heap) : Heap :=
  mkHeap (h_origins h) (h_next h) (f (h_logs h)) (h_stores h) (h_sugar h).
Definition set_stores (f : gmap nat (memoryStore float64) -> gmap nat (memoryStore float64))
    (h : Heap) : Heap :=
  mkHeap (h_origins h) (h_next h) (h_logs h) (f (h_stores h)) (h_sugar h).
Definition set_sugar (x : option (result error unit)) (h : Heap) : Heap :=
  mkHeap (h_origins h) (h_next h) (h_logs h) (h_stores h) x.

(** An address no object of the map has. *)
Definition next_addr {A} (m : gmap nat A) : nat :=
  map_fold (fun a _ n => Nat.max (S a) n) O m.

Lemma next_addr_fresh {A} (m : gmap nat A) : m !! next_addr m = None.
Proof.
  enough (H : forall a, is_Some (m !! a) -> (a < next_addr m)%nat).
  { destruct (m !! next_addr m) eqn:E; [|done]. specialize (H (next_addr m) ltac:(eauto)). lia. }
  unfold next_addr. apply (map_fold_weak_ind (fun n m => forall a, is_Some (m !! a) -> (a < n)%nat)).
  - intros a [x Hx]. by rewrite lookup_empty in Hx.
  - intros i x m' n Hi IH a [y [[-> _] | [Hne Hy]]%lookup_insert_Some]; [lia|].
    specialize (IH a ltac:(eauto)). lia.
Qed.

(** [context.WithValue] for the keys the program uses. *)
Definition with_clientIP (ip : string) (c : Context_) : Context_ :=
  mkContext (Some ip) (ctx_requestID c) (ctx_inboundID c) (ctx_span c).
Definition with_requestID (id : string) (c : Context_) : Context_ :=
  mkContext (ctx_clientIP c) (Some id) (ctx_inboundID c) (ctx_span c).
Definition with_inboundID (id : string) (c : Context_) : Context_ :=
  mkContext (ctx_clientIP c) (ctx_requestID c) (Some id) (ctx_span c).
Definition with_span (s : option string) (c : Context_) : Context_ :=
  mkContext (ctx_clientIP c) (ctx_requestID c) (ctx_inboundID c) s.

(** ** Computations that leave the heap alone *)

Definition keeps_heap {A} (m : M A) : Prop := forall σ, w_heap (m σ).1 = w_heap σ.

Lemma keeps_ret {A} (a : A) : keeps_heap (ret a). Proof. done. Qed.
Lemma keeps_lift {A} (o : outcome A) : keeps_heap (lift o). Proof. done. Qed.
Lemma keeps_get {A} (f : World -> A) : keeps_heap (get f). Proof. done. Qed.
Lemma keeps_emit e : keeps_heap (emit e). Proof. done. Qed.
Lemma keeps_elapse d : keeps_heap (elapse d). Proof. done. Qed.
Lemma keeps_reading {A} (f : nat -> A) : keeps_heap (reading f). Proof. done. Qed.

Lemma keeps_bind {A B} (m : M A) (k : A -> M B) :
  keeps_heap m -> (forall a, keeps_heap (k a)) -> keeps_heap (bind m k).
Proof.
  intros Hm Hk σ. unfold bind. specialize (Hm σ). destruct (m σ) as [σ1 [a|why]]; simpl in *; [|done].
  by rewrite Hk.
Qed.

Lemma keeps_run {A} (m : M A) σ σ' o : keeps_heap m -> m σ = (σ', o) -> w_heap σ' = w_heap σ.
Proof. intros Hm E. specialize (Hm σ). by rewrite E in Hm. Qed.

Create HintDb frame discriminated.
#[export] Hint Resolve keeps_ret keeps_lift keeps_get keeps_emit keeps_elapse keeps_reading keeps_bind : frame.

(** A handler answers on the writer. Its request is not returned: nothing in the
    program reads the header or the body of a request after the handler it passed
    the request to has returned, and the fields it does read then (the method, the
    path and the context) are never written through the pointer. *)
Definition Handler : Type := rw -> Request -> M rw.
