(* ===== verification/Retry.v ===== *)
(** * Retrying transport

    Models gateway/internal/proxy/retry.go: [retryTransport.RoundTrip] over the
    standard transport, whose answers are the environment's. *)

From S2P Require Import Prelude GoInt GoFloat GoStrings Header OriginState RateLimit Http.
#[local] Open Scope Z_scope.

Section retry.
Context `{Env}.

(** Read the whole body, when there is one. *)
Definition readBody (req : Request) : result gerror (option string) :=
  match r_Body req with
  | None => Ok None
  | Some b => let? d := ReadAll b in Ok (Some d)
  end.

(** One round trip of [http.Transport]: the request's body is read and sent, the
    time it takes passes; a body that cannot be read fails the round trip. *)
Definition transport (req : Request) : M (result gerror Response) :=
  match readBody req with
  | Err e => emit (EvRoundTrip req None);; ret (Err e)
  | Ok sent =>
      let* (took, o) := reading (fun n => env_net n req) in
      emit (EvRoundTrip req sent);;
      elapse took;;
      ret o
  end.

Record retryTransport := mkRetryTransport {
  t_maxAttempts : Z;
  t_retryUnsafe : bool;
  t_backoffBase : Duration
}.

Definition newRetryTransport (maxAttempts : Z) (backoffBase : Duration) (retryUnsafeMethods : bool)
    : retryTransport := mkRetryTransport maxAttempts retryUnsafeMethods backoffBase.

Definition methodIsRetryable (t : retryTransport) (method : string) : bool :=
  if String.eqb method "GET" then true
  else if String.eqb method "HEAD" then true
  else if String.eqb method "OPTIONS" then true
  else t_retryUnsafe t.

(** [rand.Int63n], which panics unless its argument is positive. *)
Definition Int63n (n : Z) : M Z :=
  if n <=? 0 then lift (Panic "invalid argument to Int63n")
  else let* v := reading env_rand in ret (v mod n).

Definition backoff (t : retryTransport) (attempt : Z) : M Duration :=
  let d := shl64 (t_backoffBase t) (attempt - 1) in
  let* j := Int63n (wrap64 (t_backoffBase t + 1)) in
  ret (wrap64 (d + j)).

(** [time.Sleep]: returns at once when the duration is not positive. *)
Definition Sleep (d : Duration) : M unit :=
  emit (EvSleep d);; elapse (Z.max 0 d).

Definition isRetryableError (e : gerror) : bool := e_net e.

(** The request of one attempt: the buffered body, if there is one, from its
    start. *)
Definition attempt_request (req : Request) (bodyBytes : option string) : Request :=
  match bodyBytes with
  | Some d => with_Body (Some (mkBody d None [])) req
  | None => req
  end.

(** Whether the loop returns after this answer. *)
Definition final (t : retryTransport) (attempt : Z) (r : result gerror Response) : bool :=
  match r with
  | Ok _ => true
  | Err e => (attempt =? t_maxAttempts t) || negb (isRetryableError e)
  end.

(** [for attempt := 1; attempt <= t.maxAttempts; attempt++]; the fuel is the
    number of iterations left, and [last] what is returned when none is. *)
Fixpoint attempts (t : retryTransport) (req : Request) (bodyBytes : option string)
    (attempt : Z) (fuel : nat) (last : result gerror Response) : M (result gerror Response) :=
  match fuel with
  | O => ret last
  | S fuel =>
      let* r := transport (attempt_request req bodyBytes) in
      if final t attempt r then ret r
      else
        let* d := backoff t attempt in
        Sleep d;;
        attempts t req bodyBytes (attempt + 1) fuel r
  end.

Definition RoundTrip (t : retryTransport) (req : Request) : M (result gerror Response) :=
  if (t_maxAttempts t <=? 1) || negb (methodIsRetryable t (r_Method req)) then transport req
  else
    match readBody req with
    | Err e => ret (Err e)
    | Ok bodyBytes =>
        attempts t req bodyBytes 1 (Z.to_nat (t_maxAttempts t)) (Err (mkGerror "" false))
    end.

(** ** Lemmas *)

(** The answer to the [i]-th attempt of a call that starts at tick [n]: every
    attempt but the last is followed by one random draw. *)
Definition answer (n : nat) (req : Request) (i : nat) : result gerror Response :=
  (env_net (n + 2 * i) req).2.

(** [d] is a backoff allowed after attempt [a]. *)
Definition backoff_ok (base : Duration) (a : Z) (d : Duration) : Prop :=
  base * 2 ^ (a - 1) <= d <= base * 2 ^ (a - 1) + base.

(** The base and the number of attempts for which no backoff overflows. *)
Definition backoff_fits (t : retryTransport) : Prop :=
  0 <= t_backoffBase t /\
  t_backoffBase t * 2 ^ (t_maxAttempts t - 1) + t_backoffBase t < maxInt64.

Lemma two_power_pos a : 0 <= a -> 1 <= 2 ^ a.
Proof. intros. change 1 with (2 ^ 0). apply Z.pow_le_mono_r; lia. Qed.

Lemma backoff_spec t attempt σ :
  backoff_fits t -> 1 <= attempt < t_maxAttempts t ->
  exists d, backoff t attempt σ =
      (mkWorld (w_now σ) (S (w_tick σ)) (w_events σ) (w_heap σ), Ret d) /\
    backoff_ok (t_backoffBase t) attempt d.
Proof.
  intros [Hb Hfit] Ha. set (base := t_backoffBase t) in *.
  assert (Hpow : base * 2 ^ (attempt - 1) <= base * 2 ^ (t_maxAttempts t - 1)).
  { apply Z.mul_le_mono_nonneg_l; [done|]. apply Z.pow_le_mono_r; lia. }
  pose proof (two_power_pos (attempt - 1) ltac:(lia)).
  assert (0 <= base * 2 ^ (attempt - 1)) by nia.
  unfold backoff, Int63n. fold base.
  rewrite (wrap64_id (base + 1)) by int_lia. rewrite shl64_exact by int_lia.
  destruct (Z.leb_spec (base + 1) 0); [lia|].
  unfold bind, reading, ret. simpl. eexists. split; [done|].
  pose proof (Z.mod_pos_bound (env_rand (w_tick σ)) (base + 1) ltac:(lia)).
  unfold backoff_ok. rewrite wrap64_id; int_lia.
Qed.

(** What an attempt with a readable body does. *)
Lemma transport_attempt req bodyBytes σ :
  (bodyBytes = None -> r_Body req = None) ->
  transport (attempt_request req bodyBytes) σ =
  (mkWorld (w_now σ + (env_net (w_tick σ) (attempt_request req bodyBytes)).1) (S (w_tick σ))
     (w_events σ ++ [EvRoundTrip (attempt_request req bodyBytes) bodyBytes]) (w_heap σ),
   Ret (env_net (w_tick σ) (attempt_request req bodyBytes)).2).
Proof.
  intros Hnone. unfold transport, readBody, bind, reading.
  destruct bodyBytes as [d|]; simpl; [|rewrite (Hnone eq_refl)];
    by destruct (env_net _ _).
Qed.

(** The observable trace of a call that slept [ds] between its attempts. *)
Definition attempt_trace (req : Request) (sent : option string) (ds : list Duration) : list event :=
  flat_map (fun d => [EvRoundTrip req sent; EvSleep d]) ds ++ [EvRoundTrip req sent].

Lemma attempts_spec t req bodyBytes :
  backoff_fits t -> (bodyBytes = None -> r_Body req = None) ->
  forall fuel attempt last σ,
  1 <= attempt -> attempt + Z.of_nat fuel = t_maxAttempts t + 1 -> (0 < fuel)%nat ->
  let req' := attempt_request req bodyBytes in
  exists ds σ',
    attempts t req bodyBytes attempt fuel last σ = (σ', Ret (answer (w_tick σ) req' (length ds))) /\
    w_events σ' = w_events σ ++ attempt_trace req' bodyBytes ds /\
    w_heap σ' = w_heap σ /\
    (length ds < fuel)%nat /\
    (forall i d, ds !! i = Some d ->
       backoff_ok (t_backoffBase t) (attempt + Z.of_nat i) d /\
       exists e, answer (w_tick σ) req' i = Err e /\ isRetryableError e = true) /\
    final t (attempt + Z.of_nat (length ds)) (answer (w_tick σ) req' (length ds)) = true.
Proof.
  intros Hfit Hnone. induction fuel as [|fuel IH]; intros attempt last σ Ha Hsum Hpos; [lia|].
  intros req'. cbn [attempts]. unfold bind at 1. rewrite transport_attempt by done. fold req'.
  destruct (final t attempt (env_net (w_tick σ) req').2) eqn:Ef.
  - exists []. eexists. split.
    { unfold answer. simpl length. rewrite Nat.mul_0_r, Nat.add_0_r. reflexivity. }
    unfold answer. simpl. rewrite Nat.add_0_r, Z.add_0_r.
    split_and!; [done|done|lia|done|done].
  - destruct ((env_net (w_tick σ) req').2) as [|e] eqn:Eo; [done|].
    simpl in Ef. apply orb_false_iff in Ef as [Hlast Hret].
    set (σ1 := mkWorld _ _ _ _).
    destruct (backoff_spec t attempt σ1 Hfit) as (d & Hbk & Hd); [lia|].
    unfold bind at 1. rewrite Hbk. unfold bind at 1, Sleep. cbn.
    match goal with |- context [attempts _ _ _ _ _ _ ?s] => set (σ2 := s) end.
    destruct (IH (attempt + 1) (Err e) σ2) as (ds & σ' & Hrun & Hev & Hheap & Hlen & Hds & Hfin);
      [lia..|].
    fold req' in Hrun, Hev, Hds, Hfin.
    assert (Hshift : forall i, answer (w_tick σ2) req' i = answer (w_tick σ) req' (S i)).
    { intros i. unfold answer, σ2. cbn. do 3 f_equal. lia. }
    exists (d :: ds), σ'. rewrite Hrun, Hshift. split_and!; try done.
    + rewrite Hev. unfold σ2, σ1. cbn. by rewrite <- !app_assoc.
    + simpl. lia.
    + intros [|i] d' Hi; simpl in Hi; simplify_eq.
      * rewrite Z.add_0_r. split; [done|]. exists e. unfold answer. rewrite Nat.mul_0_r, Nat.add_0_r.
        split; [done|]. by apply negb_false_iff.
      * destruct (Hds i d' Hi) as [Hd' He]. rewrite <- Hshift.
        replace (attempt + Z.of_nat (S i)) with (attempt + 1 + Z.of_nat i) by lia. done.
    + simpl length. rewrite <- Hshift.
      replace (attempt + Z.of_nat (S (length ds))) with (attempt + 1 + Z.of_nat (length ds)) by lia. done.
Qed.

Lemma readBody_None req : readBody req = Ok None -> r_Body req = None.
Proof. unfold readBody. destruct (r_Body req) as [b|]; [|done]. by destruct (ReadAll b). Qed.

(** ** Properties *)

(** C10. The retry loop. For a retryable request whose body can be read, and a backoff
    whose last doubling, jitter included, a [time.Duration] holds, the call makes [k+1] attempts for
    some [k] below the maximum: the first [k] all failed with a network error and
    were each followed by a sleep of the exponential backoff with its jitter, and
    the call returns the answer of the last one, which succeeded, failed
    otherwise, or was the last allowed. Every attempt carries the same, whole
    body. *)
Theorem retry_schedule (t : retryTransport) (req : Request) (bodyBytes : option string) (σ : World)
    (Hfit : backoff_fits t) (Hmax : 1 < t_maxAttempts t)
    (Hmethod : methodIsRetryable t (r_Method req) = true)
    (Hbody : readBody req = Ok bodyBytes) :
  let req' := attempt_request req bodyBytes in
  exists ds σ',
    RoundTrip t req σ = (σ', Ret (answer (w_tick σ) req' (length ds))) /\
    w_events σ' = w_events σ ++ attempt_trace req' bodyBytes ds /\
    Z.of_nat (length ds) < t_maxAttempts t /\
    (forall i d, ds !! i = Some d ->
       backoff_ok (t_backoffBase t) (Z.of_nat (S i)) d /\
       exists e, answer (w_tick σ) req' i = Err e /\ isRetryableError e = true) /\
    final t (Z.of_nat (S (length ds))) (answer (w_tick σ) req' (length ds)) = true.
Proof.
  intros req'. unfold RoundTrip. rewrite Hmethod, Hbody.
  destruct (Z.leb_spec (t_maxAttempts t) 1); [lia|]. cbn [orb negb].
  destruct (attempts_spec t req bodyBytes Hfit) with
    (fuel := Z.to_nat (t_maxAttempts t)) (attempt := 1) (last := @Err gerror Response (mkGerror "" false)) (σ := σ)
    as (ds & σ' & Hrun & Hev & _ & Hlen & Hds & Hfin); [|lia..|].
  { intros ->. by apply readBody_None. }
  exists ds, σ'. split_and!; [done|done|lia| |].
  - intros i d Hi. destruct (Hds i d Hi). by replace (Z.of_nat (S i)) with (1 + Z.of_nat i) by lia.
  - by replace (Z.of_nat (S (length ds))) with (1 + Z.of_nat (length ds)) by lia.
Qed.

(** C11. No silent repetition: with retries off, or a method that is not idempotent
    on a service that did not opt in, the origin is contacted at most once,
    whatever the outcome. *)
Theorem unsafe_never_repeated (t : retryTransport) (req : Request) (σ : World)
    (Hno : t_maxAttempts t <= 1 \/
           (t_retryUnsafe t = false /\ r_Method req ∉ ["GET"; "HEAD"; "OPTIONS"]%string)) :
  exists sent, w_events (RoundTrip t req σ).1 = w_events σ ++ [EvRoundTrip req sent].
Proof.
  assert (Hdirect : (t_maxAttempts t <=? 1) || negb (methodIsRetryable t (r_Method req)) = true).
  { destruct Hno as [Hle|[Hu Hm]]; apply orb_true_iff; [left; lia|right].
    rewrite !not_elem_of_cons in Hm. destruct Hm as (Hg & Hh & Ho & _).
    unfold methodIsRetryable. by rewrite (proj2 (String.eqb_neq _ _) Hg),
      (proj2 (String.eqb_neq _ _) Hh), (proj2 (String.eqb_neq _ _) Ho), Hu. }
  unfold RoundTrip. rewrite Hdirect. unfold transport, bind, reading.
  destruct (readBody req) as [sent|e]; [destruct (env_net _ _)|]; by eexists.
Qed.

(** A retryable request whose body cannot be read, because it exceeds a size
    limit or the client failed, is not sent at all: the error is returned with
    no attempt made and no time spent. *)
Theorem unreadable_body_not_sent (t : retryTransport) (req : Request) (e : gerror) (σ : World)
    (Hmax : 1 < t_maxAttempts t) (Hmethod : methodIsRetryable t (r_Method req) = true)
    (Hbody : readBody req = Err e) :
  RoundTrip t req σ = (σ, Ret (Err e)).
Proof.
  unfold RoundTrip. rewrite Hmethod, Hbody. by destruct (Z.leb_spec (t_maxAttempts t) 1); [lia|].
Qed.

(** The backoff shift has no cap: at the default base of 100 ms the 38th
    backoff overflows to a negative duration, on which the sleep returns at once,
    and from the 65th on nothing but the jitter is left, whatever the base. *)
Theorem backoff_overflow (t : retryTransport) (attempt : Z) (σ : World)
    (Hbase : 0 <= t_backoffBase t < maxInt64)
    (Hcase : (t_backoffBase t = 100 * Millisecond /\ attempt = 38) \/ 65 <= attempt) :
  exists d σ', backoff t attempt σ = (σ', Ret d) /\ d <= t_backoffBase t /\
    (attempt = 38 -> w_now (Sleep d σ').1 = w_now σ).
Proof.
  unfold backoff, Int63n. rewrite wrap64_id by int_lia.
  destruct (Z.leb_spec (t_backoffBase t + 1) 0); [lia|].
  unfold bind, reading, ret, Sleep, emit, elapse, modify. cbn.
  pose proof (Z.mod_pos_bound (env_rand (w_tick σ)) (t_backoffBase t + 1) ltac:(lia)) as Hj.
  set (j := env_rand (w_tick σ) mod _) in *.
  assert (Hd : wrap64 (shl64 (t_backoffBase t) (attempt - 1) + j) <=
               (if attempt =? 38 then 0 else t_backoffBase t)).
  { destruct Hcase as [[Hb ->]|Ha].
    - rewrite Hb in *. assert (Hs : shl64 (100 * Millisecond) (38 - 1) = -4702848726509551616) by by vm_compute.
      change (100 * Millisecond) with 100000000 in *.
      rewrite Hs, wrap64_id; [cbn; lia|int_lia].
    - rewrite shl64_big by lia. destruct (Z.eqb_spec attempt 38); [lia|]. rewrite wrap64_id; int_lia. }
  do 2 eexists. split; [reflexivity|]. split.
  - destruct (attempt =? 38); lia.
  - intros ->. simpl in Hd. cbn. lia.
Qed.

End retry.
