(* ===== verification/Netip.v ===== *)
(** * IP addresses

    The parts of [net/netip] and [net] the program uses: addresses, prefixes,
    their textual forms, and [net.SplitHostPort]. *)

From S2P Require Import Prelude GoStrings.
From Stdlib Require Import Ascii.
#[local] Open Scope Z_scope.

(** An IPv4 address (32 bits) or an IPv6 address (128 bits, with its zone). *)
Inductive Addr :=
| V4 (bits : Z)
| V6 (bits : Z) (zone : string).

Record Prefix := mkPrefix {
  p_addr : Addr;      (* without a zone *)
  p_bits : Z
}.

#[export] Instance Addr_eq_dec : EqDecision Addr.
Proof. solve_decision. Defined.

Definition BitLen (a : Addr) : Z :=
  match a with V4 _ => 32 | V6 _ _ => 128 end.

Definition bits_of (a : Addr) : Z :=
  match a with V4 b | V6 b _ => b end.

Definition hasZone (a : Addr) : bool :=
  match a with V6 _ z => negb (String.eqb z "") | V4 _ => false end.

Definition withoutZone (a : Addr) : Addr :=
  match a with V6 b _ => V6 b "" | a => a end.

(** ::ffff:0:0/96, the IPv4-mapped addresses. *)
Definition Is4In6 (a : Addr) : bool :=
  match a with V6 b _ => Z.shiftr b 32 =? 65535 | V4 _ => false end.

Definition Unmap (a : Addr) : Addr :=
  if Is4In6 a then V4 (Z.land (bits_of a) (2 ^ 32 - 1)) else a.

Definition PrefixFrom (a : Addr) (bits : Z) : Prefix := mkPrefix (withoutZone a) bits.

(** Clear the bits below the prefix length. *)
Definition Masked (p : Prefix) : Prefix :=
  let low := BitLen (p_addr p) - p_bits p in
  let mask b := Z.shiftl (Z.shiftr b low) low in
  match p_addr p with
  | V4 b => mkPrefix (V4 (mask b)) (p_bits p)
  | V6 b z => mkPrefix (V6 (mask b) z) (p_bits p)
  end.

Definition Contains (p : Prefix) (a : Addr) : bool :=
  negb (hasZone a) && (BitLen (p_addr p) =? BitLen a) &&
  (Z.shiftr (Z.lxor (bits_of a) (bits_of (p_addr p))) (BitLen a - p_bits p) =? 0).

(** ** Parsing *)

Definition digit (a : ascii) : option Z :=
  if is_digit a then Some (code a - 48) else None.

Definition hexdigit (a : ascii) : option Z :=
  if is_digit a then Some (code a - 48)
  else if (97 <=? code a) && (code a <=? 102) then Some (code a - 87)
  else if (65 <=? code a) && (code a <=? 70) then Some (code a - 55)
  else None.

(** A non-empty string of decimal digits. *)
Fixpoint decimal_from (acc : Z) (s : string) : option Z :=
  match s with
  | EmptyString => Some acc
  | String a s => match digit a with
                  | Some d => decimal_from (acc * 10 + d) s
                  | None => None
                  end
  end.

Definition decimal (s : string) : option Z :=
  match s with
  | EmptyString => None
  | _ => decimal_from 0 s
  end.

(** Decimal without a leading zero. *)
Definition plain_decimal (s : string) : option Z :=
  match s with
  | String "0" (String _ _) => None
  | _ => decimal s
  end.

Definition octet (s : string) : option Z :=
  match plain_decimal s with
  | Some v => if v <=? 255 then Some v else None
  | None => None
  end.

(** The four fields of a dotted quad. *)
Definition parse4 (s : string) : option Z :=
  match Split "." s with
  | [a; b; c; d] =>
      match octet a, octet b, octet c, octet d with
      | Some a, Some b, Some c, Some d => Some (((a * 256 + b) * 256 + c) * 256 + d)
      | _, _, _, _ => None
      end
  | _ => None
  end.

(** Hexadecimal digits at the head of a string: their value, how many, the rest. *)
Fixpoint hex_run (acc n : Z) (s : string) : Z * Z * string :=
  match s with
  | String a s' => match hexdigit a with
                   | Some d => hex_run (acc * 16 + d) (n + 1) s'
                   | None => (acc, n, s)
                   end
  | EmptyString => (acc, n, s)
  end.

(** The groups of an IPv6 address, most significant first, with the index of the
    ellipsis; [groups] holds those read so far. *)
Fixpoint parse6_groups (fuel : nat) (groups : list Z) (ellipsis : option nat) (s : string)
    : option (list Z * option nat) :=
  match fuel with
  | O => match s with EmptyString => Some (groups, ellipsis) | _ => None end
  | S fuel =>
      let '(acc, n, rest) := hex_run 0 0 s in
      if (n =? 0) || (4 <? n) then None
      else match rest with
      | String "." _ =>
          let i := length groups in
          if (match ellipsis with None => negb (Nat.eqb i 6) | Some _ => false end) || Nat.ltb 6 i
          then None
          else match parse4 s with
               | Some v => Some (groups ++ [Z.shiftr v 16; Z.land v 65535], ellipsis)
               | None => None
               end
      | EmptyString => Some (groups ++ [acc], ellipsis)
      | String ":" EmptyString => None
      | String ":" (String ":" rest) =>
          match ellipsis with
          | Some _ => None
          | None =>
              let groups := groups ++ [acc] in
              match rest with
              | EmptyString => Some (groups, Some (length groups))
              | _ => parse6_groups fuel groups (Some (length groups)) rest
              end
          end
      | String ":" rest => parse6_groups fuel (groups ++ [acc]) ellipsis rest
      | _ => None
      end
  end.

Definition join_groups (groups : list Z) : Z := foldl (fun acc g => acc * 65536 + g) 0 groups.

(** Split at the first occurrence of a byte. *)
Fixpoint cut (c : ascii) (s : string) : option (string * string) :=
  match s with
  | EmptyString => None
  | String a s =>
      if Ascii.eqb a c then Some (EmptyString, s)
      else match cut c s with
           | Some (l, r) => Some (String a l, r)
           | None => None
           end
  end.

(** Split at the last occurrence of a byte. *)
Fixpoint cut_last (c : ascii) (s : string) : option (string * string) :=
  match s with
  | EmptyString => None
  | String a s =>
      match cut_last c s with
      | Some (l, r) => Some (String a l, r)
      | None => if Ascii.eqb a c then Some (EmptyString, s) else None
      end
  end.

(** The part before the zone, and the zone; [None] for one that is empty. *)
Definition split_zone (s : string) : string * option string :=
  match cut "%" s with
  | Some (s, EmptyString) => (s, None)
  | Some (s, zone) => (s, Some zone)
  | None => (s, Some EmptyString)
  end.

(** The groups and the ellipsis make an address. *)
Definition expand6 (zone : string) (parsed : option (list Z * option nat)) : option Addr :=
  match parsed with
  | None => None
  | Some (groups, ellipsis) =>
      let n := (8 - length groups)%nat in
      match ellipsis, n with
      | None, O => Some (V6 (join_groups groups) zone)
      | None, S _ => None
      | Some _, O => None
      | Some e, _ => Some (V6 (join_groups (take e groups ++ replicate n 0 ++ drop e groups)) zone)
      end
  end.

Definition parse6_in (zone s : string) : option Addr :=
  match CutPrefix s "::" with
  | None => expand6 zone (parse6_groups 8 [] None s)
  | Some EmptyString => Some (V6 0 zone)
  | Some s => expand6 zone (parse6_groups 8 [] (Some 0%nat) s)
  end.

Definition parse6 (s : string) : option Addr :=
  match split_zone s with
  | (s, Some zone) => parse6_in zone s
  | (_, None) => None
  end.

(** [netip.ParseAddr]: the first dot, colon or percent sign decides. *)
Fixpoint addr_kind (s : string) : option ascii :=
  match s with
  | EmptyString => None
  | String a s => if existsb (Ascii.eqb a) ["."; ":"; "%"]%char then Some a else addr_kind s
  end.

Definition ParseAddr (s : string) : option Addr :=
  match addr_kind s with
  | Some "."%char => V4 <$> parse4 s
  | Some ":"%char => parse6 s
  | _ => None
  end.

Definition ParsePrefix (s : string) : option Prefix :=
  match cut_last "/" s with
  | None => None
  | Some (ip, bitsStr) =>
      match ParseAddr ip, plain_decimal bitsStr with
      | Some a, Some bits =>
          if hasZone a then None
          else if bits <=? BitLen a then Some (PrefixFrom a bits) else None
      | _, _ => None
      end
  end.

(** ** Printing *)

Definition print4 (b : Z) : string :=
  Join (Itoa <$> [Z.land (Z.shiftr b 24) 255; Z.land (Z.shiftr b 16) 255;
                  Z.land (Z.shiftr b 8) 255; Z.land b 255]) ".".

Definition hex_char (d : Z) : ascii :=
  ascii_of_N (Z.to_N (if d <? 10 then d + 48 else d + 87)).

Fixpoint hex_digits (fuel : nat) (v : Z) (acc : string) : string :=
  match fuel with
  | O => acc
  | S fuel =>
      let acc := String (hex_char (v mod 16)) acc in
      if v / 16 =? 0 then acc else hex_digits fuel (v / 16) acc
  end.

Definition hex (v : Z) : string := hex_digits 4 v "".

Definition groups_of (b : Z) : list Z :=
  (fun i => Z.land (Z.shiftr b (16 * (7 - Z.of_nat i))) 65535) <$> seq 0 8.

(** The length of the run of zero groups at the head. *)
Fixpoint zero_run (gs : list Z) : nat :=
  match gs with
  | 0 :: gs => S (zero_run gs)
  | _ => O
  end.

(** The leftmost longest run of at least two zero groups. *)
Fixpoint longest_zeros (i : nat) (gs : list Z) (best : nat * nat) : nat * nat :=
  match gs with
  | [] => best
  | _ :: gs' =>
      let l := zero_run gs in
      longest_zeros (S i) gs'
        (if Nat.leb 2 l && Nat.ltb best.2 l then (i, l) else best)
  end.

Definition print6 (b : Z) : string :=
  let gs := groups_of b in
  let '(start, len) := longest_zeros 0 gs (0%nat, 0%nat) in
  match len with
  | O => Join (hex <$> gs) ":"
  | _ => (Join (hex <$> take start gs) ":" +:+ "::" +:+ Join (hex <$> drop (start + len) gs) ":")%string
  end.

Definition AddrString (a : Addr) : string :=
  match a with
  | V4 b => print4 b
  | V6 b zone =>
      let body := if Is4In6 a then ("::ffff:" +:+ print4 (Z.land b (2 ^ 32 - 1)))%string else print6 b in
      if String.eqb zone "" then body else (body +:+ "%" +:+ zone)%string
  end.

(** ** Host and port *)

(** Whether a byte occurs. *)
Definition occurs (c : ascii) (s : string) : bool :=
  match cut c s with Some _ => true | None => false end.

(** The host part [net.SplitHostPort] returns, [None] for its errors. *)
Definition SplitHost (hostport : string) : option string :=
  match cut_last ":" hostport with
  | None => None
  | Some (before, port) =>
      match hostport with
      | String "[" tail =>
          match cut "]" tail with
          | None => None
          | Some (host, after) =>
              (* the byte after the first ']' is the last colon *)
              if String.eqb after (String ":" port)
              then if occurs "[" host || occurs "[" after || occurs "]" after then None else Some host
              else None
          end
      | _ =>
          if occurs ":" before || occurs "[" hostport || occurs "]" hostport then None else Some before
      end
  end.

(** ** Round trip of the dotted quad *)

Definition octet_prints (v : Z) : bool :=
  match octet (Itoa v) with
  | Some v' => (v' =? v) && string_forallb (fun a => negb (Ascii.eqb a ".")) (Itoa v)
  | None => false
  end.

Lemma octet_Itoa v :
  0 <= v <= 255 ->
  octet (Itoa v) = Some v /\ string_forallb (fun a => negb (Ascii.eqb a ".")) (Itoa v) = true.
Proof.
  intros Hv.
  assert (Hall : forallb octet_prints (Z.of_nat <$> seq 0 256) = true) by by vm_compute.
  rewrite forallb_forall in Hall. specialize (Hall v).
  assert (Hin : In v (Z.of_nat <$> seq 0 256)).
  { apply list_elem_of_In, list_elem_of_fmap. exists (Z.to_nat v).
    split; [by rewrite Z2Nat.id by lia|]. apply elem_of_seq. lia. }
  specialize (Hall Hin). unfold octet_prints in Hall. destruct (octet (Itoa v)) as [v'|]; [|done].
  apply andb_true_iff in Hall as [Heq Hdot]. split; [f_equal; lia|done].
Qed.

Lemma byte_range b i : 0 <= Z.land (Z.shiftr b i) 255 <= 255.
Proof.
  change (Z.land (Z.shiftr b i) 255) with (Z.land (Z.shiftr b i) (Z.ones 8)).
  rewrite Z.land_ones by lia.
  pose proof (Z.mod_pos_bound (Z.shiftr b i) (2 ^ 8) ltac:(lia)). lia.
Qed.

Lemma bytes_join b :
  0 <= b < 2 ^ 32 ->
  ((Z.land (Z.shiftr b 24) 255 * 256 + Z.land (Z.shiftr b 16) 255) * 256 +
   Z.land (Z.shiftr b 8) 255) * 256 + Z.land b 255 = b.
Proof.
  intros Hb. change 255 with (Z.ones 8). rewrite !Z.land_ones, !Z.shiftr_div_pow2 by lia.
  change (2 ^ 24) with 16777216. change (2 ^ 16) with 65536. change (2 ^ 8) with 256.
  change (2 ^ 32) with 4294967296 in Hb.
  Z.div_mod_to_equations. lia.
Qed.

Lemma parse4_print4 b : 0 <= b < 2 ^ 32 -> parse4 (print4 b) = Some b.
Proof.
  intros Hb.
  destruct (octet_Itoa _ (byte_range b 24)) as [H1 D1], (octet_Itoa _ (byte_range b 16)) as [H2 D2],
    (octet_Itoa _ (byte_range b 8)) as [H3 D3].
  pose proof (byte_range b 0) as H0. rewrite Z.shiftr_0_r in H0.
  destruct (octet_Itoa _ H0) as [H4 D4].
  unfold parse4, print4. cbn [fmap list_fmap]. rewrite Split_Join by (done || by repeat constructor).
  rewrite H1, H2, H3, H4. f_equal. by apply bytes_join.
Qed.
