(* ===== verification/NetipText.v ===== *)
(** * Addresses and their text

    Every address [ParseAddr] reads is printed by [AddrString] to a text that reads
    as that address: the texts the program compares, such as the keys of the rate
    limits, stand for addresses one to one. *)

From S2P Require Import Prelude GoStrings Netip.
From Stdlib Require Import Ascii.
#[local] Open Scope Z_scope.

(** ** The addresses that can be read *)

Definition addr_ok (a : Addr) : Prop :=
  match a with V4 b => 0 <= b < 2 ^ 32 | V6 b _ => 0 <= b < 2 ^ 128 end.

Definition group_ok (g : Z) : Prop := 0 <= g < 2 ^ 16.

Lemma hexdigit_range a d : hexdigit a = Some d -> 0 <= d < 16.
Proof. unfold hexdigit, is_digit. intros H. repeat case_match; simplify_eq; lia. Qed.

Lemma hex_run_range acc n s acc' n' rest :
  hex_run acc n s = (acc', n', rest) -> 0 <= n -> 0 <= acc < 16 ^ n -> n <= n' /\ 0 <= acc' < 16 ^ n'.
Proof.
  revert acc n. induction s as [|a s IH]; intros acc n; cbn [hex_run]; [intros [= <- <- <-]; lia|].
  destruct (hexdigit a) as [d|] eqn:E; [|intros [= <- <- <-]; lia]. apply hexdigit_range in E. intros H Hn Hacc.
  destruct (IH _ _ H) as [H1 H2]; [lia|rewrite Z.pow_add_r by lia; lia|]. lia.
Qed.

Lemma octet_range s v : octet s = Some v -> 0 <= v <= 255.
Proof.
  assert (Hdec : forall s acc v, 0 <= acc -> decimal_from acc s = Some v -> 0 <= v).
  { clear. induction s as [|a s IH]; intros acc v Hacc; cbn [decimal_from]; [by intros [= <-]|].
    unfold digit, is_digit. destruct ((48 <=? code a) && (code a <=? 57)) eqn:E; [|done].
    apply IH. apply andb_true_iff in E. lia. }
  unfold octet, plain_decimal, decimal. intros H. repeat case_match; simplify_eq;
    (split; [by eapply (Hdec _ 0)|lia]).
Qed.

Lemma parse4_range s v : parse4 s = Some v -> 0 <= v < 2 ^ 32.
Proof.
  unfold parse4. intros H. repeat case_match; simplify_eq.
  repeat match goal with E : octet _ = Some _ |- _ => apply octet_range in E end. lia.
Qed.

(** The groups read number at most eight, sixteen bits each. *)
Lemma parse6_groups_ok fuel groups e s gs e' :
  parse6_groups fuel groups e s = Some (gs, e') -> Forall group_ok groups -> (length groups + fuel <= 8)%nat ->
  Forall group_ok gs /\ (length gs <= 8)%nat.
Proof.
  revert groups e s. induction fuel as [|fuel IH]; intros groups e s; cbn [parse6_groups].
  { destruct s; [intros [= <- <-]; split; [done|lia]|done]. }
  destruct (hex_run 0 0 s) as [[acc n] rest] eqn:Er. apply hex_run_range in Er as [Hn Hacc]; [|lia..].
  destruct ((n =? 0) || (4 <? n)) eqn:En; [done|]. apply orb_false_iff in En as [_ Hn4%Z.ltb_ge].
  assert (Hg : group_ok acc).
  { unfold group_ok. assert (16 ^ n <= 16 ^ 4) by (apply Z.pow_le_mono_r; lia). lia. }
  intros H Hgs Hlen.
  assert (Hsnoc : Forall group_ok (groups ++ [acc])) by (apply Forall_app; auto).
  assert (Hl : length (groups ++ [acc]) = S (length groups)) by (rewrite length_app; simpl; lia).
  assert (Hrec : forall e s, parse6_groups fuel (groups ++ [acc]) e s = Some (gs, e') -> Forall group_ok gs /\ (length gs <= 8)%nat)
    by (intros ? ? Hp; eapply IH; [exact Hp|done|lia]).
  clear IH. destruct rest as [|c rest]; [simplify_eq; split; [done|lia]|].
  destruct c as [[] [] [] [] [] [] [] []]; try done.
  - destruct (_ || _) eqn:Ei; [done|]. apply orb_false_iff in Ei as [_ Hi%Nat.ltb_ge].
    destruct (parse4 s) as [v|] eqn:E4; [|done]. simplify_eq. apply parse4_range in E4.
    split; [|rewrite length_app; simpl; lia]. apply Forall_app. split; [done|].
    repeat constructor; unfold group_ok; [rewrite Z.shiftr_div_pow2 by lia; Z.div_mod_to_equations; lia..| |];
      change 65535 with (Z.ones 16); rewrite Z.land_ones by lia; apply Z.mod_pos_bound; lia.
  - destruct rest as [|c rest]; [done|]. destruct c as [[] [] [] [] [] [] [] []]; try by eapply Hrec.
    destruct e; [done|]. destruct rest; [simplify_eq; split; [done|lia]|by eapply Hrec].
Qed.

Lemma join_groups_range gs : Forall group_ok gs -> 0 <= join_groups gs < 2 ^ (16 * Z.of_nat (length gs)).
Proof.
  induction gs as [|g gs IH] using rev_ind; [intros _; unfold join_groups; simpl; lia|].
  intros [Hgs Hg]%Forall_app. apply Forall_cons in Hg as [Hg _]. specialize (IH Hgs). unfold group_ok in Hg.
  unfold join_groups in *. rewrite foldl_app, length_app. cbn [foldl length].
  replace (16 * Z.of_nat (length gs + 1)) with (16 * Z.of_nat (length gs) + 16) by lia. rewrite Z.pow_add_r by lia. lia.
Qed.

Lemma join_groups_ok gs : Forall group_ok gs -> (length gs <= 8)%nat -> 0 <= join_groups gs < 2 ^ 128.
Proof.
  intros Hgs Hl. pose proof (join_groups_range gs Hgs) as [H1 H2]. split; [done|].
  eapply Z.lt_le_trans; [exact H2|]. apply Z.pow_le_mono_r; lia.
Qed.

Lemma expand6_ok zone e s a : expand6 zone (parse6_groups 8 [] e s) = Some a -> addr_ok a.
Proof.
  unfold expand6. destruct (parse6_groups 8 [] e s) as [[gs e']|] eqn:Eg; [|done].
  apply parse6_groups_ok in Eg as [Hgs Hl]; [|done|done].
  destruct e' as [e'|], (8 - length gs)%nat as [|n] eqn:En; intros [= <-]; apply join_groups_ok; try done.
  - apply Forall_app. split; [by apply Forall_take|]. apply (Forall_app _ (replicate (S n) 0)). split; [|by apply Forall_drop].
    apply Forall_replicate. unfold group_ok. lia.
  - rewrite length_app. cbn [length]. rewrite length_app, length_replicate, length_take, length_drop. lia.
Qed.

Lemma parse6_ok s a : parse6 s = Some a -> addr_ok a.
Proof.
  unfold parse6, parse6_in. destruct (split_zone s) as [s0 [zone|]]; [|done].
  destruct (CutPrefix s0 "::") as [[|c s']|]; [by intros [= <-]|apply expand6_ok..].
Qed.

Lemma ParseAddr_ok s a : ParseAddr s = Some a -> addr_ok a.
Proof.
  unfold ParseAddr. destruct (addr_kind s) as [[[] [] [] [] [] [] [] []]|]; try done; [|apply parse6_ok].
  destruct (parse4 s) as [v|] eqn:E; [|done]. intros [= <-]. by apply parse4_range in E.
Qed.

Lemma Unmap_ok a : addr_ok a -> addr_ok (Unmap a).
Proof.
  intros Ha. unfold Unmap. destruct (Is4In6 a); [|done]. cbn [addr_ok].
  change (2 ^ 32 - 1) with (Z.ones 32). rewrite Z.land_ones by lia. by apply Z.mod_pos_bound.
Qed.

(** ** Reading hexadecimal groups *)

Definition is_hex (a : ascii) : bool := match hexdigit a with Some _ => true | None => false end.

(** Neither a separator of an address nor the sign of a zone. *)
Definition plain (a : ascii) : bool := negb (existsb (Ascii.eqb a) ["."; ":"; "%"]%char).

Lemma is_hex_plain a : is_hex a = true -> plain a = true.
Proof. destruct a as [[] [] [] [] [] [] [] []]; by vm_compute. Qed.

Lemma string_forallb_impl (p q : ascii -> bool) s :
  (forall a, p a = true -> q a = true) -> string_forallb p s = true -> string_forallb q s = true.
Proof. intros Hpq. induction s as [|a s IH]; simpl; [done|]. rewrite !andb_true_iff. intros [? ?]. auto. Qed.

Lemma string_forallb_app (p : ascii -> bool) s t : string_forallb p (s +:+ t) = string_forallb p s && string_forallb p t.
Proof. induction s as [|a s IH]; [done|]. rewrite str_app_cons. cbn [string_forallb]. by rewrite IH, andb_assoc. Qed.

(** Where a run of digits stops. *)
Definition stops (rest : string) : Prop := match rest with EmptyString => True | String a _ => hexdigit a = None end.

Lemma hex_run_stops acc n rest : stops rest -> hex_run acc n rest = (acc, n, rest).
Proof. destruct rest as [|a rest]; [done|]. cbn [stops hex_run]. by intros ->. Qed.

Lemma hex_run_digits s acc n rest :
  string_forallb is_hex s = true -> stops rest ->
  exists acc', hex_run acc n (s +:+ rest) = (acc', n + Z.of_nat (String.length s), rest).
Proof.
  revert acc n. induction s as [|a s IH]; intros acc n.
  - intros _ Hr. exists acc. change ("" +:+ rest)%string with rest. rewrite hex_run_stops by done. cbn [String.length]. do 2 f_equal. lia.
  - cbn [string_forallb]. intros [Ha Hs]%andb_true_iff Hr. rewrite str_app_cons. cbn [hex_run String.length].
    unfold is_hex in Ha. destruct (hexdigit a) as [d|]; [|done].
    destruct (IH (acc * 16 + d) (n + 1) Hs Hr) as [acc' ->]. exists acc'. do 2 f_equal. lia.
Qed.

Lemma hexdigit_hex_char d : 0 <= d < 16 -> hexdigit (hex_char d) = Some d.
Proof.
  intros Hd. assert (Hall : forallb (fun d => bool_decide (hexdigit (hex_char d) = Some d)) (Z.of_nat <$> seq 0 16) = true) by by vm_compute.
  rewrite forallb_forall in Hall. eapply bool_decide_unpack, Is_true_true, Hall.
  apply list_elem_of_In, list_elem_of_fmap. exists (Z.to_nat d). split; [lia|]. apply elem_of_seq. lia.
Qed.

Lemma hex_run_snoc acc n s d rest acc' n' :
  (forall rest, hex_run acc n (s +:+ rest) = hex_run acc' n' rest) -> 0 <= d < 16 ->
  hex_run acc n (s +:+ String (hex_char d) rest) = hex_run (acc' * 16 + d) (n' + 1) rest.
Proof. intros Hs Hd. rewrite Hs. cbn [hex_run]. by rewrite hexdigit_hex_char. Qed.

(** The digits [hex_digits] puts in front read back as the number. *)
Lemma hex_digits_spec fuel v acc :
  (0 < fuel)%nat -> 0 <= v < 16 ^ Z.of_nat fuel ->
  exists s, hex_digits fuel v acc = (s +:+ acc)%string /\ (0 < String.length s <= fuel)%nat /\
    string_forallb is_hex s = true /\
    forall rest, hex_run 0 0 (s +:+ rest) = hex_run v (Z.of_nat (String.length s)) rest.
Proof.
  revert v acc. induction fuel as [|fuel IH]; intros v acc Hf Hv; [lia|]. cbn [hex_digits].
  assert (Hd : 0 <= v mod 16 < 16) by (by apply Z.mod_pos_bound).
  assert (Hc : is_hex (hex_char (v mod 16)) = true) by (unfold is_hex; by rewrite hexdigit_hex_char).
  destruct (Z.eqb_spec (v / 16) 0) as [H0|H0].
  - exists (String (hex_char (v mod 16)) ""). cbn [String.length string_forallb]. rewrite Hc. split_and!; [done|lia|lia|done|].
    intros rest. rewrite str_app_cons. change ("" +:+ rest)%string with rest.
    cbn [hex_run]. rewrite hexdigit_hex_char by done. f_equal. rewrite Z.mod_eq by lia. lia.
  - assert (Hpos : 0 < v / 16) by (pose proof (Z.div_pos v 16); lia).
    rewrite Nat2Z.inj_succ, Z.pow_succ_r in Hv by lia.
    assert (Hlt : v / 16 < 16 ^ Z.of_nat fuel) by (apply Z.div_lt_upper_bound; lia).
    assert (Hfuel : (0 < fuel)%nat) by (destruct fuel; [simpl in Hlt; lia|lia]).
    destruct (IH (v / 16) (String (hex_char (v mod 16)) acc) Hfuel ltac:(lia)) as (s & -> & Hl & Hs & Hrun).
    exists (s +:+ String (hex_char (v mod 16)) "")%string.
    rewrite <- str_app_assoc, str_app_length, string_forallb_app, Hs. cbn [String.length string_forallb]. rewrite Hc.
    split_and!; [done|lia|lia|done|]. intros rest.
    rewrite <- str_app_assoc, str_app_cons. change ("" +:+ rest)%string with rest.
    rewrite (hex_run_snoc 0 0 s _ _ _ _ Hrun Hd). f_equal; [rewrite Z.mod_eq by lia; lia|lia].
Qed.

Lemma hex_spec g :
  group_ok g -> exists n, 1 <= n <= 4 /\ string_forallb is_hex (hex g) = true /\ hex g <> EmptyString /\
    forall rest, stops rest -> hex_run 0 0 (hex g +:+ rest) = (g, n, rest).
Proof.
  intros Hg. destruct (hex_digits_spec 4 g "" ltac:(lia) Hg) as (s & Hs & Hl & Hh & Hrun).
  unfold hex. rewrite Hs, str_app_nil_r. exists (Z.of_nat (String.length s)). split_and!; [lia|lia|done| |].
  - intros ->. simpl in Hl. lia.
  - intros rest Hrest. rewrite Hrun. by apply hex_run_stops.
Qed.

(** ** Groups and colons *)

Definition colons (gs : list Z) : string := Join (hex <$> gs) ":".

(** The groups, each with its colon, before [u]. *)
Definition prefixed (gs : list Z) (u : string) : string := foldr (fun g s => (hex g +:+ String ":" s)%string) u gs.

Lemma colons_prefixed gs g t : (colons (gs ++ [g]) +:+ t)%string = prefixed gs (hex g +:+ t).
Proof.
  unfold colons. induction gs as [|g' gs IH]; [done|]. cbn [prefixed foldr] in *. fold (prefixed gs (hex g +:+ t)). rewrite <- IH.
  cbn [app fmap list_fmap]. destruct (gs ++ [g]) as [|g'' gs'] eqn:E; [by destruct gs|].
  cbn [fmap list_fmap Join]. rewrite <- !str_app_assoc. f_equal.
Qed.

(** A text that begins with a digit. *)
Definition starts_hex (u : string) : bool := match u with String a _ => is_hex a | EmptyString => false end.

Lemma hex_starts g t : group_ok g -> starts_hex (hex g +:+ t) = true.
Proof.
  intros Hg. destruct (hex_spec g Hg) as (n & _ & Hh & Hne & _). destruct (hex g) as [|a s]; [done|].
  rewrite str_app_cons. cbn [starts_hex string_forallb] in *. by apply andb_true_iff in Hh as [Hh _].
Qed.

Lemma prefixed_starts gs u : Forall group_ok gs -> starts_hex u = true -> starts_hex (prefixed gs u) = true.
Proof. intros Hgs Hu. destruct Hgs; [done|]. by apply hex_starts. Qed.

Lemma starts_hex_CutPrefix u : starts_hex u = true -> CutPrefix u "::" = None.
Proof. destruct u as [|[[] [] [] [] [] [] [] []] u]; try done. Qed.

Lemma group_fits n : 1 <= n <= 4 -> (n =? 0) || (4 <? n) = false.
Proof. intros. apply orb_false_iff. lia. Qed.

Lemma parse_group fuel groups e g u :
  group_ok g -> starts_hex u = true ->
  parse6_groups (S fuel) groups e (hex g +:+ String ":" u) = parse6_groups fuel (groups ++ [g]) e u.
Proof.
  intros Hg Hu. destruct (hex_spec g Hg) as (n & Hn & _ & _ & Hrun). cbn [parse6_groups].
  rewrite Hrun, group_fits by done. destruct u as [|[[] [] [] [] [] [] [] []] u]; done.
Qed.

Lemma parse_prefixed gs fuel groups e u :
  Forall group_ok gs -> starts_hex u = true ->
  parse6_groups (length gs + fuel) groups e (prefixed gs u) = parse6_groups fuel (groups ++ gs) e u.
Proof.
  intros Hgs Hu. revert groups. induction Hgs as [|g gs Hg Hgs IH]; intros groups; [by rewrite app_nil_r|].
  cbn [prefixed foldr length]. fold (prefixed gs u). change (S (length gs) + fuel)%nat with (S (length gs + fuel)).
  rewrite parse_group by (done || by apply prefixed_starts). by rewrite IH, <- app_assoc.
Qed.

Lemma parse_last fuel groups e g : group_ok g -> parse6_groups (S fuel) groups e (hex g) = Some (groups ++ [g], e).
Proof.
  intros Hg. destruct (hex_spec g Hg) as (n & Hn & _ & _ & Hrun). cbn [parse6_groups].
  rewrite <- (str_app_nil_r (hex g)). by rewrite Hrun, group_fits.
Qed.

(** All the groups of a text without an ellipsis. *)
Lemma parse_colons gs fuel groups e :
  Forall group_ok gs -> gs <> [] -> (length gs <= fuel)%nat ->
  parse6_groups fuel groups e (colons gs) = Some (groups ++ gs, e).
Proof.
  intros Hgs Hne Hl. destruct gs as [|g gs _] using rev_ind; [done|]. apply Forall_app in Hgs as [Hgs Hg].
  apply Forall_cons in Hg as [Hg _]. rewrite length_app in Hl. cbn [length] in Hl.
  rewrite <- (str_app_nil_r (colons _)), colons_prefixed, str_app_nil_r.
  replace fuel with (length gs + S (fuel - length gs - 1))%nat by lia.
  rewrite parse_prefixed, parse_last, app_assoc; [done|done|done|]. rewrite <- (str_app_nil_r (hex g)). by apply hex_starts.
Qed.

(** An ellipsis after some groups, and those behind it. *)
Lemma parse_ellipsis l r fuel :
  Forall group_ok l -> Forall group_ok r -> l <> [] -> (length l + length r <= fuel)%nat ->
  parse6_groups fuel [] None (colons l +:+ "::" +:+ colons r) = Some (l ++ r, Some (length l)).
Proof.
  intros Hl Hr Hne Hlen. destruct l as [|g l _] using rev_ind; [done|]. apply Forall_app in Hl as [Hl Hg].
  apply Forall_cons in Hg as [Hg _]. rewrite length_app in *. cbn [length] in *.
  rewrite colons_prefixed. replace fuel with (length l + S (fuel - length l - 1))%nat by lia.
  rewrite parse_prefixed by (done || by apply hex_starts). cbn [app parse6_groups].
  destruct (hex_spec g Hg) as (n & Hn & _ & _ & Hrun). rewrite Hrun, group_fits by done.
  assert (Hlen' : length (l ++ [g]) = (length l + 1)%nat) by by rewrite length_app.
  destruct r as [|g' r]; [cbn; by rewrite app_nil_r, Hlen'|].
  change ("::" +:+ colons (g' :: r))%string with (String ":" (String ":" (colons (g' :: r)))).
  destruct (colons (g' :: r)) as [|a s] eqn:E.
  - exfalso. destruct (hex_spec g') as (_ & _ & _ & Hx & _); [by inversion Hr|].
    unfold colons in E. cbn [fmap list_fmap Join] in E. destruct (hex <$> r); destruct (hex g'); done.
  - rewrite <- E, parse_colons; [by rewrite Hlen'|done|done|lia].
Qed.

(** ** The groups of an address *)

Lemma groups_of_ok b : Forall group_ok (groups_of b) /\ length (groups_of b) = 8%nat.
Proof.
  split; [|done]. unfold groups_of. apply Forall_fmap, Forall_true. intros i. unfold group_ok. simpl.
  change 65535 with (Z.ones 16). rewrite Z.land_ones by lia. by apply Z.mod_pos_bound.
Qed.

Lemma join_step b k k' : 0 <= k -> k' = k + 16 -> Z.shiftr b k' * 65536 + Z.land (Z.shiftr b k) 65535 = Z.shiftr b k.
Proof.
  intros Hk ->. change 65535 with (Z.ones 16). rewrite Z.land_ones, <- Z.shiftr_shiftr by lia.
  rewrite (Z.shiftr_div_pow2 (Z.shiftr b k) 16) by lia. change (2 ^ 16) with 65536.
  pose proof (Z.div_mod (Z.shiftr b k) 65536). lia.
Qed.

Lemma join_groups_of b : 0 <= b < 2 ^ 128 -> join_groups (groups_of b) = b.
Proof.
  intros Hb. assert (H0 : Z.shiftr b 128 = 0) by (rewrite Z.shiftr_div_pow2 by lia; by apply Z.div_small).
  change (groups_of b) with ((fun k => Z.land (Z.shiftr b k) 65535) <$> [112; 96; 80; 64; 48; 32; 16; 0]).
  unfold join_groups. cbn [fmap list_fmap foldl]. rewrite <- H0 at 1.
  rewrite (join_step b 112 128), (join_step b 96 112), (join_step b 80 96), (join_step b 64 80), (join_step b 48 64),
    (join_step b 32 48), (join_step b 16 32), (join_step b 0 16) by lia. apply Z.shiftr_0_r.
Qed.

Lemma zero_run_spec gs : gs = replicate (zero_run gs) 0 ++ drop (zero_run gs) gs.
Proof. induction gs as [|[|p|p] gs IH]; cbn [zero_run]; try done. cbn [replicate app drop]. by rewrite <- IH. Qed.

(** The run that is left out: zeros, and none or several. *)
Lemma longest_zeros_spec gs0 i gs best :
  let run_ok (r : nat * nat) := drop r.1 gs0 = replicate r.2 0 ++ drop (r.1 + r.2) gs0 /\ r.2 <> 1%nat in
  gs = drop i gs0 -> run_ok best -> run_ok (longest_zeros i gs best).
Proof.
  intros run_ok. revert i best. induction gs as [|g gs IH]; intros i best Hgs Hbest; [done|]. cbn [longest_zeros].
  apply IH; [by rewrite <- Nat.add_1_r, <- drop_drop, <- Hgs|].
  destruct (Nat.leb 2 (zero_run (g :: gs)) && _) eqn:E; [|done]. apply andb_true_iff in E as [H2%Nat.leb_le _].
  split; cbn [fst snd]; [|lia]. rewrite <- drop_drop, <- Hgs. apply zero_run_spec.
Qed.

Lemma zeros_split b s l :
  longest_zeros 0 (groups_of b) (0%nat, 0%nat) = (s, l) ->
  groups_of b = take s (groups_of b) ++ replicate l 0 ++ drop (s + l) (groups_of b) /\ l <> 1%nat /\
  (l <> 0%nat -> (s + l <= 8)%nat).
Proof.
  intros E. pose proof (longest_zeros_spec (groups_of b) 0 (groups_of b) (0%nat, 0%nat) eq_refl ltac:(done)) as [H1 H2].
  rewrite E in H1, H2. cbn [fst snd] in *. rewrite <- H1, take_drop. split_and!; [done..|].
  intros Hl. apply (f_equal length) in H1. rewrite length_app, length_replicate, !length_drop in H1.
  rewrite (proj2 (groups_of_ok b)) in H1. lia.
Qed.

(** ** The round trip *)

Lemma colons_starts gs t : Forall group_ok gs -> gs <> [] -> starts_hex (colons gs +:+ t) = true.
Proof.
  intros Hok Hne. destruct gs as [|g gs _] using rev_ind; [done|]. apply Forall_app in Hok as [Hok Hg].
  apply Forall_cons in Hg as [Hg _]. rewrite colons_prefixed. apply prefixed_starts; [done|]. by apply hex_starts.
Qed.

(** Groups with [n] zeros between them, and their text. *)
Lemma ellipsis_parses zone l n r :
  Forall group_ok (l ++ r) -> (0 < n)%nat -> (length l + n + length r = 8)%nat ->
  parse6_in zone (colons l +:+ "::" +:+ colons r) = Some (V6 (join_groups (l ++ replicate n 0 ++ r)) zone).
Proof.
  intros [Hl Hr]%Forall_app Hn Hlen. unfold parse6_in.
  assert (Hexp : expand6 zone (Some (l ++ r, Some (length l))) = Some (V6 (join_groups (l ++ replicate n 0 ++ r)) zone)).
  { cbn [expand6]. rewrite length_app. replace (8 - (length l + length r))%nat with n by lia.
    rewrite take_app_length, drop_app_length. by destruct n; [lia|]. }
  destruct l as [|g l].
  - change (colons [] +:+ "::" +:+ colons r)%string with ("::" +:+ colons r)%string. rewrite CutPrefix_app.
    destruct r as [|g r].
    + cbn [length] in Hlen. replace n with 8%nat by lia. done.
    + pose proof (colons_starts (g :: r) "" Hr ltac:(done)) as Hs. rewrite str_app_nil_r in Hs.
      destruct (colons (g :: r)) as [|a t] eqn:E; [done|]. rewrite <- E, parse_colons by (done || cbn [length] in *; lia).
      exact Hexp.
  - rewrite starts_hex_CutPrefix by by apply colons_starts. rewrite parse_ellipsis by (done || lia). exact Hexp.
Qed.

Lemma print6_parses b zone : 0 <= b < 2 ^ 128 -> parse6_in zone (print6 b) = Some (V6 b zone).
Proof.
  intros Hb. unfold print6. destruct (groups_of_ok b) as [Hok Hlen]. pose proof (join_groups_of b Hb) as Hjoin.
  destruct (longest_zeros 0 (groups_of b) (0%nat, 0%nat)) as [s l] eqn:E. apply zeros_split in E as (Hsplit & _ & Hl).
  set (gs := groups_of b) in *. destruct l as [|l].
  - fold (colons gs). assert (Hne : gs <> []) by done. unfold parse6_in. rewrite starts_hex_CutPrefix.
    + rewrite parse_colons by (done || lia). cbn [app expand6]. by rewrite Hlen, Hjoin.
    + rewrite <- (str_app_nil_r (colons gs)). by apply colons_starts.
  - fold (colons (take s gs)). fold (colons (drop (s + S l) gs)).
    rewrite (ellipsis_parses zone _ (S l)); [by rewrite <- Hsplit, Hjoin| |lia|].
    + apply Forall_app. split; [by apply Forall_take|by apply Forall_drop].
    + rewrite length_take, length_drop, Hlen. specialize (Hl ltac:(done)). lia.
Qed.

(** The digits of an octet, as the reader of groups sees them. *)
Lemma octet_hex v :
  0 <= v <= 255 -> string_forallb is_hex (Itoa v) = true /\ (0 < String.length (Itoa v) <= 3)%nat.
Proof.
  intros Hv. assert (Hall : forallb (fun v => string_forallb is_hex (Itoa v) && Nat.ltb 0 (String.length (Itoa v)) &&
    Nat.leb (String.length (Itoa v)) 3) (Z.of_nat <$> seq 0 256) = true) by by vm_compute.
  rewrite forallb_forall in Hall. specialize (Hall v). rewrite !andb_true_iff, Nat.ltb_lt, Nat.leb_le in Hall.
  destruct Hall as [[? ?] ?]; [|done]. apply list_elem_of_In, list_elem_of_fmap. exists (Z.to_nat v).
  split; [lia|]. apply elem_of_seq. lia.
Qed.

(** The text of four octets begins with one and a dot. *)
Lemma print4_head v : exists d t, print4 v = (Itoa d +:+ String "." t)%string /\ 0 <= d <= 255.
Proof. exists (Z.land (Z.shiftr v 24) 255). eexists. split; [reflexivity|apply byte_range]. Qed.

Lemma parse_tail fuel g v :
  0 <= v < 2 ^ 32 ->
  parse6_groups (S fuel) [g] (Some 0%nat) (print4 v) = Some ([g] ++ [Z.shiftr v 16; Z.land v 65535], Some 0%nat).
Proof.
  intros Hv. destruct (print4_head v) as (d & t & Hp & Hd). destruct (octet_hex d Hd) as [Hh Hl].
  cbn [parse6_groups]. rewrite (parse4_print4 v Hv). rewrite Hp.
  destruct (hex_run_digits (Itoa d) 0 0 (String "." t) Hh eq_refl) as [acc ->].
  by rewrite group_fits by lia.
Qed.

Lemma mapped_parses b zone :
  0 <= b < 2 ^ 128 -> Z.shiftr b 32 = 65535 ->
  parse6_in zone ("::ffff:" +:+ print4 (Z.land b (2 ^ 32 - 1))) = Some (V6 b zone).
Proof.
  intros Hb Hm. change (2 ^ 32 - 1) with (Z.ones 32). set (v := Z.land b (Z.ones 32)).
  assert (Hv : 0 <= v < 2 ^ 32) by (unfold v; rewrite Z.land_ones by lia; by apply Z.mod_pos_bound).
  change ("::ffff:" +:+ print4 v)%string with ("::" +:+ (hex 65535 +:+ String ":" (print4 v)))%string.
  unfold parse6_in. rewrite CutPrefix_app.
  assert (Hs : starts_hex (print4 v) = true).
  { destruct (print4_head v) as (d & t & -> & Hd). destruct (octet_hex d Hd) as [Hh Hl].
    destruct (Itoa d) as [|a s]; [simpl in Hl; lia|]. cbn [string_forallb] in Hh. by apply andb_true_iff in Hh as [Hh _]. }
  destruct (hex 65535 +:+ String ":" (print4 v))%string as [|a t] eqn:E; [done|]. rewrite <- E.
  rewrite parse_group by done. change ([] ++ [65535]) with [65535]. rewrite parse_tail by done. cbn [app expand6 length]. cbn [Nat.sub replicate take drop app].
  f_equal. f_equal. unfold join_groups. cbn [foldl].
  assert (Hsplit : v = Z.shiftr v 16 * 65536 + Z.land v 65535).
  { pose proof (join_step v 0 16 ltac:(lia) eq_refl) as Hj. by rewrite Z.shiftr_0_r in Hj. }
  assert (Hbv : b = 65535 * 2 ^ 32 + v).
  { unfold v. rewrite <- Hm, Z.land_ones, Z.shiftr_div_pow2 by lia. pose proof (Z.div_mod b (2 ^ 32)). lia. }
  rewrite Hbv. lia.
Qed.

(** ** The separator that decides, and the zone *)

Lemma addr_kind_app s c t :
  string_forallb plain s = true -> plain c = false -> addr_kind (s +:+ String c t) = Some c.
Proof.
  intros Hs Hc. unfold plain in *. induction s as [|a s IH]; cbn [string_forallb] in *.
  - change ("" +:+ String c t)%string with (String c t). cbn [addr_kind]. apply negb_false_iff in Hc. by rewrite Hc.
  - apply andb_true_iff in Hs as [Ha Hs]. apply negb_true_iff in Ha. rewrite str_app_cons. cbn [addr_kind]. rewrite Ha. auto.
Qed.

Lemma colons_head g gs t : exists t', (colons (g :: gs) +:+ String ":" t)%string = (hex g +:+ String ":" t')%string.
Proof.
  unfold colons. cbn [fmap list_fmap]. destruct (hex <$> gs) as [|w ws]; cbn [Join]; [by eexists|].
  rewrite <- !str_app_assoc. by eexists.
Qed.

Lemma print6_kind b t : addr_kind (print6 b +:+ t) = Some ":"%char.
Proof.
  assert (Hhex : forall g t', group_ok g -> addr_kind (hex g +:+ String ":" t') = Some ":"%char).
  { intros g t' Hg. apply addr_kind_app; [|done]. destruct (hex_spec g Hg) as (_ & _ & Hh & _). by eapply string_forallb_impl, Hh; apply is_hex_plain. }
  unfold print6. destruct (groups_of_ok b) as [Hok Hlen]. destruct (longest_zeros _ _ _) as [s [|l]].
  - destruct (groups_of b) as [|g [|g' gs]]; [done..|]. apply Forall_cons in Hok as [Hg _].
    cbn [fmap list_fmap Join]. rewrite <- !str_app_assoc. by apply Hhex.
  - fold (colons (take s (groups_of b))). destruct (take s (groups_of b)) as [|g gs] eqn:E.
    + by rewrite <- !str_app_assoc.
    + assert (Hg : group_ok g) by (pose proof (Forall_take _ s _ Hok) as Ht; rewrite E in Ht; by inversion Ht).
      rewrite <- !str_app_assoc. change ("::" +:+ ?u)%string with (String ":" (":" +:+ u)).
      edestruct (colons_head g gs) as [t' ->]. by apply Hhex.
Qed.

Lemma print4_kind v t : addr_kind (print4 v +:+ t) = Some "."%char.
Proof.
  destruct (print4_head v) as (d & u & -> & Hd). destruct (octet_hex d Hd) as [Hh _].
  rewrite <- str_app_assoc, str_app_cons. apply addr_kind_app; [|done]. by eapply string_forallb_impl, Hh; apply is_hex_plain.
Qed.

Definition no_percent (a : ascii) : bool := negb (Ascii.eqb a "%").

Lemma is_hex_no_percent a : is_hex a = true -> no_percent a = true.
Proof. destruct a as [[] [] [] [] [] [] [] []]; by vm_compute. Qed.

Lemma forallb_Join (p : ascii -> bool) ws sep :
  Forall (fun w => string_forallb p w = true) ws -> string_forallb p sep = true -> string_forallb p (Join ws sep) = true.
Proof.
  intros Hws Hsep. induction Hws as [|w ws Hw Hws IH]; [done|]. destruct ws as [|w' ws]; [done|].
  change (Join (w :: w' :: ws) sep) with (w +:+ sep +:+ Join (w' :: ws) sep)%string. by rewrite !string_forallb_app, Hw, Hsep, IH.
Qed.

Lemma print4_no_percent v : string_forallb no_percent (print4 v) = true.
Proof.
  unfold print4. apply forallb_Join; [|done]. pose proof (byte_range v 0) as H0. rewrite Z.shiftr_0_r in H0.
  cbn [fmap list_fmap]. repeat constructor; (eapply string_forallb_impl; [apply is_hex_no_percent|]); apply octet_hex; auto using byte_range.
Qed.

Lemma print6_no_percent b : string_forallb no_percent (print6 b) = true.
Proof.
  assert (Hgs : forall gs, Forall group_ok gs -> string_forallb no_percent (Join (hex <$> gs) ":") = true).
  { intros gs Hgs. apply forallb_Join; [|done]. apply Forall_fmap. eapply Forall_impl; [exact Hgs|]. intros g Hg. cbn.
    destruct (hex_spec g Hg) as (_ & _ & Hh & _). by eapply string_forallb_impl, Hh; apply is_hex_no_percent. }
  unfold print6. destruct (groups_of_ok b) as [Hok _]. destruct (longest_zeros _ _ _) as [s [|l]]; [by apply Hgs|].
  rewrite !string_forallb_app, !Hgs; [done|by apply Forall_drop|by apply Forall_take].
Qed.

Lemma cut_app c s t :
  string_forallb (fun a => negb (Ascii.eqb a c)) s = true -> cut c (s +:+ String c t) = Some (s, t) /\ cut c s = None.
Proof.
  induction s as [|a s IH]; cbn [string_forallb].
  - change ("" +:+ String c t)%string with (String c t). cbn [cut]. by rewrite Ascii.eqb_refl.
  - intros [Ha Hs]%andb_true_iff. rewrite str_app_cons. cbn [cut]. rewrite negb_true_iff in Ha. rewrite Ha.
    by destruct (IH Hs) as [-> ->].
Qed.

(** An address without its zone, and with it. *)
Lemma parse6_zone body zone :
  string_forallb no_percent body = true ->
  parse6 (if String.eqb zone "" then body else body +:+ "%" +:+ zone)%string = parse6_in zone body.
Proof.
  intros Hb. unfold parse6, split_zone. destruct (cut_app "%" body zone Hb) as [H1 H2].
  destruct zone as [|a zone]; cbn [String.eqb]; [by rewrite H2|].
  change ("%" +:+ String a zone)%string with (String "%" (String a zone)). by rewrite H1.
Qed.

(** What is printed reads back as the address. *)
Lemma ParseAddr_AddrString a : addr_ok a -> ParseAddr (AddrString a) = Some a.
Proof.
  intros Ha. destruct a as [b|b zone]; cbn [addr_ok AddrString Is4In6 bits_of] in *.
  - unfold ParseAddr. rewrite <- (str_app_nil_r (print4 b)), print4_kind, str_app_nil_r. by rewrite parse4_print4.
  - set (body := if _ =? _ then _ else _).
    assert (Hbody : string_forallb no_percent body = true /\ (forall t, addr_kind (body +:+ t) = Some ":"%char) /\
                    parse6_in zone body = Some (V6 b zone)).
    { subst body. destruct (Z.eqb_spec (Z.shiftr b 32) 65535) as [Hm|_].
      - split_and!; [by rewrite string_forallb_app, print4_no_percent|done|by apply mapped_parses].
      - split_and!; [apply print6_no_percent|intros; apply print6_kind|by apply print6_parses]. }
    destruct Hbody as (Hp & Hk & Hparse). unfold ParseAddr. rewrite <- Hparse, <- (parse6_zone body zone Hp).
    assert (Hkind : addr_kind (if String.eqb zone "" then body else body +:+ "%" +:+ zone)%string = Some ":"%char).
    { destruct (String.eqb zone ""); [rewrite <- (str_app_nil_r body)|]; apply Hk. }
    by rewrite Hkind.
Qed.

(** Different addresses have different texts. *)
Lemma AddrString_inj a a' : addr_ok a -> addr_ok a' -> AddrString a = AddrString a' -> a = a'.
Proof. intros Ha Ha' H. apply ParseAddr_AddrString in Ha, Ha'. rewrite H in Ha. congruence. Qed.
