(* ===== verification/Json.v ===== *)
(** * JSON as [encoding/json] writes it

    The program encodes maps and structs of strings and integers: the body of a
    failed exchange (proxy.go), the information page (cmd/dealer/main.go), the
    claims of a token (loadtest/jwtgen) and the replies of the test origins
    (loadtest/stubs). The encoder is the standard library's: it escapes what HTML
    and JavaScript would read, and writes a byte that is not UTF-8 as the
    replacement character. [json_read] is a reader of such objects, and the encoder
    is shown to lose nothing but those bytes. *)

From stdpp Require Import pretty.
From S2P Require Import Prelude GoStrings Value Http Netip.
From Stdlib Require Import Ascii.
#[local] Open Scope Z_scope.

(** ** UTF-8 *)

Definition within (lo hi : Z) (a : ascii) : bool := (lo <=? code a) && (code a <=? hi).
Definition continuation : ascii -> bool := within 128 191.

(** The sequences of two, three and four bytes that encode a character. *)
Definition utf8_2 (a b : ascii) : bool := within 194 223 a && continuation b.

Definition utf8_3 (a b c : ascii) : bool :=
  ((within 224 224 a && within 160 191 b) || (within 225 236 a && continuation b) ||
   (within 237 237 a && within 128 159 b) || (within 238 239 a && continuation b)) && continuation c.

Definition utf8_4 (a b c d : ascii) : bool :=
  ((within 240 240 a && within 144 191 b) || (within 241 243 a && continuation b) ||
   (within 244 244 a && within 128 143 b)) && continuation c && continuation d.

(** The characters U+FFFD, U+2028 and U+2029. *)
Definition bytes_of (l : list nat) : string :=
  fold_right (fun n s => String (ascii_of_nat n) s) EmptyString l.

Definition replacement : string := bytes_of [239; 191; 189]%nat.
Definition is_line_separator (a b c : ascii) : bool :=
  within 226 226 a && within 128 128 b && within 168 169 c.

(** ** Encoding *)

(** One byte of ASCII. *)
Definition json_char (a : ascii) : string :=
  let u := ("\u00" +:+ String (hex_char (code a / 16)) (String (hex_char (code a mod 16)) EmptyString))%string in
  if Ascii.eqb a (ascii_of_nat 34) then "\" +:+ dquote
  else if Ascii.eqb a "\" then "\\"
  else if code a =? 8 then "\b" else if code a =? 9 then "\t" else if code a =? 10 then "\n"
  else if code a =? 12 then "\f" else if code a =? 13 then "\r"
  else if (code a <? 32) || existsb (Ascii.eqb a) ["<"; ">"; "&"]%char then u
  else String a EmptyString.

(** The pieces of a string, as the encoder goes through it: a byte of ASCII, a
    longer sequence, or a byte that is not part of one. *)
Inductive piece :=
| one (a : ascii)
| two (a b : ascii)
| three (a b c : ascii)
| four (a b c d : ascii)
| bad.

Fixpoint pieces (s : string) : list piece :=
  match s with
  | EmptyString => []
  | String a s1 =>
      if code a <? 128 then one a :: pieces s1
      else match s1 with
      | EmptyString => [bad]
      | String b s2 =>
          if utf8_2 a b then two a b :: pieces s2
          else match s2 with
          | EmptyString => bad :: pieces s1
          | String c s3 =>
              if utf8_3 a b c then three a b c :: pieces s3
              else match s3 with
              | EmptyString => bad :: pieces s1
              | String d s4 => if utf8_4 a b c d then four a b c d :: pieces s4 else bad :: pieces s1
              end
          end
      end
  end.

(** The text of a piece. *)
Definition piece_text (p : piece) : string :=
  match p with
  | one a => String a EmptyString
  | two a b => String a (String b EmptyString)
  | three a b c => String a (String b (String c EmptyString))
  | four a b c d => String a (String b (String c (String d EmptyString)))
  | bad => replacement
  end.

Definition json_piece (p : piece) : string :=
  match p with
  | one a => json_char a
  | bad => "\ufffd"
  | three a b c =>
      if is_line_separator a b c then ("\u202" +:+ String (hex_char (code c mod 16)) EmptyString)%string
      else piece_text p
  | p => piece_text p
  end.

Definition concat_map {A} (f : A -> string) (l : list A) : string :=
  fold_right (fun x s => (f x +:+ s)%string) EmptyString l.

(** [strings.ToValidUTF8(s, "\ufffd")]: what a reader can get back of a string. *)
Definition to_valid (s : string) : string := concat_map piece_text (pieces s).

Definition valid_utf8 (s : string) : bool :=
  forallb (fun p => match p with bad => false | _ => true end) (pieces s).

Definition json_string (s : string) : string := (dquote +:+ concat_map json_piece (pieces s) +:+ dquote)%string.

Inductive json_value :=
| JString (s : string)
| JInt (z : Z).

Definition json_of (v : json_value) : string :=
  match v with
  | JString s => json_string s
  | JInt z => Itoa z
  end.

Definition json_field (kv : string * json_value) : string := (json_string kv.1 +:+ ":" +:+ json_of kv.2)%string.

(** An object, its fields in the order given: the fields of a struct, or the keys of
    a map in ascending order. *)
Definition json_object (fields : list (string * json_value)) : string :=
  ("{" +:+ Join (json_field <$> fields) "," +:+ "}")%string.

(** [json.NewEncoder(w).Encode]. *)
Definition json_Encode (fields : list (string * json_value)) : string := (json_object fields +:+ newline)%string.

(** ** Reading back *)

Definition prepend (t : string) (r : option (string * string)) : option (string * string) :=
  match r with
  | Some (u, rest) => Some ((t +:+ u)%string, rest)
  | None => None
  end.

Definition of_code (z : Z) : ascii := ascii_of_N (Z.to_N z).

(** A character below U+10000 in UTF-8. *)
Definition utf8_of (n : Z) : string :=
  if n <? 128 then String (of_code n) EmptyString
  else if n <? 2048 then String (of_code (192 + n / 64)) (String (of_code (128 + n mod 64)) EmptyString)
  else String (of_code (224 + n / 4096))
         (String (of_code (128 + n / 64 mod 64)) (String (of_code (128 + n mod 64)) EmptyString)).

Definition hex4 (a b c d : ascii) : option Z :=
  match hexdigit a, hexdigit b, hexdigit c, hexdigit d with
  | Some a, Some b, Some c, Some d => Some (((a * 16 + b) * 16 + c) * 16 + d)
  | _, _, _, _ => None
  end.

Definition short_escape (a : ascii) : option ascii :=
  if Ascii.eqb a (ascii_of_nat 34) || Ascii.eqb a "\" || Ascii.eqb a "/" then Some a
  else if Ascii.eqb a "b" then Some (of_code 8) else if Ascii.eqb a "f" then Some (of_code 12)
  else if Ascii.eqb a "n" then Some (of_code 10) else if Ascii.eqb a "r" then Some (of_code 13)
  else if Ascii.eqb a "t" then Some (of_code 9) else None.

(** The rest of a string, after its opening quote. *)
Fixpoint read_chars (s : string) : option (string * string) :=
  match s with
  | EmptyString => None
  | String a s1 =>
      if Ascii.eqb a (ascii_of_nat 34) then Some (EmptyString, s1)
      else if Ascii.eqb a "\" then
        match s1 with
        | String "u" (String h1 (String h2 (String h3 (String h4 s2)))) =>
            match hex4 h1 h2 h3 h4 with
            | Some n => prepend (utf8_of n) (read_chars s2)
            | None => None
            end
        | String e s2 =>
            match short_escape e with
            | Some c => prepend (String c EmptyString) (read_chars s2)
            | None => None
            end
        | EmptyString => None
        end
      else prepend (String a EmptyString) (read_chars s1)
  end.

Definition read_string (s : string) : option (string * string) :=
  match s with
  | String a s => if Ascii.eqb a (ascii_of_nat 34) then read_chars s else None
  | EmptyString => None
  end.

Fixpoint digits_run (acc : Z) (s : string) : Z * string :=
  match s with
  | String a s' => match digit a with
                   | Some d => digits_run (acc * 10 + d) s'
                   | None => (acc, s)
                   end
  | EmptyString => (acc, s)
  end.

Definition read_value (s : string) : option (json_value * string) :=
  match s with
  | String a s' =>
      if Ascii.eqb a (ascii_of_nat 34) then
        match read_chars s' with Some (t, r) => Some (JString t, r) | None => None end
      else if Ascii.eqb a "-" then let '(n, r) := digits_run 0 s' in Some (JInt (- n), r)
      else if is_digit a then let '(n, r) := digits_run 0 s in Some (JInt n, r)
      else None
  | EmptyString => None
  end.

Fixpoint read_fields (fuel : nat) (s : string) : option (list (string * json_value) * string) :=
  match fuel with
  | O => None
  | S fuel =>
      match read_string s with
      | Some (k, String ":" s) =>
          match read_value s with
          | Some (v, String "," s) =>
              match read_fields fuel s with Some (l, r) => Some ((k, v) :: l, r) | None => None end
          | Some (v, String "}" s) => Some ([(k, v)], s)
          | _ => None
          end
      | _ => None
      end
  end.

(** An object without white space, and what follows it. *)
Definition json_read (s : string) : option (list (string * json_value) * string) :=
  match s with
  | String "{" (String "}" r) => Some ([], r)
  | String "{" r => read_fields (String.length r) r
  | _ => None
  end.

(** ** What is read back is what was written *)

Definition piece_ok (p : piece) : Prop :=
  match p with
  | one a => code a < 128
  | two a b => 128 <= code a /\ 128 <= code b
  | three a b c => 128 <= code a /\ 128 <= code b /\ 128 <= code c
  | four a b c d => 128 <= code a /\ 128 <= code b /\ 128 <= code c /\ 128 <= code d
  | bad => True
  end.

Lemma within_spec lo hi a : within lo hi a = true <-> lo <= code a <= hi.
Proof. unfold within. rewrite andb_true_iff, !Z.leb_le. lia. Qed.

Ltac utf8_bounds :=
  cbn [piece_ok];
  repeat match goal with
  | E : utf8_2 _ _ = true |- _ => unfold utf8_2, continuation in E
  | E : utf8_3 _ _ _ = true |- _ => unfold utf8_3, continuation in E
  | E : utf8_4 _ _ _ _ = true |- _ => unfold utf8_4, continuation in E
  | E : _ && _ = true |- _ => apply andb_true_iff in E as [? ?]
  | E : _ || _ = true |- _ => apply orb_true_iff in E as [E | E]
  | E : within _ _ _ = true |- _ => apply within_spec in E
  end; lia.

Lemma pieces_ok s : Forall piece_ok (pieces s).
Proof.
  remember (String.length s) as n eqn:En. revert s En.
  induction (lt_wf n) as [n _ IH]. intros [|a s1] En; [constructor|].
  assert (Hrec : forall t, (String.length t <= String.length s1)%nat -> Forall piece_ok (pieces t)).
  { intros t Ht. apply (IH (String.length t)); [simpl in En; lia|done]. }
  cbn [pieces]. destruct (Z.ltb_spec (code a) 128); [constructor; [done|by apply Hrec]|].
  assert (Hbad : Forall piece_ok (bad :: pieces s1)) by (constructor; [done|by apply Hrec]).
  destruct s1 as [|b s2]; [by repeat constructor|].
  destruct (utf8_2 a b) eqn:E2.
  { constructor; [utf8_bounds|apply Hrec; simpl; lia]. }
  destruct s2 as [|c s3]; [done|]. destruct (utf8_3 a b c) eqn:E3.
  { constructor; [utf8_bounds|apply Hrec; simpl; lia]. }
  destruct s3 as [|d s4]; [done|]. destruct (utf8_4 a b c d) eqn:E4; [|done].
  constructor; [utf8_bounds|apply Hrec; simpl; lia].
Qed.

Lemma prepend_app t u r : prepend t (prepend u r) = prepend (t +:+ u) r.
Proof. destruct r as [[v rest]|]; simpl; [|done]. by rewrite str_app_assoc. Qed.

(** A byte that is neither a quote nor a backslash stands for itself. *)
Lemma read_plain a s :
  code a <> 34 -> code a <> 92 -> read_chars (String a s) = prepend (String a EmptyString) (read_chars s).
Proof.
  intros Hq Hb. cbn [read_chars]. destruct (Ascii.eqb_spec a (ascii_of_nat 34)) as [->|]; [by destruct Hq|].
  destruct (Ascii.eqb_spec a "\") as [->|]; [by destruct Hb|done].
Qed.

Lemma read_one a s : code a < 128 -> read_chars (json_char a +:+ s) = prepend (String a EmptyString) (read_chars s).
Proof. intros Ha. destruct a as [[] [] [] [] [] [] [] []]; first [reflexivity | by vm_compute in Ha]. Qed.

Lemma of_code_code a : of_code (code a) = a.
Proof. unfold of_code, code. rewrite N2Z.id. apply ascii_N_embedding. Qed.

Lemma code_range a : 0 <= code a < 256.
Proof. unfold code. pose proof (N_ascii_bounded a). lia. Qed.

Lemma code_of_code z : 0 <= z < 256 -> code (of_code z) = z.
Proof. intros Hz. unfold of_code, code. rewrite N_ascii_embedding; lia. Qed.

Lemma read_separator a b c s :
  is_line_separator a b c = true ->
  read_chars ("\u202" +:+ String (hex_char (code c mod 16)) s) =
  prepend (String a (String b (String c EmptyString))) (read_chars s).
Proof.
  unfold is_line_separator. rewrite !andb_true_iff, !within_spec. intros [[Ha Hb] Hc].
  assert (a = of_code 226 /\ b = of_code 128 /\ (c = of_code 168 \/ c = of_code 169)) as (-> & -> & [-> | ->]).
  { assert (Hof : forall x n, code x = n -> x = of_code n) by (intros x n <-; by rewrite of_code_code).
    split_and!; [apply Hof; lia..|].
    assert (code c = 168 \/ code c = 169) as [E | E] by lia; apply Hof in E; auto. }
  all: reflexivity.
Qed.

Lemma read_piece p s : piece_ok p -> read_chars (json_piece p +:+ s) = prepend (piece_text p) (read_chars s).
Proof.
  destruct p as [a|a b|a b c|a b c d|]; cbn [piece_ok json_piece piece_text].
  - apply read_one.
  - intros [Ha Hb]. rewrite !str_app_cons. by rewrite !read_plain, prepend_app by lia.
  - intros (Ha & Hb & Hc). destruct (is_line_separator a b c) eqn:E.
    + rewrite <- str_app_assoc. by apply read_separator.
    + rewrite !str_app_cons. by rewrite !read_plain, !prepend_app by lia.
  - intros (Ha & Hb & Hc & Hd). rewrite !str_app_cons. by rewrite !read_plain, !prepend_app by lia.
  - done.
Qed.

Lemma read_pieces ps s :
  Forall piece_ok ps ->
  read_chars (concat_map json_piece ps +:+ dquote +:+ s) = Some (concat_map piece_text ps, s).
Proof.
  induction 1 as [|p ps Hp Hps IH]; [done|]. cbn [concat_map fold_right] in *.
  rewrite <- str_app_assoc, (read_piece _ _ Hp). fold (concat_map json_piece ps). by rewrite IH.
Qed.

Lemma read_json_string s rest : read_string (json_string s +:+ rest) = Some (to_valid s, rest).
Proof.
  unfold json_string. rewrite <- !str_app_assoc. change (dquote +:+ ?t)%string with (String (ascii_of_nat 34) t) at 1.
  cbn [read_string]. rewrite Ascii.eqb_refl. apply read_pieces, pieces_ok.
Qed.

(** *** Numbers *)

Definition starts_digit (s : string) : bool :=
  match s with String a _ => is_digit a | EmptyString => false end.

Lemma digits_stop acc s : starts_digit s = false -> digits_run acc s = (acc, s).
Proof. destruct s as [|a s]; [done|]. cbn [starts_digit digits_run]. unfold digit. by intros ->. Qed.

Lemma pretty_digit n : (n < 10)%N -> digit (pretty_N_char n) = Some (Z.of_N n).
Proof.
  intros Hn. destruct n as [|p]; [done|]. do 4 (try destruct p as [p|p|]); first [done | lia].
Qed.

Lemma digits_go n s rest :
  digits_run 0 (pretty_N_go n s +:+ rest) = digits_run (Z.of_N n) (s +:+ rest) /\
  (starts_digit s = true \/ (0 < n)%N -> starts_digit (pretty_N_go n s) = true).
Proof.
  revert s. induction (N.lt_wf_0 n) as [n _ IH]; intros s.
  assert (n = 0 \/ 0 < n)%N as [-> | Hn] by lia; [split; [done|by intros [? | ?]]|].
  rewrite pretty_N_go_step by done. pose proof (N.mod_lt n 10 ltac:(done)) as Hm.
  destruct (IH (n / 10)%N (N.div_lt n 10 Hn eq_refl) (String (pretty_N_char (n mod 10)) s)) as [-> Hd].
  pose proof (pretty_digit _ Hm) as Hp. split.
  - rewrite str_app_cons. cbn [digits_run]. rewrite Hp. f_equal.
    pose proof (N.div_mod n 10 ltac:(done)). lia.
  - intros _. apply Hd. left. cbn [starts_digit]. unfold digit in Hp. by destruct (is_digit _).
Qed.

Lemma digits_pretty n rest :
  starts_digit rest = false ->
  digits_run 0 (pretty n +:+ rest) = (Z.of_N n, rest) /\ starts_digit (pretty n) = true.
Proof.
  intros Hr. unfold pretty, pretty_N. case_decide as Hn.
  - subst n. split; [|done]. change ("0" +:+ rest)%string with (String "0" rest). transitivity (digits_run 0 rest); [done|by apply digits_stop].
  - destruct (digits_go n "" rest) as [-> Hd]. split; [by apply digits_stop|]. apply Hd. lia.
Qed.

Lemma starts_digit_inv s :
  starts_digit s = true -> exists a t, s = String a t /\ is_digit a = true /\
    Ascii.eqb a (ascii_of_nat 34) = false /\ Ascii.eqb a "-" = false.
Proof.
  destruct s as [|a t]; [done|]. intros Ha. exists a, t. cbn [starts_digit] in Ha. split_and!; [done..| |].
  - destruct (Ascii.eqb_spec a (ascii_of_nat 34)) as [->|]; done.
  - destruct (Ascii.eqb_spec a "-") as [->|]; done.
Qed.

(** *** Objects *)

Definition valid_value (v : json_value) : json_value :=
  match v with JString s => JString (to_valid s) | JInt z => JInt z end.

Definition valid_field (kv : string * json_value) : string * json_value := (to_valid kv.1, valid_value kv.2).

Lemma read_nat n rest :
  starts_digit rest = false -> read_value (pretty n +:+ rest) = Some (JInt (Z.of_N n), rest).
Proof.
  intros Hr. destruct (digits_pretty n rest Hr) as [Hd Hs].
  destruct (starts_digit_inv _ Hs) as (a & t & E & Ha & Hq & Hm). rewrite E in *. rewrite str_app_cons in *.
  cbn [read_value]. by rewrite Hq, Hm, Ha, Hd.
Qed.

Lemma read_json_of v rest :
  starts_digit rest = false -> read_value (json_of v +:+ rest) = Some (valid_value v, rest).
Proof.
  intros Hr. destruct v as [s|[|p|p]]; cbn [json_of valid_value].
  - pose proof (read_json_string s rest) as Hs. unfold json_string in *. rewrite <- !str_app_assoc in *.
    cbn [read_string] in Hs. change (dquote +:+ ?t)%string with (String (ascii_of_nat 34) t) in *.
    cbn [read_string read_value] in *. rewrite Ascii.eqb_refl in *. by rewrite Hs.
  - by apply (read_nat 0).
  - by apply (read_nat (N.pos p)).
  - change (Itoa (Z.neg p) +:+ rest)%string with (String "-" (pretty (N.pos p) +:+ rest)).
    cbn [read_value]. destruct (digits_pretty (N.pos p) rest Hr) as [-> _]. done.
Qed.

Lemma read_field kv rest :
  starts_digit rest = false ->
  exists s, read_string (json_field kv +:+ rest) = Some (to_valid kv.1, String ":" s) /\
    read_value s = Some (valid_value kv.2, rest).
Proof.
  intros Hr. exists (json_of kv.2 +:+ rest)%string. split; [|by apply read_json_of].
  unfold json_field. rewrite <- !str_app_assoc. apply read_json_string.
Qed.

Lemma read_fields_spec fields fuel rest :
  fields <> [] -> (length fields <= fuel)%nat ->
  read_fields fuel (Join (json_field <$> fields) "," +:+ String "}" rest) = Some (valid_field <$> fields, rest).
Proof.
  intros Hne. revert fuel. induction fields as [|kv [|kv' l] IH]; intros [|fuel] Hf; try done; try (simpl in Hf; lia).
  - cbn [fmap list_fmap Join read_fields]. destruct (read_field kv (String "}" rest) eq_refl) as (s & -> & ->).
    destruct kv. done.
  - change (Join (json_field <$> kv :: kv' :: l) ",")%string
      with (json_field kv +:+ "," +:+ Join (json_field <$> kv' :: l) ",")%string.
    rewrite <- !str_app_assoc.
    change ("," +:+ ?t)%string with (String "," t). cbn [read_fields].
    destruct (read_field kv (String "," (Join (json_field <$> kv' :: l) "," +:+ String "}" rest)) eq_refl)
      as (s & -> & ->).
    rewrite IH; [by destruct kv|done|simpl in *; lia].
Qed.

Lemma join_fields_length fields :
  (length fields <= String.length (Join (json_field <$> fields) ","))%nat.
Proof.
  assert (Hf : forall kv, (0 < String.length (json_field kv))%nat).
  { intros kv. unfold json_field. rewrite !str_app_length. simpl. lia. }
  induction fields as [|kv [|kv' l] IH]; [done|apply Hf|].
  change (Join (json_field <$> kv :: kv' :: l) ",")%string
    with (json_field kv +:+ "," +:+ Join (json_field <$> kv' :: l) ",")%string.
  rewrite !str_app_length. simpl in *. lia.
Qed.

(** An object reads back with its fields, but for the bytes that are not UTF-8. *)
Lemma json_read_object fields rest :
  json_read (json_object fields +:+ rest) = Some (valid_field <$> fields, rest).
Proof.
  unfold json_object. rewrite <- !str_app_assoc.
  destruct fields as [|kv l]; [done|].
  set (body := (Join (json_field <$> kv :: l) "," +:+ "}" +:+ rest)%string).
  change ("{" +:+ body)%string with (String "{" body).
  assert (Hbody : read_fields (String.length body) body = Some (valid_field <$> kv :: l, rest)).
  { apply read_fields_spec; [done|]. unfold body. rewrite str_app_length.
    pose proof (join_fields_length (kv :: l)). lia. }
  assert (exists t, body = String (ascii_of_nat 34) t) as [t Ht].
  { unfold body. destruct l; cbn [fmap list_fmap Join]; unfold json_field, json_string;
      rewrite <- !str_app_assoc; eexists; done. }
  unfold json_read. rewrite Ht in *. exact Hbody.
Qed.

Lemma valid_pieces s : valid_utf8 s = true -> to_valid s = s.
Proof.
  unfold valid_utf8, to_valid. remember (String.length s) as n eqn:En. revert s En.
  induction (lt_wf n) as [n _ IH]. intros [|a s1] En; [done|].
  assert (Hrec : forall t, (String.length t <= String.length s1)%nat ->
            forallb (fun p => match p with bad => false | _ => true end) (pieces t) = true ->
            concat_map piece_text (pieces t) = t).
  { intros t Ht. apply (IH (String.length t)); [simpl in En; lia|done]. }
  assert (Hstep : forall p t, (String.length t <= String.length s1)%nat ->
            forallb (fun p => match p with bad => false | _ => true end) (pieces t) = true ->
            concat_map piece_text (p :: pieces t) = (piece_text p +:+ t)%string).
  { intros p t Ht H. rewrite <- (Hrec t Ht H) at 2. done. }
  cbn [pieces]. destruct (code a <? 128); [by apply Hstep|].
  destruct s1 as [|b s2]; [done|].
  destruct (utf8_2 a b); [apply (Hstep (two a b)); simpl; lia|].
  destruct s2 as [|c s3]; [done|]. destruct (utf8_3 a b c); [apply (Hstep (three a b c)); simpl; lia|].
  destruct s3 as [|d s4]; [done|]. destruct (utf8_4 a b c d); [apply (Hstep (four a b c d)); simpl; lia|done].
Qed.

Example json_escapes :
  json_string (bytes_of [60; 255; 34; 226; 128; 168; 195; 169]%nat) =
  (dquote +:+ "\u003c\ufffd\" +:+ dquote +:+ "\u2028" +:+ bytes_of [195; 169]%nat +:+ dquote)%string.
Proof. reflexivity. Qed.
