(* ===== verification/Tracing.v ===== *)
(** * Request ids and spans (gateway/internal/tracing)

    requestid.go, and the middleware of otel.go. The OpenTelemetry tracer is third
    party: [Tracer] is what the middleware uses of it. *)

From S2P Require Import Prelude GoInt GoFloat GoStrings Header Netip Value Http.
From Stdlib Require Import Ascii.
#[local] Open Scope Z_scope.

(** ** What is not in the repository *)

(** An SDK provider, for an endpoint and a service name. *)
Record TracerProvider := mkTracerProvider {
  tp_endpoint : string;
  tp_service : string
}.

(** [otlptracehttp.New], [resource.New], and [tracer.Start] of a provider, [None]
    being the no-op one: the span of the context it returns, from the parent's and
    the name. *)
Class Tracer := {
  otlp_New : string -> result error unit;
  resource_New : string -> result error unit;
  tracer_Start : option TracerProvider -> option string -> string -> option string
}.

(** [NewTracerProvider]; [None] is the nil provider. *)
Definition NewTracerProvider `{Tracer} (otlpEndpoint serviceName : string)
    : result error (option TracerProvider) :=
  if String.eqb otlpEndpoint "" then Ok None
  else
    let? _ := rmap_err (Wrapf "tracing: build OTLP exporter: %w") (otlp_New otlpEndpoint) in
    let? _ := rmap_err (Wrapf "tracing: build resource: %w") (resource_New serviceName) in
    Ok (Some (mkTracerProvider otlpEndpoint serviceName)).

(** The shutdown that [NewTracerProvider] returns with the provider: the provider's own,
    whose error its caller drops, or one that does nothing. *)
Definition tracingShutdown (tp : option TracerProvider) : M unit :=
  match tp with
  | None => ret tt
  | Some _ => emit EvTracerShutdown
  end.

(** ** Request ids *)

Definition HeaderName : string := "X-Request-Id".

Fixpoint EncodeToString (b : list Z) : string :=
  match b with
  | [] => EmptyString
  | v :: b => String (hex_char (v / 16)) (String (hex_char (v mod 16)) (EncodeToString b))
  end.

Definition FromContext (ctx : Context_) : string := default EmptyString (ctx_requestID ctx).

Section tracing.
Context `{Env}.

(** The environment's reading is what [rand.Read] puts in the 16 bytes. *)
Definition newID : M string :=
  let* b := reading env_bytes in
  ret (match b with None => EmptyString | Some b => EncodeToString b end).

Definition Middleware (trustInbound : bool) (next : Handler) : Handler := fun w r =>
  let id := if trustInbound then Get (r_Header r) HeaderName else EmptyString in
  let* id := if String.eqb id "" then newID else ret id in
  let w := update_Header (Set_ HeaderName id) w in
  let ctx := with_requestID id (r_ctx r) in
  let ctx := with_inboundID (Get (r_Header r) HeaderName) ctx in
  let r := WithContext ctx r in
  let r := with_Header (Set_ HeaderName id (r_Header r)) r in
  next w r.

Definition PreserveInbound (next : Handler) : Handler := fun w r =>
  let inbound := default EmptyString (ctx_inboundID (r_ctx r)) in
  let r := if String.eqb inbound "" then r
           else with_Header (Set_ HeaderName inbound (r_Header r)) r in
  next w r.

(** ** Spans *)

Context `{Tracer}.

Definition SpanMiddleware (tp : option TracerProvider) (next : Handler) : Handler := fun w r =>
  let name := (r_Method r +:+ " " +:+ r_Path r)%string in
  let ctx := with_span (tracer_Start tp (ctx_span (r_ctx r)) name) (r_ctx r) in
  emit (EvSpanStart name);;
  defer (emit EvSpanEnd) (
    emit (EvSpanAttribute "http.method" (r_Method r));;
    emit (EvSpanAttribute "http.path" (r_Path r));;
    (let id := FromContext ctx in
     if String.eqb id "" then ret tt else emit (EvSpanAttribute "request.id" id));;
    next w (WithContext ctx r)).

(** ** Properties *)

(** The id [Middleware] gives a request at tick [n]. *)
Definition request_id (trustInbound : bool) (r : Request) (n : nat) : string :=
  let inbound := Get (r_Header r) HeaderName in
  if trustInbound && negb (String.eqb inbound "") then inbound
  else match env_bytes n with None => EmptyString | Some b => EncodeToString b end.

(** C23. One id follows a request everywhere the gateway looks, and the client has no
    say in it unless the gateway trusts inbound ids: the response header, the
    context that logs and spans read, and the request going on all carry
    [request_id], which without trust does not depend on the request. Only a
    service that preserves the inbound id forwards the client's own, when it sent
    one; the response and the logs keep the gateway's even then. *)
Theorem request_id_flow trustInbound (preserve : bool) next w r σ :
  let id := request_id trustInbound r (w_tick σ) in
  let inbound := Get (r_Header r) HeaderName in
  exists r' σ',
    Middleware trustInbound (if preserve then PreserveInbound next else next) w r σ =
      next (update_Header (Set_ HeaderName id) w) r' σ' /\
    FromContext (r_ctx r') = id /\
    Values (r_Header r') HeaderName =
      [if preserve && negb (String.eqb inbound "") then inbound else id] /\
    (forall k, CanonicalHeaderKey HeaderName <> CanonicalHeaderKey k ->
       Values (r_Header r') k = Values (r_Header r) k) /\
    w_heap σ' = w_heap σ /\ w_now σ' = w_now σ.
Proof.
  intros id inbound. unfold Middleware.
  assert (Hid : exists σ', (if String.eqb (if trustInbound then inbound else EmptyString) ""
      then newID else ret (if trustInbound then inbound else EmptyString)) σ = (σ', Ret id) /\
      w_heap σ' = w_heap σ /\ w_now σ' = w_now σ).
  { unfold id, request_id. fold inbound.
    destruct trustInbound; simpl; [|by eexists].
    destruct (String.eqb inbound ""); simpl; by eexists. }
  destruct Hid as (σ' & Hid & Hh & Hn). fold inbound. unfold bind. rewrite Hid.
  clearbody id inbound. destruct preserve; [unfold PreserveInbound; simpl; destruct (String.eqb inbound "")|];
    (eexists _, σ'; split; [done|]); simpl; (split_and!; [done| | |done|done]);
    try (by rewrite Values_Set, decide_True); intros k Hk; by rewrite !Values_Set, !decide_False.
Qed.

(** A span is ended exactly once however its request ends. *)
Lemma span_ended tp next w r σ :
  exists σ0, let '(σ1, o) := SpanMiddleware tp next w r σ in
    let '(σ2, o') := next w (WithContext (with_span (tracer_Start tp (ctx_span (r_ctx r))
                       (r_Method r +:+ " " +:+ r_Path r)) (r_ctx r)) r) σ0 in
    w_events σ1 = w_events σ2 ++ [EvSpanEnd] /\ o = o'.
Proof.
  unfold SpanMiddleware, defer, bind, emit, modify. simpl.
  match goal with |- context [if String.eqb ?i "" then _ else _] => destruct (String.eqb i "") end; simpl;
  match goal with |- context [next w ?q ?s] => exists s; destruct (next w q s) as [σ2 [a|why]] end; done.
Qed.

End tracing.
