(* ===== verification/ClientIP.v ===== *)
(** * The client's address (gateway/internal/clientip/clientip.go)

    [Resolver.Resolve] believes the X-Forwarded-For chain only as far as it was
    handed through trusted proxies. *)

From S2P Require Import Prelude GoStrings Header Http Netip NetipText.
From Stdlib Require Import Ascii.
#[local] Open Scope Z_scope.

(** ** Definitions *)

Record Resolver := mkResolver { trusted : list Prefix }.

(** The error of [Parse], with the entry it names. *)
Inductive clientip_error := invalidTrustedProxy (entry : string).

(** One entry of the list, as [Parse] reads it. *)
Definition parse_entry (entry : string) : result clientip_error (option Prefix) :=
  let entry := TrimSpace entry in
  if String.eqb entry "" then Ok None
  else match ParsePrefix entry with
  | Some prefix => Ok (Some (Masked prefix))
  | None =>
      match ParseAddr entry with
      | None => Err (invalidTrustedProxy entry)
      | Some addr => Ok (Some (PrefixFrom addr (BitLen addr)))
      end
  end.

Fixpoint parse_entries (entries : list string) (r : list Prefix) : result clientip_error (list Prefix) :=
  match entries with
  | [] => Ok r
  | entry :: entries =>
      let? p := parse_entry entry in
      parse_entries entries (match p with Some p => r ++ [p] | None => r end)
  end.

Definition Parse (list : string) : result clientip_error Resolver :=
  let? r := parse_entries (Split "," list) [] in Ok (mkResolver r).

Definition isTrusted (res : Resolver) (addr : Addr) : bool :=
  let addr := Unmap addr in
  existsb (fun prefix => Contains prefix addr) (trusted res).

Definition peerAddr (r : Request) : string :=
  match SplitHost (r_RemoteAddr r) with
  | None => r_RemoteAddr r
  | Some host => host
  end.

Definition forwardedFor (r : Request) : list string :=
  value ← Values (r_Header r) "X-Forwarded-For";
  base.filter (fun hop => hop <> ""%string) (TrimSpace <$> Split "," value).

(** The loop of [Resolve], from the last hop to the first; [client] is the last
    good hop. *)
Fixpoint walk (res : Resolver) (hops : list string) (client : string) : string :=
  match hops with
  | [] => client
  | h :: hops =>
      match ParseAddr h with
      | None => client
      | Some hop =>
          let client := AddrString (Unmap hop) in
          if negb (isTrusted res hop) then client else walk res hops client
      end
  end.

(** [None] is the nil resolver. *)
Definition Resolve (res : option Resolver) (r : Request) : string :=
  let peer := peerAddr r in
  match res with
  | None => peer
  | Some res =>
      match trusted res with
      | [] => peer
      | _ =>
          match ParseAddr peer with
          | None => peer
          | Some addr =>
              if negb (isTrusted res addr) then peer
              else walk res (rev (forwardedFor r)) peer
          end
      end
  end.

Definition Middleware (res : option Resolver) (next : Handler) : Handler := fun w r =>
  let ctx := with_clientIP (Resolve res r) (r_ctx r) in
  next w (WithContext ctx r).

Definition FromRequest (r : Request) : string :=
  match ctx_clientIP (r_ctx r) with
  | Some ip => if String.eqb ip "" then peerAddr r else ip
  | None => peerAddr r
  end.

(** ** Lemmas *)

(** A hop the walk passes: an address of a trusted proxy. *)
Definition trusted_hop (res : Resolver) (h : string) : bool :=
  match ParseAddr h with
  | Some a => isTrusted res a
  | None => false
  end.

(** The textual form the walk reports a hop in. *)
Definition hop_string (h : string) : option string := AddrString ∘ Unmap <$> ParseAddr h.

(** The peer is a trusted proxy. *)
Definition trusted_peer (res : option Resolver) (r : Request) : bool :=
  match res with
  | Some res => trusted_hop res (peerAddr r)
  | None => false
  end.

Lemma Resolve_untrusted res r : trusted_peer res r = false -> Resolve res r = peerAddr r.
Proof.
  unfold Resolve, trusted_peer, trusted_hop. destruct res as [res|]; [|done].
  destruct (trusted res); [done|]. destruct (ParseAddr (peerAddr r)); [|done]. by intros ->.
Qed.

Lemma Resolve_trusted res r :
  trusted_peer (Some res) r = true ->
  Resolve (Some res) r = walk res (rev (forwardedFor r)) (peerAddr r).
Proof.
  unfold Resolve, trusted_peer, trusted_hop. destruct (ParseAddr (peerAddr r)) as [a|] eqn:E; [|done].
  destruct (trusted res) as [|p ps] eqn:T.
  - unfold isTrusted. by rewrite T.
  - by intros ->.
Qed.

(** The walk passes a block of trusted hops, and its client becomes the last of
    them. *)
Lemma walk_trusted res l hops client :
  forallb (trusted_hop res) l = true ->
  walk res (l ++ hops) client = walk res hops (default client (last l ≫= hop_string)).
Proof.
  revert client. induction l as [|h l IH]; intros client; simpl; [done|].
  intros [Hh Hl]%andb_true_iff. unfold trusted_hop in Hh.
  destruct (ParseAddr h) as [a|] eqn:E; [|done]. rewrite Hh. simpl. rewrite IH by done.
  f_equal. destruct l as [|h' l]; simpl; [by unfold hop_string; rewrite E|].
  destruct (last (h' :: l)) as [z|] eqn:L; [|by apply last_None in L]. simpl.
  assert (Hz : trusted_hop res z = true).
  { rewrite forallb_forall in Hl. apply Hl, list_elem_of_In, last_Some_elem_of. done. }
  unfold hop_string, trusted_hop in *. by destruct (ParseAddr z).
Qed.

Lemma walk_stop res h hops client :
  trusted_hop res h = false -> walk res (h :: hops) client = default client (hop_string h).
Proof.
  unfold trusted_hop, hop_string. simpl. by destruct (ParseAddr h); simpl; [intros ->|].
Qed.

(** The trusted hops nearest to the gateway, farthest first, and the rest. *)
Lemma forwarded_split res hops :
  exists claimed l, hops = claimed ++ l /\ forallb (trusted_hop res) l = true /\
    (forall h, last claimed = Some h -> trusted_hop res h = false).
Proof.
  induction hops as [|h hops (c & l & -> & Hl & Hc)] using rev_ind; [by exists [], []|].
  destruct (trusted_hop res h) eqn:E.
  - exists c, (l ++ [h]). rewrite forallb_app. simpl. rewrite Hl, E. split; [|done].
    by rewrite app_assoc.
  - exists (c ++ l ++ [h]), []. split; [by rewrite app_nil_r, app_assoc|]. split; [done|].
    intros h'. rewrite app_assoc, last_snoc. by intros [= <-].
Qed.

Lemma walk_claims res l h rest rest' client :
  trusted_hop res h = false ->
  walk res (l ++ h :: rest) client = walk res (l ++ h :: rest') client.
Proof.
  intros Hh. revert client. induction l as [|x l IH]; intros client; simpl.
  - unfold trusted_hop in Hh. destruct (ParseAddr h); [|done]. by rewrite Hh.
  - destruct (ParseAddr x); [|done]. by destruct (isTrusted res a); simpl.
Qed.

Lemma hop_strings_trusted res l h :
  forallb (trusted_hop res) l = true -> head l = Some h -> is_Some (hop_string h).
Proof.
  destruct l; [done|]. intros [Hh _]%andb_true_iff [= ->]. unfold trusted_hop, hop_string in *.
  destruct (ParseAddr h); [eauto|done].
Qed.

Lemma forallb_rev {A} (f : A -> bool) l : forallb f (rev l) = forallb f l.
Proof.
  induction l as [|x l IH]; simpl; [done|]. rewrite forallb_app, IH. simpl.
  by rewrite andb_true_r, andb_comm.
Qed.

Lemma last_rev {A} (l : list A) : last (rev l) = head l.
Proof. destruct l as [|x l]; simpl; [done|]. by rewrite last_snoc. Qed.

(** The client of a request that came through trusted proxies: the hop the farthest
    of them saw, which is an address and not itself a trusted proxy. *)
Definition client_hop (res : Resolver) (r : Request) (a : Addr) : Prop :=
  trusted_peer (Some res) r = true /\
  exists claimed h l, forwardedFor r = claimed ++ h :: l /\ forallb (trusted_hop res) l = true /\
    trusted_hop res h = false /\ ParseAddr h = Some a.

Lemma Resolve_client_hop res r a :
  client_hop res r a -> Resolve (Some res) r = AddrString (Unmap a) /\ addr_ok (Unmap a).
Proof.
  intros (Hp & claimed & h & l & Hf & Hl & Hh & Ha). split; [|by eapply Unmap_ok, ParseAddr_ok].
  rewrite Resolve_trusted, Hf, rev_app_distr by done. cbn [rev]. rewrite <- app_assoc, walk_trusted by (by rewrite forallb_rev).
  cbn [app]. rewrite walk_stop by done. unfold hop_string. by rewrite Ha.
Qed.

(** The address [Middleware] leaves for the handlers behind it. *)
Lemma FromRequest_client_hop res r a :
  client_hop res r a ->
  FromRequest (WithContext (with_clientIP (Resolve (Some res) r) (r_ctx r)) r) = AddrString (Unmap a) /\
  ParseAddr (AddrString (Unmap a)) = Some (Unmap a).
Proof.
  intros [Hr Ha]%Resolve_client_hop. apply ParseAddr_AddrString in Ha. split; [|done].
  unfold FromRequest, with_clientIP. cbn [ctx_clientIP r_ctx WithContext]. rewrite Hr.
  destruct (String.eqb_spec (AddrString (Unmap a)) "") as [E|]; [by rewrite E in Ha|done].
Qed.

(** ** Properties *)

(** Resolve, on every branch. A request from a peer that is not a trusted proxy
    is the peer's. From a trusted one, let [l] be the hops nearest to the gateway
    that are all trusted proxies: if the chain ends there the client is the
    leftmost of them; otherwise it is the hop before them if that is an address,
    and the last good hop if it is not. *)
Theorem Resolve_spec res r claimed l :
  forwardedFor r = claimed ++ l ->
  forallb (trusted_hop res) l = true ->
  (forall h, last claimed = Some h -> trusted_hop res h = false) ->
  Resolve (Some res) r =
    if trusted_peer (Some res) r
    then default (default (peerAddr r) (head l ≫= hop_string)) (last claimed ≫= hop_string)
    else peerAddr r.
Proof.
  intros Hf Hl Hc. destruct (trusted_peer (Some res) r) eqn:Hp; [|by apply Resolve_untrusted].
  rewrite Resolve_trusted, Hf, rev_app_distr, walk_trusted, last_rev by (done || by rewrite forallb_rev).
  destruct claimed as [|h claimed _] using rev_ind; [done|].
  rewrite rev_app_distr. simpl. rewrite last_snoc in *. by apply walk_stop, Hc.
Qed.

(** C22. A client is known by its address, and by nothing it claims. Of a request that
    came through trusted proxies the handlers behind the middleware see a text that
    reads back as the address the farthest of those proxies saw, an IPv4-mapped one
    unmapped, whatever stood to its left in the header; and two such requests show
    the same text, and so share rate limits, exactly when their clients have the same
    address, however differently their proxies wrote it. *)
Theorem clients_identified res r r' a a' :
  client_hop res r a -> client_hop res r' a' ->
  exists seen seen',
    (forall next w, Middleware (Some res) next w r = next w seen) /\
    (forall next w, Middleware (Some res) next w r' = next w seen') /\
    ParseAddr (FromRequest seen) = Some (Unmap a) /\
    (FromRequest seen = FromRequest seen' <-> Unmap a = Unmap a').
Proof.
  intros Ha Ha'. do 2 eexists. split; [reflexivity|]. split; [reflexivity|].
  destruct (FromRequest_client_hop res r a Ha) as [-> Hp], (FromRequest_client_hop res r' a' Ha') as [-> Hp'].
  split; [done|]. split; [|congruence]. intros H. rewrite H in Hp. congruence.
Qed.

(** What a client claims cannot change what it is taken for: whatever stands to
    the left of a hop that is not a trusted proxy, in however many header lines,
    the resolved address is the same. *)
Theorem Resolve_claims_ignored res r r' claimed claimed' h l :
  trusted_hop res h = false ->
  forwardedFor r = claimed ++ h :: l -> forwardedFor r' = claimed' ++ h :: l ->
  r_RemoteAddr r = r_RemoteAddr r' ->
  Resolve (Some res) r = Resolve (Some res) r'.
Proof.
  intros Hh Hr Hr' Hpeer.
  assert (Hp : peerAddr r = peerAddr r') by (unfold peerAddr; by rewrite Hpeer).
  destruct (trusted_peer (Some res) r) eqn:Ht.
  - assert (Ht' : trusted_peer (Some res) r' = true) by (simpl in *; by rewrite <- Hp).
    rewrite !Resolve_trusted, Hr, Hr', Hp by done. rewrite !rev_app_distr. simpl.
    rewrite <- !app_assoc. by apply walk_claims.
  - rewrite !Resolve_untrusted; [done| |done]. simpl in *. by rewrite <- Hp.
Qed.

(** An IPv4-mapped prefix holds no address [isTrusted] can ask about, since it
    unmaps the address first. *)
Lemma mapped_prefix_empty p a :
  Is4In6 (p_addr p) = true -> 96 <= p_bits p <= 128 -> Contains p (Unmap a) = false.
Proof.
  destruct p as [[b|b z] n]; [done|]. cbn [p_addr p_bits Is4In6]. intros Hm%Z.eqb_eq Hn.
  unfold Contains. cbn [p_addr p_bits BitLen bits_of].
  destruct (Unmap a) as [x|x zx] eqn:Ha; cbn [BitLen bits_of]; [by rewrite andb_false_r|].
  assert (Hx : Z.shiftr x 32 <> 65535).
  { unfold Unmap in Ha. destruct (Is4In6 a) eqn:E; [done|]. subst a. by apply Z.eqb_neq. }
  apply andb_false_iff. right. apply Z.eqb_neq. intros H0. apply Hx.
  assert (H1 : Z.shiftr (Z.lxor x b) 32 = 0).
  { replace 32 with ((128 - n) + (32 - (128 - n))) by lia.
    rewrite <- Z.shiftr_shiftr by lia. by rewrite H0, Z.shiftr_0_l. }
  rewrite Z.shiftr_lxor in H1. apply Z.lxor_eq in H1. by rewrite H1.
Qed.

(** A trusted-proxy list of IPv4-mapped addresses is accepted and trusts
    nothing: every request resolves to its direct peer. *)
Theorem mapped_entry_trusts_nothing res r :
  Forall (fun p => Is4In6 (p_addr p) = true /\ 96 <= p_bits p <= 128) (trusted res) ->
  Resolve (Some res) r = peerAddr r.
Proof.
  intros Hall. apply Resolve_untrusted. simpl. unfold trusted_hop.
  destruct (ParseAddr (peerAddr r)) as [a|]; [|done]. apply existsb_false.
  eapply Forall_impl; [exact Hall|]. intros p [Hm Hn]. by apply mapped_prefix_empty.
Qed.
