(* ===== verification/Url.v ===== *)
(** * URLs

    The parts of [net/url] the program uses, [Parse] and [URL.Query().Get], and the
    joining of paths of [net/http/httputil]. *)

From S2P Require Import Prelude GoStrings Netip.
From Stdlib Require Import Ascii.
#[local] Open Scope Z_scope.

(** [url.QueryUnescape]. *)
Fixpoint QueryUnescape (s : string) : option string :=
  match s with
  | EmptyString => Some EmptyString
  | String "%" (String a (String b s)) =>
      match hexdigit a, hexdigit b with
      | Some x, Some y => String (ascii_of_N (Z.to_N (x * 16 + y))) <$> QueryUnescape s
      | _, _ => None
      end
  | String "%" _ => None
  | String "+" s => String " " <$> QueryUnescape s
  | String a s => String a <$> QueryUnescape s
  end.

(** One [key=value] field; a malformed one is skipped. *)
Definition parse_field (field : string) : option (string * string) :=
  if occurs ";" field || String.eqb field "" then None
  else
    let '(key, value) := default (field, EmptyString) (cut "=" field) in
    match QueryUnescape key, QueryUnescape value with
    | Some key, Some value => Some (key, value)
    | _, _ => None
    end.

Definition Query (raw : string) : list (string * string) := omap parse_field (Split "&" raw).

(** [Query().Get(key)]: the first value, or the empty string. *)
Definition QueryGet (raw key : string) : string :=
  default EmptyString (snd <$> find (fun kv => String.eqb kv.1 key) (Query raw)).

Example QueryGet_escapes : QueryGet "a=1;b&token=x%2Ey+z&token=2" "token" = "x.y z"%string.
Proof. reflexivity. Qed.

(** ** [url.Parse] *)

Record URL := mkURL {
  u_Scheme : string;
  u_Host : string;
  u_Path : string;
  u_RawPath : string;         (* the path as it was written, where [u_Path] does not say *)
  u_RawQuery : string
}.

Definition is_ctl (a : ascii) : bool := (code a <? 32) || (code a =? 127).

Definition is_alnum (a : ascii) : bool := is_lower a || is_upper a || is_digit a.

(** [getScheme]: the scheme and the rest; [None] for its error. *)
Fixpoint scheme_from (first : bool) (s : string) : option (option (string * string)) :=
  match s with
  | EmptyString => Some None
  | String a s =>
      if is_lower a || is_upper a ||
         (negb first && (is_digit a || existsb (Ascii.eqb a) ["+"; "-"; "."]%char)) then
        match scheme_from false s with
        | Some (Some (sch, rest)) => Some (Some (String a sch, rest))
        | x => x
        end
      else if Ascii.eqb a ":" then if first then None else Some (Some (EmptyString, s))
      else Some None
  end.

Definition getScheme (s : string) : option (string * string) :=
  match scheme_from true s with
  | None => None
  | Some None => Some (EmptyString, s)
  | Some (Some p) => Some p
  end.

(** [unescape] of a path or user information: [%] and two hexadecimal digits. *)
Fixpoint PathUnescape (s : string) : option string :=
  match s with
  | EmptyString => Some EmptyString
  | String "%" (String a (String b s)) =>
      match hexdigit a, hexdigit b with
      | Some x, Some y => String (ascii_of_N (Z.to_N (x * 16 + y))) <$> PathUnescape s
      | _, _ => None
      end
  | String "%" _ => None
  | String a s => String a <$> PathUnescape s
  end.

(** The bytes [escape] leaves as they are in a path: what [shouldEscape] is false of. *)
Definition path_byte (a : ascii) : bool :=
  is_alnum a || existsb (Ascii.eqb a) ["-"; "_"; "."; "~"; "$"; "&"; "+"; ","; "/"; ":"; ";"; "="; "@"]%char.

Definition upperhex (d : Z) : ascii := ascii_of_N (Z.to_N (if d <? 10 then 48 + d else 55 + d)).

(** [escape] of a path. *)
Fixpoint path_escape (s : string) : string :=
  match s with
  | EmptyString => EmptyString
  | String a s =>
      if path_byte a then String a (path_escape s)
      else String "%" (String (upperhex (code a / 16)) (String (upperhex (code a mod 16)) (path_escape s)))
  end.

(** [validEncoded] of a path. *)
Definition valid_encoded (s : string) : bool :=
  string_forallb (fun a => path_byte a || existsb (Ascii.eqb a) ["!"; "'"; "("; ")"; "*"; "["; "]"; "%"]%char) s.

(** [URL.EscapedPath]: the path as it was written, if that is a way to write it. *)
Definition EscapedPath (path raw : string) : string :=
  if negb (String.eqb raw "") && valid_encoded raw && bool_decide (PathUnescape raw = Some path) then raw
  else if String.eqb path "*" then "*"
  else path_escape path.

(** [URL.setPath]: the path and the raw path. *)
Definition set_path (p : string) : option (string * string) :=
  (fun path => (path, if String.eqb p (path_escape path) then EmptyString else p)) <$> PathUnescape p.

(** The bytes a host may hold unescaped: letters, digits, the unreserved marks, the
    sub-delimiters and what is not ASCII. *)
Definition host_byte (a : ascii) : bool :=
  is_alnum a || (128 <=? code a) ||
  existsb (Ascii.eqb a) ["-"; "_"; "."; "~"; "!"; "$"; "&"; "'"; "("; ")"; "*"; "+"; ","; ";"; "=";
                         ":"; "["; "]"; "<"; ">"; ascii_of_nat 34]%char.

(** [unescape] of a host: an escape is [%25] or gives a byte that is not ASCII. *)
Fixpoint HostUnescape (s : string) : option string :=
  match s with
  | EmptyString => Some EmptyString
  | String "%" (String a (String b s)) =>
      match hexdigit a, hexdigit b with
      | Some x, Some y =>
          if (8 <=? x) || ((x =? 2) && (y =? 5))
          then String (ascii_of_N (Z.to_N (x * 16 + y))) <$> HostUnescape s else None
      | _, _ => None
      end
  | String a s => if host_byte a then String a <$> HostUnescape s else None
  end.

(** [validOptionalPort] of what follows the colon. *)
Definition valid_port (s : string) : bool := string_forallb is_digit s.

(** [parseHost]. *)
Definition parseHost (host : string) : option string :=
  let port_ok :=
    match host with
    | String "[" _ =>
        match cut_last "]" host with
        | None => false
        | Some (_, EmptyString) => true
        | Some (_, String ":" port) => valid_port port
        | Some _ => false
        end
    | _ => match cut_last ":" host with
           | None => true
           | Some (_, port) => valid_port port
           end
    end in
  if port_ok then HostUnescape host else None.

Definition userinfo_byte (a : ascii) : bool :=
  is_alnum a ||
  existsb (Ascii.eqb a) ["-"; "."; "_"; ":"; "~"; "!"; "$"; "&"; "'"; "("; ")"; "*"; "+"; ","; ";"; "=";
                         "%"; "@"]%char.

(** [parseAuthority], without the user information it returns. *)
Definition parseAuthority (authority : string) : option string :=
  match cut_last "@" authority with
  | None => parseHost authority
  | Some (user, host) =>
      match parseHost host, PathUnescape user with
      | Some host, Some _ => if string_forallb userinfo_byte user then Some host else None
      | _, _ => None
      end
  end.

(** Split before the first slash. *)
Fixpoint cut_slash (s : string) : string * string :=
  match s with
  | EmptyString => (EmptyString, EmptyString)
  | String "/" _ => (EmptyString, s)
  | String a s => let '(l, r) := cut_slash s in (String a l, r)
  end.

(** [url.Parse]; [None] for its errors. The opaque part of a URL such as
    [mailto:x], which has no host, is dropped. *)
Definition Parse (raw : string) : option URL :=
  let '(u, frag) := default (raw, EmptyString) (cut "#" raw) in
  if negb (string_forallb (fun a => negb (is_ctl a)) u) then None
  else match PathUnescape frag with
  | None => None
  | Some _ =>
  match getScheme u with
  | None => None
  | Some (scheme, rest) =>
      let scheme := ToLower scheme in
      let '(rest, query) := default (rest, EmptyString) (cut "?" rest) in
      if negb (HasPrefix rest "/") && negb (String.eqb scheme "") then Some (mkURL scheme "" "" "" query)
      else if negb (HasPrefix rest "/") && occurs ":" (cut_slash rest).1 then None
      else
        let '(host, path) :=
          match CutPrefix rest "//" with
          | Some authority =>
              if negb (String.eqb scheme "") || negb (HasPrefix rest "///")
              then let '(authority, path) := cut_slash authority in (parseAuthority authority, path)
              else (Some EmptyString, rest)
          | None => (Some EmptyString, rest)
          end in
        match host, set_path path with
        | Some host, Some (path, raw) => Some (mkURL scheme host path raw query)
        | _, _ => None
        end
  end
  end.

Example Parse_origin :
  Parse "http://10.0.0.1:8080/base?x=1" = Some (mkURL "http" "10.0.0.1:8080" "/base" "" "x=1").
Proof. reflexivity. Qed.
Example Parse_no_scheme : Parse "origin.internal:8080" = Some (mkURL "origin.internal" "" "" "" "").
Proof. reflexivity. Qed.

(** [singleJoiningSlash] and [joinURLPath] of [httputil.NewSingleHostReverseProxy]: the
    path and the raw path. *)
Definition HasSuffixSlash (s : string) : bool :=
  match cut_last "/" s with Some (_, EmptyString) => true | _ => false end.

Definition singleJoiningSlash (a b : string) : string :=
  match HasSuffixSlash a, CutPrefix b "/" with
  | true, Some b' => a +:+ b'
  | false, None => a +:+ "/" +:+ b
  | _, _ => a +:+ b
  end.

Definition joinURLPath (a : URL) (path raw : string) : string * string :=
  if String.eqb (u_RawPath a) "" && String.eqb raw "" then (singleJoiningSlash (u_Path a) path, EmptyString)
  else
    let apath := EscapedPath (u_Path a) (u_RawPath a) in
    let bpath := EscapedPath path raw in
    match HasSuffixSlash apath, HasPrefix bpath "/" with
    | true, true => (u_Path a +:+ str_drop 1 path, apath +:+ str_drop 1 bpath)
    | false, false => (u_Path a +:+ "/" +:+ path, apath +:+ "/" +:+ bpath)
    | _, _ => (u_Path a +:+ path, apath +:+ bpath)
    end%string.

(** ** Lemmas *)

(** What was escaped reads back. *)
Lemma escaped_byte a s :
  PathUnescape (String "%" (String (upperhex (code a / 16)) (String (upperhex (code a mod 16)) s))) =
  String a <$> PathUnescape s.
Proof.
  assert (Hall : forallb (fun n => let a := ascii_of_nat n in
    bool_decide (hexdigit (upperhex (code a / 16)) = Some (code a / 16)) &&
    bool_decide (hexdigit (upperhex (code a mod 16)) = Some (code a mod 16)) &&
    Ascii.eqb (ascii_of_N (Z.to_N (code a / 16 * 16 + code a mod 16))) a) (seq 0 256) = true) by by vm_compute.
  rewrite forallb_forall in Hall. specialize (Hall (nat_of_ascii a)).
  rewrite ascii_nat_embedding in Hall. cbv zeta in Hall.
  destruct (andb_prop _ _ (Hall ltac:(apply in_seq; pose proof (nat_ascii_bounded a); lia))) as [[E1 E2]%andb_true_iff E3].
  apply bool_decide_eq_true_1 in E1, E2. apply Ascii.eqb_eq in E3. cbn [PathUnescape]. by rewrite E1, E2, E3.
Qed.

Lemma PathUnescape_escape s : PathUnescape (path_escape s) = Some s.
Proof.
  induction s as [|a s IH]; [done|]. cbn [path_escape]. destruct (path_byte a) eqn:Ea; [|by rewrite escaped_byte, IH].
  assert (Hne : a <> "%"%char) by (intros ->; done).
  transitivity (String a <$> PathUnescape (path_escape s)); [|by rewrite IH].
  by destruct a as [[] [] [] [] [] [] [] []].
Qed.

(** However a path was written, it stands for the same path. *)
Lemma EscapedPath_unescapes path raw : PathUnescape (EscapedPath path raw) = Some path.
Proof.
  unfold EscapedPath. destruct (negb _ && _ && _) eqn:E.
  - apply andb_true_iff in E as [_ E]. by apply bool_decide_eq_true_1 in E.
  - destruct (String.eqb_spec path "*") as [->|]; [done|apply PathUnescape_escape].
Qed.
