(* ===== verification/Cors.v ===== *)
(** * The cors plugin (gateway/internal/plugin/cors.go) *)

From S2P Require Import Prelude GoFloat GoStrings Header Value Http.
From Stdlib Require Import Ascii.
#[local] Open Scope Z_scope.

(** ** Definitions *)

Record cors := mkCors {
  allowedOrigins : list string;
  allowedMethods : list string;
  allowedHeaders : list string;
  allowCredentials : bool;
  maxAge : string
}.

Definition newCORS `{Platform} (cfg : config) : result error cors :=
  let? origins := rmap_err (Wrapf "cors: %w") (toStringSlice cfg "allowed_origins") in
  let origins := default [] origins in
  if bool_decide (origins = []) then Err (Errorf0 "cors: config.allowed_origins is required")
  else
    let? methods := rmap_err (Wrapf "cors: %w") (toStringSlice cfg "allowed_methods") in
    let? headers := rmap_err (Wrapf "cors: %w") (toStringSlice cfg "allowed_headers") in
    let allowCredentials := as_bool (cfg !! "allow_credentials"%string) in
    if allowCredentials && existsb (fun o => String.eqb o "*") origins then
      Err (Errorf0 ("cors: config.allow_credentials cannot be true when config.allowed_origins includes "
                    +:+ dquote +:+ "*" +:+ dquote))
    else
      let? maxAge := match cfg !! "max_age"%string with
                     | None => Ok ""%string
                     | Some raw =>
                         let? seconds := rmap_err (Wrapf "cors: config.max_age: %w") (toInt64 raw) in
                         Ok (Itoa seconds)
                     end in
      Ok (mkCors origins (default [] methods) (default [] headers) allowCredentials maxAge).

Definition originAllowed (p : cors) (origin : string) : bool :=
  existsb (fun o => String.eqb o "*" || String.eqb o origin) (allowedOrigins p).

Definition allowAllOrigins (p : cors) : bool :=
  existsb (fun o => String.eqb o "*") (allowedOrigins p).

Definition is_preflight (r : Request) : bool :=
  String.eqb (r_Method r) "OPTIONS" &&
  negb (String.eqb (Get (r_Header r) "Access-Control-Request-Method") "").

(** The response headers of an allowed origin. *)
Definition allow_headers (p : cors) (origin : string) (preflight : bool) (h : header) : header :=
  let h := Add "Vary" "Origin" h in
  let h := Set_ "Access-Control-Allow-Origin" (if allowAllOrigins p then "*" else origin) h in
  let h := if allowCredentials p then Set_ "Access-Control-Allow-Credentials" "true" h else h in
  if preflight then
    let h := if bool_decide (allowedMethods p = []) then h
             else Set_ "Access-Control-Allow-Methods" (Join (allowedMethods p) ", ") h in
    let h := if bool_decide (allowedHeaders p = []) then h
             else Set_ "Access-Control-Allow-Headers" (Join (allowedHeaders p) ", ") h in
    if String.eqb (maxAge p) "" then h else Set_ "Access-Control-Max-Age" (maxAge p) h
  else h.

Definition cors_Wrap `{MapRange} (p : cors) (next : Handler) : Handler := fun w r =>
  let origin := Get (r_Header r) "Origin" in
  let preflight := is_preflight r in
  if String.eqb origin "" then
    if preflight then lift (WriteHeader w 204) else next w r
  else
    let w := if originAllowed p origin then update_Header (allow_headers p origin preflight) w else w in
    if preflight then lift (WriteHeader w 204) else next w r.

(** ** Lemmas *)

Lemma newCORS_Ok `{Platform} cfg p :
  newCORS cfg = Ok p -> allowedOrigins p <> [] /\ (allowCredentials p && allowAllOrigins p) = false.
Proof.
  unfold newCORS. destruct (toStringSlice cfg "allowed_origins") as [o|]; simpl; [|done].
  case_bool_decide; [done|]. destruct (toStringSlice cfg "allowed_methods") as [m|]; simpl; [|done].
  destruct (toStringSlice cfg "allowed_headers") as [h|]; simpl; [|done].
  destruct (as_bool _ && _) eqn:E; simpl; [done|].
  destruct (match cfg !! "max_age"%string with None => _ | Some _ => _ end); simpl; [|done].
  intros [= <-]. by split.
Qed.

Definition ACAO : string := "Access-Control-Allow-Origin".
Definition ACAC : string := "Access-Control-Allow-Credentials".

(** A header this plugin sets has the value it sets; the later ones do not touch
    it. *)
Lemma allow_headers_ACAO p origin preflight h :
  Values (allow_headers p origin preflight h) ACAO = [if allowAllOrigins p then "*"%string else origin].
Proof.
  unfold allow_headers.
  destruct preflight, (allowCredentials p); repeat case_bool_decide;
    try destruct (String.eqb (maxAge p) ""); by rewrite ?Values_Set.
Qed.

Lemma allow_headers_ACAC p origin preflight h :
  Values h ACAC = [] ->
  Values (allow_headers p origin preflight h) ACAC = if allowCredentials p then ["true"%string] else [].
Proof.
  intros Hh. unfold allow_headers.
  destruct preflight, (allowCredentials p); repeat case_bool_decide;
    try destruct (String.eqb (maxAge p) ""); rewrite ?Values_Set; simpl; rewrite ?Values_Add; done.
Qed.

Lemma allow_headers_Vary p origin preflight h :
  Values (allow_headers p origin preflight h) "Vary" = Values h "Vary" ++ ["Origin"%string].
Proof.
  unfold allow_headers.
  destruct preflight, (allowCredentials p); repeat case_bool_decide;
    try destruct (String.eqb (maxAge p) ""); rewrite ?Values_Set; simpl; rewrite ?Values_Add; done.
Qed.

(** ** Properties *)

(** The response headers the plugin leaves, on a writer that had none. *)
Definition cors_decision (p : cors) (origin : string) (h : header) : Prop :=
  if originAllowed p origin && negb (String.eqb origin "") then
    Values h ACAO = [if allowAllOrigins p then "*"%string else origin] /\
    Values h ACAC = (if allowCredentials p then ["true"%string] else []) /\
    (allowAllOrigins p = false -> origin ∈ allowedOrigins p)
  else Values h ACAO = [] /\ Values h ACAC = [].

(** C25. The cors plugin decides as its configuration says, and hands the response
    on exactly once. A preflight is answered with an empty 204 and never reaches
    the next handler; anything else goes on to it. In both cases the response
    names an origin only if the request did and the configuration allows it, and
    offers credentials only beside an origin that is listed by name: the wildcard
    and credentials never meet. *)
Theorem cors_decides `{Platform, MapRange} cfg p next w r :
  newCORS cfg = Ok p ->
  Values (rw_Header w) ACAO = [] -> Values (rw_Header w) ACAC = [] ->
  exists h,
    cors_Wrap p next w r =
      (if is_preflight r then lift (WriteHeader (update_Header (const h) w) 204)
       else next (update_Header (const h) w) r) /\
    cors_decision p (Get (r_Header r) "Origin") h /\
    (Values h ACAC <> [] -> exists o, Values h ACAO = [o] /\ o <> "*"%string /\ o ∈ allowedOrigins p).
Proof.
  intros [_ Hcred]%newCORS_Ok HO HC. unfold cors_Wrap, cors_decision.
  assert (Hsame : w = update_Header (const (rw_Header w)) w) by (by destruct w as [ws []]).
  destruct (String.eqb_spec (Get (r_Header r) "Origin") "") as [E|E].
  { exists (rw_Header w). rewrite <- Hsame, andb_false_r. split_and!; by destruct (is_preflight r). }
  destruct (originAllowed p (Get (r_Header r) "Origin")) eqn:Ea; simpl.
  2: { exists (rw_Header w). rewrite <- Hsame. split_and!; by destruct (is_preflight r). }
  assert (Hin : allowAllOrigins p = false -> Get (r_Header r) "Origin" ∈ allowedOrigins p).
  { intros Hall. apply existsb_exists in Ea as (o & Ho & Heq). apply list_elem_of_In in Ho.
    apply orb_true_iff in Heq as [Hs | Hs%String.eqb_eq]; [|by subst o].
    unfold allowAllOrigins in Hall. rewrite existsb_false, Forall_forall in Hall.
    by rewrite (Hall o Ho) in Hs. }
  exists (allow_headers p (Get (r_Header r) "Origin") (is_preflight r) (rw_Header w)).
  split; [done|]. rewrite allow_headers_ACAO, allow_headers_ACAC by done. split; [done|].
  destruct (allowCredentials p); [|done]. simpl in Hcred. rewrite Hcred in *. intros _.
  eexists. split; [done|]. split; [|by apply Hin].
  intros Hstar. specialize (Hin eq_refl). rewrite Hstar in Hin.
  unfold allowAllOrigins in Hcred. rewrite existsb_false, Forall_forall in Hcred.
  by specialize (Hcred _ Hin).
Qed.
