(* ===== verification/HttpLog.v ===== *)
(** * The http_log plugin (gateway/internal/plugin/http_log.go)

    A line per request, through a [bufio.Writer] on standard output that
    [Flush] empties. A plugin instance is the address of its buffer. *)

From S2P Require Import Prelude GoInt GoStrings Header Value Http Tracing.
From Stdlib Require Import Ascii.
#[local] Open Scope Z_scope.

(** ** The buffered writer *)

(** [bufio.NewWriter]'s size. *)
Definition bufsize : nat := 4096.

(** [WriteString]: the chunks it passes on and what stays in the buffer. What does
    not fit fills the buffer and flushes it; a rest larger than the buffer goes
    straight through. *)
Definition buf_WriteString (buf s : string) : list string * string :=
  let avail := (bufsize - String.length buf)%nat in
  if Nat.leb (String.length s) avail then ([], buf +:+ s)
  else match buf with
  | EmptyString => ([s], EmptyString)
  | _ =>
      let chunk := buf +:+ str_take avail s in
      let rest := str_drop avail s in
      if Nat.leb (String.length rest) bufsize then ([chunk], rest)
      else ([chunk; rest], EmptyString)
  end.

(** [WriteByte]. *)
Definition buf_WriteByte (buf : string) (a : ascii) : list string * string :=
  if Nat.leb bufsize (String.length buf) then ([buf], String a EmptyString)
  else ([], buf +:+ String a EmptyString).

(** [Flush]. *)
Definition buf_Flush (buf : string) : list string * string :=
  match buf with
  | EmptyString => ([], EmptyString)
  | _ => ([buf], EmptyString)
  end.

(** ** The plugin *)

Fixpoint emit_chunks (chunks : list string) : M unit :=
  match chunks with
  | [] => ret tt
  | c :: chunks => emit (EvStdout c);; emit_chunks chunks
  end.

(** An operation of the buffer at [p]. *)
Definition with_buffer (p : nat) (f : string -> list string * string) : M unit :=
  let* buf := get (fun σ => default EmptyString (h_logs (w_heap σ) !! p)) in
  let '(chunks, buf) := f buf in
  emit_chunks chunks;;
  on_heap (set_logs (insert p buf)).

Definition newHTTPLog : M nat :=
  let* p := get (fun σ => next_addr (h_logs (w_heap σ))) in
  on_heap (set_logs (insert p EmptyString));;
  ret p.

Definition httpLog_log `{Env} (p : nat) (method path requestID : string) : M unit :=
  let WriteString s := with_buffer p (fun buf => buf_WriteString buf s) in
  let WriteByte a := with_buffer p (fun buf => buf_WriteByte buf a) in
  let* now := Now in
  WriteString (env_stamp now);;
  WriteByte " "%char;;
  WriteString method;;
  WriteByte " "%char;;
  WriteString path;;
  (if String.eqb requestID "" then ret tt
   else WriteString " request_id="%string;; WriteString requestID);;
  WriteByte (ascii_of_nat 10).

Definition httpLog_Wrap `{Env} (p : nat) (next : Handler) : Handler := fun w r =>
  httpLog_log p (r_Method r) (r_Path r) (FromContext (r_ctx r));;
  next w r.

Definition httpLog_Flush (p : nat) : M unit := with_buffer p buf_Flush.

(** ** Lemmas *)

Lemma str_take_drop n s : (str_take n s +:+ str_drop n s)%string = s.
Proof. revert s. induction n as [|n IH]; intros [|a s]; simpl; [done..|]. by rewrite str_app_cons, IH. Qed.

Lemma str_drop_length n s : (String.length (str_drop n s) <= String.length s)%nat.
Proof. revert s. induction n as [|n IH]; intros [|a s]; simpl; try lia. specialize (IH s). lia. Qed.

Fixpoint concat_str (l : list string) : string :=
  match l with
  | [] => EmptyString
  | s :: l => (s +:+ concat_str l)%string
  end.

Lemma concat_str_app l l' : concat_str (l ++ l') = (concat_str l +:+ concat_str l')%string.
Proof. induction l as [|s l IH]; simpl; [done|]. by rewrite IH, str_app_assoc. Qed.

(** An operation of the buffer neither loses, adds nor reorders a byte beyond the
    [s] it writes, and the buffer stays within its size. *)
Definition writes (s : string) (f : string -> list string * string) : Prop :=
  forall buf, (String.length buf <= bufsize)%nat ->
    (concat_str (f buf).1 +:+ (f buf).2)%string = (buf +:+ s)%string /\
    (String.length (f buf).2 <= bufsize)%nat.

Lemma WriteString_writes s : writes s (fun buf => buf_WriteString buf s).
Proof.
  intros buf Hb. unfold buf_WriteString.
  destruct (Nat.leb_spec (String.length s) (bufsize - String.length buf)) as [Hle|Hgt].
  { simpl. split; [done|]. rewrite str_app_length. lia. }
  destruct buf as [|a buf']; [simpl; rewrite !str_app_nil_r; split; [done|lia]|].
  remember (String a buf') as buf eqn:E. clear E.
  remember (bufsize - String.length buf)%nat as n eqn:En. clear En Hgt.
  destruct (Nat.leb_spec (String.length (str_drop n s)) bufsize); simpl.
  - rewrite str_app_nil_r, <- str_app_assoc, str_take_drop. by split.
  - rewrite !str_app_nil_r, <- str_app_assoc, str_take_drop. split; [done|lia].
Qed.

Lemma WriteByte_writes a : writes (String a EmptyString) (fun buf => buf_WriteByte buf a).
Proof.
  intros buf Hb. unfold buf_WriteByte.
  destruct (Nat.leb_spec bufsize (String.length buf)); simpl.
  - rewrite str_app_nil_r. split; [done|]. unfold bufsize. lia.
  - split; [done|]. rewrite str_app_length. simpl. lia.
Qed.

Lemma Flush_writes : writes EmptyString buf_Flush.
Proof.
  intros buf Hb. destruct buf as [|a buf]; simpl; [split; [done|lia]|].
  rewrite !str_app_nil_r. split; [done|lia].
Qed.

(** What went to standard output, and what waits in the buffer at [p]. *)
Definition stdout (es : list event) : string :=
  concat_str (omap (fun e => match e with EvStdout s => Some s | _ => None end) es).

Definition buffer (p : nat) (σ : World) : string := default EmptyString (h_logs (w_heap σ) !! p).

(** [σ'] is [σ] after [s] went through the buffer at [p]. *)
Definition logged (p : nat) (s : string) (σ σ' : World) : Prop :=
  exists out, stdout (w_events σ') = (stdout (w_events σ) +:+ out)%string /\
    (out +:+ buffer p σ')%string = (buffer p σ +:+ s)%string /\
    (String.length (buffer p σ') <= bufsize)%nat /\
    (forall q, q <> p -> buffer q σ' = buffer q σ) /\ w_now σ' = w_now σ.

Lemma stdout_app es es' : stdout (es ++ es') = (stdout es +:+ stdout es')%string.
Proof. unfold stdout. by rewrite omap_app, concat_str_app. Qed.

Lemma emit_chunks_run chunks σ :
  exists σ', emit_chunks chunks σ = (σ', Ret tt) /\ w_now σ' = w_now σ /\ w_heap σ' = w_heap σ /\
    stdout (w_events σ') = (stdout (w_events σ) +:+ concat_str chunks)%string.
Proof.
  revert σ. induction chunks as [|c chunks IH]; intros σ; simpl.
  { exists σ. by rewrite str_app_nil_r. }
  unfold bind, emit, modify. destruct (IH (mkWorld (w_now σ) (w_tick σ) (w_events σ ++ [EvStdout c]) (w_heap σ)))
    as (σ' & -> & Hn & Hh & Ho).
  exists σ'. simpl in *. rewrite Ho, stdout_app. unfold stdout at 2. simpl.
  by rewrite str_app_nil_r, <- str_app_assoc.
Qed.

Lemma with_buffer_logged p f s σ :
  writes s f -> (String.length (buffer p σ) <= bufsize)%nat ->
  exists σ', with_buffer p f σ = (σ', Ret tt) /\ logged p s σ σ'.
Proof.
  intros Hf Hb. destruct (Hf _ Hb) as [Hbytes Hsize]. unfold with_buffer, bind, get. fold (buffer p σ).
  destruct (f (buffer p σ)) as [chunks buf'] eqn:Ef. simpl in *.
  destruct (emit_chunks_run chunks σ) as (σ1 & -> & Hn & Hh & Ho).
  eexists. split; [done|]. exists (concat_str chunks). unfold buffer in *. simpl.
  rewrite Ho, Hh, lookup_insert_eq. simpl. split_and!; try done.
  intros q Hq. by rewrite lookup_insert_ne.
Qed.

Lemma logged_trans p s s' σ σ' σ'' :
  logged p s σ σ' -> logged p s' σ' σ'' -> logged p (s +:+ s') σ σ''.
Proof.
  intros (o & Ho & Hb & _ & Hq & Hn) (o' & Ho' & Hb' & Hs' & Hq' & Hn'). exists (o +:+ o')%string.
  split_and!; [by rewrite Ho', Ho, str_app_assoc| |done|intros q Hne; by rewrite Hq', Hq|congruence].
  by rewrite <- str_app_assoc, Hb', str_app_assoc, Hb, str_app_assoc.
Qed.

(** The line of one request. *)
Definition log_line `{Env} (now : Time) (method path requestID : string) : string :=
  (env_stamp now +:+ " " +:+ method +:+ " " +:+ path +:+
   (if String.eqb requestID "" then "" else " request_id=" +:+ requestID) +:+ newline)%string.

Lemma logged_size p s σ σ' : logged p s σ σ' -> (String.length (buffer p σ') <= bufsize)%nat.
Proof. by intros (? & ? & ? & ? & ?). Qed.

(** One write after another. *)
Lemma logged_step p f s t (m : M unit) σ :
  writes s f -> (String.length (buffer p σ) <= bufsize)%nat ->
  (forall σ1, (String.length (buffer p σ1) <= bufsize)%nat ->
     exists σ', m σ1 = (σ', Ret tt) /\ logged p t σ1 σ') ->
  exists σ', (with_buffer p f;; m) σ = (σ', Ret tt) /\ logged p (s +:+ t) σ σ'.
Proof.
  intros Hf Hb Hm. unfold bind. destruct (with_buffer_logged p f s σ Hf Hb) as (σ1 & -> & Hl).
  destruct (Hm σ1 (logged_size _ _ _ _ Hl)) as (σ' & -> & Hl'). exists σ'. split; [done|].
  by eapply logged_trans.
Qed.

(** Logging a request puts its whole line behind what is buffered, and loses,
    duplicates or reorders nothing: what reached standard output followed by what
    is buffered is what it was followed by the line, however the line met the end
    of the buffer. The buffer never outgrows its size, other instances' buffers
    are untouched, and the writer cannot fail. *)
Theorem http_log_line `{Env} p method path requestID σ :
  (String.length (buffer p σ) <= bufsize)%nat ->
  exists σ', httpLog_log p method path requestID σ = (σ', Ret tt) /\
    logged p (log_line (w_now σ) method path requestID) σ σ'.
Proof.
  intros Hb. unfold httpLog_log. unfold bind at 1, Now, get. simpl. unfold log_line.
  apply logged_step; [apply WriteString_writes|done|intros σ1 H1].
  apply logged_step; [apply WriteByte_writes|done|intros σ2 H2].
  apply logged_step; [apply WriteString_writes|done|intros σ3 H3].
  apply logged_step; [apply WriteByte_writes|done|intros σ4 H4].
  apply logged_step; [apply WriteString_writes|done|intros σ5 H5].
  destruct (String.eqb requestID ""); simpl.
  - apply with_buffer_logged; [apply WriteByte_writes|done].
  - unfold bind at 1. 
    destruct (logged_step p (fun buf => buf_WriteString buf " request_id="%string) " request_id=" requestID
      (with_buffer p (fun buf => buf_WriteString buf requestID)) σ5) as (σ6 & -> & H6); [apply WriteString_writes|done| |].
    { intros σ6 H6. apply with_buffer_logged; [apply WriteString_writes|done]. }
    destruct (with_buffer_logged p (fun buf => buf_WriteByte buf (ascii_of_nat 10)) newline σ6)
      as (σ7 & -> & H7); [apply WriteByte_writes|by eapply logged_size|].
    exists σ7. split; [done|]. by eapply (logged_trans p (" request_id=" +:+ requestID) newline).
Qed.
