(* ===== verification/HttpLogConc.v ===== *)
(** * Concurrent requests through http_log

    [httpLog.log] and [httpLog.Flush] hold the mutex of their instance while they
    work on its [bufio.Writer]; each operation of the buffer is a step. *)

From S2P Require Import Prelude GoInt GoStrings Header Value Http Tracing Mutex HttpLog.
From Stdlib Require Import Ascii.
#[local] Open Scope Z_scope.

Section conc.
Context `{Env}.

(** The operations of [log], in order. *)
Definition log_ops (now : Time) (method path requestID : string) : list (string -> list string * string) :=
  let WriteString s buf := buf_WriteString buf s in
  let WriteByte a buf := buf_WriteByte buf a in
  [WriteString (env_stamp now); WriteByte " "%char; WriteString method; WriteByte " "%char; WriteString path] ++
  (if String.eqb requestID "" then []
   else [WriteString " request_id="%string; WriteString requestID]) ++
  [WriteByte (ascii_of_nat 10)].

(** They are what [httpLog_log] does. *)
Fixpoint with_buffers (p : nat) (fs : list (string -> list string * string)) : M unit :=
  match fs with
  | [] => ret tt
  | f :: fs => with_buffer p f;; with_buffers p fs
  end.

Lemma bind_ret_r (m : M unit) σ : bind m (fun _ => ret tt) σ = m σ.
Proof. unfold bind. by destruct (m σ) as [σ' [[]|]]. Qed.

Lemma bind_ext {A B} (m : M A) (k k' : A -> M B) σ :
  (forall a σ', k a σ' = k' a σ') -> bind m k σ = bind m k' σ.
Proof. intros Hk. unfold bind. destruct (m σ) as [σ' [a|]]; [apply Hk|done]. Qed.

Lemma httpLog_log_ops p method path requestID σ :
  httpLog_log p method path requestID σ = with_buffers p (log_ops (w_now σ) method path requestID) σ.
Proof.
  unfold httpLog_log, log_ops. unfold bind at 1, Now, get. cbn [app with_buffers].
  do 5 (apply bind_ext; intros _ ?).
  destruct (String.eqb requestID ""); cbn [app with_buffers].
  - by rewrite bind_ret_r.
  - unfold bind. destruct (with_buffer p _ _) as [σ1 [[]|]]; [|done].
    destruct (with_buffer p _ _) as [σ2 [[]|]]; [|done]. by destruct (with_buffer p _ _) as [σ3 [[]|]].
Qed.

(** ** The instance as an object behind its mutex *)

(** What the instance has written out, and its buffer. *)
Definition log_state : Type := string * string.

Inductive log_call :=
| LogCall (now : Time) (method path requestID : string)
| FlushCall.

Definition buffer_step (f : string -> list string * string) (s : log_state) : log_state :=
  let '(chunks, buf) := f s.2 in ((s.1 +:+ concat_str chunks)%string, buf).

Definition log_body (c : log_call) : list (log_state -> log_state) :=
  buffer_step <$> match c with
                  | LogCall now method path requestID => log_ops now method path requestID
                  | FlushCall => [buf_Flush]
                  end.

(** What a call adds to the log. *)
Definition log_text (c : log_call) : string :=
  match c with
  | LogCall now method path requestID => log_line now method path requestID
  | FlushCall => EmptyString
  end.

Definition log_total (s : log_state) : string := (s.1 +:+ s.2)%string.
Definition log_fits (s : log_state) : Prop := (String.length s.2 <= bufsize)%nat.

(** ** Lemmas *)

Lemma buffer_step_writes s t f :
  writes t f -> log_fits s -> log_total (buffer_step f s) = (log_total s +:+ t)%string /\ log_fits (buffer_step f s).
Proof.
  intros Hf Hs. destruct (Hf _ Hs) as [Hb Hl]. unfold buffer_step, log_total, log_fits in *.
  destruct (f s.2) as [chunks buf]. simpl in *. split; [|done]. by rewrite <- !str_app_assoc, Hb.
Qed.

(** Each operation of a call appends its piece of the text. *)
Inductive pieces : string -> list (log_state -> log_state) -> Prop :=
| pieces_nil : pieces EmptyString []
| pieces_cons t ts f fs : writes t f -> pieces ts fs -> pieces (t +:+ ts) (buffer_step f :: fs).

Lemma body_pieces c : pieces (log_text c) (log_body c).
Proof.
  destruct c as [now method path requestID|]; unfold log_body, log_text, log_line, log_ops.
  - cbn [app fmap list_fmap].
    repeat (apply pieces_cons; [apply WriteString_writes || apply WriteByte_writes|]).
    destruct (String.eqb requestID ""); cbn [app fmap list_fmap].
    + change ("" +:+ newline)%string with (newline +:+ "")%string.
      apply pieces_cons; [apply WriteByte_writes|constructor].
    + rewrite <- str_app_assoc. apply pieces_cons; [apply WriteString_writes|].
      apply pieces_cons; [apply WriteString_writes|]. rewrite <- (str_app_nil_r newline).
      apply pieces_cons; [apply WriteByte_writes|constructor].
  - simpl. apply (pieces_cons "" ""); [apply Flush_writes|constructor].
Qed.

Lemma pieces_run t fs s :
  pieces t fs -> log_fits s ->
  log_total (run_actions fs s) = (log_total s +:+ t)%string /\ log_fits (run_actions fs s).
Proof.
  intros Hp. revert s. induction Hp as [|t ts f fs Hf _ IH]; intros s Hs; simpl.
  - by rewrite str_app_nil_r.
  - destruct (buffer_step_writes s t f Hf Hs) as [Ht Hs']. destruct (IH _ Hs') as [-> ?].
    by rewrite Ht, str_app_assoc.
Qed.

Lemma pieces_app t fs gs :
  pieces t (fs ++ gs) -> exists t1 t2, t = (t1 +:+ t2)%string /\ pieces t1 fs /\ pieces t2 gs.
Proof.
  revert t. induction fs as [|f fs IH]; intros t Hp; simpl in *.
  - exists EmptyString, t. by split_and!; [|constructor|].
  - inversion Hp as [|t1 ts f' fs' Hf Hps]; subst. apply IH in Hps as (t2 & t3 & -> & H1 & H2).
    exists (t1 +:+ t2)%string, t3. split_and!; [by rewrite str_app_assoc|by constructor|done].
Qed.

Lemma calls_run cs s :
  log_fits s ->
  log_total (run_calls log_body cs s) = (log_total s +:+ concat_str (log_text <$> cs))%string /\
  log_fits (run_calls log_body cs s).
Proof.
  revert s. induction cs as [|c cs IH]; intros s Hs; [simpl; by rewrite str_app_nil_r|].
  cbn [fmap list_fmap concat_str]. destruct (pieces_run _ _ s (body_pieces c) Hs) as [Ht Hs'].
  unfold run_calls. cbn [foldl]. fold (run_calls log_body cs (run_actions (log_body c) s)).
  destruct (IH _ Hs') as [-> ?]. by rewrite Ht, str_app_assoc.
Qed.

(** ** Properties *)

(** C29. The lines of concurrent requests are never torn or mixed within a service.
    However the requests and the flusher interleave, step by step, what an
    instance has written followed by what it holds is the whole lines of the
    requests in the order in which they took its lock, but for the end of the line
    being written just then; so what has reached the output is a prefix of those
    lines, at most a buffer and one line behind. *)
Theorem log_lines_whole hist σ :
  mreach log_body (EmptyString, EmptyString) hist σ ->
  let out := (shared σ).1 in
  let buf := (shared σ).2 in
  let lines := concat_str (log_text <$> hist) in
  (exists rest, (out +:+ buf +:+ rest)%string = lines /\
     (owner σ = None -> rest = EmptyString) /\
     (rest <> EmptyString -> exists before c, hist = before ++ [c] /\
        exists start, log_text c = (start +:+ rest)%string)) /\
  (String.length buf <= bufsize)%nat.
Proof.
  intros [_ Hown]%mreach_inv out buf lines. assert (H0 : log_fits (EmptyString, EmptyString)) by (unfold log_fits; simpl; lia).
  assert (Htot : (out +:+ buf)%string = log_total (shared σ)) by done.
  setoid_rewrite str_app_assoc. setoid_rewrite Htot. change (String.length buf <= bufsize)%nat with (log_fits (shared σ)).
  destruct (owner σ) as [t|].
  - destruct Hown as (before & c & acts & rest & -> & Hb & _ & ->).
    destruct (calls_run before _ H0) as [Hc Hf]. pose proof (body_pieces c) as Hp. rewrite Hb in Hp.
    apply pieces_app in Hp as (t1 & t2 & Ht & H1 & H2). destruct (pieces_run _ _ _ H1 Hf) as [-> Hs].
    split; [|done]. exists t2. split; [|split; [done|intros _; exists before, c; split; [done|by exists t1]]].
    unfold lines. rewrite fmap_app, concat_str_app. simpl. rewrite Hc, str_app_nil_r, Ht. simpl.
    by rewrite !str_app_assoc.
  - destruct (calls_run hist _ H0) as [Hc Hf]. rewrite Hown, Hc. split; [|done].
    exists EmptyString. rewrite str_app_nil_r. by split_and!.
Qed.

End conc.

(** ** Several instances on one standard output *)

Fixpoint str_repeat (n : nat) (a : ascii) : string :=
  match n with O => EmptyString | S n => String a (str_repeat n a) end.

(** Each service has an http_log instance, a buffer and a mutex of its own, and they
    all write to standard output: a buffer that fills up is written out in the
    middle of a line, and what another instance writes before the rest goes there.
    Two requests to two services are enough, one of them with a long path. *)
Theorem instances_tear_lines :
  exists (E : Env) (path : string) (σ σ' : World),
    let l0 := log_line (w_now σ) "GET" path "" in
    let l1 := log_line (w_now σ) "GET" "/b" "" in
    (httpLog_log 0 "GET" path "";; httpLog_log 1 "GET" "/b" "";; httpLog_Flush 1;; httpLog_Flush 0) σ = (σ', Ret tt) /\
    stdout (w_events σ) = EmptyString /\
    String.length (stdout (w_events σ')) = (String.length l0 + String.length l1)%nat /\
    stdout (w_events σ') <> (l0 +:+ l1)%string /\ stdout (w_events σ') <> (l1 +:+ l0)%string.
Proof.
  set (E := {| env_net n _ := (0, Err (mkGerror "" false)); env_get n _ := (0, None); env_rand n := 0;
               env_bytes n := None; env_incr n _ := Err tt; env_expire n _ _ := Err tt;
               env_stamp _ := "2024/01/01 00:00:00"%string |}).
  exists E, (str_repeat 4090 "a"), (mkWorld 0 0 [] (mkHeap ∅ ∅ ∅ ∅ None)). eexists.
  split; [vm_compute; reflexivity|]. split; [done|].
  split; [by vm_compute|]. split; apply String.eqb_neq; by vm_compute.
Qed.
