(* ===== verification/ResponseHeaders.v ===== *)
(** * The response_headers plugin (gateway/internal/plugin/response_headers.go)

    Its writer, [responseHeadersWriter], is one of the wrappers of [Http]; here
    are the factory, the middleware, and what the wrapper does to any sequence of
    calls a handler makes on it. *)

From S2P Require Import Prelude GoFloat GoStrings Header Value Http.
From Stdlib Require Import Ascii.
#[local] Open Scope Z_scope.

(** ** Definitions *)

(** One entry of [config.rules], the [i]-th. *)
Definition parse_rule `{MapRange} (i : nat) (item : any) : result error responseHeaderRule :=
  let i := Itoa (Z.of_nat i) in
  match item with
  | Map rule =>
      let contentType := as_string (rule !! "content_type"%string) in
      if String.eqb contentType "" then
        Err (Errorf1 "response_headers: config.rules[%d].content_type is required" i)
      else
        let? ruleHeaders :=
          stringMap (rule !! "headers"%string) ("response_headers: config.rules[" +:+ i +:+ "].headers") in
        if bool_decide (ruleHeaders = ∅) then
          Err (Errorf1 "response_headers: config.rules[%d].headers is required" i)
        else Ok (mkRule (ToLower contentType) ruleHeaders)
  | item => Err (Errorf "response_headers: config.rules[%d] must be a map, got %T" [i; TypeName item] None)
  end.

Fixpoint parse_rules `{MapRange} (i : nat) (items : list any) : result error (list responseHeaderRule) :=
  match items with
  | [] => Ok []
  | item :: items =>
      let? rule := parse_rule i item in
      let? rules := parse_rules (S i) items in
      Ok (rule :: rules)
  end.

Definition newResponseHeaders `{MapRange} (cfg : config) : result error responseHeaders :=
  let? headers := stringMap (cfg !! "headers"%string) "response_headers: config.headers" in
  match cfg !! "rules"%string with
  | None | Some Nil => Ok (mkResponseHeaders headers [])
  | Some (Slice items) =>
      let? rules := parse_rules 0 items in Ok (mkResponseHeaders headers rules)
  | Some raw => Err (Errorf1 "response_headers: config.rules must be a list, got %T" (TypeName raw))
  end.

Definition responseHeaders_Wrap (p : responseHeaders) (next : Handler) : Handler := fun w r =>
  let* w := next (push (responseHeadersWriter p false) w) r in
  ret (pop w).

(** ** The calls a handler makes on its writer *)

Inductive call :=
| CallHeader (f : header -> header)      (* any edit of [w.Header()] *)
| CallWriteHeader (code : Z)
| CallWrite (data : string)
| CallFlush
| CallHijack.

Definition do_call `{MapRange} (x : call) (w : rw) : outcome rw :=
  match x with
  | CallHeader f => Ret (update_Header f w)
  | CallWriteHeader code => WriteHeader w code
  | CallWrite data => Write w data
  | CallFlush => Flush w
  | CallHijack => Ret (Hijack w).1
  end.

Fixpoint do_calls `{MapRange} (xs : list call) (w : rw) : outcome rw :=
  match xs with
  | [] => Ret w
  | x :: xs => let! w := do_call x w in do_calls xs w
  end.

(** ** What applying the headers does *)

(** The value the configuration gives a header, on a response whose header is
    [h]: the last matching rule that names it, else the unconditional one. *)
Definition lookup_canon (m : gmap string string) (k : string) : option string :=
  snd <$> find (fun kv => String.eqb (CanonicalHeaderKey kv.1) (CanonicalHeaderKey k)) (map_to_list m).

Definition rule_value (contentType : string) (k : string) (acc : option string)
    (rule : responseHeaderRule) : option string :=
  if HasPrefix contentType (rule_contentType rule)
  then match lookup_canon (rule_headers rule) k with Some v => Some v | None => acc end
  else acc.

Definition override (p : responseHeaders) (h : header) (k : string) : option string :=
  let base := lookup_canon (rh_headers p) k in
  let contentType := match lookup_canon (rh_headers p) "Content-Type" with
                     | Some v => v
                     | None => Get h "Content-Type"
                     end in
  foldl (rule_value (ToLower contentType) k) base (rh_rules p).

(** No two names of one map are the same header. *)
Definition wf_headers (p : responseHeaders) : Prop :=
  canon_inj (rh_headers p) /\ Forall (fun rule => canon_inj (rule_headers rule)) (rh_rules p).

Section apply.
Context `{MapRange}.

Lemma set_all_lookup_canon m h k :
  canon_inj m ->
  Values (set_all (range_map m) h) k =
  match lookup_canon m k with Some v => [v] | None => Values h k end.
Proof.
  intros Hinj. unfold lookup_canon.
  destruct (find _ (map_to_list m)) as [[k' v]|] eqn:E; simpl.
  - apply find_some in E as [Hin Heq%String.eqb_eq]. apply list_elem_of_In, elem_of_map_to_list in Hin.
    rewrite <- (range_set_Some m h k' v Hinj Hin). unfold Values. simpl in Heq. by rewrite Heq.
  - apply range_set_None. intros k' [v Hk] Heq.
    assert (Hno := find_none _ _ E (k', v)). simpl in Hno.
    rewrite Heq, String.eqb_refl in Hno. enough (true = false) by done.
    by apply Hno, list_elem_of_In, elem_of_map_to_list.
Qed.

Lemma fold_rules_values ct rules h k acc base :
  Forall (fun rule => canon_inj (rule_headers rule)) rules ->
  Values h k = match acc with Some v => [v] | None => base end ->
  Values (foldl (fun h rule => if HasPrefix ct (rule_contentType rule)
                               then set_all (range_map (rule_headers rule)) h else h) h rules) k =
  match foldl (rule_value ct k) acc rules with Some v => [v] | None => base end.
Proof.
  intros Hall. revert h acc. induction Hall as [|rule rules Hr Hall IH]; intros h acc Hh; simpl; [done|].
  apply IH. unfold rule_value. destruct (HasPrefix ct (rule_contentType rule)); [|done].
  rewrite set_all_lookup_canon by done. by destruct (lookup_canon (rule_headers rule) k).
Qed.

Lemma Get_Values h k : Get h k = default EmptyString (head (Values h k)).
Proof. unfold Get. by destruct (Values h k). Qed.

(** Applying the headers gives each one the value the configuration says, and
    leaves the others. *)
Lemma apply_values p h k :
  wf_headers p ->
  Values (apply p h) k = match override p h k with Some v => [v] | None => Values h k end.
Proof.
  intros [Hh Hr]. unfold apply, override.
  assert (Hct : Get (set_all (range_map (rh_headers p)) h) "Content-Type" =
    match lookup_canon (rh_headers p) "Content-Type" with
    | Some v => v | None => Get h "Content-Type" end).
  { rewrite Get_Values, set_all_lookup_canon by done.
    by destruct (lookup_canon (rh_headers p) "Content-Type"); rewrite ?Get_Values. }
  rewrite Hct. destruct (rh_rules p) as [|rule rules] eqn:E; simpl.
  - by apply set_all_lookup_canon.
  - apply (fold_rules_values _ (rule :: rules)); [done|]. by apply set_all_lookup_canon.
Qed.

End apply.

(** ** The wrapper around any handler *)

Definition is_statusWriter (x : wrapper) : Prop :=
  match x with statusWriter _ => True | responseHeadersWriter _ _ => False end.

(** The connection below the plugin's writer, against the one a handler would
    have without the plugin: the same, until the final status goes out; then the
    header sent is the handler's with the configured headers applied. A switch of
    protocols (101) is final and untouched. *)
Definition sent_with `{MapRange} (p : responseHeaders) (x : Z * header) : Z * header :=
  (x.1, if x.1 =? 101 then x.2 else apply p x.2).

Record applied_to `{MapRange} (p : responseHeaders) (applied : bool) (plain c : conn) : Prop := {
  at_sent : c_sent c = sent_with p <$> c_sent plain;
  at_info : c_info c = c_info plain;
  at_body : c_body c = c_body plain;
  at_hijacked : c_hijacked c = c_hijacked plain;
  at_takeover : c_takeover c = c_takeover plain;
  at_header : c_sent plain = None -> c_hijacked plain = false ->
    applied = false /\ c_header c = c_header plain
}.

Definition related `{MapRange} (p : responseHeaders) (plain w : rw) : Prop :=
  exists applied, rw_wrappers w = responseHeadersWriter p applied :: rw_wrappers plain /\
    Forall is_statusWriter (rw_wrappers plain) /\
    applied_to p applied (rw_conn plain) (rw_conn w).

(** Two outcomes: both panic alike, or both return related values. *)
Definition outcome_rel {A B} (R : A -> B -> Prop) (x : outcome A) (y : outcome B) : Prop :=
  match x, y with
  | Ret a, Ret b => R a b
  | Panic e, Panic e' => e = e'
  | _, _ => False
  end.

Lemma obind_rel {A B C D} (R : A -> B -> Prop) (S : C -> D -> Prop) x y f g :
  outcome_rel R x y -> (forall a b, R a b -> outcome_rel S (f a) (g b)) ->
  outcome_rel S (obind x f) (obind y g).
Proof. destruct x, y; simpl; naive_solver. Qed.

Section wrapper.
Context `{MapRange} (p : responseHeaders).

Lemma writeHeader_status ws c code :
  Forall is_statusWriter ws ->
  writeHeader ws c code =
  let! c := conn_WriteHeader c code in Ret (const (statusWriter code) <$> ws, c).
Proof.
  induction 1 as [|[st|] ws Hx Hall IH]; simpl; [done| |done].
  rewrite IH. by destruct (conn_WriteHeader c code).
Qed.

Lemma write_status ws c data :
  Forall is_statusWriter ws -> write ws c data = let! c := conn_Write c data in Ret (ws, c).
Proof.
  induction 1 as [|[st|] ws Hx Hall IH]; simpl; [done| |done].
  rewrite IH. by destruct (conn_Write c data).
Qed.

Lemma flush_status ws c :
  Forall is_statusWriter ws -> flush ws c = let! c := conn_Flush c in Ret (ws, c).
Proof.
  induction 1 as [|[st|] ws Hx Hall IH]; simpl; [done| |done].
  rewrite IH. by destruct (conn_Flush c).
Qed.

Lemma hijack_status ws c :
  Forall is_statusWriter ws ->
  hijack ws c = let '(c, err) := conn_Hijack c in
    (match err with None => const (statusWriter 101) <$> ws | Some _ => ws end, c, err).
Proof.
  induction 1 as [|[st|] ws Hx Hall IH]; simpl; [by destruct (conn_Hijack c) as [? []]| |done].
  rewrite IH. by destruct (conn_Hijack c) as [c' []].
Qed.

(** The server's [WriteHeader] under the plugin. *)
Lemma conn_WriteHeader_rel applied plain c code :
  applied_to p applied plain c ->
  outcome_rel (applied_to p (applied || (200 <=? code)))
    (conn_WriteHeader plain code)
    (conn_WriteHeader (if 200 <=? code then applyOnce p applied c else c) code).
Proof.
  intros [Hs Hi Hb Hh Ht Hhd].
  set (c' := if 200 <=? code then applyOnce p applied c else c).
  assert (Hc' : c_sent c' = c_sent c /\ c_info c' = c_info c /\ c_body c' = c_body c /\
                c_hijacked c' = c_hijacked c /\ c_takeover c' = c_takeover c)
    by (unfold c', applyOnce; by destruct (200 <=? code), applied).
  destruct Hc' as (Es & Ei & Eb & Eh & Et). unfold conn_WriteHeader. rewrite Eh, Hh, Es, Hs.
  destruct (c_hijacked plain) eqn:Ehj; [simpl; split; congruence|].
  destruct (c_sent plain) eqn:Esp; simpl.
  { split; try congruence. }
  destruct (Hhd eq_refl eq_refl) as [-> Hhdr].
  destruct ((code <? 100) || (999 <? code)) eqn:E1; simpl; [done|].
  destruct (code <=? 199) eqn:E2; simpl.
  - assert (E3 : (200 <=? code) = false) by lia. unfold c'. rewrite E3.
    destruct (code =? 101) eqn:E4; simpl; split; simpl; try congruence; try done.
    unfold sent_with. simpl. rewrite E4. congruence.
  - assert (E3 : (200 <=? code) = true) by lia.
    assert (E4 : (code =? 101) = false) by lia.
    split; simpl; try congruence.
    unfold sent_with, c', applyOnce. simpl. rewrite E3, E4. simpl. congruence.
Qed.

Lemma conn_Write_rel applied plain c data :
  applied_to p applied plain c ->
  outcome_rel (applied_to p true) (conn_Write plain data) (conn_Write (applyOnce p applied c) data).
Proof.
  intros Hrel. pose proof (conn_WriteHeader_rel _ _ _ 200 Hrel) as Hwh. simpl in Hwh.
  rewrite orb_true_r in Hwh. unfold conn_Write.
  assert (Hh : c_hijacked (applyOnce p applied c) = c_hijacked plain)
    by (rewrite <- (at_hijacked _ _ _ _ Hrel); by destruct applied).
  rewrite Hh. destruct (c_hijacked plain) eqn:Ehj.
  - destruct Hrel. simpl. split; (congruence || by destruct applied).
  - apply (obind_rel _ _ _ _ _ _ Hwh). intros a b [Hs Hi Hb Hh' Ht Hhd]. simpl.
    split; simpl; congruence || done.
Qed.

Lemma do_call_rel x plain w :
  related p plain w -> outcome_rel (related p) (do_call x plain) (do_call x w).
Proof.
  destruct plain as [ws c0], w as [ws' c]. intros (applied & Hws & Hst & Hrel). simpl in *. subst ws'.
  destruct x as [f|code|data| |]; simpl.
  - exists applied. simpl. split_and!; [done..|]. destruct Hrel as [Hs Hi Hb Hh Ht Hhd].
    split; simpl; try congruence; try done. intros Hs0 Hh0. destruct (Hhd Hs0 Hh0) as [-> ->]. done.
  - unfold WriteHeader, on_rw. simpl. rewrite writeHeader_status by done.
    pose proof (conn_WriteHeader_rel applied c0 c code Hrel) as Hwh.
    destruct (200 <=? code); simpl; rewrite writeHeader_status by done;
      destruct (conn_WriteHeader c0 code), (conn_WriteHeader _ code); simpl in *; try done;
      (eexists; simpl; split_and!; [done|by apply Forall_fmap, Forall_true|]);
      by rewrite ?orb_true_r, ?orb_false_r in Hwh.
  - unfold Write, on_rw. simpl. rewrite !write_status by done.
    pose proof (conn_Write_rel applied c0 c data Hrel) as Hw.
    destruct (conn_Write c0 data), (conn_Write _ data); simpl in *; try done.
    eexists. simpl. by split_and!.
  - unfold Flush, on_rw. simpl. rewrite !flush_status by done. unfold conn_Flush.
    pose proof (conn_WriteHeader_rel applied c0 c 200 Hrel) as Hw. simpl in Hw. rewrite orb_true_r in Hw.
    destruct (conn_WriteHeader c0 200), (conn_WriteHeader _ 200); simpl in *; try done.
    eexists. simpl. by split_and!.
  - unfold Hijack. simpl. rewrite !hijack_status by done. destruct Hrel as [Hs Hi Hb Hh Ht Hhd].
    unfold conn_Hijack. rewrite Hh, Ht. destruct (c_hijacked c0) eqn:Ehj, (c_takeover c0) eqn:Et;
      (exists applied; cbn; split_and!; [done|first [done | by apply Forall_fmap, Forall_true]|];
       split; cbn; first [congruence | naive_solver congruence]).
Qed.

Lemma do_calls_rel xs plain w :
  related p plain w -> outcome_rel (related p) (do_calls xs plain) (do_calls xs w).
Proof.
  revert plain w. induction xs as [|x xs IH]; intros plain w Hrel; simpl; [done|].
  eapply obind_rel; [by apply do_call_rel|]. intros a b. apply IH.
Qed.

End wrapper.

(** ** Properties *)

(** C26. The configured headers reach every final response exactly once and change
    nothing else. Whatever calls a handler makes on a writer with nothing but metrics
    recorders between it and the connection, before anything was sent, with the plugin
    it panics or returns just as without; when it returns the client gets the same
    status, the same informational responses and the same body; and the header sent is
    the handler's own where each configured name has the value of the last matching
    rule that sets it, or else its unconditional value, no two names of one table being
    the same header. *)
Theorem response_headers_applied `{MapRange} p xs w :
  Forall is_statusWriter (rw_wrappers w) -> c_sent (rw_conn w) = None -> wf_headers p ->
  outcome_rel (fun w1 w2 =>
      rw_wrappers (pop w2) = rw_wrappers w1 /\
      c_info (rw_conn w2) = c_info (rw_conn w1) /\ c_body (rw_conn w2) = c_body (rw_conn w1) /\
      match c_sent (rw_conn w1) with
      | None => c_sent (rw_conn w2) = None
      | Some (code, h) => exists h', c_sent (rw_conn w2) = Some (code, h') /\
          forall k, Values h' k =
            if code =? 101 then Values h k
            else match override p h k with Some v => [v] | None => Values h k end
      end)
    (do_calls xs w) (do_calls xs (push (responseHeadersWriter p false) w)).
Proof.
  intros Hst Hsent Hwf.
  assert (Hrel : related p w (push (responseHeadersWriter p false) w)).
  { exists false. split_and!; [done..|]. split; try done. by rewrite Hsent. }
  pose proof (do_calls_rel p xs _ _ Hrel) as Hout.
  destruct (do_calls xs w) as [w1|], (do_calls xs (push _ w)) as [w2|]; try done.
  destruct Hout as (applied & Hws & _ & [Hs Hi Hb _ _ _]). split_and!; try done.
  - unfold pop. by rewrite Hws.
  - rewrite Hs. destruct (c_sent (rw_conn w1)) as [[code h]|]; simpl; [|done].
    eexists. split; [done|]. intros k. simpl. destruct (code =? 101); [done|]. by apply apply_values.
Qed.
