(* ===== verification/Metrics.v ===== *)
(** * Request metrics (gateway/internal/metrics/metrics.go)

    [Recorder.Wrap] and the status it reads off its [statusWriter], whose methods
    are in [Http]. The Prometheus vectors are third party: what the program tells
    them is an event. *)

From S2P Require Import Prelude GoInt GoFloat GoStrings Header Http ResponseHeaders.
From Stdlib Require Import Ascii.
#[local] Open Scope Z_scope.

(** ** Definitions *)

(** A Prometheus vector, by the name it is exposed under, and what a value of it is
    labelled with. *)
Record vec := mkVec {
  v_Name : string;
  v_Help : string;
  v_labels : list string
}.

Record Recorder := mkRecorder {
  registry : list vec;
  requests : vec;
  duration : vec
}.

Definition New : Recorder :=
  let requests := mkVec "dealer_http_requests_total" "Total requests handled per service, method and status code."
                    ["service"; "method"; "status"]%string in
  let duration := mkVec "dealer_http_request_duration_seconds" "Request duration in seconds per service and method."
                    ["service"; "method"]%string in
  mkRecorder [requests; duration] requests duration.

(** What [Recorder_Wrap] below labels its observations with; [WithLabelValues] panics
    unless there is a value for every label. *)
Definition duration_values (service : string) (req : Request) : list string := [service; r_Method req].
Definition requests_values (service : string) (req : Request) (status : Z) : list string :=
  [service; r_Method req; Itoa status].

(** The status of the outermost wrapper, which [Wrap] put there. *)
Definition recorded (w : rw) : Z :=
  match rw_wrappers w with
  | statusWriter status :: _ => status
  | _ => 200
  end.

Definition Recorder_Wrap (service : string) (next : Handler) : Handler := fun w req =>
  let* start := Now in
  let* sw := next (push (statusWriter 200) w) req in
  let* now := Now in
  emit (EvObserve service (r_Method req) (Seconds (Sub now start)));;
  emit (EvInc service (r_Method req) (Itoa (recorded sw)));;
  ret (pop sw).

(** [promhttp.HandlerFor], the handler that shows what a registry holds. *)
Class Promhttp := HandlerFor : list vec -> Handler.

Definition Recorder_Handler `{Promhttp} (r : Recorder) : Handler := HandlerFor (registry r).

(** ** Lemmas *)

(** The names registered differ, and the label values fit the labels. *)
Lemma New_consistent service req status :
  NoDup (v_Name <$> registry New) /\
  length (duration_values service req) = length (v_labels (duration New)) /\
  length (requests_values service req status) = length (v_labels (requests New)).
Proof. split_and!; [|done|done]. apply (bool_decide_unpack _). by vm_compute. Qed.

(** How far an exchange has come: nothing sent, only informational responses, or
    the final status out. *)
Inductive phase := Fresh | Informed | Sent.

Definition informational (code : Z) : bool := (100 <=? code) && (code <=? 199) && negb (code =? 101).

(** A handler that, as net/http asks, sends the final status once, and after
    informational responses sends it explicitly. *)
Definition step_phase (x : call) (ph : phase) : option phase :=
  match x with
  | CallHeader _ => Some ph
  | CallHijack => None
  | CallWriteHeader code =>
      match ph with
      | Sent => None
      | _ => Some (if informational code then Informed else Sent)
      end
  | CallWrite _ | CallFlush =>
      match ph with
      | Informed => None
      | _ => Some Sent
      end
  end.

Fixpoint phases (xs : list call) (ph : phase) : option phase :=
  match xs with
  | [] => Some ph
  | x :: xs => ph ← step_phase x ph; phases xs ph
  end.

(** The status the client gets when the handler returns: the one sent, or the 200
    the server sends for it. *)
Definition final_status (w : rw) : Z := default 200 (fst <$> c_sent (rw_conn w)).

Section metrics.
Context `{MapRange}.

(** The recorder's writer on a connection in a given phase. *)
Definition recording (ph : phase) (w : rw) : Prop :=
  exists status, rw_wrappers w = [statusWriter status] /\ c_hijacked (rw_conn w) = false /\
  match ph with
  | Fresh => status = 200 /\ c_sent (rw_conn w) = None
  | Informed => c_sent (rw_conn w) = None
  | Sent => fst <$> c_sent (rw_conn w) = Some status
  end.

Lemma conn_WriteHeader_final c code c' :
  c_hijacked c = false -> c_sent c = None -> conn_WriteHeader c code = Ret c' ->
  c_hijacked c' = false /\ fst <$> c_sent c' = if informational code then None else Some code.
Proof.
  unfold conn_WriteHeader, informational. intros -> ->.
  destruct ((code <? 100) || (999 <? code)) eqn:E; [done|].
  replace (100 <=? code) with true by lia. simpl.
  destruct ((code <=? 199) && negb (code =? 101)); by intros [= <-].
Qed.

Lemma conn_WriteHeader_sent c code c' x :
  c_hijacked c = false -> c_sent c = Some x -> conn_WriteHeader c code = Ret c' -> c' = c.
Proof. unfold conn_WriteHeader. intros -> ->. by intros [= ->]. Qed.

(** An implicit 200, unless the status is out. *)
Lemma conn_implicit c c' status :
  c_hijacked c = false ->
  (c_sent c = None /\ status = 200 \/ fst <$> c_sent c = Some status) ->
  conn_WriteHeader c 200 = Ret c' ->
  c_hijacked c' = false /\ fst <$> c_sent c' = Some status.
Proof.
  intros Hh [[Hs ->]|Hs] Hw.
  - by destruct (conn_WriteHeader_final c 200 c' Hh Hs Hw).
  - destruct (c_sent c) as [x|] eqn:E; [|done].
    rewrite (conn_WriteHeader_sent c 200 c' x Hh E Hw). by rewrite E.
Qed.

Lemma recording_step x ph ph' w w' :
  recording ph w -> step_phase x ph = Some ph' -> do_call x w = Ret w' -> recording ph' w'.
Proof.
  destruct w as [ws c]. intros (status & Hws & Hh & Hph). simpl in *. subst ws.
  assert (Himplicit : ph <> Informed -> c_sent c = None /\ status = 200 \/ fst <$> c_sent c = Some status)
    by (destruct ph; naive_solver).
  destruct x as [f|code|data| |]; simpl.
  - intros [= <-] [= <-]. exists status. by destruct ph.
  - unfold WriteHeader, on_rw. simpl. destruct (conn_WriteHeader c code) as [c'|] eqn:E; simpl; [|done].
    intros Hstep [= <-]. assert (Hs : c_sent c = None) by (destruct ph; naive_solver).
    destruct (conn_WriteHeader_final c code c' Hh Hs E) as [Hh' Hs']. exists code.
    destruct ph; simplify_eq/=; destruct (informational code); simpl; split_and!; try done;
      by destruct (c_sent c').
  - unfold Write, on_rw. simpl. unfold conn_Write. rewrite Hh.
    destruct (conn_WriteHeader c 200) as [c'|] eqn:E; simpl; [|done]. intros Hstep [= <-].
    destruct (conn_implicit c c' status Hh) as [Hh' Hs']; [|done|].
    + apply Himplicit. by intros ->.
    + exists status. destruct ph; simplify_eq/=; by split_and!.
  - unfold Flush, on_rw. simpl. unfold conn_Flush.
    destruct (conn_WriteHeader c 200) as [c'|] eqn:E; simpl; [|done]. intros Hstep [= <-].
    destruct (conn_implicit c c' status Hh) as [Hh' Hs']; [|done|].
    + apply Himplicit. by intros ->.
    + exists status. destruct ph; simplify_eq/=; by split_and!.
  - done.
Qed.

Lemma recording_run xs ph ph' w w' :
  recording ph w -> phases xs ph = Some ph' -> do_calls xs w = Ret w' -> recording ph' w'.
Proof.
  revert ph w. induction xs as [|x xs IH]; intros ph w Hrec; simpl.
  - intros [= <-] [= <-]. done.
  - destruct (step_phase x ph) as [ph1|] eqn:Es; simpl; [|done].
    destruct (do_call x w) as [w1|] eqn:Ec; simpl; [|done]. intros Hph Hrun.
    by eapply IH; [eapply recording_step| |].
Qed.

(** ** Properties *)

(** C28. The status counted is the status sent. For any handler that sends its final
    status once, and explicitly after informational responses, the counter of the
    service, the method and exactly the status the client got goes up by one, and
    the time the handler took is observed once. *)
Theorem metrics_status_sent service (handler : list call) next w req σ w1 σ1 ph :
  rw_wrappers w = [] -> c_sent (rw_conn w) = None -> c_hijacked (rw_conn w) = false ->
  phases handler Fresh = Some ph -> ph <> Informed ->
  do_calls handler (push (statusWriter 200) w) = Ret w1 ->
  next (push (statusWriter 200) w) req σ = (σ1, Ret w1) ->
  exists σ2, Recorder_Wrap service next w req σ = (σ2, Ret (pop w1)) /\
    w_events σ2 = w_events σ1 ++
      [EvObserve service (r_Method req) (Seconds (Sub (w_now σ1) (w_now σ)));
       EvInc service (r_Method req) (Itoa (final_status w1))].
Proof.
  intros Hws Hs Hh Hph Hne Hrun Hnext.
  assert (Hrec : recording ph w1).
  { eapply recording_run; [|done|done]. exists 200. simpl. by rewrite Hws. }
  destruct Hrec as (status & Hw1 & _ & Hst). unfold Recorder_Wrap.
  unfold bind at 1, Now, get. unfold bind at 1. rewrite Hnext. unfold bind, emit, modify. simpl.
  eexists. split; [done|]. simpl. rewrite <- app_assoc. unfold recorded, final_status. rewrite Hw1. simpl.
  repeat f_equal. destruct ph; [|done|by rewrite Hst]. destruct Hst as [-> ->]. done.
Qed.

(** A handler that panics is not counted at all. *)
Lemma panic_not_counted service next w req σ σ1 why :
  next (push (statusWriter 200) w) req σ = (σ1, Panic why) ->
  Recorder_Wrap service next w req σ = (σ1, Panic why).
Proof. intros Hn. unfold Recorder_Wrap, bind, Now, get. by rewrite Hn. Qed.

(** A second, superfluous status is recorded though the first was sent. *)
Lemma superfluous_status_recorded :
  exists w, do_calls [CallWriteHeader 200; CallWriteHeader 500] (mkRw [statusWriter 200] newConn) = Ret w /\
    recorded w = 500 /\ final_status w = 200.
Proof. by eexists. Qed.

End metrics.
