(* ===== verification/Plugin.v ===== *)
(** * The plugins and their chain (gateway/internal/plugin)

    [Plugin] has one constructor per Go type that implements the interface;
    [Wrap] dispatches on it. add_header.go, request_size_limiting.go, jwt_auth.go,
    the plugin part of rate_limiting.go, the shared store of
    ratelimit_sugardb.go, registry.go and plugin.go are here; cors.go,
    response_headers.go and http_log.go are in files of their own. *)

From S2P Require Import Prelude GoInt GoFloat GoFloatRound RateLimit GoStrings Header Value Http ClientIP Url Cors HttpLog ResponseHeaders.
From Stdlib Require Import Ascii SpecFloat QArith.
#[local] Open Scope Z_scope.

(** ** What is not in the repository *)

(** The process's environment variables and temporary directories. *)
Class OS := {
  Getenv : string -> string;
  MkdirTemp : string -> result error string
}.

(** github.com/golang-jwt/jwt: [jwt.Parse], at the time it looks at the claims; it
    returns the token's [Valid] field. *)
Record jwt_token := mkToken {
  t_hmac : bool;         (* t.Method is a *jwt.SigningMethodHMAC *)
  t_alg : string         (* t.Header["alg"] *)
}.

Class JWT := {
  jwt_Parse : Time -> string -> (jwt_token -> result error string) -> result error bool
}.

(** Its documented behaviour: a token is valid when it parses, the key function
    gives a key for it, its signature verifies under that key with the method it
    names, and its time claims hold. *)
Class JWTLaws `{JWT} := {
  jwt_header : string -> option jwt_token;
  jwt_signed : string -> string -> bool;
  jwt_in_time : Time -> string -> bool;
  jwt_Parse_valid now s keyfunc :
    jwt_Parse now s keyfunc = Ok true <->
    exists t key, jwt_header s = Some t /\ keyfunc t = Ok key /\
      jwt_signed key s = true /\ jwt_in_time now s = true
}.

(** github.com/echovault/sugardb: its configuration, the default one, and the
    start of a node. *)
Record sugarConfig := mkSugarConfig {
  BindAddr : string;
  JoinAddr : string;
  BootstrapCluster : bool;
  ServerID : string;
  DataDir : string;
  DiscoveryPort : Z
}.

Class SugarNode := {
  DefaultConfig : sugarConfig;
  NewSugarDB : sugarConfig -> result error unit
}.

(** ** The shared SugarDB *)

Record sugarDBNodeConfig := mkNodeConfig {
  nc_bindAddr : string;
  nc_joinAddr : string;
  nc_bootstrap : bool;
  nc_serverID : string;
  nc_dataDir : string;
  nc_discoveryPort : Z
}.

(** [strconv.ParseBool]. *)
Definition ParseBool (s : string) : result error bool :=
  if existsb (String.eqb s) ["1"; "t"; "T"; "true"; "TRUE"; "True"]%string then Ok true
  else if existsb (String.eqb s) ["0"; "f"; "F"; "false"; "FALSE"; "False"]%string then Ok false
  else Err (OpaqueError "strconv.ParseBool: invalid syntax").

(** [strconv.ParseUint(s, 10, 16)]. *)
Definition ParseUint16 (s : string) : result error Z :=
  match Netip.decimal s with
  | None => Err (OpaqueError "strconv.ParseUint: invalid syntax")
  | Some n => if n <? 65536 then Ok n else Err (OpaqueError "strconv.ParseUint: value out of range")
  end.

Section sugar.
Context `{OS, SugarNode}.

Definition newSugarDBInstance (nc : sugarDBNodeConfig) : result error unit :=
  let cfg := DefaultConfig in
  let or_default a d := if String.eqb a "" then d else a in
  let? dataDir :=
    if String.eqb (nc_dataDir nc) "" then rmap_err (Wrapf "create data dir: %w") (MkdirTemp "dealer-ratelimit-")
    else Ok (nc_dataDir nc) in
  rmap_err (Wrapf "start embedded SugarDB: %w")
    (NewSugarDB (mkSugarConfig
      (or_default (nc_bindAddr nc) (BindAddr cfg)) (or_default (nc_joinAddr nc) (JoinAddr cfg))
      (nc_bootstrap nc) (or_default (nc_serverID nc) (ServerID cfg)) dataDir
      (if nc_discoveryPort nc =? 0 then DiscoveryPort cfg else nc_discoveryPort nc))).

(** The function [sharedSugarDBOnce] runs. *)
Definition setup_shared : result error unit :=
  let? bootstrap :=
    let v := Getenv "DEALER_RATELIMIT_CLUSTER_BOOTSTRAP" in
    if String.eqb v "" then Ok false
    else rmap_err (fun e => Errorf "invalid DEALER_RATELIMIT_CLUSTER_BOOTSTRAP %q: %w" [v] (Some e)) (ParseBool v) in
  let? discoveryPort :=
    let v := Getenv "DEALER_RATELIMIT_CLUSTER_DISCOVERY_PORT" in
    if String.eqb v "" then Ok 0
    else rmap_err (fun e => Errorf "invalid DEALER_RATELIMIT_CLUSTER_DISCOVERY_PORT %q: %w" [v] (Some e)) (ParseUint16 v) in
  newSugarDBInstance (mkNodeConfig (Getenv "DEALER_RATELIMIT_CLUSTER_BIND_ADDR")
    (Getenv "DEALER_RATELIMIT_CLUSTER_JOIN_ADDR") bootstrap
    (Getenv "DEALER_RATELIMIT_CLUSTER_SERVER_ID") (Getenv "DEALER_RATELIMIT_CLUSTER_DATA_DIR") discoveryPort).

(** The first call sets the instance up; every call returns that outcome. *)
Definition getSharedSugarDBStore : M (result error unit) :=
  let* once := get (fun σ => h_sugar (w_heap σ)) in
  match once with
  | Some outcome => ret outcome
  | None =>
      on_heap (set_sugar (Some setup_shared));;
      ret setup_shared
  end.

End sugar.

(** ** The plugins *)

(** The store of a [rateLimiting]: its own [memoryStore], by address, or the shared
    SugarDB behind a key prefix. *)
Inductive bucketStore :=
| memoryAt (a : nat)
| namespacedSugar (prefix : string).

Inductive Plugin :=
| addHeader (headers : gmap string string)
| responseHeadersPlugin (p : responseHeaders)
| httpLog (p : nat)
| requestSizeLimiting (maxBytes : Z)
| jwtAuth (secret : string)
| corsPlugin (p : cors)
| rateLimiting (requestsPerSecond burst : float64) (store : bucketStore).

Definition Name (p : Plugin) : string :=
  match p with
  | addHeader _ => "add_header"
  | responseHeadersPlugin _ => "response_headers"
  | httpLog _ => "http_log"
  | requestSizeLimiting _ => "request_size_limiting"
  | jwtAuth _ => "jwt_auth"
  | corsPlugin _ => "cors"
  | rateLimiting _ _ _ => "rate_limiting"
  end.

Section plugins.
Context `{Platform, MapRange, Env, OS, SugarNode, JWT}.

(** *** add_header *)

Definition newAddHeader (cfg : config) : result error Plugin :=
  match cfg !! "headers"%string with
  | None | Some Nil => Ok (addHeader ∅)
  | Some (Map rawMap) =>
      let? headers := map_entries
        (fun k v => Errorf "add_header: config.headers[%q] must be a string, got %T" [k; TypeName v] None)
        (range_map rawMap) ∅ in
      Ok (addHeader headers)
  | Some raw => Err (Errorf1 "add_header: config.headers must be a map, got %T" (TypeName raw))
  end.

Definition addHeader_Wrap (headers : gmap string string) (next : Handler) : Handler := fun w r =>
  next w (with_Header (set_all (range_map headers) (r_Header r)) r).

(** *** request_size_limiting *)

Definition newRequestSizeLimiting (cfg : config) : result error Plugin :=
  match cfg !! "max_bytes"%string with
  | None => Err (Errorf0 "request_size_limiting: config.max_bytes is required")
  | Some raw =>
      let? maxBytes := rmap_err (Wrapf "request_size_limiting: config.max_bytes: %w") (toInt64 raw) in
      if maxBytes <=? 0 then
        Err (Errorf1 "request_size_limiting: config.max_bytes must be positive, got %d" (Itoa maxBytes))
      else Ok (requestSizeLimiting maxBytes)
  end.

Definition NewRequestSizeLimiting (maxBytes : Z) : Plugin := requestSizeLimiting maxBytes.

(** [http.MaxBytesReader] over a body; [None] stands for [http.NoBody]. A negative
    limit is zero. *)
Definition MaxBytesReader (b : option body) (n : Z) : body :=
  let n := Z.max 0 n in
  match b with
  | Some b => mkBody (b_data b) (b_fail b) (n :: b_limits b)
  | None => mkBody "" None [n]
  end.

Definition requestSizeLimiting_Wrap (maxBytes : Z) (next : Handler) : Handler := fun w r =>
  if maxBytes <? r_ContentLength r then lift (WriteHeader w 413)
  else next w (with_Body (Some (MaxBytesReader (r_Body r) maxBytes)) r).

(** *** jwt_auth *)

Definition newJWTAuth (cfg : config) : result error Plugin :=
  let envName := as_string (cfg !! "secret_env"%string) in
  if String.eqb envName "" then Err (Errorf0 "jwt_auth: config.secret_env is required")
  else
    let secret := Getenv envName in
    if String.eqb secret "" then Err (Errorf1 "jwt_auth: environment variable %q is not set" envName)
    else Ok (jwtAuth secret).

Definition extractToken (r : Request) : string :=
  match CutPrefix (Get (r_Header r) "Authorization") "Bearer " with
  | Some rest => rest
  | None => QueryGet (r_RawQuery r) "token"
  end.

Definition keyfunc (secret : string) (t : jwt_token) : result error string :=
  if t_hmac t then Ok secret else Err (Errorf1 "unexpected signing method: %v" (t_alg t)).

Definition jwtAuth_Wrap (secret : string) (next : Handler) : Handler := fun w r =>
  let tokenString := extractToken r in
  if String.eqb tokenString "" then lift (http_Error w "missing jwt" 401)
  else
    let* now := Now in
    match jwt_Parse now tokenString (keyfunc secret) with
    | Ok true => next w r
    | _ => lift (http_Error w "invalid jwt" 401)
    end.

(** *** rate_limiting

    The numbers in two of the error messages are left out of them. *)

Definition rate_config (cfg : config) : result error (float64 * float64) :=
  let? raw := match cfg !! "requests_per_second"%string with
              | None => Err (Errorf0 "rate_limiting: config.requests_per_second is required")
              | Some raw => Ok raw
              end in
  let? rps := rmap_err (Wrapf "rate_limiting: config.requests_per_second: %w") (toFloat64 raw) in
  if fleb rps (fofZ 0) then Err (Errorf0 "rate_limiting: config.requests_per_second must be positive, got %v")
  else
    let? burst := match cfg !! "burst"%string with
                  | None => Ok rps
                  | Some rawBurst =>
                      let? burst := rmap_err (Wrapf "rate_limiting: config.burst: %w") (toFloat64 rawBurst) in
                      if fltb burst (fofZ 1) then Err (Errorf0 "rate_limiting: config.burst must be >= 1, got %v")
                      else Ok burst
                  end in
    Ok (rps, burst).

(** The mode of a rate limit that is this process's own. *)
Definition in_memory (cfg : config) : bool :=
  let mode := as_string (cfg !! "mode"%string) in
  String.eqb mode "" || String.eqb mode "memory".

Definition newRateLimiting (cfg : config) (instanceID : string) : M (result error Plugin) :=
  match rate_config cfg with
  | Err e => ret (Err e)
  | Ok (rps, burst) =>
      let mode := as_string (cfg !! "mode"%string) in
      if in_memory cfg then
        let* a := get (fun σ => next_addr (h_stores (w_heap σ))) in
        on_heap (set_stores (insert a newMemoryStore));;
        ret (Ok (rateLimiting rps burst (memoryAt a)))
      else if String.eqb mode "distributed" then
        let* shared := getSharedSugarDBStore in
        ret (let? _ := rmap_err (Wrapf ("rate_limiting: config.mode " +:+ dquote +:+ "distributed" +:+ dquote +:+ ": %w")) shared in
             Ok (rateLimiting rps burst (namespacedSugar instanceID)))
      else ret (Err (Errorf1 ("rate_limiting: config.mode must be " +:+ dquote +:+ "memory" +:+ dquote +:+
                              " or " +:+ dquote +:+ "distributed" +:+ dquote +:+ ", got %q") mode))
  end.

(** The shared SugarDB, as the environment answers it: each command is recorded and
    takes one reading. *)
#[local] Instance shared_SugarDB : SugarDB (nat * list event) := {
  Incr '(tick, evs) k := ((S tick, evs ++ [EvIncr tick k]), env_incr tick k);
  Expire '(tick, evs) k n := ((S tick, evs ++ [EvExpire tick k n]), env_expire tick k n)
}.

#[local] Instance shared_store : TokenBucketStore (nat * list event) float64 := sugarDBStore_allow.

Definition bucket_allow (store : bucketStore) (key : string) (rps burst : float64) (now : Time) : M bool :=
  match store with
  | memoryAt a => fun σ =>
      let '(s, ok) := allow (default newMemoryStore (h_stores (w_heap σ) !! a)) key rps burst now in
      (mkWorld (w_now σ) (w_tick σ) (w_events σ) (set_stores (insert a s) (w_heap σ)), Ret ok)
  | namespacedSugar prefix => fun σ =>
      let '(s, ok) := allow (mkNamespacedStore prefix (w_tick σ, w_events σ)) key rps burst now in
      (mkWorld (w_now σ) (ns_inner s).1 (ns_inner s).2 (w_heap σ), Ret ok)
  end.

Definition rateLimiting_Wrap (rps burst : float64) (store : bucketStore) (next : Handler) : Handler := fun w r =>
  let* now := Now in
  let* ok := bucket_allow store (FromRequest r) rps burst now in
  if negb ok then lift (http_Error w "rate limit exceeded" 429) else next w r.

(** *** The interface *)

Definition Wrap (p : Plugin) (next : Handler) : Handler :=
  match p with
  | addHeader headers => addHeader_Wrap headers next
  | responseHeadersPlugin p => responseHeaders_Wrap p next
  | httpLog p => httpLog_Wrap p next
  | requestSizeLimiting maxBytes => requestSizeLimiting_Wrap maxBytes next
  | jwtAuth secret => jwtAuth_Wrap secret next
  | corsPlugin p => cors_Wrap p next
  | rateLimiting rps burst store => rateLimiting_Wrap rps burst store next
  end.

(** The loop of [Chain], from the last plugin to the first. *)
Definition Chain (plugins : list Plugin) (final : Handler) : Handler :=
  foldl (fun h p => Wrap p h) final (rev plugins).

(** The registry; the factories that only compute are lifted. *)
Definition builtins (name : string) : option (config -> M (result error Plugin)) :=
  if String.eqb name "add_header" then Some (fun cfg => ret (newAddHeader cfg))
  else if String.eqb name "http_log" then Some (fun _ => let* p := newHTTPLog in ret (Ok (httpLog p)))
  else if String.eqb name "request_size_limiting" then Some (fun cfg => ret (newRequestSizeLimiting cfg))
  else if String.eqb name "jwt_auth" then Some (fun cfg => ret (newJWTAuth cfg))
  else if String.eqb name "cors" then Some (fun cfg => ret (let? p := newCORS cfg in Ok (corsPlugin p)))
  else if String.eqb name "response_headers" then
    Some (fun cfg => ret (let? p := newResponseHeaders cfg in Ok (responseHeadersPlugin p)))
  else None.

Definition Build (name : string) (cfg : config) (instanceID : string) : M (result error Plugin) :=
  if String.eqb name "rate_limiting" then newRateLimiting cfg instanceID
  else match builtins name with
  | None => ret (Err (Errorf1 "plugin: unknown plugin %q" name))
  | Some factory => factory cfg
  end.

Fixpoint FlushLoggers (plugins : list Plugin) : M unit :=
  match plugins with
  | [] => ret tt
  | httpLog p :: plugins => httpLog_Flush p;; FlushLoggers plugins
  | _ :: plugins => FlushLoggers plugins
  end.

End plugins.

(** ** Lemmas *)

Section facts.
Context `{Platform, MapRange, Env, OS, SugarNode, JWT}.

Lemma Chain_cons p ps final : Chain (p :: ps) final = Wrap p (Chain ps final).
Proof. unfold Chain. simpl. by rewrite foldl_app. Qed.

Lemma Chain_app ps qs final : Chain (ps ++ qs) final = Chain ps (Chain qs final).
Proof. induction ps as [|p ps IH]; [done|]. simpl. by rewrite !Chain_cons, IH. Qed.

(** What a body limited to [n] bytes reads as. *)
Lemma ReadAll_MaxBytesReader b n :
  ReadAll (MaxBytesReader b n) =
  if Z.max 0 n <? Z.of_nat (String.length (match b with Some b => b_data b | None => "" end))
  then Err errTooLarge
  else match b with Some b => ReadAll b | None => Ok ""%string end.
Proof.
  unfold ReadAll, MaxBytesReader. destruct b as [b|]; simpl.
  - by destruct (Z.max 0 n <? Z.of_nat (String.length (b_data b))).
  - by rewrite orb_false_r.
Qed.

(** *** JWT *)

(** A token signed with the secret, by an HMAC method, and within its time. *)
Definition authentic `{!JWTLaws} (secret : string) (now : Time) (s : string) : bool :=
  match jwt_header s with
  | Some t => t_hmac t && jwt_signed secret s && jwt_in_time now s
  | None => false
  end.

Lemma jwt_Parse_authentic `{!JWTLaws} secret now s :
  jwt_Parse now s (keyfunc secret) = Ok true <-> authentic secret now s = true.
Proof.
  rewrite jwt_Parse_valid. unfold authentic, keyfunc. split.
  - intros (t & key & -> & Hkey & Hs & Ht). destruct (t_hmac t); [|done].
    injection Hkey as <-. by rewrite Hs, Ht.
  - destruct (jwt_header s) as [t|]; [|done].
    intros [[Hm Hs]%andb_true_iff Ht]%andb_true_iff. exists t, secret. by rewrite Hm.
Qed.

(** jwt_auth lets a request through exactly when it carries a token, in the
    Authorization header as a Bearer credential or else in the token parameter,
    that is signed with the configured secret by an HMAC method and is within its
    time. Any other request is answered 401 and reaches no handler behind it. *)
Theorem jwt_auth_gate `{!JWTLaws} secret next w r σ :
  jwtAuth_Wrap secret next w r σ =
    let tokenString := extractToken r in
    if String.eqb tokenString "" then lift (http_Error w "missing jwt" 401) σ
    else if authentic secret (w_now σ) tokenString then next w r σ
    else lift (http_Error w "invalid jwt" 401) σ.
Proof.
  unfold jwtAuth_Wrap. simpl. destruct (String.eqb (extractToken r) ""); [done|].
  unfold bind, Now, get. destruct (authentic _ _ _) eqn:E.
  - apply jwt_Parse_authentic in E. by rewrite E.
  - destruct (jwt_Parse _ _ _) as [[]|] eqn:Ep; [|done..].
    apply jwt_Parse_authentic in Ep. congruence.
Qed.

(** *** Logs *)

Lemma httpLog_Flush_run p σ :
  exists σ', httpLog_Flush p σ = (σ', Ret tt) /\ buffer p σ' = EmptyString /\
    (forall q, q <> p -> buffer q σ' = buffer q σ) /\
    stdout (w_events σ') = (stdout (w_events σ) +:+ buffer p σ)%string.
Proof.
  unfold httpLog_Flush, with_buffer, bind, get. fold (buffer p σ).
  destruct (buf_Flush (buffer p σ)) as [chunks b] eqn:Eb.
  assert (Hb : b = EmptyString /\ concat_str chunks = buffer p σ).
  { destruct (buffer p σ) as [|a s]; injection Eb as <- <-; [done|]. simpl. by rewrite str_app_nil_r. }
  destruct Hb as [-> Hc]. destruct (emit_chunks_run chunks σ) as (σ1 & -> & _ & Hh & Ho).
  eexists. split; [done|]. unfold buffer in *. simpl. rewrite Hh, lookup_insert_eq, Ho, Hc. split_and!; try done.
  intros q Hq. by rewrite lookup_insert_ne.
Qed.

Lemma FlushLoggers_returns plugins σ : exists σ', FlushLoggers plugins σ = (σ', Ret tt).
Proof.
  revert σ. induction plugins as [|p plugins IH]; intros σ; [by eexists|]. destruct p; cbn [FlushLoggers]; try apply IH.
  unfold bind. destruct (httpLog_Flush_run p σ) as (σ1 & -> & _). apply IH.
Qed.

Definition loggers (plugins : list Plugin) : list nat :=
  omap (fun p => match p with httpLog a => Some a | _ => None end) plugins.

(** ** Properties *)

(** C27. Nested size limits act as the smallest. The gateway wraps every service in
    its own limit and the service may configure another: a request that declares
    more than either is answered 413 and goes no further, and the body of one that
    is let through reads as before up to the smaller limit and as too large beyond
    it, whatever length was declared. *)
Theorem size_limits_compose n m next w r :
  0 <= n -> 0 <= m ->
  let inner := match r_Body r with Some b => b_data b | None => ""%string end in
  if Z.min n m <? r_ContentLength r
  then requestSizeLimiting_Wrap n (requestSizeLimiting_Wrap m next) w r = lift (WriteHeader w 413)
  else exists b,
    requestSizeLimiting_Wrap n (requestSizeLimiting_Wrap m next) w r = next w (with_Body (Some b) r) /\
    ReadAll b = if Z.min n m <? Z.of_nat (String.length inner) then Err errTooLarge
                else match r_Body r with Some b => ReadAll b | None => Ok ""%string end.
Proof.
  intros Hn Hm inner. unfold requestSizeLimiting_Wrap. simpl.
  destruct (Z.ltb_spec (Z.min n m) (r_ContentLength r)) as [Hlt|Hle].
  - destruct (Z.ltb_spec n (r_ContentLength r)); [done|].
    destruct (Z.ltb_spec m (r_ContentLength r)); [done|lia].
  - destruct (Z.ltb_spec n (r_ContentLength r)); [lia|].
    destruct (Z.ltb_spec m (r_ContentLength r)); [lia|].
    exists (MaxBytesReader (Some (MaxBytesReader (r_Body r) n)) m). split; [done|].
    rewrite !ReadAll_MaxBytesReader.
    assert (Hd : b_data (MaxBytesReader (r_Body r) n) = inner) by (unfold inner; by destruct (r_Body r)).
    rewrite Hd. fold inner. destruct (Z.ltb_spec (Z.max 0 m) (Z.of_nat (String.length inner))),
      (Z.ltb_spec (Z.max 0 n) (Z.of_nat (String.length inner))),
      (Z.ltb_spec (Z.min n m) (Z.of_nat (String.length inner))); done || lia.
Qed.

(** Flushing the loggers of a service empties every one of its buffers, in the
    order of the plugins and with nothing lost, and touches no other buffer. *)
Theorem FlushLoggers_empties plugins σ :
  NoDup (loggers plugins) ->
  exists σ', FlushLoggers plugins σ = (σ', Ret tt) /\
    stdout (w_events σ') =
      (stdout (w_events σ) +:+ concat_str ((fun p => buffer p σ) <$> loggers plugins))%string /\
    forall p, buffer p σ' = if bool_decide (p ∈ loggers plugins) then EmptyString else buffer p σ.
Proof.
  revert σ. induction plugins as [|p plugins IH]; intros σ; simpl.
  { intros _. exists σ. by rewrite str_app_nil_r. }
  destruct p as [| |p| | | |]; try apply IH. intros [Hp Hnd]%NoDup_cons. unfold bind.
  destruct (httpLog_Flush_run p σ) as (σ1 & -> & Hb & Hq & Ho).
  destruct (IH σ1 Hnd) as (σ' & -> & Ho' & Hb'). exists σ'. split; [done|].
  fold (loggers plugins) in *. split.
  - rewrite Ho', Ho, <- str_app_assoc. f_equal. cbn [fmap list_fmap concat_str]. f_equal. apply (f_equal concat_str).
    apply list_fmap_ext. intros i q Hi. apply Hq. intros ->. apply Hp. by eapply list_elem_of_lookup_2.
  - intros q. rewrite Hb'. destruct (decide (q = p)) as [->|Hne].
    + rewrite (bool_decide_eq_false_2 _ Hp), Hb. by rewrite bool_decide_eq_true_2 by set_solver.
    + rewrite Hq by done. repeat case_bool_decide; set_solver.
Qed.

(** The shared store is set up once: the outcome of the first call is every
    call's. *)
Lemma shared_once σ :
  exists σ1 x, getSharedSugarDBStore σ = (σ1, Ret x) /\ getSharedSugarDBStore σ1 = (σ1, Ret x).
Proof.
  unfold getSharedSugarDBStore, bind, get. destruct (h_sugar (w_heap σ)) as [x|] eqn:E.
  - exists σ, x. by rewrite E.
  - unfold on_heap, modify, ret. by eexists _, _.
Qed.

(** A rate of NaN, which YAML writes [.nan], is accepted and admits everything. *)
Lemma nan_rate_accepted cfg id σ :
  cfg !! "requests_per_second"%string = Some (Float64 S754_nan) ->
  cfg !! "burst"%string = None -> cfg !! "mode"%string = None ->
  exists σ' a, newRateLimiting cfg id σ = (σ', Ret (Ok (rateLimiting S754_nan S754_nan (memoryAt a)))).
Proof.
  intros Hr Hb Hm. unfold newRateLimiting, rate_config, in_memory. rewrite Hr, Hb, Hm. simpl. by eexists _, _.
Qed.

(** A finite rate it accepts is positive, a finite burst it was given is at least one:
    what [RateLimitConc.concurrent_rate_bound] asks of them. *)
Lemma accepted_rate cfg rps burst :
  rate_config cfg = Ok (rps, burst) -> finite rps = true -> finite burst = true ->
  (0 < value rps)%Q /\ match cfg !! "burst"%string with None => burst = rps | Some _ => (1 <= value burst)%Q end.
Proof.
  unfold rate_config. intros Hrun Fr Fb. destruct (cfg !! "requests_per_second"%string) as [raw|]; [|done]. cbn [rbind] in Hrun.
  destruct (toFloat64 raw) as [r|]; [|done]. cbn [rbind rmap_err] in Hrun. destruct (fleb r (fofZ 0)) eqn:Hr; [done|].
  destruct (cfg !! "burst"%string) as [rawBurst|].
  - destruct (toFloat64 rawBurst) as [b|]; [|done]. cbn [rbind rmap_err] in Hrun.
    destruct (fltb b (fofZ 1)) eqn:Hlt; [done|]. cbn [rbind] in Hrun. simplify_eq.
    split; [exact (fleb_value rps (fofZ 0) (finite_number rps Fr) eq_refl Fr eq_refl Hr)|].
    destruct (fofZ_value (F := float64) 1) as [F1 V1]; [done|]. apply Qnot_lt_le. intros Hv.
    rewrite <- V1 in Hv. apply (fltb_value burst (fofZ 1) Fb F1) in Hv. congruence.
  - cbn [rbind] in Hrun. simplify_eq. split; [|done].
    exact (fleb_value burst (fofZ 0) (finite_number burst Fr) eq_refl Fr eq_refl Hr).
Qed.

(** A rate limit of this process has the rate and the burst of its configuration. *)
Lemma newRateLimiting_memory cfg id σ σ' p :
  newRateLimiting cfg id σ = (σ', Ret (Ok p)) -> in_memory cfg = true ->
  exists rps burst a, rate_config cfg = Ok (rps, burst) /\ p = rateLimiting rps burst (memoryAt a).
Proof.
  unfold newRateLimiting. destruct (rate_config cfg) as [[rps burst]|]; [|done]. intros Hrun Hm. revert Hrun.
  rewrite Hm. unfold bind, get, on_heap, modify, ret. intros [= _ <-]. eauto.
Qed.

Lemma nan_rate_admits s key burst now :
  (memoryStore_allow s key S754_nan burst now).2 = true.
Proof.
  rewrite memoryStore_allow_unfold. simpl. destruct (swept s now !! key) as [v|]; [|done].
  unfold refill. simpl.
  assert (Hmul : forall x, SFmul 53 1024 x S754_nan = S754_nan) by by intros [].
  assert (Hadd : forall x, SFadd 53 1024 x S754_nan = S754_nan) by by intros [].
  rewrite Hmul, Hadd. by destruct burst as [| | |[]].
Qed.

(** add_header sets its headers on the request it passes on. *)
Lemma addHeader_forwards headers next w r :
  canon_inj headers ->
  exists h, addHeader_Wrap headers next w r = next w (with_Header h r) /\
    forall k, Values h k = match lookup_canon headers k with
                           | Some v => [v]
                           | None => Values (r_Header r) k
                           end.
Proof.
  intros Hinj. eexists. split; [done|]. intros k. by apply set_all_lookup_canon.
Qed.

End facts.
