(* ===== verification/JwtGen.v ===== *)
(** * The token generator (loadtest/jwtgen/main.go)

    [main] mints one HS256 token for the load tests and prints it. The claim the
    tool makes of itself, that its tokens are what the gateway's jwt_auth plugin
    expects, is the theorem at the end, proved against what RFC 7515 and RFC 7519
    say of a verifier. *)

From S2P Require Import Prelude GoInt GoStrings Base64 Sha256 Header Value Http Json Plugin.
From Stdlib Require Import Ascii.
#[local] Open Scope Z_scope.

(** ** The program *)

(** [t.Unix()]: whole seconds since 1970, rounded down; a [Time] counts from year 1. *)
Definition unixEpoch : Z := 62135596800.
Definition Unix (t : Time) : Z := t / Second - unixEpoch.

(** [json.Marshal] of a map of strings and integers, which has no error to return. *)
Definition Marshal (v : list (string * json_value)) : result error string := Ok (json_object v).

Definition b64json (v : list (string * json_value)) : result error string :=
  let? data := Marshal v in
  Ok (EncodeToString data).

Definition header_map : list (string * json_value) := [("alg", JString "HS256"); ("typ", JString "JWT")]%string.

Definition claims_map (now : Time) (sub : string) (ttl : Duration) : list (string * json_value) :=
  [("exp", JInt (Unix (now + ttl))); ("iat", JInt (Unix now)); ("sub", JString sub)]%string.

Definition mint (now : Time) (secret sub : string) (ttl : Duration) : result error string :=
  let? header := b64json header_map in
  let? claims := b64json (claims_map now sub ttl) in
  let signingInput := (header +:+ "." +:+ claims)%string in
  let mac := HMAC secret signingInput in
  let sig := EncodeToString mac in
  Ok (signingInput +:+ "." +:+ sig)%string.

(** The flags, [None] when not on the command line. *)
Definition sub_flag (sub : option string) : string := default "loadtest"%string sub.
Definition ttl_flag (ttl : option Duration) : Duration := default Hour ttl.

(** What the process does: print on the standard output, or [log.Fatal]. *)
Inductive exit :=
| Println (s : string)
| Fatal (msg : string).

Definition main `{OS} (sub : option string) (ttl : option Duration) (now : Time) : exit :=
  let secret := Getenv "JWT_SECRET" in
  if String.eqb secret "" then Fatal "jwtgen: JWT_SECRET must be set"
  else
    match mint now secret (sub_flag sub) (ttl_flag ttl) with
    | Err e => Fatal "jwtgen: %v"
    | Ok token => Println token
    end.

(** ** What a verifier does with such a token *)

(** A member of an object. *)
Definition json_get (k : string) (fields : list (string * json_value)) : option json_value :=
  snd <$> find_first (fun kv => String.eqb kv.1 k) fields.

(** The object a part of a token encodes. *)
Definition part_object (part : string) : option (list (string * json_value)) :=
  match DecodeString part with
  | Some text => match json_read text with
                 | Some (fields, EmptyString) => Some fields
                 | _ => None
                 end
  | None => None
  end.

Definition compact (h c s : string) : string := (h +:+ "." +:+ c +:+ "." +:+ s)%string.

(** Times in a token are read as floating-point numbers, which hold the integers up
    to here; a zero is taken as absent. *)
Definition numeric_date (e : Z) : Prop := 0 < e < 2 ^ 53.

(** The header names the algorithm; the signature is over the first two parts as they
    are written; the token is in time before the second [exp] names. *)
Class HS256Laws `{JWTLaws} := {
  hs_header h c s fields :
    no_dot h = true -> no_dot c = true -> no_dot s = true ->
    part_object h = Some fields -> NoDup (fst <$> fields) -> json_get "alg" fields = Some (JString "HS256") ->
    part_object c <> None ->
    jwt_header (compact h c s) = Some (mkToken true "HS256");
  hs_signed key h c s fields sig :
    no_dot h = true -> no_dot c = true -> no_dot s = true ->
    part_object h = Some fields -> NoDup (fst <$> fields) -> json_get "alg" fields = Some (JString "HS256") ->
    part_object c <> None -> DecodeString s = Some sig ->
    jwt_signed key (compact h c s) = String.eqb sig (HMAC key (h +:+ "." +:+ c));
  hs_in_time now h c s fields e :
    no_dot h = true -> no_dot c = true -> no_dot s = true ->
    part_object h <> None -> part_object c = Some fields -> NoDup (fst <$> fields) ->
    json_get "exp" fields = Some (JInt e) -> json_get "nbf" fields = None -> numeric_date e ->
    jwt_in_time now (compact h c s) = (Unix now <? e)
}.

(** ** Lemmas *)

#[local] Opaque HMAC.

Lemma part_object_encode fields : part_object (EncodeToString (json_object fields)) = Some (valid_field <$> fields).
Proof.
  unfold part_object. rewrite decode_encode.
  pose proof (json_read_object fields "") as Hr. rewrite str_app_nil_r in Hr. by rewrite Hr.
Qed.

Definition header_part : string := EncodeToString (json_object header_map).
Definition claims_part (now : Time) (sub : string) (ttl : Duration) : string :=
  EncodeToString (json_object (claims_map now sub ttl)).
Definition signed_part (now : Time) (sub : string) (ttl : Duration) : string :=
  (header_part +:+ "." +:+ claims_part now sub ttl)%string.

Lemma mint_run now secret sub ttl :
  mint now secret sub ttl =
  Ok (compact header_part (claims_part now sub ttl) (EncodeToString (HMAC secret (signed_part now sub ttl)))).
Proof.
  unfold mint, b64json, Marshal, compact, signed_part. cbn [rbind].
  fold header_part (claims_part now sub ttl). by rewrite <- !str_app_assoc.
Qed.

Lemma compact_nonempty c s : String.eqb (compact header_part c s) "" = false.
Proof.
  assert (exists t, header_part = String "e" t) as [t Ht] by (eexists; vm_compute; reflexivity).
  unfold compact. by rewrite Ht.
Qed.

Lemma Println_inj s t : Println s = Println t -> s = t.
Proof. congruence. Qed.

(** A verifier with the key [secret'], on a token minted with [secret]. *)
Lemma minted_authentic `{HS256Laws} secret secret' sub ttl t0 now :
  numeric_date (Unix (t0 + ttl)) ->
  authentic secret' now
    (compact header_part (claims_part t0 sub ttl) (EncodeToString (HMAC secret (signed_part t0 sub ttl)))) =
  String.eqb (HMAC secret (signed_part t0 sub ttl)) (HMAC secret' (signed_part t0 sub ttl)) &&
  (Unix now <? Unix (t0 + ttl)).
Proof.
  intros Hdate. unfold authentic.
  assert (Hh : part_object header_part = Some (valid_field <$> header_map)) by apply part_object_encode.
  assert (Hc : part_object (claims_part t0 sub ttl) = Some (valid_field <$> claims_map t0 sub ttl))
    by apply part_object_encode.
  assert (Hdots : no_dot header_part = true /\ no_dot (claims_part t0 sub ttl) = true) by (split; apply encode_no_dot).
  destruct Hdots as [Hdh Hdc]. set (s := EncodeToString _).
  assert (Hds : no_dot s = true) by apply encode_no_dot.
  assert (Hnd : forall l : list string, bool_decide (NoDup l) = true -> NoDup l) by (intros l; apply bool_decide_eq_true_1).
  rewrite (hs_header _ _ _ _ Hdh Hdc Hds Hh); [|by apply Hnd|done|by rewrite Hc].
  rewrite (hs_signed secret' _ _ _ _ (HMAC secret (signed_part t0 sub ttl)) Hdh Hdc Hds Hh);
    [|by apply Hnd|done|by rewrite Hc|by apply decode_encode].
  by rewrite (hs_in_time now _ _ _ (valid_field <$> claims_map t0 sub ttl) (Unix (t0 + ttl)) Hdh Hdc Hds);
    [|by rewrite Hh|exact Hc|by apply Hnd|..].
Qed.

(** ** Property *)

(** C34. The token the generator prints is one the gateway admits: a jwt_auth plugin
    configured with the environment variable it was signed with lets a request that
    bears it through to the service until the second its lifetime ends in, and
    answers 401 from then on; a plugin with another secret answers 401 unless the
    two secrets sign the token alike. The subject can be any string; the expiry is to be
    a positive number of seconds below [2^53]. *)
Theorem minted_token_admitted `{HS256Laws} `{MapRange} `{OS} sub ttl t0 token cfg r :
  JwtGen.main sub ttl t0 = Println token ->
  numeric_date (Unix (t0 + ttl_flag ttl)) ->
  cfg !! "secret_env"%string = Some (Str "JWT_SECRET") ->
  Get (r_Header r) "Authorization" = ("Bearer " +:+ token)%string ->
  newJWTAuth cfg = Ok (jwtAuth (Getenv "JWT_SECRET")) /\
  forall secret' next w σ,
    jwtAuth_Wrap secret' next w r σ =
    if String.eqb (HMAC (Getenv "JWT_SECRET") (signed_part t0 (sub_flag sub) (ttl_flag ttl)))
         (HMAC secret' (signed_part t0 (sub_flag sub) (ttl_flag ttl))) &&
       (Unix (w_now σ) <? Unix (t0 + ttl_flag ttl))
    then next w r σ else lift (http_Error w "invalid jwt" 401) σ.
Proof.
  unfold main. rewrite mint_run. set (tok := compact _ _ _). destruct (String.eqb_spec (Getenv "JWT_SECRET") "") as [|Hs]; [done|].
  intros Hp Hdate Hcfg Hr. apply Println_inj in Hp as <-. split.
  { unfold newJWTAuth. rewrite Hcfg. cbn [as_string]. destruct (String.eqb_spec (Getenv "JWT_SECRET") ""); done. }
  intros secret' next w σ. rewrite <- minted_authentic by done.
  unfold jwtAuth_Wrap, extractToken. rewrite Hr, CutPrefix_app.
  fold tok. assert (String.eqb tok "" = false) as -> by apply compact_nonempty.
  unfold bind, Now, get. destruct (authentic secret' (w_now σ) tok) eqn:E.
  - apply jwt_Parse_authentic in E. by rewrite E.
  - destruct (jwt_Parse _ _ _) as [[]|] eqn:Ep; [|done..].
    apply jwt_Parse_authentic in Ep. congruence.
Qed.
