(* ===== verification/Proxy.v ===== *)
(** * Proxying to the origins

    gateway/internal/proxy/proxy.go ([NewReverseProxy], its hooks,
    [writeBadGateway]) and the rest of loadbalancer.go ([NewOriginProxy],
    [roundRobinProxy.ServeHTTP], [ProbeTargets]). The selection itself is
    [Balancer.choose]. The standard library's [httputil.ReverseProxy] is
    [ReverseProxy_ServeHTTP]. *)

From S2P Require Import Prelude GoInt GoFloat OriginState Balancer RateLimit GoStrings Header Value Http Retry Netip Json Url.
From Stdlib Require Import Ascii.
#[local] Open Scope Z_scope.

(** ** What is not in the repository *)

(** go.opentelemetry.io/otel: the headers [propagation.TraceContext.Inject] sets
    for the span of a context, none when there is no span. *)
Class TraceContext := {
  Inject : option string -> list (string * string)
}.

(** ** The standard library's reverse proxy *)

(** [http.Transport], as the program configures it. *)
Record http_Transport := mkTransport {
  DialTimeout : Duration;
  ResponseHeaderTimeout : Duration;
  MaxIdleConnsPerHost : Z
}.

Inductive RoundTripper :=
| plainTransport (t : http_Transport)
| retrying (inner : http_Transport) (t : retryTransport).

(** [httputil.ReverseProxy]: its transport and the program's hooks. *)
Record ReverseProxy := mkReverseProxy {
  Transport : RoundTripper;
  Director : Request -> Request;
  ModifyResponse : Response -> M Response;
  ErrorHandler : rw -> Request -> gerror -> M rw
}.

Definition RoundTripper_RoundTrip `{Env} (t : RoundTripper) (req : Request) : M (result gerror Response) :=
  match t with
  | plainTransport _ => transport req
  | retrying _ t => RoundTrip t req
  end.

(** [NewSingleHostReverseProxy]'s director. *)
Definition with_URL (scheme host path raw query : string) (r : Request) : Request :=
  mkRequest (r_Method r) scheme host path raw query (r_Host r) (r_RemoteAddr r) (r_Header r) (r_Body r)
    (r_ContentLength r) (r_ctx r).

Definition singleHostDirector (target : URL) (r : Request) : Request :=
  let query :=
    if String.eqb (u_RawQuery target) "" || String.eqb (r_RawQuery r) ""
    then u_RawQuery target +:+ r_RawQuery r
    else u_RawQuery target +:+ "&" +:+ r_RawQuery r in
  let '(path, raw) := joinURLPath target (r_Path r) (r_RawPath r) in
  let r := with_URL (u_Scheme target) (u_Host target) path raw query r in
  match r_Header r !! "User-Agent"%string with
  | Some _ => r
  | None => with_Header (Set_ "User-Agent" "" (r_Header r)) r
  end.

Definition hopHeaders : list string :=
  ["Connection"; "Proxy-Connection"; "Keep-Alive"; "Proxy-Authenticate"; "Proxy-Authorization";
   "Te"; "Trailer"; "Transfer-Encoding"; "Upgrade"]%string.

(** The names a Connection header lists. *)
Definition connection_names (h : header) : list string :=
  f ← Values h "Connection";
  base.filter (fun sf => sf <> ""%string) (TrimSpace <$> Split "," f).

Definition del_all (ks : list string) (h : header) : header := foldl (fun h k => Del k h) h ks.

Definition removeHopByHopHeaders (h : header) : header :=
  del_all hopHeaders (del_all (connection_names h) h).

(** [httpguts.HeaderValuesContainsToken]. *)
Definition contains_token (values : list string) (token : string) : bool :=
  existsb (fun v => existsb (fun t => String.eqb (ToLower (TrimSpace t)) (ToLower token)) (Split "," v)) values.

Definition upgradeType (h : header) : string :=
  if contains_token (Values h "Connection") "Upgrade" then Get h "Upgrade" else EmptyString.

(** [copyHeader]: append every value. The names of a message read from the wire are
    canonical, so the order of the map does not matter. *)
Definition copyHeader (dst src : header) : header :=
  map_fold (fun k vv h => foldl (fun h v => Add k v h) h vv) dst src.

(** [ascii.IsPrint]. *)
Definition IsPrint (s : string) : bool := string_forallb (fun a => (32 <=? code a) && (code a <=? 126)) s.

(** The clone of the incoming request after the program's director. *)
Definition directed (p : ReverseProxy) (req : Request) : Request :=
  Director p (if r_ContentLength req =? 0 then with_Body None req else req).

(** The request sent to the origin. *)
Definition outgoing (p : ReverseProxy) (req : Request) : Request :=
  let outreq := directed p req in
  let reqUpType := upgradeType (r_Header outreq) in
  let h := removeHopByHopHeaders (r_Header outreq) in
  let h := if contains_token (Values (r_Header req) "Te") "trailers" then Set_ "Te" "trailers" h else h in
  let h := if String.eqb reqUpType "" then h
           else Set_ "Upgrade" reqUpType (Set_ "Connection" "Upgrade" h) in
  let h := match SplitHost (r_RemoteAddr req) with
           | None => h
           | Some clientIP =>
               match Values h "X-Forwarded-For" with
               | [] => Set_ "X-Forwarded-For" clientIP h
               | prior => Set_ "X-Forwarded-For" (Join prior ", " +:+ ", " +:+ clientIP) h
               end
           end in
  let h := match h !! "User-Agent"%string with Some _ => h | None => Set_ "User-Agent" "" h end in
  with_Header h outreq.

Section serve.
Context `{MapRange, Env}.

(** The [Got1xxResponse] trace: pass the informational responses on, with the writer's
    header, and clear that header. *)
Fixpoint forward_info (infos : list (Z * header)) (w : rw) : outcome rw :=
  match infos with
  | [] => Ret w
  | (code, h) :: infos =>
      let! w := WriteHeader (update_Header (fun dst => copyHeader dst h) w) code in
      forward_info infos (update_Header (const ∅) w)
  end.

Fixpoint copy_body (chunks : list string) (w : rw) : outcome rw :=
  match chunks with
  | [] => Ret w
  | c :: chunks => let! w := Write w c in copy_body chunks w
  end.

(** [handleUpgradeResponse]; the bytes tunnelled afterwards are not modelled. The body
    of a 101 of the transport can be written to. *)
Definition handleUpgradeResponse (p : ReverseProxy) (w : rw) (req : Request) (res : Response) : M rw :=
  let reqUpType := upgradeType (r_Header req) in
  let resUpType := upgradeType (s_Header res) in
  if negb (IsPrint resUpType) then
    ErrorHandler p w req (mkGerror "backend tried to switch to invalid protocol" false)
  else if negb (String.eqb (ToLower reqUpType) (ToLower resUpType)) then
    ErrorHandler p w req (mkGerror "backend tried to switch protocol" false)
  else
    match Hijack w with
    | (w, Some e) => ErrorHandler p w req (mkGerror ("Hijack failed on protocol switch: " +:+ e_text e) false)
    | (w, None) =>
        match Switch (update_Header (fun h => copyHeader h (s_Header res)) w) (s_Status res) with
        | (w, Some e) => ErrorHandler p w req (mkGerror ("response write: " +:+ e_text e) false)
        | (w, None) => ret w
        end
    end.

(** [ReverseProxy.ServeHTTP]. A body that breaks off panics with
    [http.ErrAbortHandler], as the server expects. *)
Definition ReverseProxy_ServeHTTP (p : ReverseProxy) : Handler := fun w req =>
  if negb (IsPrint (upgradeType (r_Header (directed p req)))) then
    ErrorHandler p w (directed p req) (mkGerror "client tried to switch to invalid protocol" false)
  else
  let outreq := outgoing p req in
  let* o := RoundTripper_RoundTrip (Transport p) outreq in
  match o with
  | Err e => ErrorHandler p w outreq e
  | Ok res =>
      let* w := lift (forward_info (s_info res) w) in
      if s_Status res =? 101 then
        let* res := ModifyResponse p res in
        handleUpgradeResponse p w outreq res
      else
        let res := mkResponse (s_Status res) (removeHopByHopHeaders (s_Header res)) (s_Body res)
                     (s_broken res) (s_info res) in
        let* res := ModifyResponse p res in
        let w := update_Header (fun h => copyHeader h (s_Header res)) w in
        let* w := lift (WriteHeader w (s_Status res)) in
        let* w := lift (copy_body (s_Body res) w) in
        if s_broken res then lift (Panic "net/http: abort Handler") else ret w
  end.

(** ** proxy.go *)

Definition maxIdleConnsPerHost : Z := 100.

Record RetryOptions := mkRetryOptions {
  MaxAttempts : Z;
  BackoffBase : Duration;
  RetryUnsafeMethods : bool
}.

(** The encoded map. *)
Definition bad_gateway_body (name : string) : string :=
  json_Encode [("error", JString "bad_gateway"); ("service", JString name)]%string.

Definition writeBadGateway (w : rw) (name : string) : M rw :=
  let w := update_Header (Set_ "Content-Type" "application/json") w in
  let* w := lift (WriteHeader w 502) in
  lift (Write w (bad_gateway_body name)).

Context `{TraceContext}.

(** [rp.Director]. *)
Definition director (target : URL) (r : Request) : Request :=
  let userAgent := Get (r_Header r) "User-Agent" in
  let r := singleHostDirector target r in
  let h := Set_ "User-Agent" userAgent (r_Header r) in
  with_Header (set_all (Inject (ctx_span (r_ctx r))) h) r.

Definition NewReverseProxy (name originURL : string) (timeout : Duration) (retry : RetryOptions)
    : result error ReverseProxy :=
  match Parse originURL with
  | None => Err (Errorf "proxy: invalid origin_url %q: %w" [originURL] (Some (OpaqueError "url.Parse")))
  | Some target =>
      if String.eqb (u_Scheme target) "" || String.eqb (u_Host target) "" then
        Err (Errorf1 "proxy: invalid origin_url %q: missing scheme or host" originURL)
      else
        let transport := mkTransport timeout timeout maxIdleConnsPerHost in
        Ok (mkReverseProxy
          (if 1 <? MaxAttempts retry
           then retrying transport (newRetryTransport (MaxAttempts retry) (BackoffBase retry) (RetryUnsafeMethods retry))
           else plainTransport transport)
          (director target)
          (fun resp => ret (mkResponse (s_Status resp) (Del "X-Request-Id" (s_Header resp)) (s_Body resp)
                              (s_broken resp) (s_info resp)))
          (fun w _ err =>
             emit (EvLog "proxy: service %q origin %s: %v" [name; originURL; e_text err]);;
             writeBadGateway w name))
  end.

(** ** loadbalancer.go *)

(** An origin: its proxy, and the address of its [originState]. *)
Record lbOrigin := mkLbOrigin {
  lo_url : string;
  lo_handler : ReverseProxy;
  lo_state : nat
}.

(** The [roundRobinProxy] of the code; [Balancer.roundRobinProxy] is its control
    state at one moment, which [snapshot] reads off the heap. *)
Record originProxy := mkOriginProxy {
  op_name : string;
  op_origins : list lbOrigin;
  op_cooldown : Duration;
  op_breaker : BreakerOptions;
  op_next : nat             (* the address of its counter *)
}.

Definition state_at (h : Heap) (a : nat) : originState := default newOriginState (h_origins h !! a).

Definition update_state (a : nat) (f : originState -> originState) : M unit :=
  on_heap (fun h => set_origins (insert a (f (state_at h a))) h).

(** The hooks [NewOriginProxy] puts around those of [NewReverseProxy]. *)
Definition track (a : nat) (rp : ReverseProxy) : ReverseProxy :=
  mkReverseProxy (Transport rp) (Director rp)
    (fun resp => update_state a recordSuccess;; ModifyResponse rp resp)
    (fun w r err =>
       let* now := Now in
       update_state a (recordFailure now);;
       ErrorHandler rp w r err).

(** The loop of [NewOriginProxy]. *)
Fixpoint build_origins (name : string) (originURLs : list string) (timeout : Duration) (retry : RetryOptions)
    : M (result error (list lbOrigin)) :=
  match originURLs with
  | [] => ret (Ok [])
  | u :: originURLs =>
      match NewReverseProxy name u timeout retry with
      | Err e => ret (Err e)
      | Ok rp =>
          let* a := get (fun σ => next_addr (h_origins (w_heap σ))) in
          on_heap (set_origins (insert a newOriginState));;
          let* rest := build_origins name originURLs timeout retry in
          ret (let? rest := rest in Ok (mkLbOrigin u (track a rp) a :: rest))
      end
  end.

Definition NewOriginProxy (name : string) (originURLs : list string) (timeout cooldown : Duration)
    (retry : RetryOptions) (breaker : BreakerOptions) : M (result error originProxy) :=
  match originURLs with
  | [] => ret (Err (Errorf1 "proxy: service %q: at least one origin_url is required" name))
  | _ =>
      let* n := get (fun σ => next_addr (h_next (w_heap σ))) in
      on_heap (set_next (insert n 0));;
      let* origins := build_origins name originURLs timeout retry in
      ret (let? origins := origins in Ok (mkOriginProxy name origins cooldown breaker n))
  end.

Definition snapshot (lb : originProxy) (h : Heap) : roundRobinProxy :=
  mkRoundRobinProxy (op_name lb)
    ((fun o => mkRoundRobinOrigin (lo_url o) (state_at h (lo_state o))) <$> op_origins lb)
    (op_cooldown lb) (op_breaker lb) (default 0 (h_next h !! op_next lb)).

Definition originProxy_ServeHTTP (lb : originProxy) : Handler := fun w r =>
  let* now := Now in
  let* h := get w_heap in
  let '(lb', d) := choose (snapshot lb h) now in
  on_heap (set_next (insert (op_next lb) (lb_next lb')));;
  match d with
  | Dial k =>
      match op_origins lb !! k with
      | Some o => ReverseProxy_ServeHTTP (lo_handler o) w r
      | None => lift (Panic "index out of range")
      end
  | FailFast k =>
      emit (EvLog "proxy: service %q origin %s: circuit breaker open, skipping dial"
              [op_name lb; default EmptyString (lo_url <$> op_origins lb !! k)]);;
      writeBadGateway w (op_name lb)
  end.

Record ProbeTarget := mkProbeTarget {
  pt_URL : string;
  pt_state : nat
}.

Definition ProbeTargets (lb : originProxy) : list ProbeTarget :=
  (fun o => mkProbeTarget (lo_url o) (lo_state o)) <$> op_origins lb.

End serve.

(** ** Lemmas: headers *)

Lemma del_all_values ks h k :
  Values (del_all ks h) k =
  if existsb (fun k' => String.eqb (CanonicalHeaderKey k') (CanonicalHeaderKey k)) ks then [] else Values h k.
Proof.
  unfold del_all. revert h. induction ks as [|k1 ks IH]; intros h; simpl; [done|].
  rewrite IH, Values_Del. destruct (String.eqb_spec (CanonicalHeaderKey k1) (CanonicalHeaderKey k)) as [E|E].
  - rewrite decide_True by done. by destruct (existsb _ ks).
  - by rewrite decide_False.
Qed.

(** The names of a header read from the wire are canonical. *)
Definition canonical (h : header) : Prop := forall k, is_Some (h !! k) -> CanonicalHeaderKey k = k.

Lemma canonical_Del k h : canonical h -> canonical (Del k h).
Proof. unfold Del. intros Hc k' [v [_ Hv]%lookup_delete_Some]. apply Hc. eauto. Qed.

Lemma canonical_del_all ks h : canonical h -> canonical (del_all ks h).
Proof.
  unfold del_all. revert h. induction ks as [|k ks IH]; intros h Hc; simpl; [done|].
  by apply IH, canonical_Del.
Qed.

Lemma add_values_values k vv h k' :
  Values (foldl (fun h v => Add k v h) h vv) k' =
  if decide (CanonicalHeaderKey k = CanonicalHeaderKey k') then Values h k ++ vv else Values h k'.
Proof.
  revert h. induction vv as [|v vv IH]; intros h; simpl.
  - case_decide as E; [|done]. rewrite app_nil_r. unfold Values. by rewrite E.
  - rewrite IH. case_decide as E.
    + rewrite Values_Add, decide_True, <- app_assoc; done.
    + by rewrite Values_Add, decide_False.
Qed.

Lemma Values_copyHeader dst src k :
  canonical src -> Values (copyHeader dst src) k = Values dst k ++ Values src k.
Proof.
  unfold copyHeader. revert src.
  refine (map_fold_weak_ind (fun h src => canonical src -> Values h k = Values dst k ++ Values src k) _ dst _ _).
  - intros _. unfold Values at 3. by rewrite lookup_empty, app_nil_r.
  - intros k1 vv src h Hk1 IH Hc.
    assert (Hc' : canonical src).
    { intros k' [v Hv]. apply Hc. rewrite lookup_insert_ne by (intros ->; congruence). eauto. }
    assert (Ek1 : CanonicalHeaderKey k1 = k1) by (apply Hc; rewrite lookup_insert_eq; eauto).
    rewrite add_values_values. case_decide as E.
    + unfold Values in *. rewrite E, IH by done. rewrite Ek1 in E. rewrite <- E, Hk1, lookup_insert_eq.
      simpl. by rewrite app_nil_r.
    + rewrite IH by done. f_equal. unfold Values. rewrite lookup_insert_ne; congruence.
Qed.

(** ** Lemmas: the request sent *)

Lemma singleHostDirector_fields target r :
  let r' := singleHostDirector target r in
  r_Method r' = r_Method r /\ r_Host r' = r_Host r /\ r_Body r' = r_Body r /\
  r_ContentLength r' = r_ContentLength r /\ r_ctx r' = r_ctx r /\ r_RemoteAddr r' = r_RemoteAddr r /\
  r_Scheme r' = u_Scheme target /\ r_URLHost r' = u_Host target /\
  (r_Path r', r_RawPath r') = joinURLPath target (r_Path r) (r_RawPath r).
Proof. unfold singleHostDirector. destruct (joinURLPath _ _ _) as [path raw]. simpl. by destruct (r_Header r !! _). Qed.

Lemma Values_Set_ne h k v k' :
  CanonicalHeaderKey k <> CanonicalHeaderKey k' -> Values (Set_ k v h) k' = Values h k'.
Proof. intros. by rewrite Values_Set, decide_False. Qed.

(** The header after the director, before the hop-by-hop fields go. *)
Lemma director_values `{TraceContext} target r k :
  CanonicalHeaderKey "User-Agent" <> CanonicalHeaderKey k ->
  Forall (fun kv => CanonicalHeaderKey kv.1 <> CanonicalHeaderKey k) (Inject (ctx_span (r_ctx r))) ->
  Values (r_Header (director target r)) k = Values (r_Header r) k.
Proof.
  intros Hua Hinj. unfold director. simpl.
  replace (ctx_span (r_ctx (singleHostDirector target r))) with (ctx_span (r_ctx r))
    by (f_equal; symmetry; apply singleHostDirector_fields).
  rewrite set_all_other, Values_Set_ne by done. unfold singleHostDirector.
  destruct (joinURLPath _ _ _) as [path raw]. simpl. destruct (r_Header r !! _); simpl; [done|]. by apply Values_Set_ne.
Qed.

(** The fields [outgoing] sets itself. *)
Definition proxy_fields : list string :=
  ["User-Agent"; "X-Forwarded-For"; "Te"; "Upgrade"; "Connection"]%string.

Section proxy_facts.
Context `{MapRange, Env, TraceContext}.

Lemma NewReverseProxy_Ok name u timeout retry rp :
  NewReverseProxy name u timeout retry = Ok rp ->
  exists target, Parse u = Some target /\ u_Scheme target <> EmptyString /\ u_Host target <> EmptyString /\
    Director rp = director target /\
    (forall resp σ, ModifyResponse rp resp σ =
       (σ, Ret (mkResponse (s_Status resp) (Del "X-Request-Id" (s_Header resp)) (s_Body resp)
                  (s_broken resp) (s_info resp)))) /\
    (forall w r e σ, ErrorHandler rp w r e σ =
       (emit (EvLog "proxy: service %q origin %s: %v" [name; u; e_text e]);; writeBadGateway w name) σ).
Proof.
  unfold NewReverseProxy. destruct (Parse u) as [target|]; [|done].
  destruct (String.eqb_spec (u_Scheme target) ""), (String.eqb_spec (u_Host target) ""); simpl; try done.
  intros [= <-]. by exists target.
Qed.

(** *** The state of an origin *)

Lemma state_at_update a f h a' :
  state_at (set_origins (insert a (f (state_at h a))) h) a' =
  if decide (a = a') then f (state_at h a) else state_at h a'.
Proof. unfold state_at at 1. simpl. rewrite lookup_insert. by case_decide. Qed.

(** The 502 of the gateway. *)
Definition bad_gateway (w : rw) (name : string) : outcome rw :=
  let! w := WriteHeader (update_Header (Set_ "Content-Type" "application/json") w) 502 in
  Write w (bad_gateway_body name).

Lemma writeBadGateway_run w name σ : writeBadGateway w name σ = (σ, bad_gateway w name).
Proof. unfold writeBadGateway, bad_gateway, bind, lift. by destruct (WriteHeader _ 502). Qed.

(** The state of origin [a] in [σ'] is [f] of its state in [σ]; the others' are as
    they were. *)
Definition only_origin (a : nat) (f : originState -> originState) (σ σ' : World) : Prop :=
  forall a', state_at (w_heap σ') a' =
    if decide (a = a') then f (state_at (w_heap σ) a) else state_at (w_heap σ) a'.

(** A protocol the client asks to switch to, in printable characters: the exchange
    takes place. *)
Definition asks_printable (p : ReverseProxy) (r : Request) : bool := IsPrint (upgradeType (r_Header (directed p r))).

(** The hooks around a failed exchange. *)
Lemma track_error name u timeout retry rp a w r e σ :
  NewReverseProxy name u timeout retry = Ok rp ->
  exists σ', ErrorHandler (track a rp) w r e σ = (σ', bad_gateway w name) /\
    only_origin a (recordFailure (w_now σ)) σ σ' /\ w_tick σ' = w_tick σ.
Proof.
  intros (t & _ & _ & _ & _ & _ & Herr)%NewReverseProxy_Ok. simpl.
  unfold bind at 1, Now, get. unfold bind at 1, update_state, on_heap, modify. rewrite Herr.
  unfold bind at 1, emit, modify. rewrite writeBadGateway_run. eexists. split; [done|]. split; [|done].
  intros a'. apply state_at_update.
Qed.

(** An informational response clears what the gateway had put in the writer's
    header: its request id and the CORS headers do not reach the client. *)
Lemma forward_info_clears infos w w' :
  infos <> [] -> forward_info infos w = Ret w' -> rw_Header w' = ∅.
Proof.
  enough (H' : forall infos w w', forward_info infos w = Ret w' ->
            (infos <> [] \/ rw_Header w = ∅) -> rw_Header w' = ∅) by eauto.
  clear. intros infos. induction infos as [|[c h] infos IH]; intros w w'; simpl.
  - intros [= <-]. by intros [|].
  - destruct (WriteHeader _ c) as [w1|]; simpl; [|done]. intros H' _. eapply IH; [done|]. by right.
Qed.

Lemma relayed_header res dst k :
  canonical (s_Header res) ->
  Values (copyHeader dst (Del "X-Request-Id" (removeHopByHopHeaders (s_Header res)))) k =
  Values dst k ++
    (if existsb (fun k' => String.eqb (CanonicalHeaderKey k') (CanonicalHeaderKey k))
          ("X-Request-Id"%string :: hopHeaders ++ connection_names (s_Header res))
     then [] else Values (s_Header res) k).
Proof.
  intros Hcan. rewrite Values_copyHeader by (apply canonical_Del, canonical_del_all, canonical_del_all, Hcan).
  f_equal. unfold removeHopByHopHeaders. rewrite Values_Del, !del_all_values.
  cbn [existsb]. rewrite existsb_app.
  destruct (String.eqb_spec (CanonicalHeaderKey "X-Request-Id") (CanonicalHeaderKey k)) as [E|E].
  - by rewrite decide_True.
  - rewrite decide_False by done. cbn [orb].
    by destruct (existsb _ hopHeaders), (existsb _ (connection_names (s_Header res))).
Qed.

(** ** Properties *)

(** A failed exchange is answered with the gateway's 502 and counted against
    the origin it was sent to, at the time it failed, and against no other. *)
Theorem failed_exchange name u timeout retry rp a w r e σ σ1 :
  NewReverseProxy name u timeout retry = Ok rp -> asks_printable rp r = true ->
  RoundTripper_RoundTrip (Transport rp) (outgoing (track a rp) r) σ = (σ1, Ret (Err e)) ->
  exists σ', ReverseProxy_ServeHTTP (track a rp) w r σ = (σ', bad_gateway w name) /\
    only_origin a (recordFailure (w_now σ1)) σ1 σ'.
Proof.
  intros Hnew Hup Hrt. unfold ReverseProxy_ServeHTTP. unfold asks_printable in Hup.
  change (directed (track a rp) r) with (directed rp r). rewrite Hup. cbn [negb]. unfold bind at 1.
  change (Transport (track a rp)) with (Transport rp). rewrite Hrt.
  destruct (track_error name u timeout retry rp a w (outgoing (track a rp) r) e σ1 Hnew) as (σ' & -> & Ho & _).
  by exists σ'.
Qed.

(** What relaying an answer leaves on the writer. *)
Definition relayed (w : rw) (res : Response) : outcome rw :=
  let h := Del "X-Request-Id" (removeHopByHopHeaders (s_Header res)) in
  let! w := WriteHeader (update_Header (fun dst => copyHeader dst h) w) (s_Status res) in
  let! w := copy_body (s_Body res) w in
  if s_broken res then Panic "net/http: abort Handler" else Ret w.

(** C32. An answer of the origin, unless it switches protocols, is relayed and counted
    as a success of that origin alone: its status and body as they are, its header
    appended to what the gateway had set, less the hop-by-hop fields and less
    X-Request-Id, so that of the two the client sees the gateway's request id and never
    the origin's. After an informational response it sees neither, nor any other header
    the gateway had set: those went out with the informational response and were
    cleared. A body that breaks off aborts the connection instead of passing for a
    complete one. The names of the origin's header are canonical, as those read from
    the wire are. *)
Theorem relayed_exchange name u timeout retry rp a w r res σ σ1 :
  NewReverseProxy name u timeout retry = Ok rp -> asks_printable rp r = true ->
  RoundTripper_RoundTrip (Transport rp) (outgoing (track a rp) r) σ = (σ1, Ret (Ok res)) ->
  s_Status res <> 101 -> canonical (s_Header res) ->
  match forward_info (s_info res) w with
  | Ret w1 =>
      (s_info res = [] -> w1 = w) /\ (s_info res <> [] -> rw_Header w1 = ∅) /\
      exists σ', ReverseProxy_ServeHTTP (track a rp) w r σ = (σ', relayed w1 res) /\ only_origin a recordSuccess σ1 σ'
  | Panic why => ReverseProxy_ServeHTTP (track a rp) w r σ = (σ1, Panic why)
  end /\
  forall dst k,
    Values (copyHeader dst (Del "X-Request-Id" (removeHopByHopHeaders (s_Header res)))) k =
    Values dst k ++
      (if existsb (fun k' => String.eqb (CanonicalHeaderKey k') (CanonicalHeaderKey k))
            ("X-Request-Id"%string :: hopHeaders ++ connection_names (s_Header res))
       then [] else Values (s_Header res) k).
Proof.
  intros Hnew Hup Hrt Hst Hcan. split; [|intros dst k; by apply relayed_header].
  destruct (NewReverseProxy_Ok _ _ _ _ _ Hnew) as (t & _ & _ & _ & _ & Hmod & _).
  assert (Hrun : ReverseProxy_ServeHTTP (track a rp) w r σ =
    match forward_info (s_info res) w with
    | Ret w1 => (mkWorld (w_now σ1) (w_tick σ1) (w_events σ1)
                   (set_origins (insert a (recordSuccess (state_at (w_heap σ1) a))) (w_heap σ1)), relayed w1 res)
    | Panic why => (σ1, Panic why)
    end).
  { unfold ReverseProxy_ServeHTTP. unfold asks_printable in Hup.
    change (directed (track a rp) r) with (directed rp r). rewrite Hup. cbn [negb]. unfold bind at 1.
    change (Transport (track a rp)) with (Transport rp). rewrite Hrt. unfold bind at 1, lift at 1.
    destruct (forward_info (s_info res) w) as [w1|why]; [|done].
    destruct (Z.eqb_spec (s_Status res) 101) as [|_]; [done|]. unfold bind at 1. simpl ModifyResponse.
    unfold bind at 1, update_state, on_heap, modify. rewrite Hmod. cbn [s_Status s_Header s_Body s_broken].
    unfold relayed, bind, lift. destruct (WriteHeader _ (s_Status res)) as [w2|]; simpl; [|done].
    destruct (copy_body (s_Body res) w2); simpl; [|done]. by destruct (s_broken res). }
  rewrite Hrun. destruct (forward_info (s_info res) w) as [w1|why] eqn:Ei; [|done].
  split; [by intros E; rewrite E in Ei; injection Ei|]. split; [intros Hne; by eapply forward_info_clears|].
  eexists. split; [reflexivity|]. intros a'. apply state_at_update.
Qed.

(** C33. What reaches the origin of the client's header. The fields the proxy manages
    aside, every header arrives with its values unchanged, except that the
    hop-by-hop fields and those the request's own Connection header names are
    removed; the method, the Host and the context are kept, and the path, with the way
    it was written, is that below the origin's base. *)
Theorem outgoing_headers p target r k :
  Director p = director target ->
  Forall (fun f => CanonicalHeaderKey f <> CanonicalHeaderKey k) proxy_fields ->
  Forall (fun kv => CanonicalHeaderKey kv.1 <> CanonicalHeaderKey k /\
            CanonicalHeaderKey kv.1 <> "Connection"%string) (Inject (ctx_span (r_ctx r))) ->
  let req := outgoing p r in
  Values (r_Header req) k =
    (if existsb (fun k' => String.eqb (CanonicalHeaderKey k') (CanonicalHeaderKey k))
          (hopHeaders ++ connection_names (r_Header r))
     then [] else Values (r_Header r) k) /\
  r_Method req = r_Method r /\ r_Host req = r_Host r /\ r_ctx req = r_ctx r /\
  (r_Path req, r_RawPath req) = joinURLPath target (r_Path r) (r_RawPath r) /\
  (u_RawPath target = EmptyString -> r_RawPath r = EmptyString ->
   r_Path req = singleJoiningSlash (u_Path target) (r_Path r)).
Proof.
  intros Hdir Hf Hinj. rewrite Forall_and in Hinj. destruct Hinj as [Hk Hconn].
  unfold proxy_fields in Hf. rewrite !Forall_cons in Hf. destruct Hf as (Hua & Hxff & Hte & Hup & Hco & _).
  set (r0 := if r_ContentLength r =? 0 then with_Body None r else r).
  assert (E0 : r_Header r0 = r_Header r /\ r_ctx r0 = r_ctx r /\ r_Method r0 = r_Method r /\
               r_Host r0 = r_Host r /\ r_Path r0 = r_Path r /\ r_RawPath r0 = r_RawPath r) by (unfold r0; by case_match).
  destruct E0 as (Eh & Ec & Em & Eo & Ep & Erp).
  set (r1 := director target r0).
  assert (Hnames : connection_names (r_Header r1) = connection_names (r_Header r)).
  { unfold connection_names. f_equal. unfold r1. rewrite director_values, Eh; [done|done|by rewrite Ec]. }
  assert (Hv : Values (r_Header r1) k = Values (r_Header r) k).
  { unfold r1. rewrite director_values, Eh; [done|done|by rewrite Ec]. }
  intros req. split.
  - unfold req, outgoing, directed. fold r0. rewrite Hdir. fold r1. unfold with_Header at 1. cbn [r_Header].
    assert (HUA : forall h, Values match h !! "User-Agent"%string with Some _ => h | None => Set_ "User-Agent" "" h end k
              = Values h k) by (intros h; case_match; [done|by apply Values_Set_ne]).
    rewrite HUA. clear HUA.
    assert (HX : forall h (o : option string), Values match o with None => h
        | Some ip => match Values h "X-Forwarded-For" with [] => Set_ "X-Forwarded-For" ip h
          | prior => Set_ "X-Forwarded-For" (Join prior ", " +:+ ", " +:+ ip) h end end k = Values h k)
      by (intros h [ip|]; [|done]; case_match; by apply Values_Set_ne).
    rewrite HX. clear HX. unfold removeHopByHopHeaders. rewrite Hnames, existsb_app, <- Hv.
    destruct (String.eqb _ ""), (contains_token _ _); rewrite ?Values_Set_ne by done;
      rewrite !del_all_values; by case_match.
  - unfold req, outgoing, directed. fold r0. rewrite Hdir.
    destruct (singleHostDirector_fields target r0) as (E1 & E2 & _ & _ & E3 & _ & _ & _ & E4).
    rewrite Ep, Erp in E4. split_and!; [by etrans|by etrans|by etrans|exact E4|].
    intros Ht Hr. unfold joinURLPath in E4. rewrite Ht, Hr in E4. by injection E4.
Qed.

(** A round trip of a request whose body cannot be read fails with the body's
    error, without a word from the origin. *)
Lemma RoundTripper_unreadable t req e σ :
  readBody req = Err e ->
  exists σ', RoundTripper_RoundTrip t req σ = (σ', Ret (Err e)) /\
    w_heap σ' = w_heap σ /\ w_now σ' = w_now σ /\ w_tick σ' = w_tick σ.
Proof.
  intros He. assert (Ht : exists σ', transport req σ = (σ', Ret (Err e)) /\
    w_heap σ' = w_heap σ /\ w_now σ' = w_now σ /\ w_tick σ' = w_tick σ).
  { unfold transport. rewrite He. by eexists. }
  destruct t as [t|inner t]; simpl; [done|]. unfold RoundTrip.
  destruct (_ || _); [done|]. rewrite He. by exists σ.
Qed.

(** A client's own fault is charged to the origin: a request that asks to switch to a
    protocol whose name is not printable is answered 502 and counted as a failure of an
    origin that was never asked. *)
Theorem unprintable_upgrade_blames_origin name u timeout retry rp a w r σ :
  NewReverseProxy name u timeout retry = Ok rp -> asks_printable rp r = false ->
  exists σ', ReverseProxy_ServeHTTP (track a rp) w r σ = (σ', bad_gateway w name) /\
    only_origin a (recordFailure (w_now σ)) σ σ' /\ w_tick σ' = w_tick σ.
Proof.
  intros Hnew Hup. unfold ReverseProxy_ServeHTTP. unfold asks_printable in Hup.
  change (directed (track a rp) r) with (directed rp r). rewrite Hup. cbn [negb]. by eapply track_error.
Qed.

(** So is a request whose body cannot be read (it runs past the size limit, or the
    client breaks it off). *)
Theorem unreadable_body_blames_origin name u timeout retry rp a w r b e σ :
  NewReverseProxy name u timeout retry = Ok rp ->
  r_ContentLength r <> 0 -> r_Body r = Some b -> ReadAll b = Err e ->
  exists σ', ReverseProxy_ServeHTTP (track a rp) w r σ = (σ', bad_gateway w name) /\
    only_origin a (recordFailure (w_now σ)) σ σ' /\ w_tick σ' = w_tick σ.
Proof.
  intros Hnew Hcl Hb He. destruct (NewReverseProxy_Ok _ _ _ _ _ Hnew) as (t & _ & _ & _ & Hdir & _).
  assert (Hread : readBody (outgoing (track a rp) r) = Err e).
  { assert (Hbody : r_Body (outgoing (track a rp) r) = Some b).
    { unfold outgoing, directed. simpl Director. rewrite Hdir. destruct (Z.eqb_spec (r_ContentLength r) 0); [done|].
      change (r_Body (singleHostDirector t r) = Some b).
      by destruct (singleHostDirector_fields t r) as (_ & _ & -> & _). }
    unfold readBody. by rewrite Hbody, He. }
  destruct (asks_printable rp r) eqn:Hup; [|by eapply unprintable_upgrade_blames_origin].
  unfold ReverseProxy_ServeHTTP. unfold asks_printable in Hup. change (directed (track a rp) r) with (directed rp r).
  rewrite Hup. cbn [negb]. unfold bind at 1. change (Transport (track a rp)) with (Transport rp).
  destruct (RoundTripper_unreadable (Transport rp) _ e σ Hread) as (σ1 & -> & Hh & Hn & Ht).
  destruct (track_error name u timeout retry rp a w (outgoing (track a rp) r) e σ1 Hnew)
    as (σ' & -> & Ho & Ht').
  exists σ'. split_and!; [done| |congruence]. intros a'. rewrite Ho, Hn. by rewrite Hh.
Qed.

End proxy_facts.
