(* ===== verification/Exchange.v ===== *)
(** * A request and the origins of its service

    The load balancer and the reverse proxies together: what serving a request does
    to the state of the service's origins. *)

From S2P Require Import Prelude GoInt GoFloat OriginState Balancer RateLimit GoStrings Header Value Http Retry Netip Url Proxy.
From Stdlib Require Import Ascii.
#[local] Open Scope Z_scope.

Section exchange.
Context `{MapRange, Env, TraceContext}.

(** ** The transport leaves the shared objects alone *)

Lemma transport_keeps req : keeps_heap (transport req).
Proof. unfold transport. destruct (readBody req); [|eauto with frame]. apply keeps_bind; [eauto with frame|]. intros []. eauto with frame. Qed.

Lemma backoff_keeps t a : keeps_heap (backoff t a).
Proof. unfold backoff, Int63n. apply keeps_bind; [case_match; eauto with frame|eauto with frame]. Qed.

Lemma attempts_keep t req b fuel : forall a last, keeps_heap (attempts t req b a fuel last).
Proof.
  induction fuel as [|fuel IH]; intros a last; simpl; [apply keeps_ret|].
  apply keeps_bind; [apply transport_keeps|]. intros o. destruct (final t a o); [apply keeps_ret|].
  apply keeps_bind; [apply backoff_keeps|]. intros d. unfold Sleep. eauto 10 with frame.
Qed.

Lemma RoundTripper_keeps t req : keeps_heap (RoundTripper_RoundTrip t req).
Proof.
  destruct t as [t|inner t]; simpl; [apply transport_keeps|]. unfold RoundTrip.
  case_match; [apply transport_keeps|]. case_match; [apply attempts_keep|apply keeps_ret].
Qed.

(** ** Where an origin's proxy comes from *)

(** An origin as [NewOriginProxy] makes it. *)
Definition wired (name : string) (o : lbOrigin) : Prop :=
  exists timeout retry rp, NewReverseProxy name (lo_url o) timeout retry = Ok rp /\
    lo_handler o = track (lo_state o) rp.

Lemma build_origins_wired name urls timeout retry σ σ' os :
  build_origins name urls timeout retry σ = (σ', Ret (Ok os)) ->
  Forall (wired name) os /\ lo_url <$> os = urls.
Proof.
  revert σ σ' os. induction urls as [|u urls IH]; intros σ σ' os; simpl; [by intros [= _ <-]|].
  destruct (NewReverseProxy name u timeout retry) as [rp|] eqn:Erp; [|done].
  unfold bind at 1, get. unfold bind at 1, on_heap, modify. unfold bind at 1.
  destruct (build_origins name urls timeout retry _) as [σ1 [[rest|]|]] eqn:Eb; [|done..].
  intros [= <- <-]. apply IH in Eb as [Hw Hu]. split; [|simpl; by f_equal].
  constructor; [by exists timeout, retry, rp|done].
Qed.

Lemma NewOriginProxy_wired name urls timeout cooldown retry breaker σ σ' lb :
  NewOriginProxy name urls timeout cooldown retry breaker σ = (σ', Ret (Ok lb)) ->
  Forall (wired name) (op_origins lb) /\ op_name lb = name /\ lo_url <$> op_origins lb = urls /\
  urls <> [] /\ op_cooldown lb = cooldown /\ op_breaker lb = breaker.
Proof.
  unfold NewOriginProxy. destruct urls as [|u urls]; [done|].
  unfold bind at 1, get. unfold bind at 1, on_heap, modify. unfold bind at 1.
  destruct (build_origins name (u :: urls) timeout retry _) as [σ1 [[rest|]|]] eqn:Eb; [|done..].
  intros [= <- <-]. by apply build_origins_wired in Eb as [Hw Hu].
Qed.

(** ** One exchange, on every path *)

(** What the client asks to switch to. *)
Definition asked (p : ReverseProxy) (r : Request) : string := upgradeType (r_Header (directed p r)).

(** A switch of protocols that happens: it is the one the client asked for, and the
    connection can be taken over and written to. *)
Definition switch_made (asked : string) (w : rw) (res : Response) : bool :=
  let granted := upgradeType (s_Header res) in
  IsPrint granted && String.eqb (ToLower asked) (ToLower granted) && negb (c_hijacked (rw_conn w)) &&
  match c_takeover (rw_conn w) with Ok None => true | _ => false end.

(** What became of the exchange that starts in [σ] and ends in [σ']: the state the origin
    had and the state it has. *)
Definition charged (name : string) (p : ReverseProxy) (w : rw) (r : Request) (σ σ' : World) (out : outcome rw)
    (s s' : originState) : Prop :=
  if negb (IsPrint (asked p r))
  then out = bad_gateway w name /\ w_tick σ' = w_tick σ /\ s' = recordFailure (w_now σ) s
  else match RoundTripper_RoundTrip (Transport p) (outgoing p r) σ with
  | (_, Panic why) => out = Panic why /\ s' = s
  | (σ1, Ret (Err e)) => out = bad_gateway w name /\ s' = recordFailure (w_now σ1) s
  | (σ1, Ret (Ok res)) =>
      match forward_info (s_info res) w with
      | Panic why => out = Panic why /\ s' = s
      | Ret w1 =>
          if (s_Status res =? 101) && negb (switch_made (asked p r) w1 res)
          then (exists w2, out = bad_gateway w2 name) /\ s' = recordFailure (w_now σ1) (recordSuccess s)
          else s' = recordSuccess s
      end
  end.

(** The transport is told what the client asked for. *)
Lemma upgradeType_Set k v h :
  CanonicalHeaderKey k <> "Connection"%string -> CanonicalHeaderKey k <> "Upgrade"%string ->
  upgradeType (Set_ k v h) = upgradeType h.
Proof. intros E1 E2. unfold upgradeType, Get. by rewrite !Values_Set_ne by done. Qed.

Lemma outgoing_upgrade p r : upgradeType (r_Header (outgoing p r)) = asked p r.
Proof.
  unfold outgoing, asked. set (h0 := r_Header (directed p r)). cbn [r_Header with_Header].
  set (h1 := if String.eqb (upgradeType h0) "" then _ else _).
  assert (E1 : upgradeType h1 = upgradeType h0).
  { unfold h1. destruct (String.eqb_spec (upgradeType h0) "") as [E|E].
    - rewrite E. unfold upgradeType, removeHopByHopHeaders.
      assert (Values (if contains_token (Values (r_Header r) "Te") "trailers"
        then Set_ "Te" "trailers" (del_all hopHeaders (del_all (connection_names h0) h0))
        else del_all hopHeaders (del_all (connection_names h0) h0)) "Connection" = []) as ->; [|done].
      destruct (contains_token _ _); rewrite ?Values_Set_ne by done; by rewrite del_all_values.
    - unfold upgradeType at 1. rewrite Values_Set_ne, Values_Set, decide_True by done.
      unfold Get. by rewrite Values_Set, decide_True. }
  rewrite <- E1. clearbody h1. clear. destruct (SplitHost (r_RemoteAddr r)) as [ip|].
  - destruct (Values h1 "X-Forwarded-For"); (case_match; rewrite ?upgradeType_Set by done; done).
  - case_match; [done|by rewrite upgradeType_Set].
Qed.

(** What the director leaves of it: all, when the tracing headers are others. *)
Lemma asked_of_client p target r :
  Director p = director target ->
  Forall (fun kv => CanonicalHeaderKey kv.1 <> "Connection"%string /\ CanonicalHeaderKey kv.1 <> "Upgrade"%string)
    (Inject (ctx_span (r_ctx r))) ->
  asked p r = upgradeType (r_Header r).
Proof.
  intros Hdir [Hc Hu]%Forall_and. unfold asked, directed. rewrite Hdir.
  assert (Hv : forall k, CanonicalHeaderKey "User-Agent" <> CanonicalHeaderKey k ->
    Forall (fun kv => CanonicalHeaderKey kv.1 <> CanonicalHeaderKey k) (Inject (ctx_span (r_ctx r))) ->
    Values (r_Header (director target (if r_ContentLength r =? 0 then with_Body None r else r))) k = Values (r_Header r) k).
  { intros k E1 E2. rewrite director_values by (done || by destruct (r_ContentLength r =? 0)). by destruct (r_ContentLength r =? 0). }
  unfold upgradeType, Get. by rewrite !Hv by done.
Qed.

Lemma track_modify name u timeout retry rp a res σ :
  NewReverseProxy name u timeout retry = Ok rp ->
  exists σ' res', ModifyResponse (track a rp) res σ = (σ', Ret res') /\
    only_origin a recordSuccess σ σ' /\ w_now σ' = w_now σ /\ h_next (w_heap σ') = h_next (w_heap σ) /\
    s_Status res' = s_Status res /\ upgradeType (s_Header res') = upgradeType (s_Header res).
Proof.
  intros (t & _ & _ & _ & _ & Hmod & _)%NewReverseProxy_Ok. simpl.
  unfold bind, update_state, on_heap, modify. rewrite Hmod. eexists _, _.
  split_and!; [done| |done..|].
  - intros a'. apply state_at_update.
  - unfold upgradeType, Get. simpl. by rewrite !Values_Del, !decide_False by done.
Qed.

Lemma track_error_next name u timeout retry rp a w r e σ σ' o :
  NewReverseProxy name u timeout retry = Ok rp ->
  ErrorHandler (track a rp) w r e σ = (σ', o) -> h_next (w_heap σ') = h_next (w_heap σ).
Proof.
  intros (t & _ & _ & _ & _ & _ & Herr)%NewReverseProxy_Ok. simpl.
  unfold bind at 1, Now, get. unfold bind at 1, update_state, on_heap, modify. rewrite Herr.
  unfold bind at 1, emit, modify. rewrite writeBadGateway_run. by intros [= <- <-].
Qed.

(** The wrappers take part in taking the connection over and do not decide it. *)
Lemma hijack_conn ws c : (hijack ws c).1.2 = (conn_Hijack c).1 /\ (hijack ws c).2 = (conn_Hijack c).2.
Proof.
  induction ws as [|[st|p applied] ws [IH1 IH2]]; simpl; [by destruct (conn_Hijack c)|..];
    by destruct (hijack ws c) as [[ws' c'] err].
Qed.

(** After the round trip: an answer that switches protocols, and any other. *)
Lemma upgrade_charged name u timeout retry rp a w r res σ σ' out :
  NewReverseProxy name u timeout retry = Ok rp ->
  handleUpgradeResponse (track a rp) w r res σ = (σ', out) ->
  (if switch_made (upgradeType (r_Header r)) w res then only_origin a id σ σ'
   else (exists w2, out = bad_gateway w2 name) /\ only_origin a (recordFailure (w_now σ)) σ σ') /\
  h_next (w_heap σ') = h_next (w_heap σ).
Proof.
  intros Hnew. unfold handleUpgradeResponse, switch_made. cbv zeta.
  assert (Herr : forall w2 e, ErrorHandler (track a rp) w2 r e σ = (σ', out) ->
    ((exists w2, out = bad_gateway w2 name) /\ only_origin a (recordFailure (w_now σ)) σ σ') /\
    h_next (w_heap σ') = h_next (w_heap σ)).
  { intros w2 e Hrun. split; [|by eapply track_error_next].
    destruct (track_error name u timeout retry rp a w2 r e σ Hnew) as (σ2 & Hr & Ho & _). rewrite Hr in Hrun.
    injection Hrun as <- <-. by split; [eexists|]. }
  destruct (IsPrint _); [|apply Herr]. destruct (String.eqb (ToLower _) _); [|apply Herr]. cbn [negb andb].
  unfold Hijack, Switch. pose proof (hijack_conn (rw_wrappers w) (rw_conn w)) as [E1 E2].
  destruct (hijack _ _) as [[ws c] err]. cbn [fst snd] in E1, E2. subst c err. unfold conn_Hijack.
  destruct (c_hijacked (rw_conn w)); [apply Herr|]. cbn [negb andb].
  destruct (c_takeover (rw_conn w)) as [[e|]|e] eqn:Et; unfold conn_switch; cbn; rewrite ?Et; [apply Herr| |apply Herr].
  intros [= <- <-]. split; [|done]. intros a'. by case_decide; subst.
Qed.

Lemma relay_run (w : rw) (res : Response) σ :
  fst ((let* w := lift (WriteHeader w (s_Status res)) in
        let* w := lift (copy_body (s_Body res) w) in
        if s_broken res then lift (Panic "net/http: abort Handler") else ret w) σ) = σ.
Proof.
  unfold bind, lift. destruct (WriteHeader w _) as [w1|]; [|done].
  destruct (copy_body _ w1); [|done]. by destruct (s_broken res).
Qed.

Lemma only_origin_trans a f g σ σ1 σ2 :
  only_origin a f σ σ1 -> only_origin a g σ1 σ2 -> only_origin a (g ∘ f) σ σ2.
Proof.
  intros Hf Hg a'. rewrite Hg. case_decide as E; [|by rewrite Hf, decide_False].
  simpl. by rewrite Hf, decide_True.
Qed.

Lemma only_origin_heap a f σ0 σ σ' :
  w_heap σ0 = w_heap σ -> only_origin a f σ0 σ' ->
  state_at (w_heap σ') a = f (state_at (w_heap σ) a) /\
  (forall a', a' <> a -> state_at (w_heap σ') a' = state_at (w_heap σ) a').
Proof.
  intros Hh Ho. split; [by rewrite Ho, decide_True, Hh|]. intros a' Hne. by rewrite Ho, decide_False, Hh.
Qed.

(** The answer of an origin, once its informational responses are out. *)
Lemma answered_charged name u timeout retry rp a w r res σ σ' out :
  NewReverseProxy name u timeout retry = Ok rp ->
  (if s_Status res =? 101 then
     let* res := ModifyResponse (track a rp) res in handleUpgradeResponse (track a rp) w r res
   else
     let res := mkResponse (s_Status res) (removeHopByHopHeaders (s_Header res)) (s_Body res)
                  (s_broken res) (s_info res) in
     let* res := ModifyResponse (track a rp) res in
     let w := update_Header (fun h => copyHeader h (s_Header res)) w in
     let* w := lift (WriteHeader w (s_Status res)) in
     let* w := lift (copy_body (s_Body res) w) in
     if s_broken res then lift (Panic "net/http: abort Handler") else ret w) σ = (σ', out) ->
  (if (s_Status res =? 101) && negb (switch_made (upgradeType (r_Header r)) w res)
   then (exists w2, out = bad_gateway w2 name) /\ only_origin a (recordFailure (w_now σ) ∘ recordSuccess) σ σ'
   else only_origin a recordSuccess σ σ') /\
  h_next (w_heap σ') = h_next (w_heap σ).
Proof.
  intros Hnew. destruct (Z.eqb_spec (s_Status res) 101) as [H101|_]; unfold bind at 1.
  - destruct (track_modify name u timeout retry rp a res σ Hnew) as (σ1 & res' & -> & Ho & Hn & Hx & _ & Hup).
    intros Hrun. destruct (upgrade_charged _ _ _ _ _ _ _ _ _ _ _ _ Hnew Hrun) as [Hu Hx'].
    split; [|congruence]. unfold switch_made in *. rewrite Hup in Hu. cbn [andb]. destruct (_ && _); cbn [negb].
    + by apply (only_origin_trans _ _ id _ σ1).
    + destruct Hu as [Hout Hu]. split; [done|]. rewrite <- Hn. by eapply only_origin_trans.
  - match goal with |- context [ModifyResponse (track a rp) ?x σ] =>
      destruct (track_modify name u timeout retry rp a x σ Hnew) as (σ1 & res' & -> & Ho & Hn & Hx & _) end.
    intros Hrun. apply (f_equal fst) in Hrun. rewrite relay_run in Hrun. simpl in Hrun. by subst.
Qed.

(** Serving through one origin changes its state alone, and never the counter. *)
Lemma exchange_charged name o w r σ σ' out :
  wired name o -> ReverseProxy_ServeHTTP (lo_handler o) w r σ = (σ', out) ->
  charged name (lo_handler o) w r σ σ' out (state_at (w_heap σ) (lo_state o)) (state_at (w_heap σ') (lo_state o)) /\
  (forall a, a <> lo_state o -> state_at (w_heap σ') a = state_at (w_heap σ) a) /\
  h_next (w_heap σ') = h_next (w_heap σ).
Proof.
  intros (timeout & retry & rp & Hnew & ->) Hrun. set (a := lo_state o) in *.
  unfold ReverseProxy_ServeHTTP in Hrun. fold (asked (track a rp) r) in Hrun. unfold charged.
  destruct (IsPrint (asked (track a rp) r)); cbn [negb] in *.
  2: { pose proof (track_error_next _ _ _ _ _ _ _ _ _ _ _ _ Hnew Hrun) as Hx.
    destruct (track_error name _ timeout retry rp a w (directed (track a rp) r)
      (mkGerror "client tried to switch to invalid protocol" false) σ Hnew) as (σ2 & Hr & Hc & Ht).
    rewrite Hr in Hrun. injection Hrun as <- <-. by destruct (only_origin_heap _ _ σ σ _ eq_refl Hc) as [-> Ho]. }
  unfold bind at 1 in Hrun.
  pose proof (RoundTripper_keeps (Transport (track a rp)) (outgoing (track a rp) r) σ) as Hk.
  destruct (RoundTripper_RoundTrip _ _ σ) as [σ1 [[res|e]|why]]; simpl in Hk.
  - unfold bind at 1, lift at 1 in Hrun. destruct (forward_info (s_info res) w) as [w1|why].
    + apply (answered_charged name _ _ _ _ a w1 _ res σ1 σ' out Hnew) in Hrun as [Hc Hx]. rewrite Hk in Hx.
      rewrite outgoing_upgrade in Hc. destruct (_ && _).
      * destruct Hc as [Hout Hc]. by destruct (only_origin_heap _ _ σ1 σ _ Hk Hc) as [-> Ho].
      * by destruct (only_origin_heap _ _ σ1 σ _ Hk Hc) as [-> Ho].
    + injection Hrun as <- <-. by rewrite Hk.
  - pose proof (track_error_next _ _ _ _ _ _ _ _ _ _ _ _ Hnew Hrun) as Hx. rewrite Hk in Hx.
    destruct (track_error name _ timeout retry rp a w (outgoing (track a rp) r) e σ1 Hnew) as (σ2 & Hr & Hc & _).
    rewrite Hr in Hrun. injection Hrun as <- <-. by destruct (only_origin_heap _ _ σ1 σ _ Hk Hc) as [-> Ho].
  - injection Hrun as <- <-. by rewrite Hk.
Qed.

(** ** Properties *)

(** C31. A request concerns one origin. Whatever the origins, the plugins' request
    and the network do, the request goes where the load balancer's choice says and
    the counter moves on as the choice says; the state of the chosen origin is
    charged with what became of the exchange and no other origin's is. An answer is a
    success; no answer is a failure at the time it failed, answered 502; nothing is
    charged when the round trip panicked, or passing on an informational response that
    came before the answer did. A switch of protocols is a success if it is
    the one the client asked for and the connection could be taken over for it, and
    else that success is followed by a failure, answered 502 as well; and a request for
    a protocol whose name is not printable is a failure without a round trip, answered
    502. A request that fails fast is answered 502 without a word to any origin. *)
Theorem one_origin_charged name urls timeout cooldown retry breaker lb w r σ0 σ1 σ :
  NewOriginProxy name urls timeout cooldown retry breaker σ0 = (σ1, Ret (Ok lb)) ->
  let '(lb', d) := choose (snapshot lb (w_heap σ)) (w_now σ) in
  let '(σ', out) := originProxy_ServeHTTP lb w r σ in
  h_next (w_heap σ') !! op_next lb = Some (lb_next lb') /\
  match d with
  | FailFast _ => out = bad_gateway w name /\ w_tick σ' = w_tick σ /\
      (forall a, state_at (w_heap σ') a = state_at (w_heap σ) a)
  | Dial k => exists o σd, op_origins lb !! k = Some o /\ w_now σd = w_now σ /\ w_tick σd = w_tick σ /\
      charged name (lo_handler o) w r σd σ' out
        (state_at (w_heap σ) (lo_state o)) (state_at (w_heap σ') (lo_state o)) /\
      (forall a, a <> lo_state o -> state_at (w_heap σ') a = state_at (w_heap σ) a)
  end.
Proof.
  intros (Hw & Hname & Hurls & Hne & _)%NewOriginProxy_wired.
  assert (Hlen : (0 < length (op_origins lb))%nat).
  { rewrite <- (length_fmap lo_url), Hurls. by destruct urls; [|simpl; lia]. }
  destruct (choose (snapshot lb (w_heap σ)) (w_now σ)) as [lb' d] eqn:Ec.
  destruct (originProxy_ServeHTTP lb w r σ) as [σ' out] eqn:Hrun. revert Hrun.
  unfold originProxy_ServeHTTP. unfold bind at 1, Now, get. unfold bind at 1, get. rewrite Ec.
  unfold bind at 1, on_heap, modify. destruct d as [k|k].
  - assert (Hk : (k < length (op_origins lb))%nat).
    { pose proof (choose_lt (snapshot lb (w_heap σ)) (w_now σ) k) as Hlt. unfold snapshot in Hlt at 1 3.
      simpl in Hlt. rewrite length_fmap in Hlt. apply Hlt; [done|by rewrite Ec]. }
    destruct (lookup_lt_is_Some_2 _ _ Hk) as [o Ho]. rewrite Ho. intros Hrun.
    destruct (exchange_charged name o w r _ _ _ (Forall_lookup_1 _ _ _ _ Hw Ho) Hrun) as (Hc & Hother & Hx).
    split; [rewrite Hx; apply lookup_insert_eq|]. exists o. eexists. split_and!; [done| | |exact Hc|exact Hother]; done.
  - unfold bind, emit, modify. rewrite writeBadGateway_run, Hname. intros [= <- <-].
    split; [apply lookup_insert_eq|done].
Qed.

End exchange.
