(* ===== verification/Health.v ===== *)
(** * Active health probing (gateway/internal/proxy/health.go) *)

From S2P Require Import Prelude GoInt GoFloat OriginState Balancer GoStrings Header Value Http Proxy.
From Stdlib Require Import Ascii.
#[local] Open Scope Z_scope.

(** ** Definitions *)

Record Prober := mkProber {
  targets : list ProbeTarget;
  pr_path : string;
  interval : Duration;
  client_Timeout : Duration
}.

Definition NewProber (targets : list ProbeTarget) (path : string) (interval timeout : Duration) : Prober :=
  mkProber targets path interval timeout.

Section health.
Context `{Env}.

(** [p.client.Get]: the environment's answer, [None] for an error (the timeout
    included), and the time it took. *)
Definition client_Get (url : string) : M (option Z) :=
  let* (took, status) := reading (fun n => env_get n url) in
  elapse took;;
  ret status.

Definition probe (p : Prober) (originURL : string) : M bool :=
  let* status := client_Get (TrimSuffix1 "/" originURL +:+ pr_path p) in
  ret match status with
      | None => false
      | Some code => (200 <=? code) && (code <? 300)
      end.

Fixpoint probe_all (p : Prober) (ts : list ProbeTarget) : M unit :=
  match ts with
  | [] => ret tt
  | t :: ts =>
      let* up := probe p (pt_URL t) in
      update_state (pt_state t) (setForcedDown (negb up));;
      probe_all p ts
  end.

Definition probeOnce (p : Prober) : M unit := probe_all p (targets p).

(** What the [select] of [Start] receives. *)
Inductive signal := CtxDone | Tick.

(** [time.NewTicker] panics unless the interval is positive. *)
Definition NewTicker (d : Duration) : M unit :=
  if d <=? 0 then lift (Panic "non-positive interval for NewTicker") else ret tt.

Fixpoint probe_loop (p : Prober) (signals : list signal) : M unit :=
  match signals with
  | [] | CtxDone :: _ => ret tt
  | Tick :: signals => probeOnce p;; probe_loop p signals
  end.

(** [Start], for the signals it receives until it is stopped. *)
Definition Start (p : Prober) (signals : list signal) : M unit :=
  NewTicker (interval p);;
  probeOnce p;;
  probe_loop p signals.

(** ** Lemmas *)

(** The probe of the target taken at tick [n]. *)
Definition probed_up (p : Prober) (n : nat) (t : ProbeTarget) : bool :=
  match (env_get n (TrimSuffix1 "/" (pt_URL t) +:+ pr_path p)).2 with
  | None => false
  | Some code => (200 <=? code) && (code <? 300)
  end.

Lemma probe_run p t σ :
  exists σ', probe p (pt_URL t) σ = (σ', Ret (probed_up p (w_tick σ) t)) /\
    w_heap σ' = w_heap σ /\ w_tick σ' = S (w_tick σ).
Proof.
  unfold probe, client_Get, bind, reading, probed_up. simpl.
  destruct (env_get (w_tick σ) _) as [took status]. simpl. by eexists.
Qed.

Lemma probe_all_run p ts σ :
  NoDup (pt_state <$> ts) ->
  exists σ', probe_all p ts σ = (σ', Ret tt) /\
    (forall i t, ts !! i = Some t ->
       state_at (w_heap σ') (pt_state t) =
       setForcedDown (negb (probed_up p (w_tick σ + i) t)) (state_at (w_heap σ) (pt_state t))) /\
    (forall a, a ∉ pt_state <$> ts -> state_at (w_heap σ') a = state_at (w_heap σ) a) /\
    w_tick σ' = (w_tick σ + length ts)%nat.
Proof.
  revert σ. induction ts as [|t ts IH]; intros σ Hnd; simpl.
  { exists σ. split_and!; [done|done|done|lia]. }
  apply NoDup_cons in Hnd as [Ht Hnd]. unfold bind at 1.
  destruct (probe_run p t σ) as (σ1 & -> & Hh & Hk). unfold bind at 1, update_state, on_heap, modify.
  match goal with |- context [probe_all p ts ?s] => destruct (IH s Hnd) as (σ' & -> & Hall & Hother & Htick) end.
  exists σ'. simpl in *. split_and!; [done| | |rewrite Htick, Hk; lia].
  - intros [|i] t' Hi; simpl in Hi.
    + injection Hi as <-. rewrite (Hother (pt_state t)) by done.
      rewrite (state_at_update (pt_state t) (setForcedDown (negb (probed_up p (w_tick σ) t))) (w_heap σ1)).
      rewrite decide_True by done. by rewrite Hh, Nat.add_0_r.
    + rewrite (Hall i t' Hi). rewrite Hk, Hh.
      rewrite (state_at_update (pt_state t) (setForcedDown (negb (probed_up p (w_tick σ) t))) (w_heap σ)).
      rewrite decide_False; [by rewrite Nat.add_succ_comm|].
      intros Heq. apply Ht. rewrite Heq. apply list_elem_of_fmap_2. by eapply list_elem_of_lookup_2.
  - intros a Ha. apply not_elem_of_cons in Ha as [Hne Ha]. rewrite Hother by done. rewrite Hh.
    rewrite (state_at_update (pt_state t) (setForcedDown (negb (probed_up p (w_tick σ) t))) (w_heap σ)).
    by rewrite decide_False.
Qed.

(** The number of probe rounds [Start] makes on the signals it receives. *)
Fixpoint rounds (signals : list signal) : nat :=
  match signals with
  | [] | CtxDone :: _ => 0
  | Tick :: signals => S (rounds signals)
  end.

(** ** Properties *)

(** What [probeOnce] leaves: every target up or down as its own probe answered, from
    tick [n] on; the rest of its state, and every other origin, as it was. *)
Definition marked (p : Prober) (n : nat) (h h' : Heap) : Prop :=
  (forall i t, targets p !! i = Some t ->
     let s := state_at h (pt_state t) in
     state_at h' (pt_state t) =
     mkOriginState (lastFailureAt s) (negb (probed_up p (n + i) t)) (consecutiveFailures s)) /\
  (forall a, a ∉ pt_state <$> targets p -> state_at h' a = state_at h a).

Lemma marked_again p n m h1 h2 h3 : marked p n h1 h2 -> marked p m h2 h3 -> marked p m h1 h3.
Proof.
  intros [Ht12 Ho12] [Ht23 Ho23]. split.
  - intros i t Hi. simpl. by rewrite (Ht23 i t Hi), (Ht12 i t Hi).
  - intros a Ha. by rewrite Ho23, Ho12.
Qed.

Lemma probeOnce_run p σ :
  NoDup (pt_state <$> targets p) ->
  exists σ', probeOnce p σ = (σ', Ret tt) /\ marked p (w_tick σ) (w_heap σ) (w_heap σ') /\
    w_tick σ' = (w_tick σ + length (targets p))%nat.
Proof.
  intros Hnd. destruct (probe_all_run p (targets p) σ Hnd) as (σ' & Hrun & Hall & Hother & Htick).
  exists σ'. split_and!; [done| |done]. split; [|done]. intros i t Hi. by rewrite (Hall i t Hi).
Qed.

(** The rounds after the first; [n] is the tick the last one started at. *)
Lemma probe_loop_run p signals σ0 n σ :
  NoDup (pt_state <$> targets p) -> marked p n (w_heap σ0) (w_heap σ) -> w_tick σ = (n + length (targets p))%nat ->
  exists σ', probe_loop p signals σ = (σ', Ret tt) /\
    marked p (n + rounds signals * length (targets p)) (w_heap σ0) (w_heap σ') /\
    w_tick σ' = (n + S (rounds signals) * length (targets p))%nat.
Proof.
  intros Hnd. revert n σ. induction signals as [|[] signals IH]; intros n σ Hm Hn; cbn [probe_loop rounds].
  1, 2: exists σ; rewrite Nat.mul_0_l, Nat.add_0_r, Nat.mul_1_l; done.
  unfold bind. destruct (probeOnce_run p σ Hnd) as (σ1 & -> & Hm1 & Hn1).
  destruct (IH (w_tick σ) σ1) as (σ' & -> & Hm' & Hn'); [by eapply marked_again|done|].
  exists σ'. rewrite Hn in *. split_and!; [done| |rewrite Hn'; lia].
  replace (n + S (rounds signals) * length (targets p))%nat
    with (n + length (targets p) + rounds signals * length (targets p))%nat by lia. done.
Qed.

(** C35. The prober at work. [Start] probes every target once at the start and once
    per tick until it is cancelled, and then stops. It leaves each target marked up
    or down as its own last probe answered, down unless the answer came with a 2xx
    status, with its failures and cooldown as they were, and touches no other
    origin. With an interval that is not positive it panics at once and takes the
    process down, being the top of its goroutine. *)
Theorem Start_marks p signals σ :
  NoDup (pt_state <$> targets p) ->
  if interval p <=? 0
  then Start p signals σ = (σ, Panic "non-positive interval for NewTicker")
  else exists σ', Start p signals σ = (σ', Ret tt) /\
         marked p (w_tick σ + rounds signals * length (targets p)) (w_heap σ) (w_heap σ') /\
         w_tick σ' = (w_tick σ + S (rounds signals) * length (targets p))%nat.
Proof.
  intros Hnd. unfold Start, NewTicker. destruct (interval p <=? 0); [done|].
  unfold bind, ret at 1. destruct (probeOnce_run p σ Hnd) as (σ1 & -> & Hm & Hn).
  by apply probe_loop_run.
Qed.

End health.
