(* ===== verification/Config.v ===== *)
(** * The configuration file (gateway/internal/config: types.go, parse.go)

    The YAML decoder is third party: [yaml_Unmarshal]. *)

From stdpp Require Import sorting.
From S2P Require Import Prelude GoInt GoFloat GoStrings Value GoDuration.
From Stdlib Require Import Ascii.
#[local] Open Scope Z_scope.

(** ** types.go *)

Record PluginConfig := mkPluginConfig {
  pc_Name : string;
  pc_Config : config
}.

Record HealthCheckConfig := mkHealthCheckConfig {
  hc_Path : string;
  hc_Interval : string
}.

Record Service := mkService {
  svc_Name : string;
  svc_Path : string;
  svc_Host : string;
  svc_OriginURL : string;
  svc_OriginURLs : list string;
  svc_Methods : list string;
  svc_Plugins : list PluginConfig;
  svc_HealthCheck : option HealthCheckConfig;
  svc_RetryUnsafeMethods : bool;
  svc_PreserveRequestID : bool
}.

Record Config := mkConfig { Services : list Service }.

(** ** What is not in the repository *)

(** gopkg.in/yaml.v3's decoder into [Config], and the file system. *)
Class ConfigSource := {
  yaml_Unmarshal : string -> result error Config;
  ReadFile : string -> result error string
}.

(** ** parse.go *)

(** [hostPattern]: labels of lowercase letters, digits and inner hyphens, joined by
    dots. *)
Definition host_alnum (a : ascii) : bool := is_lower a || is_digit a.

Fixpoint label_tail (s : string) : bool :=
  match s with
  | EmptyString => true
  | String a EmptyString => host_alnum a
  | String a s => (host_alnum a || Ascii.eqb a "-") && label_tail s
  end.

Definition host_label (s : string) : bool :=
  match s with
  | EmptyString => false
  | String a s => host_alnum a && label_tail s
  end.

Definition hostPattern (s : string) : bool := forallb host_label (Split "." s).

(** [sort.Strings] of the distinct host names. *)
Definition Hosts (c : Config) : list string :=
  merge_sort String.le
    (remove_dups (base.filter (fun h => h <> ""%string) (svc_Host <$> Services c))).

(** The checks of one service, the [i]-th. *)
Definition check_service (i : nat) (svc : Service) : result error unit :=
  let name := svc_Name svc in
  if String.eqb name "" then
    Err (Errorf1 "config: service[%d]: name is required" (Itoa (Z.of_nat i)))
  else if String.eqb (svc_Path svc) "" then
    Err (Errorf1 "config: service %q: path is required" name)
  else if negb (String.eqb (svc_Host svc) "") && negb (hostPattern (svc_Host svc)) then
    Err (Errorf "config: service %q: host %q must be a lowercase host name, without scheme, port or path"
           [name; svc_Host svc] None)
  else if String.eqb (svc_OriginURL svc) "" && bool_decide (svc_OriginURLs svc = []) then
    Err (Errorf1 "config: service %q: origin_url or origin_urls is required" name)
  else if negb (String.eqb (svc_OriginURL svc) "") && negb (bool_decide (svc_OriginURLs svc = [])) then
    Err (Errorf1 "config: service %q: origin_url and origin_urls are mutually exclusive" name)
  else if existsb (fun u => String.eqb u "") (svc_OriginURLs svc) then
    Err (Errorf1 "config: service %q: origin_urls entries must not be empty" name)
  else match svc_HealthCheck svc with
  | Some hc =>
      if String.eqb (hc_Interval hc) "" then Ok tt
      else
        let? _ := rmap_err (fun e => Errorf "config: service %q: health_check.interval: %w" [name] (Some e))
                    (ParseDuration (hc_Interval hc)) in
        Ok tt
  | None => Ok tt
  end.

Fixpoint check_services (i : nat) (svcs : list Service) : result error unit :=
  match svcs with
  | [] => Ok tt
  | svc :: svcs =>
      let? _ := check_service i svc in
      check_services (S i) svcs
  end.

Section load.
Context `{ConfigSource}.

Definition Parse (data : string) : result error Config :=
  let? cfg := rmap_err (Wrapf "config: parse yaml: %w") (yaml_Unmarshal data) in
  let? _ := check_services 0 (Services cfg) in
  Ok cfg.

Definition Load (path : string) : result error Config :=
  let? data := rmap_err (fun e => Errorf "config: read %s: %w" [path] (Some e)) (ReadFile path) in
  Parse data.

End load.

(** ** Lemmas *)

(** What a service must be. *)
Record valid_service (svc : Service) : Prop := {
  vs_name : svc_Name svc <> EmptyString;
  vs_path : svc_Path svc <> EmptyString;
  vs_host : svc_Host svc = EmptyString \/ hostPattern (svc_Host svc) = true;
  vs_origin : svc_OriginURL svc <> EmptyString <-> svc_OriginURLs svc = [];
  vs_origins : Forall (fun u => u <> EmptyString) (svc_OriginURLs svc);
  vs_interval : forall hc, svc_HealthCheck svc = Some hc -> hc_Interval hc <> EmptyString ->
    is_ok (ParseDuration (hc_Interval hc)) = true
}.

Lemma entries_nonempty l :
  existsb (fun u => String.eqb u "") l = false <-> Forall (fun u => u <> EmptyString) l.
Proof.
  rewrite existsb_false. apply Forall_proper; [|done]. intros u.
  by destruct (String.eqb_spec u "").
Qed.

Lemma guard_Ok {E A} (b : bool) (e : E) (m : result E A) x :
  (if b then Err e else m) = Ok x <-> b = false /\ m = Ok x.
Proof. destruct b; naive_solver. Qed.

Lemma eqb_empty s : String.eqb s "" = false <-> s <> EmptyString.
Proof. by destruct (String.eqb_spec s ""). Qed.

(** The last check: an interval, when there is one, is a duration. *)
Definition interval_ok (svc : Service) : Prop :=
  forall hc, svc_HealthCheck svc = Some hc -> hc_Interval hc <> EmptyString ->
    is_ok (ParseDuration (hc_Interval hc)) = true.

Lemma check_interval_Ok (f : error -> error) svc :
  match svc_HealthCheck svc with
  | Some hc =>
      if String.eqb (hc_Interval hc) "" then Ok tt
      else let? _ := rmap_err f (ParseDuration (hc_Interval hc)) in Ok tt
  | None => Ok tt
  end = Ok tt <-> interval_ok svc.
Proof.
  unfold interval_ok. destruct (svc_HealthCheck svc) as [hc|]; [|done].
  destruct (String.eqb_spec (hc_Interval hc) "") as [E|E]; [split; [naive_solver|done]|].
  destruct (ParseDuration (hc_Interval hc)) eqn:Ep; simpl.
  - split; [|done]. intros _ hc' [= <-] _. by rewrite Ep.
  - split; [done|]. intros Hi. specialize (Hi hc eq_refl E). by rewrite Ep in Hi.
Qed.

Lemma check_service_Ok i svc : check_service i svc = Ok tt <-> valid_service svc.
Proof.
  unfold check_service. rewrite !guard_Ok, check_interval_Ok, entries_nonempty, !eqb_empty,
    !andb_false_iff, !negb_false_iff, !eqb_empty, !String.eqb_eq, !bool_decide_eq_false, !bool_decide_eq_true.
  split.
  - intros (H1 & H2 & H3 & H4 & H5 & H6 & H7). split; try done. tauto.
  - intros [H1 H2 H3 H4 H5 H6]. split_and!; try done; destruct (decide (svc_OriginURLs svc = []));
      destruct (decide (svc_OriginURL svc = EmptyString)); tauto.
Qed.

Lemma check_services_Ok i svcs : check_services i svcs = Ok tt <-> Forall valid_service svcs.
Proof.
  revert i. induction svcs as [|svc svcs IH]; intros i; simpl; [done|].
  rewrite Forall_cons, <- (check_service_Ok i), <- (IH (S i)).
  destruct (check_service i svc) as [[]|]; simpl; [tauto|]. split; [done|by intros [? _]].
Qed.

(** A host name has no byte that means something else in a route pattern. *)
Lemma label_tail_chars s :
  label_tail s = true -> string_forallb (fun a => host_alnum a || Ascii.eqb a "-") s = true.
Proof.
  induction s as [|a s IH]; [done|]. simpl. destruct s as [|b s]; [by intros ->|].
  intros [-> Hs]%andb_true_iff. by apply IH.
Qed.

(** ** Properties *)

(** C20. The parser accepts a document exactly when it decodes and every service is
    valid: named, with a path, a host name if any, one of [origin_url] and
    [origin_urls] and not both, no empty origin, and a health check interval that
    is a duration. What it accepts is what the document says. *)
Theorem Parse_accepts `{ConfigSource} data cfg :
  Parse data = Ok cfg <->
  yaml_Unmarshal data = Ok cfg /\ Forall valid_service (Services cfg).
Proof.
  unfold Parse. destruct (yaml_Unmarshal data) as [c|e]; simpl; [|split; [done|by intros [? _]]].
  rewrite <- (check_services_Ok 0). split.
  - destruct (check_services 0 (Services c)) as [[]|] eqn:E; simpl; [|done]. by intros [= <-].
  - intros [[= ->] ->]. done.
Qed.

(** The host names of a configuration, each once, in order. *)
Lemma Hosts_spec c :
  Sorted String.le (Hosts c) /\ NoDup (Hosts c) /\
  forall h, h ∈ Hosts c <-> h <> EmptyString /\ exists svc, svc ∈ Services c /\ svc_Host svc = h.
Proof.
  unfold Hosts. split_and!.
  - apply Sorted_merge_sort, _.
  - rewrite merge_sort_Permutation. apply NoDup_remove_dups.
  - intros h. rewrite merge_sort_Permutation, elem_of_remove_dups, list_elem_of_filter, list_elem_of_fmap.
    naive_solver.
Qed.

(** A negative or zero interval is a duration, so the parser lets it by. *)
Lemma zero_interval_valid : is_ok (ParseDuration "0s") = true /\ is_ok (ParseDuration "-5s") = true.
Proof. split; vm_compute; reflexivity. Qed.
