(* ===== verification/Mux.v ===== *)
(** * [http.ServeMux]

    The standard library's router as the program uses it: pattern syntax,
    conflicts between patterns, and which registered pattern a request is
    dispatched to. [Handle] panics where the library does. *)

From S2P Require Import Prelude GoInt GoFloat GoStrings Header Value Http Netip Url.
From Stdlib Require Import Ascii.
#[local] Open Scope Z_scope.

(** ** Patterns *)

Inductive segment :=
| Lit (s : string)         (* "/" is the end of the path, written {$} *)
| Wild (name : string)
| Multi (name : string).   (* unnamed for a trailing slash *)

Record pattern := mkPattern {
  p_method : string;
  p_host : string;
  p_segs : list segment
}.

#[export] Instance segment_eq_dec : EqDecision segment.
Proof. solve_decision. Defined.

(** Split at the first space or tab, dropping those after it. *)
Definition is_blank (a : ascii) : bool := Ascii.eqb a " " || Ascii.eqb a (ascii_of_nat 9).

Fixpoint trim_blank (s : string) : string :=
  match s with
  | String a s' => if is_blank a then trim_blank s' else s
  | EmptyString => EmptyString
  end.

Fixpoint cut_blank (s : string) : option (string * string) :=
  match s with
  | EmptyString => None
  | String a s =>
      if is_blank a then Some (EmptyString, trim_blank s)
      else match cut_blank s with Some (l, r) => Some (String a l, r) | None => None end
  end.

(** [validMethod]: an HTTP token. *)
Definition valid_method (s : string) : bool :=
  negb (String.eqb s "") &&
  string_forallb (fun a => is_alnum a || existsb (Ascii.eqb a)
    ["!"; "#"; "$"; "%"; "&"; "'"; "*"; "+"; "-"; "."; "^"; "_"; "`"; "|"; "~"]%char) s.

(** [path.Clean] of a rooted path, as [cleanPath] uses it. *)
Fixpoint clean_segs (acc : list string) (segs : list string) : list string :=
  match segs with
  | [] => rev acc
  | s :: segs =>
      if String.eqb s "" || String.eqb s "." then clean_segs acc segs
      else if String.eqb s ".." then clean_segs (tail acc) segs
      else clean_segs (s :: acc) segs
  end.

Definition cleanPath (p : string) : string :=
  match p with
  | EmptyString => "/"
  | _ =>
      let p := if HasPrefix p "/" then p else ("/" +:+ p)%string in
      let np := ("/" +:+ Join (clean_segs [] (Split "/" p)) "/")%string in
      if HasSuffixSlash p && negb (String.eqb np "/") then (np +:+ "/")%string else np
  end.

(** [isValidWildcardName], for ASCII names. *)
Definition valid_wildcard (s : string) : bool :=
  match s with
  | EmptyString => false
  | String a s' =>
      (is_lower a || is_upper a || Ascii.eqb a "_") &&
      string_forallb (fun a => is_alnum a || Ascii.eqb a "_") s'
  end.

(** [strings.CutSuffix(name, "...")]. *)
Fixpoint cut_dots (s : string) : option string :=
  match s with
  | String "." (String "." (String "." EmptyString)) => Some EmptyString
  | String a s => String a <$> cut_dots s
  | EmptyString => None
  end.

(** [pathUnescape]. *)
Definition pathUnescape (s : string) : string := default s (PathUnescape s).

(** One segment between slashes; [last] when nothing follows it. *)
Definition parse_segment (last : bool) (seen : list string) (seg : string) : option (segment * list string) :=
  if negb (occurs "{" seg) then Some (Lit (pathUnescape seg), seen)
  else match seg with
  | String "{" body =>
      match cut_last "}" body with
      | Some (name, EmptyString) =>
          if String.eqb name "$" then if last then Some (Lit "/", seen) else None
          else
            let '(name, multi) := match cut_dots name with Some n => (n, true) | None => (name, false) end in
            if (multi && negb last) || negb (valid_wildcard name) || bool_decide (name ∈ seen) then None
            else Some ((if multi then Multi name else Wild name), name :: seen)
      | _ => None
      end
  | _ => None
  end.

(** The segments of a path, after its first slash. *)
Fixpoint parse_segments (seen : list string) (segs : list string) : option (list segment) :=
  match segs with
  | [] => Some []
  | [EmptyString] => Some [Multi EmptyString]
  | seg :: segs =>
      match parse_segment (bool_decide (segs = [])) seen seg with
      | None => None
      | Some (x, seen) => cons x <$> parse_segments seen segs
      end
  end.

Definition parsePattern (s : string) : option pattern :=
  match s with
  | EmptyString => None
  | _ =>
      let '(method, rest) := default (EmptyString, s) (cut_blank s) in
      if negb (String.eqb method "") && negb (valid_method method) then None
      else
        let '(host, path) := cut_slash rest in
        if String.eqb path "" || occurs "{" host then None
        else if negb (String.eqb method "") && negb (String.eqb method "CONNECT") &&
                negb (String.eqb path (cleanPath path)) then None
        else
          mkPattern method host <$> parse_segments [] (tail (Split "/" path))
  end.

Example parsePattern_service :
  parsePattern "GET shop.example.com/api/" = Some (mkPattern "GET" "shop.example.com" [Lit "api"; Multi ""]).
Proof. reflexivity. Qed.

(** ** Conflicts *)

Inductive relationship := equivalent | moreGeneral | moreSpecific | disjoint | overlaps.

#[export] Instance relationship_eq_dec : EqDecision relationship.
Proof. solve_decision. Defined.

Definition inverseRelationship (r : relationship) : relationship :=
  match r with
  | moreSpecific => moreGeneral
  | moreGeneral => moreSpecific
  | r => r
  end.

Definition combineRelationships (r1 r2 : relationship) : relationship :=
  match r1 with
  | equivalent => r2
  | disjoint => disjoint
  | overlaps => if decide (r2 = disjoint) then disjoint else overlaps
  | _ =>
      if decide (r2 = equivalent) then r1
      else if decide (r2 = inverseRelationship r1) then overlaps
      else r2
  end.

Definition compareMethods (m1 m2 : string) : relationship :=
  if String.eqb m1 m2 then equivalent
  else if String.eqb m1 "" then moreGeneral
  else if String.eqb m2 "" then moreSpecific
  else if String.eqb m1 "GET" && String.eqb m2 "HEAD" then moreGeneral
  else if String.eqb m2 "GET" && String.eqb m1 "HEAD" then moreSpecific
  else disjoint.

Definition compareSegments (s1 s2 : segment) : relationship :=
  match s1, s2 with
  | Multi _, Multi _ => equivalent
  | Multi _, _ => moreGeneral
  | _, Multi _ => moreSpecific
  | Wild _, Wild _ => equivalent
  | Wild _, Lit s => if String.eqb s "/" then disjoint else moreGeneral
  | Lit s, Wild _ => if String.eqb s "/" then disjoint else moreSpecific
  | Lit s, Lit s' => if String.eqb s s' then equivalent else disjoint
  end.

Definition ends_multi (segs : list segment) : bool :=
  match last segs with Some (Multi _) => true | _ => false end.

(** The loop of [comparePaths]. [segs1] and [segs2] are what is left of the
    patterns, whose last segments are [multi1] and [multi2]. *)
Fixpoint comparePaths_from (multi1 multi2 : bool) (rel : relationship) (segs1 segs2 : list segment)
    : relationship :=
  match segs1, segs2 with
  | s1 :: segs1, s2 :: segs2 =>
      let rel := combineRelationships rel (compareSegments s1 s2) in
      if decide (rel = disjoint) then rel else comparePaths_from multi1 multi2 rel segs1 segs2
  | [], [] => rel
  | [], _ => if multi1 then combineRelationships rel moreGeneral else disjoint
  | _, [] => if multi2 then combineRelationships rel moreSpecific else disjoint
  end.

Definition comparePaths (p1 p2 : list segment) : relationship :=
  comparePaths_from (ends_multi p1) (ends_multi p2) equivalent p1 p2.

Definition conflictsWith (p1 p2 : pattern) : bool :=
  String.eqb (p_host p1) (p_host p2) &&
  (let rel := combineRelationships (compareMethods (p_method p1) (p_method p2))
                (comparePaths (p_segs p1) (p_segs p2)) in
   bool_decide (rel = equivalent) || bool_decide (rel = overlaps)).

(** ** The router *)

Section mux.
Context {A : Type}.

(** The registered patterns, oldest first. *)
Definition ServeMux : Type := list (pattern * A).

Definition NewServeMux : ServeMux := [].

Definition Handle (m : ServeMux) (s : string) (h : A) : outcome ServeMux :=
  match parsePattern s with
  | None => Panic "http: invalid pattern"
  | Some p =>
      if existsb (fun x => conflictsWith p x.1) m then Panic "http: pattern conflicts"
      else Ret (m ++ [(p, h)])
  end.

(** *** Matching a path: literals before wildcards before the rest of the path. *)

Definition head_lit (seg : string) (x : list segment * A) : option (list segment * A) :=
  match x.1 with
  | Lit s :: ss => if String.eqb s seg then Some (ss, x.2) else None
  | _ => None
  end.

Definition head_wild (x : list segment * A) : option (list segment * A) :=
  match x.1 with Wild _ :: ss => Some (ss, x.2) | _ => None end.

Definition head_multi (x : list segment * A) : option A :=
  match x.1 with Multi _ :: _ => Some x.2 | _ => None end.

Definition at_end (x : list segment * A) : option A :=
  match x.1 with [] => Some x.2 | _ => None end.

Definition or_else {B} (x y : option B) : option B := match x with Some _ => x | None => y end.

Fixpoint matchPath (cands : list (list segment * A)) (path : list string) : option A :=
  match path with
  | [] => head (omap at_end cands)
  | seg :: rest =>
      or_else (matchPath (omap (head_lit seg) cands) rest)
        (or_else (if String.eqb seg "/" then None else matchPath (omap head_wild cands) rest)
           (head (omap head_multi cands)))
  end.

(** [firstSegment], all the way down an escaped path: each segment without its
    escapes; a trailing slash is a segment "/". *)
Fixpoint trailing (segs : list string) : list string :=
  match segs with
  | [] => []
  | [EmptyString] => ["/"%string]
  | s :: segs => s :: trailing segs
  end.

Definition path_segs (path : string) : list string := pathUnescape <$> trailing (tail (Split "/" path)).

Definition with_host_method (host method : string) (m : ServeMux) : list (list segment * A) :=
  omap (fun x => if String.eqb (p_host x.1) host && String.eqb (p_method x.1) method
                 then Some (p_segs x.1, x.2) else None) m.

(** The patterns of one host: the method's, then for HEAD those of GET, then those
    without a method. *)
Definition matchMethodAndPath (m : ServeMux) (host method : string) (path : list string) : option A :=
  or_else (matchPath (with_host_method host method m) path)
    (or_else (if String.eqb method "HEAD" then matchPath (with_host_method host "GET" m) path else None)
       (matchPath (with_host_method host "" m) path)).

(** The patterns with the request's host, then those without a host. *)
Definition mux_match (m : ServeMux) (host method path : string) : option A :=
  let segs := path_segs path in
  or_else (if String.eqb host "" then None else matchMethodAndPath m host method segs)
    (matchMethodAndPath m "" method segs).

(** *** Lemmas *)

Fixpoint segs_match (ss : list segment) (path : list string) : bool :=
  match ss, path with
  | [], [] => true
  | Lit s :: ss, seg :: path => String.eqb s seg && segs_match ss path
  | Wild _ :: ss, seg :: path => negb (String.eqb seg "/") && segs_match ss path
  | Multi _ :: _, _ :: _ => true
  | _, _ => false
  end.

Lemma or_else_Some {B} (x y : option B) b : or_else x y = Some b -> x = Some b \/ y = Some b.
Proof. destruct x; simpl; auto. Qed.

Lemma or_else_is_Some {B} (x y : option B) : is_Some (or_else x y) <-> is_Some x \/ is_Some y.
Proof. destruct x; simpl; [|split; [auto|by intros [[]|]]]. split; eauto. Qed.

Lemma head_elem {B} (l : list B) b : head l = Some b -> b ∈ l.
Proof. destruct l; [done|]. intros [= ->]. left. Qed.

Lemma head_is_Some {B} (l : list B) b : b ∈ l -> is_Some (head l).
Proof. destruct l; [by intros ?%elem_of_nil|]. simpl. eauto. Qed.

Lemma matchPath_sound cands path a :
  matchPath cands path = Some a -> exists ss, (ss, a) ∈ cands /\ segs_match ss path = true.
Proof.
  revert cands. induction path as [|seg path IH]; intros cands; simpl.
  - intros H%head_elem. apply list_elem_of_omap in H as ([ss a'] & Hin & Ha). unfold at_end in Ha. simpl in Ha.
    destruct ss; [|done]. injection Ha as ->. eauto.
  - intros [H|[H|H]%or_else_Some]%or_else_Some.
    + apply IH in H as (ss & Hin & Hm). apply list_elem_of_omap in Hin as ([ss' a'] & Hin & Ha).
      unfold head_lit in Ha. simpl in Ha. destruct ss' as [|[s| |] ss']; try done.
      destruct (String.eqb s seg) eqn:E; [|done]. injection Ha as -> ->. exists (Lit s :: ss).
      split; [done|]. simpl. by rewrite E.
    + destruct (String.eqb seg "/") eqn:E; [done|]. apply IH in H as (ss & Hin & Hm).
      apply list_elem_of_omap in Hin as ([ss' a'] & Hin & Ha). unfold head_wild in Ha. simpl in Ha.
      destruct ss' as [|[|n|] ss']; try done. injection Ha as -> ->. exists (Wild n :: ss).
      split; [done|]. simpl. by rewrite E.
    + apply head_elem, list_elem_of_omap in H as ([ss a'] & Hin & Ha). unfold head_multi in Ha. simpl in Ha.
      destruct ss as [|[| |n] ss]; try done. injection Ha as ->. eauto.
Qed.

Lemma matchPath_complete cands path ss a :
  (ss, a) ∈ cands -> segs_match ss path = true -> is_Some (matchPath cands path).
Proof.
  revert cands ss. induction path as [|seg path IH]; intros cands ss Hin; simpl.
  - destruct ss as [|[]]; try done. intros _. eapply (head_is_Some _ a).
    apply list_elem_of_omap. by exists ([], a).
  - destruct ss as [|[s|n|n] ss]; try done; simpl; rewrite !or_else_is_Some.
    + intros [Hs Hm]%andb_true_iff. left. eapply IH; [|exact Hm].
      apply list_elem_of_omap. exists (Lit s :: ss, a). split; [done|]. unfold head_lit. simpl. by rewrite Hs.
    + intros [Hs%negb_true_iff Hm]%andb_true_iff. right. left. rewrite Hs. eapply IH; [|exact Hm].
      apply list_elem_of_omap. by exists (Wild n :: ss, a).
    + intros _. right. right. eapply (head_is_Some _ a). apply list_elem_of_omap. by exists (Multi n :: ss, a).
Qed.

(** A pattern that admits a request: its method, for the method given, and its
    path. *)
Definition admits (p : pattern) (method : string) (path : list string) : bool :=
  (String.eqb (p_method p) method || (String.eqb method "HEAD" && String.eqb (p_method p) "GET") ||
   String.eqb (p_method p) "") && segs_match (p_segs p) path.

Lemma with_host_method_elem host method m ss a :
  (ss, a) ∈ with_host_method host method m <->
  exists p, (p, a) ∈ m /\ p_host p = host /\ p_method p = method /\ p_segs p = ss.
Proof.
  unfold with_host_method. rewrite list_elem_of_omap. split.
  - intros ([p a'] & Hin & Heq). simpl in Heq. destruct (_ && _) eqn:E; [|done].
    apply andb_true_iff in E as [Eh%String.eqb_eq Em%String.eqb_eq]. injection Heq as <- <-. by exists p.
  - intros (p & Hin & <- & <- & <-). exists (p, a). split; [done|]. simpl. by rewrite !String.eqb_refl.
Qed.

Lemma matchMethodAndPath_sound m host method path a :
  matchMethodAndPath m host method path = Some a ->
  exists p, (p, a) ∈ m /\ p_host p = host /\ admits p method path = true.
Proof.
  unfold matchMethodAndPath, admits.
  intros [H|[H|H]%or_else_Some]%or_else_Some;
    [| destruct (String.eqb_spec method "HEAD") as [->|]; [|done] |];
    apply matchPath_sound in H as (ss & (p & Hin & Hh & Hm & <-)%with_host_method_elem & Hs);
    exists p; rewrite Hm, Hs; (split_and!; [done|done|]); by rewrite ?String.eqb_refl, ?orb_true_r.
Qed.

Lemma matchMethodAndPath_complete m host method path p a :
  (p, a) ∈ m -> p_host p = host -> admits p method path = true ->
  is_Some (matchMethodAndPath m host method path).
Proof.
  unfold matchMethodAndPath, admits. intros Hin Hh [Hm Hs]%andb_true_iff. rewrite !or_else_is_Some.
  assert (Hc : forall me, p_method p = me -> is_Some (matchPath (with_host_method host me m) path)).
  { intros me Hme. eapply matchPath_complete; [|exact Hs]. apply with_host_method_elem. by exists p. }
  apply orb_true_iff in Hm as [[Hm|[Hm1 Hm2]%andb_true_iff]%orb_true_iff|Hm].
  - left. apply Hc. by apply String.eqb_eq.
  - right. left. rewrite Hm1. apply Hc. by apply String.eqb_eq.
  - right. right. apply Hc. by apply String.eqb_eq.
Qed.

(** The dispatch of a request is to a registered pattern that admits it: one of its
    own host whenever such a pattern admits it, else one without a host; and it
    finds one whenever there is one. *)
Lemma mux_match_spec m host method path :
  let segs := path_segs path in
  let of_host h := exists p a, (p, a) ∈ m /\ p_host p = h /\ admits p method segs = true in
  match mux_match m host method path with
  | Some a => exists p, (p, a) ∈ m /\ admits p method segs = true /\
      (p_host p = host \/ p_host p = EmptyString /\ ~ of_host host)
  | None => ~ of_host host /\ ~ of_host EmptyString
  end.
Proof.
  intros segs of_host. unfold mux_match. fold segs.
  assert (Hnone : forall h, matchMethodAndPath m h method segs = None -> ~ of_host h).
  { intros h Hn (p & a & Hin & Hh & Ha). eapply matchMethodAndPath_complete in Ha; [|done|done].
    rewrite Hn in Ha. by destruct Ha. }
  destruct (String.eqb_spec host "") as [->|Hne]; simpl.
  - destruct (matchMethodAndPath m "" method segs) as [a|] eqn:E; simpl.
    + apply matchMethodAndPath_sound in E as (p & ? & ? & ?). exists p. auto.
    + split; by apply Hnone.
  - destruct (matchMethodAndPath m host method segs) as [a|] eqn:E; simpl.
    + apply matchMethodAndPath_sound in E as (p & ? & ? & ?). exists p. auto.
    + destruct (matchMethodAndPath m "" method segs) as [a|] eqn:E'; simpl.
      * apply matchMethodAndPath_sound in E' as (p & ? & ? & ?). exists p. auto 10.
      * split; by apply Hnone.
Qed.

(** *** Serving *)

Inductive route :=
| Found (h : A)
| RedirectTo (path query : string)
| MethodNotAllowed (allow : list string)
| NotFound.

Definition stripHostPort (h : string) : string :=
  if negb (occurs ":" h) then h else default h (SplitHost h).

Definition has_suffix_slash (s : string) : bool := HasSuffixSlash s.

(** The methods of the patterns that match the path, and for a 405 those that match it
    or its tree. *)
Definition methods_at (m : ServeMux) (host path : string) : list string :=
  omap (fun x => if (String.eqb (p_host x.1) host || String.eqb (p_host x.1) "") &&
                    negb (String.eqb (p_method x.1) "") && segs_match (p_segs x.1) (path_segs path)
                 then Some (p_method x.1) else None) m.

Definition matchingMethods (m : ServeMux) (host path : string) : list string :=
  let ms := methods_at m host path ++ (if has_suffix_slash path then [] else methods_at m host (path +:+ "/")) in
  let ms := if bool_decide ("GET"%string ∈ ms) then "HEAD"%string :: ms else ms in
  remove_dups ms.

Lemma methods_at_elem m host path me :
  me ∈ methods_at m host path <->
  exists p a, (p, a) ∈ m /\ (p_host p = host \/ p_host p = EmptyString) /\ p_method p <> EmptyString /\
    segs_match (p_segs p) (path_segs path) = true /\ p_method p = me.
Proof.
  unfold methods_at. rewrite list_elem_of_omap. split.
  - intros ([p a] & Hin & Hx). cbn [fst] in Hx. destruct (_ && _) eqn:E; [|done]. injection Hx as <-.
    apply andb_true_iff in E as [[Eh Em]%andb_true_iff Es]. exists p, a. split_and!; try done.
    + apply orb_true_iff in Eh as [Eh%String.eqb_eq|Eh%String.eqb_eq]; auto.
    + intros E0. by rewrite E0 in Em.
  - intros (p & a & Hin & Hh & Hm & Hs & <-). exists (p, a). split; [done|]. cbn [fst]. rewrite Hs.
    destruct (String.eqb_spec (p_method p) ""); [done|].
    assert (String.eqb (p_host p) host || String.eqb (p_host p) "" = true) as ->; [|done].
    destruct Hh as [->| ->]; [by rewrite String.eqb_refl|by rewrite orb_true_r].
Qed.

End mux.
Arguments ServeMux : clear implicits.
Arguments route : clear implicits.

(** [findHandler]: [A] is paired with its pattern, for [exactMatch]. *)
Definition exactMatch {A} (x : option (pattern * A)) (path : string) : bool :=
  match x with
  | None => false
  | Some (p, _) =>
      if negb (ends_multi (p_segs p)) then true
      else if negb (HasSuffixSlash path) then false
      else Nat.eqb (length (p_segs p)) (length (tail (Split "/" path)))
  end.

(** The path of the request's URL as it was written. *)
Definition escaped_path (r : Request) : string := EscapedPath (r_Path r) (r_RawPath r).

(** A request for a tree without its slash, which [matchOrRedirect] redirects. *)
Definition wants_slash {A} (m : ServeMux (pattern * A)) (host method path : string) : bool :=
  negb (exactMatch (mux_match m host method path) path) && negb (HasSuffixSlash path) &&
  exactMatch (mux_match m host method (path +:+ "/")) (path +:+ "/").

Definition findHandler {A} (m : ServeMux A) (r : Request) : route A :=
  let m' : ServeMux (pattern * A) := (fun x => (x.1, x)) <$> m in
  let method := r_Method r in
  let escapedPath := escaped_path r in
  let none host path := match matchingMethods m host path with [] => NotFound | ms => MethodNotAllowed ms end in
  if String.eqb method "CONNECT" then
    if wants_slash m' (r_URLHost r) method escapedPath then RedirectTo (cleanPath (r_Path r) +:+ "/") (r_RawQuery r)
    else match mux_match m' (r_Host r) method escapedPath with
    | Some (_, h) => Found h
    | None => none (r_URLHost r) escapedPath
    end
  else
    let host := stripHostPort (r_Host r) in
    let path := cleanPath escapedPath in
    if wants_slash m' host method path then RedirectTo (cleanPath (r_Path r) +:+ "/") (r_RawQuery r)
    else if negb (String.eqb path escapedPath) then RedirectTo path (r_RawQuery r)
    else match mux_match m' host method path with
    | Some (_, h) => Found h
    | None => none host path
    end.

(** *** The table does not look at what it dispatches to *)

Section naturality.
Context {A B : Type} (f : A -> B).

Definition route_map (x : route A) : route B :=
  match x with
  | Found a => Found (f a)
  | RedirectTo path query => RedirectTo path query
  | MethodNotAllowed allow => MethodNotAllowed allow
  | NotFound => NotFound
  end.

Lemma omap_fmap_comm {X Y X' Y'} (g : X -> option Y) (g' : X' -> option Y') (h : X -> X') (k : Y -> Y') (l : list X) :
  (forall x, g' (h x) = k <$> g x) -> omap g' (h <$> l) = k <$> omap g l.
Proof.
  intros Hg. induction l as [|x l IH]; [done|]. cbn [fmap list_fmap omap list_omap]. rewrite Hg.
  destruct (g x); cbn [fmap option_fmap option_map]; [|done]. cbn [fmap list_fmap]. by f_equal.
Qed.

Lemma head_fmap {X Y} (k : X -> Y) (l : list X) : head (k <$> l) = k <$> head l.
Proof. by destruct l. Qed.

Lemma or_else_fmap {X Y} (k : X -> Y) x y : or_else (k <$> x) (k <$> y) = k <$> or_else x y.
Proof. by destruct x. Qed.

Lemma matchPath_fmap (cands : list (list segment * A)) path :
  matchPath (prod_map id f <$> cands) path = f <$> matchPath cands path.
Proof.
  revert cands. induction path as [|seg path IH]; intros cands; cbn [matchPath].
  - rewrite (omap_fmap_comm at_end at_end _ f), head_fmap; [done|]. by intros [[] a].
  - rewrite (omap_fmap_comm (head_lit seg) (head_lit seg) _ (prod_map id f)), IH
      by (intros [[|[s| |] ss] a]; unfold head_lit; simpl; by try destruct (String.eqb s seg)).
    rewrite (omap_fmap_comm head_wild head_wild _ (prod_map id f)), IH by by intros [[|[] ss] a].
    rewrite (omap_fmap_comm head_multi head_multi _ f), head_fmap by by intros [[|[] ss] a].
    destruct (String.eqb seg "/"); [change (@None B) with (f <$> None)|]; by rewrite !or_else_fmap.
Qed.

Lemma mux_match_fmap (m : ServeMux A) host method path :
  mux_match (prod_map id f <$> m) host method path = f <$> mux_match m host method path.
Proof.
  assert (Hw : forall h me, with_host_method h me (prod_map id f <$> m) = prod_map id f <$> with_host_method h me m).
  { intros h me. apply omap_fmap_comm. intros [p a]. simpl. by destruct (_ && _). }
  assert (Hm : forall h segs, matchMethodAndPath (prod_map id f <$> m) h method segs = f <$> matchMethodAndPath m h method segs).
  { intros h segs. unfold matchMethodAndPath. rewrite !Hw, !matchPath_fmap.
    destruct (String.eqb method "HEAD"); [|change (@None B) with (f <$> None)]; by rewrite !or_else_fmap. }
  unfold mux_match. cbv zeta. rewrite !Hm. destruct (String.eqb host ""); [change (@None B) with (f <$> None)|]; by rewrite or_else_fmap.
Qed.

End naturality.

Lemma findHandler_fmap {A B} (f : A -> B) (m : ServeMux A) r :
  findHandler (prod_map id f <$> m) r = route_map f (findHandler m r).
Proof.
  assert (Ha : forall h q, matchingMethods (prod_map id f <$> m) h q = matchingMethods m h q).
  { intros h q. assert (Hat : forall q, methods_at (prod_map id f <$> m) h q = methods_at m h q).
    { intros q'. unfold methods_at. etransitivity; [|apply list_fmap_id].
      apply (omap_fmap_comm _ _ _ id). intros [p a]. simpl. by destruct (_ && _). }
    unfold matchingMethods. by rewrite !Hat. }
  assert (Hp : (fun x => (x.1, x)) <$> (prod_map id f <$> m) = prod_map id (prod_map id f) <$> ((fun x => (x.1, x)) <$> m)).
  { rewrite <- !list_fmap_compose. by apply list_fmap_ext. }
  assert (He : forall (x : option (pattern * A)) q, exactMatch (prod_map id f <$> x) q = exactMatch x q) by by intros [[]|].
  unfold findHandler, wants_slash. cbv zeta. rewrite Hp, !mux_match_fmap, !He, !Ha.
  destruct (String.eqb (r_Method r) "CONNECT"); (destruct (_ && _); [done|]); [|destruct (negb _); [done|]];
    (destruct (mux_match _ (_ r) _ _) as [[p a]|] || destruct (mux_match _ (stripHostPort _) _ _) as [[p a]|]); try done;
    by destruct (matchingMethods m _ _).
Qed.

(** *** A literal path and the rest of a site *)
Lemma matchPath_nil {A} path : matchPath ([] : list (list segment * A)) path = None.
Proof. induction path as [|seg path IH]; simpl; [done|]. rewrite IH. by destruct (String.eqb seg "/"). Qed.

Lemma matchPath_rest {A} (h : A) path :
  path <> [] -> matchPath [([Multi ""], h)] path = Some h.
Proof.
  destruct path as [|seg path]; [done|]. intros _. simpl. rewrite !matchPath_nil. by destruct (String.eqb seg "/").
Qed.

Lemma matchPath_lit {A} s (h : A) path :
  matchPath [([Lit s], h)] path = if bool_decide (path = [s]) then Some h else None.
Proof.
  destruct path as [|seg path]; [done|]. cbn [matchPath omap list_omap head_lit head_wild head_multi fst snd].
  rewrite matchPath_nil. destruct (String.eqb_spec s seg) as [<-|Hne].
  - destruct path as [|s' path]; simpl; rewrite ?matchPath_nil.
    + rewrite bool_decide_true by done. done.
    + rewrite bool_decide_eq_false_2 by congruence. by destruct (String.eqb s' "/"), (String.eqb s "/").
  - rewrite matchPath_nil, bool_decide_eq_false_2 by congruence. simpl. by destruct (String.eqb seg "/").
Qed.

Lemma path_segs_nonempty path : HasPrefix path "/" = true -> path_segs path <> [].
Proof.
  intros [r ->]%HasPrefix_spec. unfold path_segs. change ("/" +:+ r)%string with (String "/" r). simpl.
  pose proof (Split_nonempty "/" r) as Hne. destruct (Split "/" r) as [|s [|s' l]]; [done| |]; by destruct s.
Qed.

Lemma PathUnescape_cons a s s' :
  a <> "%"%char -> PathUnescape (String a s) = Some s' -> exists s1, s' = String a s1 /\ PathUnescape s = Some s1.
Proof.
  intros Hne. assert (PathUnescape (String a s) = String a <$> PathUnescape s) as ->.
  { by destruct a as [[] [] [] [] [] [] [] []]. }
  destruct (PathUnescape s) as [s1|]; [|done]. intros [= <-]. by exists s1.
Qed.

(** A slash that was written as one stays one. *)
Lemma PathUnescape_slash y s :
  PathUnescape y = Some s -> occurs "/" s = false -> string_forallb (fun a => negb (Ascii.eqb a "/")) y = true.
Proof.
  assert (Hocc : forall a s, occurs "/" (String a s) = false -> Ascii.eqb a "/" = false /\ occurs "/" s = false).
  { unfold occurs. intros a s'. cbn [cut]. destruct (Ascii.eqb a "/"); [done|]. by destruct (cut "/" s') as [[]|]. }
  remember (String.length y) as n eqn:Hn. revert y Hn s. induction (lt_wf n) as [n _ IH]. intros y -> s.
  destruct y as [|a y]; [done|]. destruct (Ascii.eqb_spec a "%") as [->|Hne].
  - destruct y as [|b [|c y]]; [done..|]. cbn [PathUnescape]. destruct (hexdigit b) eqn:Eb; [|done].
    destruct (hexdigit c) eqn:Ec; [|done]. destruct (PathUnescape y) as [s1|] eqn:Ey; [|done]. intros [= <-] [_ Hs]%Hocc.
    cbn [string_forallb]. rewrite (IH (String.length y) ltac:(simpl; lia) y eq_refl s1 Ey Hs).
    destruct (Ascii.eqb_spec b "/") as [->|], (Ascii.eqb_spec c "/") as [->|]; done.
  - intros (s1 & -> & Hy)%PathUnescape_cons [Ha Hs]%Hocc; [|done]. cbn [string_forallb]. rewrite Ha.
    by apply (IH (String.length y) ltac:(simpl; lia) y eq_refl s1).
Qed.

(** A path of one segment, in whatever way it was written. *)
Lemma path_segs_single esc path s :
  HasPrefix esc "/" = true -> PathUnescape esc = Some path ->
  s <> "/"%string -> s <> ""%string -> occurs "/" s = false ->
  (path_segs esc = [s] <-> path = ("/" +:+ s)%string).
Proof.
  intros [r ->]%HasPrefix_spec Hun Hs Hne Hocc. unfold path_segs. change ("/" +:+ ?r)%string with (String "/" r) in *.
  apply PathUnescape_cons in Hun as (path1 & -> & Hun); [|done]. simpl. split.
  - rewrite <- (Join_Split "/" r) in Hun. destruct (Split "/" r) as [|x [|y l]] eqn:E; [done| |].
    + destruct x as [|a x]; [by intros [= <-]|]. cbn [trailing fmap list_fmap]. intros [= <-]. unfold pathUnescape.
      cbn [Join] in Hun. by rewrite Hun.
    + intros Hx. exfalso. destruct x, l, y; done.
  - intros [= ->]. rewrite (Split_single "/" r) by by eapply PathUnescape_slash.
    destruct r as [|a r]; [by injection Hun as <-|]. cbn [trailing fmap list_fmap]. unfold pathUnescape. by rewrite Hun.
Qed.

(** A site of two patterns, a path of one segment and everything else. *)
Definition two_sites {A} (s : string) (a b : A) : ServeMux A :=
  [(mkPattern "" "" [Lit s], a); (mkPattern "" "" [Multi ""], b)].

Lemma matchPath_two {A} s (a b : A) path :
  path <> [] -> matchPath [([Lit s], a); ([Multi ""], b)] path = Some (if bool_decide (path = [s]) then a else b).
Proof.
  destruct path as [|seg path]; [done|]. intros _.
  cbn [matchPath omap list_omap head_lit head_wild head_multi head fst snd].
  destruct (String.eqb_spec s seg) as [<-|Hne].
  - destruct path as [|x path]; [by rewrite bool_decide_eq_true_2|].
    rewrite bool_decide_eq_false_2 by done. cbn [matchPath omap list_omap head_lit head_wild head_multi head or_else fst snd].
    rewrite !matchPath_nil. by destruct (String.eqb x "/"), (String.eqb s "/").
  - rewrite !matchPath_nil, bool_decide_eq_false_2 by congruence. cbn [or_else]. by destruct (String.eqb seg "/").
Qed.

Lemma two_sites_match {A} s (a b : A) host method path :
  HasPrefix path "/" = true ->
  mux_match (two_sites s a b) host method path = Some (if bool_decide (path_segs path = [s]) then a else b).
Proof.
  intros Hpath%path_segs_nonempty. unfold mux_match, matchMethodAndPath, with_host_method, two_sites.
  cbn [omap list_omap p_host p_method p_segs fst snd].
  rewrite !(String.eqb_sym "" host), !(String.eqb_sym "" method).
  destruct (String.eqb_spec host "") as [Eh|Eh], (String.eqb_spec method "") as [Ea|Ea];
    cbn [andb String.eqb Ascii.eqb Bool.eqb]; rewrite ?matchPath_nil, ?matchPath_two by done;
    by destruct (String.eqb method "HEAD").
Qed.

Lemma cut_last_app c s : cut_last c (s +:+ String c EmptyString) = Some (s, EmptyString).
Proof.
  induction s as [|a s IH]; [change ("" +:+ ?t)%string with t; cbn [cut_last]; by rewrite Ascii.eqb_refl|].
  rewrite str_app_cons. cbn [cut_last]. by rewrite IH.
Qed.

Lemma Split_snoc c s : Split c (s +:+ String c EmptyString) = Split c s ++ [EmptyString].
Proof.
  induction s as [|a s IH]; [change ("" +:+ ?t)%string with t; cbn [Split]; by rewrite Ascii.eqb_refl|].
  rewrite str_app_cons. cbn [Split]. rewrite IH.
  destruct (Ascii.eqb a c); [done|]. pose proof (Split_nonempty c s). by destruct (Split c s).
Qed.

(** A tree's slash is a segment more. *)
Lemma path_segs_slash path : HasPrefix path "/" = true -> (2 <= length (path_segs (path +:+ "/")))%nat.
Proof.
  intros [r ->]%HasPrefix_spec. rewrite <- str_app_assoc.
  change ("/" +:+ ?x)%string with (String "/" x). pose proof (Split_snoc "/" r) as E.
  change (String "/" "") with "/"%string in E. unfold path_segs. rewrite length_fmap.
  change (Split "/" (String "/" (r +:+ "/"))) with ([""%string] ++ Split "/" (r +:+ "/")). rewrite E. cbn [tail app].
  pose proof (Split_nonempty "/" r). destruct (Split "/" r) as [|x l]; [done|]. clear. cbn [app].
  revert x. induction l as [|y l IH]; intros x; [by destruct x; cbn; lia|].
  specialize (IH y). cbn [app] in *. destruct x; cbn [trailing length] in *; lia.
Qed.

Lemma two_sites_slash {A} s (a b : A) host method path :
  HasPrefix path "/" = true ->
  exactMatch (mux_match (two_sites s (mkPattern "" "" [Lit s], a) (mkPattern "" "" [Multi ""], b)) host method (path +:+ "/"))
    (path +:+ "/") = false.
Proof.
  intros Hp. pose proof (path_segs_slash _ Hp) as Hl.
  rewrite two_sites_match by (apply HasPrefix_spec in Hp as [r ->]; apply HasPrefix_spec; exists (r +:+ "/")%string; by rewrite <- str_app_assoc).
  rewrite bool_decide_eq_false_2 by (intros E; rewrite E in Hl; simpl in Hl; lia).
  unfold exactMatch, HasSuffixSlash. cbn [p_segs ends_multi last negb]. rewrite cut_last_app. cbn [negb length].
  apply HasPrefix_spec in Hp as [r ->]. rewrite <- str_app_assoc.
  change (Split "/" ("/" +:+ (r +:+ "/"))) with ([""%string] ++ Split "/" (r +:+ "/")). cbn [tail app].
  pose proof (Split_snoc "/" r) as E. change (String "/" "") with "/"%string in E. rewrite E, length_app.
  pose proof (Split_nonempty "/" r). destruct (Split "/" r); [done|]. simpl. by rewrite Nat.add_comm.
Qed.

(** The two handlers of such a site share every clean path. *)
Lemma two_sites_find {A} s (a b : A) r :
  HasPrefix (escaped_path r) "/" = true -> cleanPath (escaped_path r) = escaped_path r ->
  s <> "/"%string -> s <> ""%string -> occurs "/" s = false ->
  findHandler (two_sites s a b) r = Found (if bool_decide (r_Path r = ("/" +:+ s)%string) then a else b).
Proof.
  intros Hp Hclean Hs Hne Hocc. set (path := escaped_path r) in *.
  assert (Hdec : bool_decide (r_Path r = ("/" +:+ s)%string) = bool_decide (path_segs path = [s])).
  { apply bool_decide_ext. symmetry. apply path_segs_single; try done. apply EscapedPath_unescapes. }
  unfold findHandler. fold path. cbv zeta. set (m' := _ <$> _).
  assert (m' = two_sites s (mkPattern "" "" [Lit s], a) (mkPattern "" "" [Multi ""], b)) as -> by done.
  unfold wants_slash. rewrite Hclean, !two_sites_slash, !andb_false_r, !two_sites_match, Hdec by done.
  rewrite String.eqb_refl. cbn [negb].
  by destruct (String.eqb (r_Method r) "CONNECT"), (bool_decide (path_segs path = [s])).
Qed.
