(* ===== verification/Router.v ===== *)
(** * The routing table (gateway/internal/router/router.go) *)

From stdpp Require Import sorting.
From S2P Require Import Prelude GoInt GoFloat GoStrings Header Value Http Netip Url Config Mux.
From Stdlib Require Import Ascii.
#[local] Open Scope Z_scope.

(** ** Definitions *)

Definition hasCORSPlugin (svc : Service) : bool :=
  existsb (fun p => String.eqb (pc_Name p) "cors") (svc_Plugins svc).

Section build.
Context {H A : Type}.

(** [mux.Handle(method+" "+pattern, h)] for each method. *)
Fixpoint handle_methods (mux : ServeMux H) (methods : list string) (pattern : string) (h : H)
    : outcome (ServeMux H) :=
  match methods with
  | [] => Ret mux
  | method :: methods =>
      let! mux := Handle mux (method +:+ " " +:+ pattern) h in
      handle_methods mux methods pattern h
  end.

(** The routes of one service. *)
Definition add_service (mux : ServeMux H) (svc : Service) (h : H) : outcome (ServeMux H) :=
  let pattern := (svc_Host svc +:+ svc_Path svc)%string in
  match svc_Methods svc with
  | [] => Handle mux pattern h
  | methods =>
      let! mux := handle_methods mux methods pattern h in
      let hasOptions := existsb (fun m => String.eqb m "OPTIONS") methods in
      if negb hasOptions && hasCORSPlugin svc then Handle mux ("OPTIONS" +:+ " " +:+ pattern) h
      else Ret mux
  end.

(** [Build]; what [handlerFor] accumulates in the variables it closes over is [A]. *)
Fixpoint build_services (svcs : list Service) (handlerFor : Service -> A -> M (A * result error H))
    (mux : ServeMux H) (acc : A) : M (A * result error (ServeMux H)) :=
  match svcs with
  | [] => ret (acc, Ok mux)
  | svc :: svcs =>
      let* (acc, h) := handlerFor svc acc in
      match h with
      | Err e => ret (acc, Err (Errorf "service %q: %w" [svc_Name svc] (Some e)))
      | Ok h =>
          let* mux := lift (add_service mux svc h) in
          build_services svcs handlerFor mux acc
      end
  end.

Definition Build (cfg : Config) (handlerFor : Service -> A -> M (A * result error H)) (acc : A)
    : M (A * result error (ServeMux H)) :=
  build_services (Services cfg) handlerFor NewServeMux acc.

(** ** Lemmas *)

(** The patterns of a service. *)
Definition service_patterns (svc : Service) : list string :=
  let pattern := (svc_Host svc +:+ svc_Path svc)%string in
  match svc_Methods svc with
  | [] => [pattern]
  | methods =>
      ((fun m => (m +:+ " " +:+ pattern)%string) <$> methods) ++
      (if negb (existsb (fun m => String.eqb m "OPTIONS") methods) && hasCORSPlugin svc
       then [("OPTIONS" +:+ " " +:+ pattern)%string] else [])
  end.

(** The entries a service adds. *)
Definition entries (svc : Service) (h : H) : list (pattern * H) :=
  omap (fun s => (fun p => (p, h)) <$> parsePattern s) (service_patterns svc).

Lemma Handle_Ret (mux mux' : ServeMux H) s h :
  Handle mux s h = Ret mux' -> exists p, parsePattern s = Some p /\ mux' = mux ++ [(p, h)].
Proof.
  unfold Handle. destruct (parsePattern s) as [p|]; [|done]. destruct (existsb _ mux); [done|].
  intros [= <-]. eauto.
Qed.

Lemma handle_methods_Ret methods pattern h (mux mux' : ServeMux H) :
  handle_methods mux methods pattern h = Ret mux' ->
  Forall (fun s => is_Some (parsePattern s)) ((fun m => (m +:+ " " +:+ pattern)%string) <$> methods) /\
  mux' = mux ++ omap (fun s => (fun p => (p, h)) <$> parsePattern s)
                  ((fun m => (m +:+ " " +:+ pattern)%string) <$> methods).
Proof.
  revert mux. induction methods as [|m methods IH]; intros mux; cbn [handle_methods fmap list_fmap].
  { intros [= <-]. split; [constructor|]. by rewrite app_nil_r. }
  destruct (Handle mux (m +:+ " " +:+ pattern) h) as [mux1|] eqn:E; cbn [obind]; [|done].
  intros Hrun. apply Handle_Ret in E as (p & Hp & ->). apply IH in Hrun as [Hall ->].
  split; [constructor; eauto|]. rewrite <- app_assoc. cbn [omap list_omap]. by rewrite Hp.
Qed.

Lemma add_service_Ret (mux mux' : ServeMux H) svc h :
  add_service mux svc h = Ret mux' ->
  Forall (fun s => is_Some (parsePattern s)) (service_patterns svc) /\ mux' = mux ++ entries svc h.
Proof.
  unfold add_service, entries, service_patterns. destruct (svc_Methods svc) as [|m ms].
  - intros (p & Hp & ->)%Handle_Ret. cbn [omap list_omap]. rewrite Hp. split; [|done].
    constructor; [eauto|constructor].
  - destruct (handle_methods mux (m :: ms) _ h) as [mux1|] eqn:E; cbn [obind]; [|done].
    apply handle_methods_Ret in E as [Hall ->]. destruct (negb _ && _).
    + intros (p & Hp & ->)%Handle_Ret. rewrite omap_app, <- app_assoc. split.
      * apply Forall_app. split; [done|]. constructor; [eauto|constructor].
      * do 2 f_equal. cbn [omap list_omap]. by rewrite Hp.
    + intros [= <-]. rewrite !app_nil_r. done.
Qed.

(** The handlers [handlerFor] gives for some services, called on each in turn. *)
Fixpoint handlers (svcs : list Service) (handlerFor : Service -> A -> M (A * result error H)) (acc : A)
    : M (A * result error (list H)) :=
  match svcs with
  | [] => ret (acc, Ok [])
  | svc :: svcs =>
      let* (acc, h) := handlerFor svc acc in
      match h with
      | Err e => ret (acc, Err e)
      | Ok h =>
          let* (acc, hs) := handlers svcs handlerFor acc in
          ret (acc, let? hs := hs in Ok (h :: hs))
      end
  end.

(** A table that was built has, service by service, exactly the routes of that
    service, to the handler [handlerFor] gave for it. *)
Lemma build_services_Ok svcs handlerFor mux acc σ σ' acc' mux' :
  build_services svcs handlerFor mux acc σ = (σ', Ret (acc', Ok mux')) ->
  exists hs, handlers svcs handlerFor acc σ = (σ', Ret (acc', Ok hs)) /\ length hs = length svcs /\
    Forall (fun svc => Forall (fun s => is_Some (parsePattern s)) (service_patterns svc)) svcs /\
    mux' = mux ++ concat (zip_with entries svcs hs).
Proof.
  revert mux acc σ. induction svcs as [|svc svcs IH]; intros mux acc σ; cbn [build_services].
  { intros [= <- <- <-]. exists []. split_and!; [done|done|constructor|]. cbn. by rewrite app_nil_r. }
  cbn [handlers]. unfold bind at 1 3. destruct (handlerFor svc acc σ) as [σ1 [[acc1 [h|e]]|]]; [| |done].
  2: done.
  unfold bind, lift. destruct (add_service mux svc h) as [mux1|] eqn:E; [|done].
  apply add_service_Ret in E as [Hp ->]. intros Hrun. apply IH in Hrun as (hs & Hhs & Hl & Hps & ->).
  exists (h :: hs). split_and!; [by rewrite Hhs|simpl; by rewrite Hl|by constructor|]. cbn. by rewrite <- app_assoc.
Qed.

Lemma entries_elem svc h p h' :
  (p, h') ∈ entries svc h <-> h' = h /\ exists s, s ∈ service_patterns svc /\ parsePattern s = Some p.
Proof.
  unfold entries. rewrite list_elem_of_omap. split.
  - intros (s & Hs & Heq). destruct (parsePattern s) eqn:E; [|done]. injection Heq as <- <-. eauto.
  - intros [-> (s & Hs & E)]. exists s. by rewrite E.
Qed.

(** The service, by position, whose routes include the pattern. *)
Definition serves (svcs : list Service) (i : nat) (p : pattern) : Prop :=
  exists svc s, svcs !! i = Some svc /\ s ∈ service_patterns svc /\ parsePattern s = Some p.

Lemma concat_entries_elem svcs hs p h :
  length hs = length svcs ->
  (p, h) ∈ concat (zip_with entries svcs hs) <-> exists i, hs !! i = Some h /\ serves svcs i p.
Proof.
  revert hs. induction svcs as [|svc svcs IH]; intros [|h0 hs] Hl; try done.
  - split; [by intros ?%elem_of_nil|by intros (i & ? & _)].
  - cbn. rewrite elem_of_app, entries_elem, IH by (simpl in Hl; lia). split.
    + intros [[-> (s & Hs & Hp)]|(i & Hi & svc' & s & ? & ? & ?)].
      * exists 0%nat. split; [done|]. by exists svc, s.
      * exists (S i). split; [done|]. by exists svc', s.
    + intros ([|i] & Hi & svc' & s & Hsvc & Hs & Hp); simpl in *.
      * left. simplify_eq. eauto.
      * right. exists i. split; [done|]. by exists svc', s.
Qed.

(** Some service of host [h] has a route that admits the request. *)
Definition host_serves (svcs : list Service) (h method : string) (segs : list string) : Prop :=
  exists i p, serves svcs i p /\ p_host p = h /\ admits p method segs = true.

(** ** Properties *)

(** C16. Where a request goes. In the table built from a configuration, what a host, a
    method and a path match is the handler that [handlerFor], called on each service in
    turn, gave for a service one of whose routes admits the method and the path (its
    segments, without their escapes); the services of the host itself come first, and
    those without a host get the request only when no service of its host admits it. A
    service without methods takes them all; one with the cors plugin takes OPTIONS
    besides those it names. There is a match exactly when some service of the host, or
    without a host, admits the method and the path. *)
Theorem requests_reach_services cfg handlerFor acc σ σ' acc' mux host method path :
  Build cfg handlerFor acc σ = (σ', Ret (acc', Ok mux)) ->
  let segs := path_segs path in
  exists hs, handlers (Services cfg) handlerFor acc σ = (σ', Ret (acc', Ok hs)) /\
  length hs = length (Services cfg) /\
  match mux_match mux host method path with
  | Some h => exists i p, hs !! i = Some h /\ serves (Services cfg) i p /\ admits p method segs = true /\
      (p_host p = host \/ p_host p = EmptyString /\ ~ host_serves (Services cfg) host method segs)
  | None => ~ host_serves (Services cfg) host method segs /\
            ~ host_serves (Services cfg) EmptyString method segs
  end.
Proof.
  intros (hs & Hhs & Hl & _ & ->)%build_services_Ok segs. simpl. exists hs. split; [done|]. split; [done|].
  assert (Hof : forall h, (exists p a, (p, a) ∈ concat (zip_with entries (Services cfg) hs) /\
      p_host p = h /\ admits p method segs = true) <-> host_serves (Services cfg) h method segs).
  { intros h. unfold host_serves. split.
    - intros (p & a & (i & _ & Hs)%concat_entries_elem & Hh & Ha); eauto.
    - intros (i & p & Hs & Hh & Ha). destruct (lookup_lt_is_Some_2 hs i) as [a Hi].
      { rewrite Hl. destruct Hs as (svc & ? & ?%lookup_lt_Some & _). lia. }
      exists p, a. split; [|done]. apply concat_entries_elem; eauto. }
  pose proof (mux_match_spec (concat (zip_with entries (Services cfg) hs)) host method path) as Hspec.
  simpl in Hspec. fold segs in Hspec.
  destruct (mux_match _ host method path) as [h|].
  - destruct Hspec as (p & Hin & Ha & Hh). apply concat_entries_elem in Hin as (i & Hi & Hs); [|done].
    exists i, p. split_and!; try done. rewrite <- Hof. done.
  - by rewrite <- !Hof.
Qed.

(** *** Patterns that conflict *)

Lemma compareSegments_refl s : compareSegments s s = equivalent.
Proof. destruct s; simpl; [by rewrite String.eqb_refl|done|done]. Qed.

Lemma comparePaths_refl segs m : comparePaths_from m m equivalent segs segs = equivalent.
Proof. induction segs as [|s segs IH]; simpl; [done|]. by rewrite compareSegments_refl. Qed.

Lemma conflicts_self p : conflictsWith p p = true.
Proof.
  unfold conflictsWith, comparePaths, compareMethods. by rewrite !String.eqb_refl, comparePaths_refl.
Qed.

(** Registering a route twice panics. *)
Lemma Handle_twice (mux mux' : ServeMux H) s h h' :
  Handle mux s h = Ret mux' -> Handle mux' s h' = Panic "http: pattern conflicts".
Proof.
  intros (p & Hp & ->)%Handle_Ret. unfold Handle. rewrite Hp.
  rewrite existsb_app. simpl. by rewrite conflicts_self, orb_true_r.
Qed.

(** A route without a slash is invalid: registering it panics. *)
Lemma cut_slash_none s : occurs "/" s = false -> cut_slash s = (s, EmptyString).
Proof.
  unfold occurs. induction s as [|a s IH]; simpl; [done|].
  destruct (Ascii.eqb_spec a "/") as [->|Hne]; [done|]. intros Hs.
  destruct (cut "/" s) as [[l r]|] eqn:E; [done|]. rewrite IH by done.
  by destruct a as [[] [] [] [] [] [] [] []].
Qed.

Lemma Handle_no_slash (mux : ServeMux H) s h :
  s <> EmptyString -> occurs "/" s = false -> cut_blank s = None ->
  Handle mux s h = Panic "http: invalid pattern".
Proof.
  intros Hne Hs Hb. unfold Handle, parsePattern. destruct s as [|a s]; [done|].
  rewrite Hb. cbn [default]. rewrite (cut_slash_none _ Hs). done.
Qed.

End build.

(** ** Serving *)

Section serve.
Context `{MapRange}.

(** [http.Redirect] with 301 to the URL of a rooted path, less the HTML body it adds for
    a GET. *)
Definition http_Redirect (w : rw) (path query : string) : outcome rw :=
  let url := path_escape path in
  let url := if String.eqb query "" then url else (url +:+ "?" +:+ query)%string in
  WriteHeader (update_Header (Set_ "Location" url) w) 301.

(** The handler of a 405, with the methods that are allowed. *)
Definition methodNotAllowed (allow : list string) : Handler := fun w _ =>
  lift (http_Error (update_Header (Set_ "Allow" (Join (merge_sort String.le allow) ", ")) w) "Method Not Allowed" 405).

(** [http.NotFound]. *)
Definition http_NotFound : Handler := fun w _ => lift (http_Error w "404 page not found" 404).

Definition ServeMux_ServeHTTP (m : ServeMux Handler) : Handler := fun w r =>
  match findHandler m r with
  | Found h => h w r
  | RedirectTo path query => lift (http_Redirect w path query)
  | MethodNotAllowed allow => methodNotAllowed allow w r
  | NotFound => http_NotFound w r
  end.

End serve.

(** ** A configuration the parser accepts can still panic *)

Definition example_service (name path : string) : Service :=
  mkService name path "" "http://origin:8080" [] [] [] None false false.

(** A hot reload can take the process down: the parser accepts a configuration
    whose second service repeats a route, or whose path has no leading slash, and
    building its table panics instead of returning an error. *)
Theorem accepted_config_panics :
  let dup := mkConfig [example_service "a" "/x"; example_service "b" "/x"] in
  let rel := mkConfig [example_service "a" "x"] in
  let handlerFor (_ : Service) (n : nat) : M (nat * result error nat) := ret (n, Ok n) in
  forall σ, (Forall valid_service (Services dup) /\ (Build dup handlerFor 0%nat σ).2 = Panic "http: pattern conflicts") /\
            (Forall valid_service (Services rel) /\ (Build rel handlerFor 0%nat σ).2 = Panic "http: invalid pattern").
Proof.
  intros dup rel handlerFor σ.
  assert (Hv : forall name path, name <> EmptyString -> path <> EmptyString ->
            valid_service (example_service name path)).
  { intros name path Hn Hp. split; try done; by left. }
  split; (split; [repeat constructor; by apply Hv|reflexivity]).
Qed.
