(* ===== verification/Gateway.v ===== *)
(** * The gateway (gateway/gateway.go)

    [New], hot reload, [Close], [HasHost], [ServeHTTP] and [buildMux]. The
    goroutines the gateway starts are the entries of its [runtime], each under the
    context that stops it. *)

From S2P Require Import Prelude GoInt GoFloat GoStrings OriginState Balancer Header Value GoDuration Http Tracing ClientIP Plugin Retry Proxy Health Metrics Config Mux Router.
From Stdlib Require Import Ascii.
#[local] Open Scope Z_scope.

(** ** Options *)

Definition DefaultPollInterval : Duration := 2 * Second.
Definition DefaultOriginTimeout : Duration := 10 * Second.
Definition DefaultMaxRequestBodyBytes : Z := Z.shiftl 10 20.
Definition DefaultUnhealthyCooldown : Duration := 10 * Second.
Definition DefaultHealthCheckInterval : Duration := 10 * Second.
Definition DefaultHealthCheckTimeout : Duration := 2 * Second.
Definition DefaultRetryMaxAttempts : Z := 1.
Definition DefaultRetryBackoffBase : Duration := 100 * Millisecond.
Definition DefaultBreakerCooldown : Duration := 30 * Second.
Definition DefaultLogFlushInterval : Duration := 5 * Second.

Record Options := mkOptions {
  PollInterval : Duration;
  OriginTimeout : Duration;
  MaxRequestBodyBytes : Z;
  UnhealthyCooldown : Duration;
  HealthCheckPath : string;
  HealthCheckInterval : Duration;
  HealthCheckTimeout : Duration;
  RetryMaxAttempts : Z;
  RetryBackoffBase : Duration;
  BreakerThreshold : Z;
  BreakerCooldown : Duration;
  TrustRequestID : bool;
  TrustedProxies : string;
  OTLPEndpoint : string;
  ServiceName : string
}.

Record resolvedOptions := mkResolved {
  originTimeout : Duration;
  maxBodyBytes : Z;
  unhealthyCooldown : Duration;
  healthCheckPath : string;
  healthCheckInterval : Duration;
  healthCheckTimeout : Duration;
  retryMaxAttempts : Z;
  retryBackoffBase : Duration;
  breakerThreshold : Z;
  breakerCooldown : Duration
}.

Definition or_default (v d : Z) : Z := if v <=? 0 then d else v.

(** The defaults [New] applies. *)
Definition resolve (opts : Options) : resolvedOptions :=
  mkResolved (or_default (OriginTimeout opts) DefaultOriginTimeout)
    (or_default (MaxRequestBodyBytes opts) DefaultMaxRequestBodyBytes)
    (or_default (UnhealthyCooldown opts) DefaultUnhealthyCooldown)
    (HealthCheckPath opts)
    (or_default (HealthCheckInterval opts) DefaultHealthCheckInterval)
    (or_default (HealthCheckTimeout opts) DefaultHealthCheckTimeout)
    (or_default (RetryMaxAttempts opts) DefaultRetryMaxAttempts)
    (or_default (RetryBackoffBase opts) DefaultRetryBackoffBase)
    (BreakerThreshold opts)
    (or_default (BreakerCooldown opts) DefaultBreakerCooldown).

(** ** Building the routing table *)

Section build.
Context `{Platform, MapRange, Env, OS, SugarNode, JWT, TraceContext}.

(** What names the counters of a plugin entry in the shared store: its place in the
    configuration. *)
Definition instance_id (svcName : string) (i : nat) : string := (svcName +:+ ":" +:+ Itoa (Z.of_nat i))%string.

(** The plugins of a service, the [i]-th on. *)
Fixpoint build_plugins (svcName : string) (i : nat) (pcs : list PluginConfig) : M (result error (list Plugin)) :=
  match pcs with
  | [] => ret (Ok [])
  | pc :: pcs =>
      let* p := Plugin.Build (pc_Name pc) (pc_Config pc) (instance_id svcName i) in
      match p with
      | Err e => ret (Err (Errorf "plugin %q: %w" [pc_Name pc] (Some e)))
      | Ok p =>
          let* ps := build_plugins svcName (S i) pcs in
          ret (let? ps := ps in Ok (p :: ps))
      end
  end.

(** The prober of a service, if it has a path to probe. *)
Definition service_prober (svc : Service) (opts : resolvedOptions) (lb : originProxy)
    : result error (option Prober) :=
  match svc_HealthCheck svc with
  | None => Ok None
  | Some hc =>
      let path := if String.eqb (hc_Path hc) "" then healthCheckPath opts else hc_Path hc in
      let? interval :=
        if String.eqb (hc_Interval hc) "" then Ok (healthCheckInterval opts)
        else rmap_err (fun e => Errorf "service %q: health_check.interval: %w" [svc_Name svc] (Some e))
               (ParseDuration (hc_Interval hc)) in
      Ok (if String.eqb path "" then None
          else Some (NewProber (ProbeTargets lb) path interval (healthCheckTimeout opts)))
  end.

(** The handler of a service in front of its origins. *)
Definition service_handler (svc : Service) (plugins : list Plugin) (lb : originProxy) : Handler :=
  let handler := Chain plugins (originProxy_ServeHTTP lb) in
  let handler := if svc_PreserveRequestID svc then PreserveInbound handler else handler in
  Recorder_Wrap (svc_Name svc) handler.

(** The function [buildMux] gives [router.Build], with the slices it appends to. *)
Definition handlerFor (opts : resolvedOptions) (svc : Service) (acc : list Prober * list Plugin)
    : M ((list Prober * list Plugin) * result error Handler) :=
  let '(probers, allPlugins) := acc in
  let* built := build_plugins (svc_Name svc) 0 (svc_Plugins svc) in
  match built with
  | Err e => ret (acc, Err e)
  | Ok built =>
      let plugins := NewRequestSizeLimiting (maxBodyBytes opts) :: built in
      let allPlugins := allPlugins ++ plugins in
      let origins := match svc_OriginURLs svc with [] => [svc_OriginURL svc] | us => us end in
      let retry := mkRetryOptions (retryMaxAttempts opts) (retryBackoffBase opts) (svc_RetryUnsafeMethods svc) in
      let breaker := mkBreakerOptions (breakerThreshold opts) (breakerCooldown opts) in
      let* rp := NewOriginProxy (svc_Name svc) origins (originTimeout opts) (unhealthyCooldown opts) retry breaker in
      match rp with
      | Err e => ret ((probers, allPlugins), Err e)
      | Ok rp =>
          match service_prober svc opts rp with
          | Err e => ret ((probers, allPlugins), Err e)
          | Ok p => ret ((probers ++ option_list p, allPlugins), Ok (service_handler svc plugins rp))
          end
      end
  end.

Definition buildMux (cfg : Config) (opts : resolvedOptions)
    : M (result error (ServeMux Handler * list Prober * list Plugin)) :=
  let* (acc, mux) := Router.Build cfg (handlerFor opts) ([], []) in
  ret (let? mux := mux in Ok (mux, acc.1, acc.2)).

End build.

(** ** The gateway and its goroutines *)

Inductive task :=
| probing (p : Prober)
| flushing (plugins : list Plugin)
| watching.

(** The goroutines ever started, each under a context, and the contexts that were
    cancelled. *)
Record runtime := mkRuntime {
  rt_next : nat;
  rt_cancelled : list nat;
  rt_tasks : list (nat * task)
}.

Definition newRuntime : runtime := mkRuntime 0 [] [].

(** [context.WithCancel]: the new context, which is also what cancels it. *)
Definition WithCancel (rt : runtime) : nat * runtime :=
  (rt_next rt, mkRuntime (S (rt_next rt)) (rt_cancelled rt) (rt_tasks rt)).

Definition cancel (ctx : option nat) (rt : runtime) : runtime :=
  match ctx with
  | None => rt
  | Some c => mkRuntime (rt_next rt) (c :: rt_cancelled rt) (rt_tasks rt)
  end.

Definition go (ctx : nat) (t : task) (rt : runtime) : runtime :=
  mkRuntime (rt_next rt) (rt_cancelled rt) (rt_tasks rt ++ [(ctx, t)]).

(** The goroutines that were not told to stop. *)
Definition running (rt : runtime) : list task :=
  snd <$> base.filter (fun x => x.1 ∉ rt_cancelled rt) (rt_tasks rt).

Record Gateway := mkGateway {
  gw_mux : ServeMux Handler;
  gw_hosts : option (list string);
  gw_cancel : option nat;              (* the watcher's context *)
  gw_proberCancel : option nat;
  gw_plugins : option (list Plugin);
  gw_logFlusherCancel : option nat;
  gw_runtime : runtime
}.

(** The recorder is the one [New] makes; no reload replaces it. *)
Definition MetricsHandler `{Promhttp} : Handler := Recorder_Handler Metrics.New.

Definition storeMux (mux : ServeMux Handler) (g : Gateway) : Gateway :=
  mkGateway mux (gw_hosts g) (gw_cancel g) (gw_proberCancel g) (gw_plugins g) (gw_logFlusherCancel g)
    (gw_runtime g).

Definition storeHosts (cfg : Config) (g : Gateway) : Gateway :=
  mkGateway (gw_mux g) (Some (Hosts cfg)) (gw_cancel g) (gw_proberCancel g) (gw_plugins g)
    (gw_logFlusherCancel g) (gw_runtime g).

Definition startProbers (probers : list Prober) (g : Gateway) : Gateway :=
  let '(ctx, rt) := WithCancel (gw_runtime g) in
  let rt := foldl (fun rt p => go ctx (probing p) rt) rt probers in
  let rt := cancel (gw_proberCancel g) rt in
  mkGateway (gw_mux g) (gw_hosts g) (gw_cancel g) (Some ctx) (gw_plugins g) (gw_logFlusherCancel g) rt.

Definition startLogFlusher (plugins : list Plugin) (g : Gateway) : Gateway :=
  let '(ctx, rt) := WithCancel (gw_runtime g) in
  let rt := go ctx (flushing plugins) rt in
  let rt := cancel (gw_logFlusherCancel g) rt in
  mkGateway (gw_mux g) (gw_hosts g) (gw_cancel g) (gw_proberCancel g) (Some plugins) (Some ctx) rt.

Definition startWatcher (g : Gateway) : Gateway :=
  let '(ctx, rt) := WithCancel (gw_runtime g) in
  mkGateway (gw_mux g) (gw_hosts g) (Some ctx) (gw_proberCancel g) (gw_plugins g) (gw_logFlusherCancel g)
    (go ctx watching rt).

Definition HasHost (g : Gateway) (host : string) : bool :=
  match gw_hosts g with
  | None => false
  | Some hosts => bool_decide (TrimSuffix1 "." (ToLower host) ∈ hosts)
  end.

Section gateway.
Context `{Platform, MapRange, Env, OS, SugarNode, JWT, TraceContext, Tracer, ConfigSource}.

(** What a successful build installs. *)
Definition install (cfg : Config) (mux : ServeMux Handler) (probers : list Prober) (plugins : list Plugin)
    (g : Gateway) : Gateway :=
  startLogFlusher plugins (startProbers probers (storeHosts cfg (storeMux mux g))).

(** The watcher's callback: the gateway it leaves, and the error it returns. *)
Definition reload (opts : resolvedOptions) (newCfg : Config) (g : Gateway) : M (Gateway * option error) :=
  let* built := buildMux newCfg opts in
  match built with
  | Err e => ret (g, Some e)
  | Ok (newMux, newProbers, newPlugins) => ret (install newCfg newMux newProbers newPlugins g, None)
  end.

Definition emptyGateway : Gateway := mkGateway [] None None None None None newRuntime.

(** What [New] fixes for the life of the gateway. *)
Record settings := mkSettings {
  set_proxies : ClientIP.Resolver;
  set_trustRequestID : bool;
  set_provider : option TracerProvider;
  set_resolved : resolvedOptions;
  set_interval : Duration
}.

Definition New (configPath : string) (opts : Options) : M (result error (settings * Gateway)) :=
  match Load configPath with
  | Err e => ret (Err e)
  | Ok cfg =>
      match ClientIP.Parse (TrustedProxies opts) with
      | Err (invalidTrustedProxy entry) =>
          ret (Err (Errorf1 "clientip: invalid trusted proxy %q" entry))
      | Ok proxies =>
          let serviceName := if String.eqb (ServiceName opts) "" then "dealer"%string else ServiceName opts in
          match rmap_err (Wrapf "tracing: %w") (NewTracerProvider (OTLPEndpoint opts) serviceName) with
          | Err e => ret (Err e)
          | Ok tp =>
              let resolved := resolve opts in
              let* built := buildMux cfg resolved in
              ret (let? built := built in
                   let '(mux, probers, plugins) := built in
                   let g := install cfg mux probers plugins emptyGateway in
                   let interval := or_default (PollInterval opts) DefaultPollInterval in
                   Ok (mkSettings proxies (TrustRequestID opts) tp resolved interval, startWatcher g))
          end
      end
  end.

(** [ServeHTTP]: the middleware around the routing table that is current when the
    request gets there. *)
Definition Gateway_ServeHTTP (s : settings) (g : Gateway) : Handler :=
  ClientIP.Middleware (Some (set_proxies s))
    (Tracing.Middleware (set_trustRequestID s)
       (SpanMiddleware (set_provider s) (ServeMux_ServeHTTP (gw_mux g)))).

Definition Close (s : settings) (g : Gateway) : M Gateway :=
  let rt := cancel (gw_cancel g) (gw_runtime g) in
  let rt := cancel (gw_proberCancel g) rt in
  let rt := cancel (gw_logFlusherCancel g) rt in
  match gw_plugins g with Some plugins => FlushLoggers plugins | None => ret tt end;;
  tracingShutdown (set_provider s);;
  ret (mkGateway (gw_mux g) (gw_hosts g) (gw_cancel g) (gw_proberCancel g) (gw_plugins g)
         (gw_logFlusherCancel g) rt).

End gateway.

(** ** Lemmas: generations of goroutines *)

(** The goroutines not told to stop, with their contexts. *)
Definition live (rt : runtime) : list (nat * task) :=
  base.filter (fun x => x.1 ∉ rt_cancelled rt) (rt_tasks rt).

(** Contexts in use were given out. *)
Record runtime_ok (rt : runtime) : Prop := {
  ro_tasks : Forall (fun x => (x.1 < rt_next rt)%nat) (rt_tasks rt);
  ro_cancelled : Forall (fun c => (c < rt_next rt)%nat) (rt_cancelled rt)
}.

Lemma live_go c t rt : c ∉ rt_cancelled rt -> live (go c t rt) = live rt ++ [(c, t)].
Proof.
  intros Hc. unfold live. simpl. rewrite filter_app. f_equal. by rewrite filter_cons_True.
Qed.

Lemma live_cancel c rt : live (cancel (Some c) rt) = base.filter (fun x => x.1 <> c) (live rt).
Proof.
  unfold live. simpl. rewrite list_filter_filter. apply list_filter_iff. intros x. set_solver.
Qed.

Lemma fresh_not_cancelled rt : runtime_ok rt -> rt_next rt ∉ rt_cancelled rt.
Proof.
  intros [_ Hx] Hin. rewrite Forall_forall in Hx. specialize (Hx _ Hin). simpl in Hx. lia.
Qed.

(** Starting goroutines under a new context and cancelling an old one. *)
Definition spawn (old : option nat) (ts : list task) (rt : runtime) : runtime :=
  cancel old (foldl (fun rt' t => go (rt_next rt) t rt') (WithCancel rt).2 ts).

Definition not_ctx (old : option nat) (x : nat * task) : Prop := Some x.1 <> old.

#[local] Instance not_ctx_dec old x : Decision (not_ctx old x).
Proof. unfold not_ctx. apply _. Defined.

Lemma foldl_go c ts rt :
  foldl (fun rt' t => go c t rt') rt ts =
  mkRuntime (rt_next rt) (rt_cancelled rt) (rt_tasks rt ++ (pair c <$> ts)).
Proof.
  revert rt. induction ts as [|t ts IH]; intros rt; simpl.
  - rewrite app_nil_r. by destruct rt.
  - rewrite IH. simpl. by rewrite <- app_assoc.
Qed.

Lemma spawn_spec old ts rt :
  runtime_ok rt -> match old with Some c => (c < rt_next rt)%nat | None => True end ->
  runtime_ok (spawn old ts rt) /\ rt_next (spawn old ts rt) = S (rt_next rt) /\
  live (spawn old ts rt) = base.filter (not_ctx old) (live rt) ++ (pair (rt_next rt) <$> ts).
Proof.
  intros [Ht Hx] Hold. pose proof (fresh_not_cancelled rt (Build_runtime_ok _ Ht Hx)) as Hfresh.
  unfold spawn. rewrite foldl_go. simpl.
  assert (Hok : runtime_ok (mkRuntime (S (rt_next rt)) (rt_cancelled rt) (rt_tasks rt ++ (pair (rt_next rt) <$> ts)))).
  { split; simpl; [apply Forall_app; split|].
    - eapply Forall_impl; [exact Ht|]. simpl. lia.
    - apply Forall_fmap, Forall_forall. simpl. lia.
    - eapply Forall_impl; [exact Hx|]. simpl. lia. }
  assert (Hnew : forall P `{!forall x, Decision (P x)}, (forall t, P (rt_next rt, t)) ->
            base.filter P (pair (rt_next rt) <$> ts) = pair (rt_next rt) <$> ts).
  { intros P HP Hall. clear -Hall. induction ts as [|t ts IH]; cbn [fmap list_fmap]; [done|].
    rewrite filter_cons_True by apply Hall. by rewrite IH. }
  split_and!.
  - destruct old as [c|]; [|done]. destruct Hok. split; simpl; [done|]. constructor; [lia|done].
  - by destruct old.
  - assert (Hlive : live (mkRuntime (S (rt_next rt)) (rt_cancelled rt) (rt_tasks rt ++ (pair (rt_next rt) <$> ts)))
              = live rt ++ (pair (rt_next rt) <$> ts)).
    { unfold live. simpl. rewrite filter_app. f_equal. by apply Hnew. }
    destruct old as [c|].
    + rewrite (live_cancel c), Hlive, filter_app. f_equal.
      * apply list_filter_iff. intros x. unfold not_ctx. naive_solver.
      * apply Hnew. simpl. lia.
    + simpl. rewrite Hlive. f_equal. symmetry. apply list_filter_all. unfold not_ctx.
      apply Forall_forall. done.
Qed.

Lemma startProbers_runtime probers g :
  gw_runtime (startProbers probers g) = spawn (gw_proberCancel g) (probing <$> probers) (gw_runtime g).
Proof. unfold startProbers, spawn. simpl. by rewrite foldl_fmap. Qed.

Lemma startLogFlusher_runtime plugins g :
  gw_runtime (startLogFlusher plugins g) = spawn (gw_logFlusherCancel g) [flushing plugins] (gw_runtime g).
Proof. done. Qed.

(** The goroutines of a generation: its probers, its log flusher, the watcher. *)
Definition tasks_of (cp cf : nat) (cw : option nat) (probers : list Prober) (plugins : list Plugin)
    : list (nat * task) :=
  (pair cp <$> (probing <$> probers)) ++ (pair cf <$> [flushing plugins]) ++
  ((fun c => (c, watching)) <$> option_list cw).

(** A gateway that runs one generation and nothing else. *)
Record one_generation (g : Gateway) (probers : list Prober) (plugins : list Plugin) : Prop := {
  og_ok : runtime_ok (gw_runtime g);
  og_contexts : exists cp cf, gw_proberCancel g = Some cp /\ gw_logFlusherCancel g = Some cf /\
    cp <> cf /\ gw_cancel g <> Some cp /\ gw_cancel g <> Some cf /\
    (cp < rt_next (gw_runtime g))%nat /\ (cf < rt_next (gw_runtime g))%nat /\
    (forall c, gw_cancel g = Some c -> (c < rt_next (gw_runtime g))%nat) /\
    live (gw_runtime g) ≡ₚ tasks_of cp cf (gw_cancel g) probers plugins;
  og_plugins : gw_plugins g = Some plugins
}.

Lemma filter_ctx (old : option nat) c (ts : list task) :
  base.filter (not_ctx old) (pair c <$> ts) = if decide (Some c = old) then [] else pair c <$> ts.
Proof.
  induction ts as [|t ts IH]; cbn [fmap list_fmap]; [by case_decide|].
  rewrite filter_cons. unfold not_ctx at 1. simpl. repeat case_decide; simplify_eq; rewrite IH; done || tauto.
Qed.

Lemma filter_watcher (old cw : option nat) :
  (forall c, cw = Some c -> old <> Some c) ->
  base.filter (not_ctx old) ((fun c => (c, watching)) <$> option_list cw) =
  (fun c => (c, watching)) <$> option_list cw.
Proof.
  intros Hne. destruct cw as [c|]; simpl; [|done]. rewrite filter_cons_True; [done|].
  unfold not_ctx. simpl. intros <-. by apply (Hne c).
Qed.

(** Installing a configuration replaces the generation, whatever ran before. *)
Lemma install_generation cfg mux probers' plugins' g probers plugins :
  one_generation g probers plugins ->
  one_generation (install cfg mux probers' plugins' g) probers' plugins' /\
  gw_cancel (install cfg mux probers' plugins' g) = gw_cancel g.
Proof.
  intros [Hok (cp & cf & Hp & Hf & Hpf & Hwp & Hwf & Hcp & Hcf & Hcw & Hlive) Hpl].
  split; [|done]. unfold install. set (g1 := storeHosts cfg (storeMux mux g)).
  set (rt := gw_runtime g) in *. set (n := rt_next rt) in *.
  destruct (spawn_spec (Some cp) (probing <$> probers') rt Hok Hcp) as (Hok2 & Hn2 & Hl2).
  destruct (spawn_spec (Some cf) [flushing plugins'] (spawn (Some cp) (probing <$> probers') rt) Hok2)
    as (Hok3 & Hn3 & Hl3); [rewrite Hn2; lia|].
  assert (Ert : gw_runtime (startLogFlusher plugins' (startProbers probers' g1)) =
            spawn (Some cf) [flushing plugins'] (spawn (Some cp) (probing <$> probers') rt)).
  { rewrite startLogFlusher_runtime, startProbers_runtime.
    change (gw_proberCancel g1) with (gw_proberCancel g). change (gw_runtime g1) with rt.
    change (gw_logFlusherCancel (startProbers probers' g1)) with (gw_logFlusherCancel g). by rewrite Hp, Hf. }
  assert (Ecf : gw_logFlusherCancel (startLogFlusher plugins' (startProbers probers' g1)) = Some (S n)).
  { transitivity (Some (rt_next (gw_runtime (startProbers probers' g1)))); [done|].
    rewrite startProbers_runtime. change (gw_proberCancel g1) with (gw_proberCancel g).
    change (gw_runtime g1) with rt. by rewrite Hp, Hn2. }
  split; [by rewrite Ert| |done].
  exists n, (S n). rewrite Ert, Ecf, Hn3, Hn2. fold n.
  change (gw_cancel (startLogFlusher plugins' (startProbers probers' g1))) with (gw_cancel g).
  split_and!; try done; try lia.
  - intros E. specialize (Hcw _ E). lia.
  - intros E. specialize (Hcw _ E). lia.
  - intros c E. specialize (Hcw _ E). lia.
  - rewrite Hl3, Hl2, Hn2, Hlive. fold n. unfold tasks_of.
    rewrite !filter_app, !filter_ctx, !filter_watcher by (intros c E E'; congruence).
    repeat case_decide; simplify_eq; try lia. simpl.
    change [(cf, flushing plugins)] with (pair cf <$> [flushing plugins]).
    rewrite filter_ctx, decide_True by done. simpl.
    rewrite (Permutation_app_comm (_ <$> option_list _)), <- app_assoc.
    apply Permutation_app_head. by rewrite Permutation_app_comm.
Qed.

(** The first generation, and the watcher after it. *)
Lemma first_generation cfg mux probers plugins :
  let g := startWatcher (install cfg mux probers plugins emptyGateway) in
  one_generation g probers plugins /\ is_Some (gw_cancel g).
Proof.
  assert (Hok0 : runtime_ok newRuntime) by by split.
  destruct (spawn_spec None (probing <$> probers) newRuntime Hok0 I) as (Hok1 & Hn1 & Hl1).
  destruct (spawn_spec None [flushing plugins] _ Hok1 I) as (Hok2 & Hn2 & Hl2).
  destruct (spawn_spec None [watching] _ Hok2 I) as (Hok3 & Hn3 & Hl3).
  set (g1 := storeHosts cfg (storeMux mux emptyGateway)).
  assert (Ep : gw_runtime (startProbers probers g1) = spawn None (probing <$> probers) newRuntime)
    by apply startProbers_runtime.
  assert (Eg : gw_runtime (install cfg mux probers plugins emptyGateway) =
    spawn None [flushing plugins] (spawn None (probing <$> probers) newRuntime)).
  { unfold install. fold g1. by rewrite startLogFlusher_runtime, Ep. }
  assert (Ew : gw_runtime (startWatcher (install cfg mux probers plugins emptyGateway)) =
    spawn None [watching] (spawn None [flushing plugins] (spawn None (probing <$> probers) newRuntime))).
  { rewrite <- Eg. done. }
  assert (Ecw : gw_cancel (startWatcher (install cfg mux probers plugins emptyGateway)) = Some 2%nat).
  { transitivity (Some (rt_next (gw_runtime (install cfg mux probers plugins emptyGateway)))); [done|].
    by rewrite Eg, Hn2, Hn1. }
  assert (Ecf : gw_logFlusherCancel (startWatcher (install cfg mux probers plugins emptyGateway)) = Some 1%nat).
  { transitivity (Some (rt_next (gw_runtime (startProbers probers g1)))); [done|]. by rewrite Ep, Hn1. }
  split; [|by rewrite Ecw]. split; [by rewrite Ew| |done].
  exists 0%nat, 1%nat. rewrite Ew, Ecw, Ecf, Hn3, Hn2, Hn1. simpl rt_next.
  split_and!; try done; try lia; [intros c [= <-]; lia|].
  assert (Hall : forall l : list (nat * task), base.filter (not_ctx None) l = l).
  { intros l. apply list_filter_all, Forall_forall. done. }
  rewrite Hl3, Hl2, Hl1, !Hall, Hn2, Hn1. unfold tasks_of. simpl. by rewrite <- app_assoc.
Qed.

Lemma running_live rt : running rt = (live rt).*2.
Proof. done. Qed.

Lemma snd_pair_fmap {X} (c : nat) (l : list X) : (pair c <$> l).*2 = l.
Proof. induction l as [|x l IH]; simpl; [done|]. by f_equal. Qed.

Lemma one_generation_running g probers plugins :
  one_generation g probers plugins -> is_Some (gw_cancel g) ->
  running (gw_runtime g) ≡ₚ (probing <$> probers) ++ [flushing plugins; watching].
Proof.
  intros [_ (cp & cf & _ & _ & _ & _ & _ & _ & _ & _ & Hl) _] [c Hc].
  rewrite running_live, Hl, Hc. unfold tasks_of. by rewrite !fmap_app, snd_pair_fmap.
Qed.

(** Cancelling the three contexts of a generation stops all of it. *)
Lemma close_generation g probers plugins :
  one_generation g probers plugins ->
  running (cancel (gw_logFlusherCancel g) (cancel (gw_proberCancel g) (cancel (gw_cancel g) (gw_runtime g)))) = [].
Proof.
  intros [_ (cp & cf & Hp & Hf & _ & _ & _ & _ & _ & _ & Hl) _]. rewrite running_live, Hp, Hf.
  assert (Hall : Forall (fun x => x.1 = cp \/ x.1 = cf \/ gw_cancel g = Some x.1) (live (gw_runtime g))).
  { rewrite Hl. unfold tasks_of. apply Forall_app. split; [apply Forall_fmap, Forall_forall; simpl; auto|].
    constructor; [simpl; auto|]. destruct (gw_cancel g); simpl; [constructor; simpl; auto|constructor]. }
  rewrite (live_cancel cf), (live_cancel cp). change ([] : list task) with (([] : list (nat * task)).*2). f_equal.
  destruct (gw_cancel g) as [cw|].
  - rewrite (live_cancel cw), !list_filter_filter. apply list_filter_none.
    eapply Forall_impl; [exact Hall|]. intros x. simpl. naive_solver.
  - simpl. rewrite !list_filter_filter. apply list_filter_none.
    eapply Forall_impl; [exact Hall|]. intros x. simpl. naive_solver.
Qed.

Section properties.
Context `{Platform, MapRange, Env, OS, SugarNode, JWT, TraceContext, Tracer, ConfigSource}.

(** A run of reloads; one that fails leaves the gateway as it is. *)
Fixpoint reloads (opts : resolvedOptions) (cfgs : list Config) (g : Gateway) : M Gateway :=
  match cfgs with
  | [] => ret g
  | cfg :: cfgs =>
      let* (g, _) := reload opts cfg g in
      reloads opts cfgs g
  end.

(** What a run of builds leaves last, of those that succeed, after [b]. *)
Fixpoint last_built (opts : resolvedOptions) (cfgs : list Config) (b : ServeMux Handler * list Prober * list Plugin)
    : M (ServeMux Handler * list Prober * list Plugin) :=
  match cfgs with
  | [] => ret b
  | cfg :: cfgs =>
      let* built := buildMux cfg opts in
      last_built opts cfgs (match built with Ok b => b | Err _ => b end)
  end.

Lemma reload_run opts cfg g σ σ' g' e :
  reload opts cfg g σ = (σ', Ret (g', e)) ->
  match e with
  | Some e => buildMux cfg opts σ = (σ', Ret (Err e)) /\ g' = g
  | None => exists mux probers plugins,
      buildMux cfg opts σ = (σ', Ret (Ok (mux, probers, plugins))) /\ g' = install cfg mux probers plugins g
  end.
Proof.
  unfold reload, bind. destruct (buildMux cfg opts σ) as [σ1 [[[[mux probers] plugins]|e']|]]; [| |done].
  - intros [= <- <- <-]. eauto 10.
  - intros [= <- <- <-]. done.
Qed.

Lemma reloads_generation opts cfgs g σ σ' g' probers plugins :
  one_generation g probers plugins -> reloads opts cfgs g σ = (σ', Ret g') ->
  exists mux' probers' plugins',
    last_built opts cfgs (gw_mux g, probers, plugins) σ = (σ', Ret (mux', probers', plugins')) /\
    one_generation g' probers' plugins' /\ gw_mux g' = mux' /\ gw_cancel g' = gw_cancel g.
Proof.
  revert g σ probers plugins. induction cfgs as [|cfg cfgs IH]; intros g σ probers plugins Hg; simpl.
  { intros [= <- <-]. by exists (gw_mux g), probers, plugins. }
  unfold bind at 1 2. destruct (reload opts cfg g σ) as [σ1 [[g1 e]|]] eqn:E; [|done]. intros Hrun.
  apply reload_run in E. destruct e as [e|].
  - destruct E as [-> ->]. by apply IH.
  - destruct E as (mux & ps & pl & -> & ->).
    destruct (install_generation cfg mux ps pl g probers plugins Hg) as [Hg' Hc].
    apply (IH _ _ _ _ Hg') in Hrun as (mux' & ps' & pl' & Hrun & Hg'' & Hm & Hc').
    exists mux', ps', pl'. by split_and!.
Qed.

Lemma New_Ok path opts σ σ' s g :
  New path opts σ = (σ', Ret (Ok (s, g))) ->
  exists cfg mux probers plugins,
    Load path = Ok cfg /\ buildMux cfg (resolve opts) σ = (σ', Ret (Ok (mux, probers, plugins))) /\
    g = startWatcher (install cfg mux probers plugins emptyGateway) /\ set_resolved s = resolve opts.
Proof.
  unfold New. destruct (Load path) as [cfg|]; [|done]. destruct (ClientIP.Parse _) as [proxies|[]]; [|done].
  destruct (rmap_err _ _) as [tp|]; [|done]. unfold bind.
  destruct (buildMux cfg (resolve opts) σ) as [σ1 [[[[mux probers] plugins]|]|]] eqn:E; [|done..].
  intros [= <- <- <-]. eauto 10.
Qed.

(** [Close] returns, with every context cancelled. *)
Lemma Close_run s g σ :
  exists σ' g', Close s g σ = (σ', Ret g') /\
  gw_runtime g' =
  cancel (gw_logFlusherCancel g) (cancel (gw_proberCancel g) (cancel (gw_cancel g) (gw_runtime g))).
Proof.
  assert (Hflush : exists σ1, match gw_plugins g with Some plugins => FlushLoggers plugins | None => ret tt end σ = (σ1, Ret tt)).
  { destruct (gw_plugins g) as [pl|]; [apply FlushLoggers_returns|by eexists]. }
  destruct Hflush as [σ1 Hflush]. unfold Close, bind. rewrite Hflush.
  destruct (set_provider s); (do 2 eexists; split; reflexivity).
Qed.

(** ** Properties *)

(** C17. Hot reload leaks nothing. After the gateway starts and any number of reloads,
    failed ones among them but none that panicked, exactly one generation of goroutines
    is running: a prober for each that the last configuration that could be built asks
    for, the log flusher of its plugins, and the watcher; its table is the one in use;
    and [Close], which returns, stops every one of them. *)
Theorem one_generation_runs path opts cfgs σ σ1 σ2 s g g' :
  New path opts σ = (σ1, Ret (Ok (s, g))) ->
  reloads (set_resolved s) cfgs g σ1 = (σ2, Ret g') ->
  exists cfg first mux probers plugins,
    Load path = Ok cfg /\ buildMux cfg (set_resolved s) σ = (σ1, Ret (Ok first)) /\
    last_built (set_resolved s) cfgs first σ1 = (σ2, Ret (mux, probers, plugins)) /\
    gw_mux g' = mux /\ gw_plugins g' = Some plugins /\
    running (gw_runtime g') ≡ₚ (probing <$> probers) ++ [flushing plugins; watching] /\
    exists σ3 g'', Close s g' σ2 = (σ3, Ret g'') /\ running (gw_runtime g'') = [].
Proof.
  intros (cfg & mux & ps & pl & Hload & Hb & -> & Es)%New_Ok Hrun. rewrite <- Es in Hb.
  destruct (first_generation cfg mux ps pl) as [Hg Hcw].
  destruct (reloads_generation _ _ _ _ _ _ _ _ Hg Hrun) as (mux' & ps' & pl' & Hlast & Hg' & Hm & Hc).
  exists cfg, (mux, ps, pl), mux', ps', pl'. split_and!; try done; [apply Hg'|..].
  - apply one_generation_running; [done|]. by rewrite Hc.
  - destruct (Close_run s g' σ2) as (σ3 & g'' & Hclose & Hrt). exists σ3, g''. split; [done|]. rewrite Hrt.
    by eapply close_generation.
Qed.


(** The options a gateway runs with are usable whatever was asked for: every
    time, size and number of attempts is positive, and one that was given positive
    is kept as it was given. *)
Theorem resolve_positive opts :
  let r := resolve opts in
  Forall (fun x => 0 < x) [originTimeout r; maxBodyBytes r; unhealthyCooldown r; healthCheckInterval r;
                           healthCheckTimeout r; retryMaxAttempts r; retryBackoffBase r; breakerCooldown r] /\
  (0 < OriginTimeout opts -> originTimeout r = OriginTimeout opts) /\
  (0 < MaxRequestBodyBytes opts -> maxBodyBytes r = MaxRequestBodyBytes opts) /\
  (0 < RetryMaxAttempts opts -> retryMaxAttempts r = RetryMaxAttempts opts).
Proof.
  assert (Hpos : forall v d, 0 < d -> 0 < or_default v d).
  { intros v d Hd. unfold or_default. destruct (Z.leb_spec v 0); lia. }
  assert (Hkeep : forall v d, 0 < v -> or_default v d = v).
  { intros v d Hv. unfold or_default. destruct (Z.leb_spec v 0); lia. }
  simpl. split_and!; try (intros; by apply Hkeep).
  repeat (constructor; [by apply Hpos|]). constructor.
Qed.

(** *** Every service *)

Lemma handlerFor_Ok opts svc acc σ σ' acc' h :
  handlerFor opts svc acc σ = (σ', Ret (acc', Ok h)) ->
  exists plugins lb, h = service_handler svc (NewRequestSizeLimiting (maxBodyBytes opts) :: plugins) lb.
Proof.
  unfold handlerFor. destruct acc as [ps pl]. unfold bind at 1.
  destruct (build_plugins _ _ _ σ) as [σ1 [[built|]|]]; [|done..].
  unfold bind at 1. destruct (NewOriginProxy _ _ _ _ _ _ σ1) as [σ2 [[rp|]|]]; [|done..].
  destruct (service_prober svc opts rp) as [p|]; [|done]. intros [= _ _ <-]. eauto.
Qed.

(** C40. No service escapes the body limit. Whatever its own plugins, the handler the
    gateway builds for a service answers a request that declares more than the
    gateway's limit with 413 before any plugin, origin or log sees it; only its
    metrics do. *)
Theorem every_service_limited opts svc acc σ σ' acc' h w r :
  handlerFor opts svc acc σ = (σ', Ret (acc', Ok h)) ->
  maxBodyBytes opts < r_ContentLength r ->
  forall σ0, h w r σ0 = Recorder_Wrap (svc_Name svc) (fun w _ => lift (WriteHeader w 413)) w r σ0.
Proof.
  intros (plugins & lb & ->)%handlerFor_Ok Hlen σ0. unfold service_handler, Recorder_Wrap.
  assert (Hlim : forall r', r_ContentLength r' = r_ContentLength r ->
    Chain (NewRequestSizeLimiting (maxBodyBytes opts) :: plugins) (originProxy_ServeHTTP lb)
      (push (statusWriter 200) w) r' = lift (WriteHeader (push (statusWriter 200) w) 413)).
  { intros r' Hr'. rewrite Chain_cons. simpl. unfold requestSizeLimiting_Wrap. rewrite Hr'.
    by destruct (Z.ltb_spec (maxBodyBytes opts) (r_ContentLength r)); [|lia]. }
  unfold bind at 1 4. unfold Now, get. unfold bind at 1 3.
  destruct (svc_PreserveRequestID svc); [unfold PreserveInbound|]; rewrite Hlim; try done.
  by destruct (String.eqb _ "").
Qed.

End properties.

(** *** Closing while a reload is under way *)

(** The steps of a reload's installation and of [Close], as they touch the
    gateway; they run in different goroutines. *)
Definition install_steps (cfg : Config) (mux : ServeMux Handler) (probers : list Prober)
    (plugins : list Plugin) : list (Gateway -> Gateway) :=
  [storeMux mux; storeHosts cfg; startProbers probers; startLogFlusher plugins].

Definition on_runtime (f : Gateway -> runtime -> runtime) (g : Gateway) : Gateway :=
  mkGateway (gw_mux g) (gw_hosts g) (gw_cancel g) (gw_proberCancel g) (gw_plugins g) (gw_logFlusherCancel g)
    (f g (gw_runtime g)).

Definition close_steps : list (Gateway -> Gateway) :=
  [on_runtime (fun g => cancel (gw_cancel g)); on_runtime (fun g => cancel (gw_proberCancel g));
   on_runtime (fun g => cancel (gw_logFlusherCancel g))].

Inductive interleaving {X} : list X -> list X -> list X -> Prop :=
| inter_nil : interleaving [] [] []
| inter_left x l1 l2 l : interleaving l1 l2 l -> interleaving (x :: l1) l2 (x :: l)
| inter_right x l1 l2 l : interleaving l1 l2 l -> interleaving l1 (x :: l2) (x :: l).

Definition run_steps (l : list (Gateway -> Gateway)) (g : Gateway) : Gateway := foldl (fun g f => f g) g l.

Lemma interleaving_right {X} (l2 : list X) : interleaving [] l2 l2.
Proof. induction l2; by constructor. Qed.

Lemma interleaving_after {X} (l1 l2 : list X) : interleaving l1 l2 (l2 ++ l1).
Proof.
  induction l2 as [|x l2 IH]; simpl; [|by constructor].
  induction l1; by constructor.
Qed.

(** A reload that is under way when the gateway is closed leaves its generation
    running: nothing orders the two, and in the schedule where [Close] goes first
    the new probers and log flusher are never stopped. *)
Theorem close_races_reload cfg mux probers' plugins' g probers plugins :
  one_generation g probers plugins ->
  exists l, interleaving (install_steps cfg mux probers' plugins') close_steps l /\
    forall t, t ∈ (probing <$> probers') ++ [flushing plugins'] ->
      t ∈ running (gw_runtime (run_steps l g)).
Proof.
  intros [Hok (cp & cf & Hp & Hf & Hpf & _ & _ & Hcp & Hcf & Hcw & _) _].
  exists (close_steps ++ install_steps cfg mux probers' plugins').
  split; [apply interleaving_after|]. intros t Ht.
  set (rtc := cancel (Some cf) (cancel (Some cp) (cancel (gw_cancel g) (gw_runtime g)))).
  assert (Hnc : rt_next rtc = rt_next (gw_runtime g)) by (unfold rtc; by destruct (gw_cancel g)).
  assert (Hokc : runtime_ok rtc).
  { destruct Hok as [Hto Hxo]. split; [by destruct (gw_cancel g)|]. unfold rtc.
    destruct (gw_cancel g) as [c|]; simpl; repeat (constructor; [by auto|]); done. }
  destruct (spawn_spec (Some cp) (probing <$> probers') rtc Hokc) as (Hok2 & Hn2 & Hl2); [by rewrite Hnc|].
  destruct (spawn_spec (Some cf) [flushing plugins'] _ Hok2) as (Hok3 & Hn3 & Hl3); [rewrite Hn2, Hnc; lia|].
  assert (Ert : gw_runtime (run_steps (close_steps ++ install_steps cfg mux probers' plugins') g) =
            spawn (Some cf) [flushing plugins'] (spawn (Some cp) (probing <$> probers') rtc)).
  { unfold run_steps, close_steps, install_steps. cbn [app foldl].
    rewrite startLogFlusher_runtime, startProbers_runtime. unfold rtc. rewrite <- Hp, <- Hf. done. }
  clearbody rtc. rewrite running_live, Ert, Hl3, Hl2, Hnc.
  rewrite !filter_app, filter_ctx, decide_False by (intros E; injection E; lia).
  rewrite !fmap_app, !snd_pair_fmap. set_solver.
Qed.

(** *** Host names *)

(** The gateway's two readings of a host name differ. [HasHost], which decides
    the certificates it asks for, ignores case and a trailing dot; the routes do
    not, so a request for a configured host spelled in capitals is not routed to
    its service but to a service without a host. *)
Theorem host_case_misroutes (h1 h2 : nat) :
  let svc := mkService "shop" "/" "shop.example.com" "http://a" [] [] [] None false false in
  let any := mkService "any" "/" "" "http://b" [] [] [] None false false in
  let cfg := mkConfig [svc; any] in
  let mux := entries svc h1 ++ entries any h2 in
  HasHost (storeHosts cfg emptyGateway) "Shop.Example.com." = true /\
  mux_match mux "shop.example.com" "GET" "/" = Some h1 /\
  mux_match mux "Shop.Example.com" "GET" "/" = Some h2.
Proof. vm_compute. done. Qed.
