(* ===== verification/Generation.v ===== *)
(** * What a generation owns

    Building the routing table of a configuration allocates the objects its
    handlers share: the state of every origin, the round-robin counters, the
    buckets of the rate limits and the buffers of the access logs. This file
    follows those allocations through [Plugin.Build], [NewOriginProxy] and
    [buildMux] (gateway/gateway.go): they are all new, no two objects share an
    address, and nothing a running generation owns changes. It ends with the
    goroutine that flushes a generation's logs. *)

From S2P Require Import Prelude GoInt GoFloat OriginState Balancer RateLimit GoStrings Header Value Http HttpLog Plugin Proxy Health Config Mux Router Gateway.
From Stdlib Require Import Ascii.
#[local] Open Scope Z_scope.

(** ** Allocation *)

(** [m'] is [m] with the new objects [l], every one of them [v]. *)
Definition extends {V} (v : V) (m m' : gmap nat V) (l : list nat) : Prop :=
  m ⊆ m' /\ NoDup l /\ (forall a, a ∈ l -> m !! a = None /\ m' !! a = Some v).

Lemma extends_refl {V} (v : V) m : extends v m m [].
Proof. split_and!; [done|constructor|]. by intros a ?%elem_of_nil. Qed.

Lemma extends_trans {V} (v : V) m1 m2 m3 l l' :
  extends v m1 m2 l -> extends v m2 m3 l' -> extends v m1 m3 (l ++ l').
Proof.
  intros (H12 & Hl & Hn) (H23 & Hl' & Hn'). split_and!.
  - by etrans.
  - apply NoDup_app. split_and!; [done| |done]. intros a Ha Ha'.
    destruct (Hn a Ha) as [_ Hs], (Hn' a Ha') as [Hnone _]. congruence.
  - intros a [Ha|Ha]%elem_of_app.
    + destruct (Hn a Ha) as [Hnone Hs]. split; [done|]. by eapply lookup_weaken.
    + destruct (Hn' a Ha) as [Hnone Hs]. split; [|done]. by eapply lookup_weaken_None.
Qed.

Lemma extends_next {V} (v : V) m : extends v m (<[next_addr m := v]> m) [next_addr m].
Proof.
  split_and!; [apply insert_subseteq, next_addr_fresh|by apply NoDup_singleton|].
  intros a ->%list_elem_of_singleton. split; [apply next_addr_fresh|apply lookup_insert_eq].
Qed.

(** What a computation allocated. *)
Record owned := mkOwned {
  ow_origins : list nat;
  ow_next : list nat;
  ow_stores : list nat;
  ow_logs : list nat
}.

Definition none : owned := mkOwned [] [] [] [].

Definition both (o o' : owned) : owned :=
  mkOwned (ow_origins o ++ ow_origins o') (ow_next o ++ ow_next o') (ow_stores o ++ ow_stores o')
    (ow_logs o ++ ow_logs o').

Record grown (h h' : Heap) (o : owned) : Prop := {
  gr_origins : extends newOriginState (h_origins h) (h_origins h') (ow_origins o);
  gr_next : extends 0 (h_next h) (h_next h') (ow_next o);
  gr_stores : extends newMemoryStore (h_stores h) (h_stores h') (ow_stores o);
  gr_logs : extends EmptyString (h_logs h) (h_logs h') (ow_logs o)
}.

Lemma grown_refl h : grown h h none.
Proof. split; apply extends_refl. Qed.

Lemma grown_trans h1 h2 h3 o o' : grown h1 h2 o -> grown h2 h3 o' -> grown h1 h3 (both o o').
Proof. intros [] []. split; by eapply extends_trans. Qed.

(** A computation that changes nothing but by allocating, with what its result says
    of the objects. *)
Definition grows {A} (m : M A) (Q : A -> owned -> Prop) : Prop :=
  forall σ σ' a, m σ = (σ', Ret a) -> exists o, grown (w_heap σ) (w_heap σ') o /\ Q a o.

Lemma grows_ret {A} (a : A) (Q : A -> owned -> Prop) : Q a none -> grows (ret a) Q.
Proof. intros HQ σ σ' b [= <- <-]. exists none. split; [apply grown_refl|done]. Qed.

Lemma grows_lift {A} (r : outcome A) (Q : A -> owned -> Prop) : (forall a, r = Ret a -> Q a none) -> grows (lift r) Q.
Proof. intros HQ σ σ' b [= <- Hr]. exists none. split; [apply grown_refl|by apply HQ]. Qed.

Lemma grows_bind {A B} (m : M A) (k : A -> M B) (Q : A -> owned -> Prop) (R : B -> owned -> Prop) :
  grows m Q -> (forall a o, Q a o -> grows (k a) (fun b o' => R b (both o o'))) -> grows (bind m k) R.
Proof.
  intros Hm Hk σ σ' b. unfold bind. destruct (m σ) as [σ1 [a|]] eqn:E; [|done]. intros Hrun.
  destruct (Hm _ _ _ E) as (o & Hg & HQ). destruct (Hk a o HQ _ _ _ Hrun) as (o' & Hg' & HR).
  exists (both o o'). split; [by eapply grown_trans|done].
Qed.

(** The result is one the computation gives. *)
Lemma grows_self {A} (m : M A) (Q : A -> owned -> Prop) :
  grows m Q -> grows m (fun a o => Q a o /\ exists σ σ', m σ = (σ', Ret a)).
Proof. intros Hm σ σ' a Hrun. destruct (Hm _ _ _ Hrun) as (o & Hg & HQ). eauto 7. Qed.

Lemma grows_impl {A} (m : M A) (Q R : A -> owned -> Prop) :
  grows m Q -> (forall a o, Q a o -> R a o) -> grows m R.
Proof. intros Hm HQR σ σ' a Hrun. destruct (Hm _ _ _ Hrun) as (o & Hg & HQ). eauto. Qed.

(** Reading an address and allocating there, in one. *)
Lemma grows_alloc {A} (read : World -> nat) (f : nat -> Heap -> Heap) (own : nat -> owned) (k : nat -> M A) Q :
  (forall σ, grown (w_heap σ) (f (read σ) (w_heap σ)) (own (read σ))) ->
  (forall a, grows (k a) (fun b o => Q b (both (own a) o))) ->
  grows (let* a := get read in on_heap (f a);; k a) Q.
Proof.
  intros Hf Hk σ σ' b Hrun. unfold bind, get, on_heap, modify in Hrun.
  destruct (Hk _ _ _ _ Hrun) as (o & Hg & HQ). eexists. split; [|exact HQ].
  eapply grown_trans; [apply Hf|exact Hg].
Qed.

Lemma both_none_r o : both o none = o.
Proof. destruct o. unfold both. simpl. by rewrite !app_nil_r. Qed.

Lemma both_none_l o : both none o = o.
Proof. by destruct o. Qed.

(** ** Plugins *)

Definition owned_plugin (p : Plugin) : owned :=
  match p with
  | httpLog a => mkOwned [] [] [] [a]
  | rateLimiting _ _ (memoryAt a) => mkOwned [] [] [a] []
  | _ => none
  end.

Definition owned_plugins (ps : list Plugin) : owned := foldr both none (owned_plugin <$> ps).

(** The buckets of the rate limits among some plugins; [loggers] are their logs. *)
Definition stores (ps : list Plugin) : list nat :=
  omap (fun p => match p with rateLimiting _ _ (memoryAt a) => Some a | _ => None end) ps.

Lemma owned_plugins_spec ps : owned_plugins ps = mkOwned [] [] (stores ps) (loggers ps).
Proof.
  unfold owned_plugins. induction ps as [|p ps IH]; [done|]. cbn [fmap list_fmap foldr]. rewrite IH.
  destruct p as [| | | | | |? ? []]; done.
Qed.

Definition plugin_owns (name : string) (r : result error Plugin) (o : owned) : Prop :=
  match r with Ok p => o = owned_plugin p /\ Name p = name | Err _ => True end.

Section allocation.
Context `{Platform, MapRange, Env, OS, SugarNode, JWT, TraceContext}.

Lemma newHTTPLog_grows : grows newHTTPLog (fun p o => o = owned_plugin (httpLog p)).
Proof.
  apply (grows_alloc (fun σ => next_addr (h_logs (w_heap σ))) (fun p => set_logs (insert p EmptyString))
    (fun p => owned_plugin (httpLog p))).
  - intros σ. split; try apply extends_refl. apply extends_next.
  - intros p. apply grows_ret. by rewrite both_none_r.
Qed.

Lemma shared_grows {A} (k : result error unit -> M A) Q :
  (forall x, grows (k x) Q) -> grows (bind getSharedSugarDBStore k) Q.
Proof.
  intros Hk. apply (grows_bind _ _ (fun _ o => o = none)).
  - intros σ σ' x. unfold getSharedSugarDBStore, bind, get, on_heap, modify, ret.
    destruct (h_sugar (w_heap σ)); intros [= <- _]; exists none; (split; [split; apply extends_refl|done]).
  - intros x o ->. eapply grows_impl; [apply Hk|]. intros a o. by rewrite both_none_l.
Qed.

Lemma newRateLimiting_grows cfg id : grows (newRateLimiting cfg id) (plugin_owns "rate_limiting").
Proof.
  unfold newRateLimiting.
  destruct (rate_config cfg) as [[rps burst]|e]; [|by apply grows_ret].
  cbv zeta. destruct (in_memory cfg); [|destruct (String.eqb _ _)].
  - apply (grows_alloc (fun σ => next_addr (h_stores (w_heap σ))) (fun a => set_stores (insert a newMemoryStore))
      (fun a => mkOwned [] [] [a] [])).
    + intros σ. split; try apply extends_refl. apply extends_next.
    + intros a. apply grows_ret. done.
  - apply shared_grows. intros x. apply grows_ret. unfold rmap_err, rbind, plugin_owns. by destruct x.
  - by apply grows_ret.
Qed.

Lemma Build_grows name cfg id : grows (Plugin.Build name cfg id) (plugin_owns name).
Proof.
  unfold Plugin.Build, builtins.
  destruct (String.eqb_spec name "rate_limiting") as [->|_]; [apply newRateLimiting_grows|].
  repeat match goal with |- context [if String.eqb name ?s then Some _ else _] =>
    destruct (String.eqb_spec name s) as [->|_] end; try apply grows_ret; cbn [plugin_owns].
  - unfold newAddHeader, rbind. by repeat case_match; simplify_eq.
  - apply (grows_bind _ _ (fun p o => o = owned_plugin (httpLog p))); [apply newHTTPLog_grows|].
    intros p o ->. apply grows_ret. done.
  - unfold newRequestSizeLimiting, rbind. by repeat case_match; simplify_eq.
  - unfold newJWTAuth. by repeat case_match; simplify_eq.
  - unfold rbind. by case_match.
  - unfold rbind. by case_match.
  - done.
Qed.

(** [p] is what [Build] makes of an entry of the configuration. *)
Definition makes (id : string) (pc : PluginConfig) (p : Plugin) : Prop :=
  Name p = pc_Name pc /\ exists σ σ', Plugin.Build (pc_Name pc) (pc_Config pc) id σ = (σ', Ret (Ok p)).

(** The plugins of a service, the [i]-th on, are made of its entries. *)
Fixpoint made (name : string) (i : nat) (pcs : list PluginConfig) (ps : list Plugin) : Prop :=
  match pcs, ps with
  | [], [] => True
  | pc :: pcs, p :: ps => makes (instance_id name i) pc p /\ made name (S i) pcs ps
  | _, _ => False
  end.

Lemma made_split name i pre pc post ps :
  made name i (pre ++ pc :: post) ps ->
  exists ps1 p ps2, ps = ps1 ++ p :: ps2 /\ made name i pre ps1 /\ makes (instance_id name (i + length pre)) pc p.
Proof.
  revert i ps. induction pre as [|pc' pre IH]; intros i [|p ps]; try done; cbn [made app].
  - intros [Hp _]. exists [], p, ps. by rewrite Nat.add_0_r.
  - intros [Hp (ps1 & q & ps2 & -> & Hps & Hq)%IH]. exists (p :: ps1), q, ps2. split_and!; [done..|].
    cbn [length]. by rewrite Nat.add_succ_r.
Qed.

Lemma made_each name i pcs ps : made name i pcs ps -> Forall2 (fun pc p => exists id, makes id pc p) pcs ps.
Proof.
  revert i ps. induction pcs as [|pc pcs IH]; intros i [|p ps]; cbn [made]; [constructor|done..|].
  intros [Hp Hps]. constructor; [by eexists|by eapply IH].
Qed.

Definition plugins_own (name : string) (i : nat) (pcs : list PluginConfig) (r : result error (list Plugin)) (o : owned) : Prop :=
  match r with Ok ps => o = mkOwned [] [] (stores ps) (loggers ps) /\ made name i pcs ps | Err _ => True end.

Lemma plugins_own_cons p ps : both (owned_plugin p) (mkOwned [] [] (stores ps) (loggers ps)) =
  mkOwned [] [] (stores (p :: ps)) (loggers (p :: ps)).
Proof. by destruct p as [| | | | | |? ? []]. Qed.

Lemma build_plugins_grows name i pcs : grows (build_plugins name i pcs) (plugins_own name i pcs).
Proof.
  revert i. induction pcs as [|pc pcs IH]; intros i; cbn [build_plugins]; [by apply grows_ret|].
  eapply grows_bind; [apply grows_self, Build_grows|].
  intros [p|e] o [Ho Hp]; [|by apply grows_ret].
  apply (grows_bind _ _ (plugins_own name (S i) pcs)); [apply IH|]. intros [ps|e] o' Ho'; [|by apply grows_ret].
  apply grows_ret. cbn [rbind plugins_own plugin_owns] in *. destruct Ho as [-> Hn], Ho' as [-> Hps].
  rewrite both_none_r, plugins_own_cons. split; [done|]. split; [|done]. split; eauto.
Qed.

(** ** Origins *)

Definition origins_own (urls : list string) (r : result error (list lbOrigin)) (o : owned) : Prop :=
  match r with
  | Ok os => o = mkOwned (lo_state <$> os) [] [] [] /\ lo_url <$> os = urls
  | Err _ => True
  end.

Lemma build_origins_grows name urls timeout retry :
  grows (build_origins name urls timeout retry) (origins_own urls).
Proof.
  induction urls as [|u urls IH]; cbn [build_origins]; [by apply grows_ret|].
  destruct (NewReverseProxy name u timeout retry) as [rp|e]; [|by apply grows_ret].
  apply (grows_alloc (fun σ => next_addr (h_origins (w_heap σ))) (fun a => set_origins (insert a newOriginState))
    (fun a => mkOwned [a] [] [] [])).
  - intros σ. split; try apply extends_refl. apply extends_next.
  - intros a. apply (grows_bind _ _ (origins_own urls)); [exact IH|]. intros [os|e] o Ho; [|by apply grows_ret].
    apply grows_ret. cbn [rbind origins_own] in *. destruct Ho as [-> Hu]. rewrite both_none_r. split; [done|]. cbn [fmap list_fmap]. by rewrite <- Hu.
Qed.

Definition owned_proxy (lb : originProxy) : owned := mkOwned (lo_state <$> op_origins lb) [op_next lb] [] [].

Definition proxy_owns (name : string) (urls : list string) (cooldown : Duration) (breaker : BreakerOptions)
    (r : result error originProxy) (o : owned) : Prop :=
  match r with
  | Ok lb => o = owned_proxy lb /\ op_name lb = name /\ lo_url <$> op_origins lb = urls /\
      op_cooldown lb = cooldown /\ op_breaker lb = breaker
  | Err _ => True
  end.

Lemma NewOriginProxy_grows name urls timeout cooldown retry breaker :
  grows (NewOriginProxy name urls timeout cooldown retry breaker) (proxy_owns name urls cooldown breaker).
Proof.
  unfold NewOriginProxy. destruct urls as [|u urls]; [by apply grows_ret|].
  apply (grows_alloc (fun σ => next_addr (h_next (w_heap σ))) (fun n => set_next (insert n 0))
    (fun n => mkOwned [] [n] [] [])).
  - intros σ. split; try apply extends_refl. apply extends_next.
  - intros n. apply (grows_bind _ _ (origins_own (u :: urls))); [apply build_origins_grows|].
    intros [os|e] o Ho; [|by apply grows_ret]. apply grows_ret. cbn [rbind origins_own proxy_owns] in *.
    destruct Ho as [-> Hu]. by rewrite both_none_r.
Qed.

(** ** The table *)

(** What stands behind the route of one service: its plugins, the gateway's limit
    first, and the proxy to its origins. *)
Definition backend : Type := list Plugin * originProxy.

Definition service_origins (svc : Service) : list string :=
  match svc_OriginURLs svc with [] => [svc_OriginURL svc] | us => us end.

Record built_for (opts : resolvedOptions) (svc : Service) (b : backend) : Prop := {
  bf_plugins : exists own, b.1 = NewRequestSizeLimiting (maxBodyBytes opts) :: own /\
    made (svc_Name svc) 0 (svc_Plugins svc) own;
  bf_proxy : exists σ σ', NewOriginProxy (svc_Name svc) (service_origins svc) (originTimeout opts) (unhealthyCooldown opts)
    (mkRetryOptions (retryMaxAttempts opts) (retryBackoffBase opts) (svc_RetryUnsafeMethods svc))
    (mkBreakerOptions (breakerThreshold opts) (breakerCooldown opts)) σ = (σ', Ret (Ok b.2));
  bf_name : op_name b.2 = svc_Name svc;
  bf_urls : lo_url <$> op_origins b.2 = service_origins svc;
  bf_cooldown : op_cooldown b.2 = unhealthyCooldown opts;
  bf_breaker : op_breaker b.2 = mkBreakerOptions (breakerThreshold opts) (breakerCooldown opts)
}.

Definition backend_handler (svc : Service) (b : backend) : Handler := service_handler svc b.1 b.2.

(** The objects some backends share with the goroutines. *)
Definition owned_backends (bs : list backend) : owned :=
  mkOwned (concat ((fun b => lo_state <$> op_origins b.2) <$> bs)) ((fun b => op_next b.2) <$> bs)
    (stores (concat bs.*1)) (loggers (concat bs.*1)).

(** The origins some probers mark. *)
Definition probed (probers : list Prober) : list nat := concat ((fun p => pt_state <$> targets p) <$> probers).

Lemma loggers_app ps qs : loggers (ps ++ qs) = loggers ps ++ loggers qs.
Proof. apply omap_app. Qed.

Lemma stores_app ps qs : stores (ps ++ qs) = stores ps ++ stores qs.
Proof. apply omap_app. Qed.

Lemma probed_app ps qs : probed (ps ++ qs) = probed ps ++ probed qs.
Proof. unfold probed. by rewrite fmap_app, concat_app. Qed.

Lemma owned_backends_cons b bs :
  both (mkOwned (lo_state <$> op_origins b.2) [op_next b.2] (stores b.1) (loggers b.1)) (owned_backends bs) =
  owned_backends (b :: bs).
Proof. unfold both, owned_backends. simpl. by rewrite stores_app, loggers_app. Qed.

(** What [handlerFor] adds to the slices it is given, and what the handler owns. *)
Definition adds (opts : resolvedOptions) (svc : Service) (acc : list Prober * list Plugin)
    (r : (list Prober * list Plugin) * result error Handler) (o : owned) : Prop :=
  match r.2 with
  | Ok h => exists b p, h = backend_handler svc b /\ built_for opts svc b /\
      service_prober svc opts b.2 = Ok p /\ r.1 = (acc.1 ++ option_list p, acc.2 ++ b.1) /\
      o = mkOwned (lo_state <$> op_origins b.2) [op_next b.2] (stores b.1) (loggers b.1)
  | Err _ => True
  end.

Lemma handlerFor_grows opts svc acc : grows (handlerFor opts svc acc) (adds opts svc acc).
Proof.
  destruct acc as [probers allPlugins]. unfold handlerFor.
  eapply grows_bind; [apply build_plugins_grows|]. intros [built|e] o Ho; [|by apply grows_ret].
  eapply grows_bind; [apply grows_self, NewOriginProxy_grows|]. intros [lb|e] o' [Ho' Hlb]; [|by apply grows_ret].
  destruct (service_prober svc opts lb) as [p|e] eqn:Ep; [|by apply grows_ret]. apply grows_ret.
  destruct Ho as [-> Hmade], Ho' as (-> & Hname & Hurls & Hcool & Hbr). rewrite both_none_r.
  exists (NewRequestSizeLimiting (maxBodyBytes opts) :: built, lb), p.
  split_and!; [done| |done|done|].
  - split; [by exists built|exact Hlb|done..].
  - unfold both. simpl. by rewrite !app_nil_r.
Qed.

(** The table of some services: their routes to their backends, the plugins and the
    probers of all. *)
Definition table (opts : resolvedOptions) (svcs : list Service) (mux : ServeMux Handler)
    (probers : list Prober) (plugins : list Plugin) (bs : list backend) : Prop :=
  Forall2 (built_for opts) svcs bs /\
  mux = concat (zip_with entries svcs (zip_with backend_handler svcs bs)) /\
  plugins = concat bs.*1 /\
  exists ps, Forall2 (fun x p => service_prober x.1 opts x.2 = Ok p) (zip svcs bs.*2) ps /\
    probers = concat (option_list <$> ps).

Lemma build_services_grows opts svcs mux acc :
  grows (build_services svcs (handlerFor opts) mux acc)
    (fun r o => match r.2 with
                | Ok mux' => exists bs new probers plugins, table opts svcs new probers plugins bs /\
                    mux' = mux ++ new /\ r.1 = (acc.1 ++ probers, acc.2 ++ plugins) /\ o = owned_backends bs
                | Err _ => True
                end).
Proof.
  revert mux acc. induction svcs as [|svc svcs IH]; intros mux acc; cbn [build_services].
  - apply grows_ret. exists [], [], [], []. destruct acc. simpl. rewrite !app_nil_r.
    split_and!; try done. split_and!; [constructor|done|done|]. by exists [].
  - eapply grows_bind; [apply handlerFor_grows|].
    intros [acc1 [h|e]] o Ho; [|by apply grows_ret].
    destruct Ho as (b & p & Eh & Hb & Hp & E & Eo). simpl in E, Eh. subst acc1 h o.
    apply (grows_bind _ _ (fun m o => add_service mux svc (backend_handler svc b) = Ret m /\ o = none));
      [by apply grows_lift|].
    intros mux1 o [[_ ->]%add_service_Ret ->].
    eapply grows_impl; [apply IH|]. intros [acc2 [m|e]] o' HQ; [|done].
    destruct HQ as (bs & new & ps & pl & (Hbs & Hnew & Hpl & qs & Hqs & Hps) & Em & E & ->). simpl in E, Em |- *.
    subst. rewrite both_none_l, owned_backends_cons.
    exists (b :: bs), (entries svc (backend_handler svc b) ++ concat (zip_with entries svcs (zip_with backend_handler svcs bs))),
      (option_list p ++ concat (option_list <$> qs)), (b.1 ++ concat bs.*1).
    rewrite <- !app_assoc. split_and!; try done.
    split_and!; [by constructor|done|done|]. exists (p :: qs). split; [by constructor|done].
Qed.

Lemma buildMux_grows cfg opts :
  grows (buildMux cfg opts)
    (fun r o => match r with
                | Ok (mux, probers, plugins) => exists bs, table opts (Services cfg) mux probers plugins bs /\
                    o = owned_backends bs
                | Err _ => True
                end).
Proof.
  unfold buildMux, Router.Build. eapply grows_bind; [apply build_services_grows|].
  intros [acc [mux|e]] o Ho; [|by apply grows_ret]. apply grows_ret.
  destruct Ho as (bs & new & ps & pl & Ht & E & Ea & ->). simpl in *. subst acc mux. rewrite both_none_r. by exists bs.
Qed.

(** The probers' origins are among those of the backends, each once. *)
Lemma service_prober_owns svc opts lb p :
  service_prober svc opts lb = Ok p ->
  probed (option_list p) `sublist_of` lo_state <$> op_origins lb.
Proof.
  unfold service_prober. destruct (svc_HealthCheck svc) as [hc|]; [|intros [= <-]; apply sublist_nil_l].
  destruct (if String.eqb (hc_Interval hc) "" then _ else _) as [iv|e]; [|done]. cbn [rbind]. intros [= <-].
  destruct (String.eqb _ ""); [apply sublist_nil_l|]. unfold probed, ProbeTargets. cbn.
  rewrite app_nil_r, <- list_fmap_compose. done.
Qed.

Lemma table_probed opts svcs mux probers plugins bs :
  table opts svcs mux probers plugins bs -> probed probers `sublist_of` ow_origins (owned_backends bs).
Proof.
  intros (Hbs & _ & _ & ps & Hps & ->). cbn [owned_backends ow_origins]. clear mux plugins.
  revert ps Hps. induction Hbs as [|svc b svcs bs Hb Hbs IH]; intros ps Hps.
  - inversion Hps. subst. apply sublist_nil_l.
  - inversion Hps as [|? p ? ps' Hp Hps']. subst. cbn [fmap list_fmap concat]. rewrite probed_app.
    apply sublist_app; [by eapply service_prober_owns|by apply IH].
Qed.

(** ** The goroutine of [startLogFlusher] *)

Fixpoint flush_loop (plugins : list Plugin) (signals : list signal) : M unit :=
  match signals with
  | [] | CtxDone :: _ => ret tt
  | Tick :: signals => FlushLoggers plugins;; flush_loop plugins signals
  end.

Definition log_flusher (plugins : list Plugin) (signals : list signal) : M unit :=
  NewTicker DefaultLogFlushInterval;;
  flush_loop plugins signals.

(** ** Properties *)

(** The objects of some backends are allocated, each for one of them only. *)
Record well_owned (h : Heap) (bs : list backend) : Prop := {
  wo_origins : NoDup (ow_origins (owned_backends bs)) /\
    forall a, a ∈ ow_origins (owned_backends bs) -> is_Some (h_origins h !! a);
  wo_next : NoDup (ow_next (owned_backends bs)) /\
    forall a, a ∈ ow_next (owned_backends bs) -> is_Some (h_next h !! a);
  wo_stores : NoDup (ow_stores (owned_backends bs)) /\
    forall a, a ∈ ow_stores (owned_backends bs) -> is_Some (h_stores h !! a);
  wo_logs : NoDup (ow_logs (owned_backends bs)) /\
    forall a, a ∈ ow_logs (owned_backends bs) -> is_Some (h_logs h !! a)
}.

(** They are as new: origins up and without failures, the count of requests at zero,
    no visitors, empty buffers. *)
Record pristine (h : Heap) (bs : list backend) : Prop := {
  pr_origins : forall a, a ∈ ow_origins (owned_backends bs) -> h_origins h !! a = Some newOriginState;
  pr_next : forall a, a ∈ ow_next (owned_backends bs) -> h_next h !! a = Some 0;
  pr_stores : forall a, a ∈ ow_stores (owned_backends bs) -> h_stores h !! a = Some newMemoryStore;
  pr_logs : forall a, a ∈ ow_logs (owned_backends bs) -> h_logs h !! a = Some EmptyString
}.

(** Nothing belongs to both. *)
Record apart (bs bs' : list backend) : Prop := {
  ap_origins : ow_origins (owned_backends bs) ## ow_origins (owned_backends bs');
  ap_next : ow_next (owned_backends bs) ## ow_next (owned_backends bs');
  ap_stores : ow_stores (owned_backends bs) ## ow_stores (owned_backends bs');
  ap_logs : ow_logs (owned_backends bs) ## ow_logs (owned_backends bs')
}.

(** C14. A configuration is built beside what runs, never over it. Whether it succeeds
    or not, building a routing table leaves every origin state, request counter,
    rate-limit bucket and log buffer there is as it is, so a reload neither resets
    nor shares the state of the generation whose requests are still under way. The
    table it gives has for every service a backend with the plugins [Build]
    makes of its entries, behind the gateway's own limit, and the origins it lists;
    what the backends own is allocated, distinct, not in use before, and as new. *)
Theorem buildMux_fresh cfg opts σ σ' r :
  buildMux cfg opts σ = (σ', Ret r) ->
  let h := w_heap σ in let h' := w_heap σ' in
  (h_origins h ⊆ h_origins h' /\ h_next h ⊆ h_next h' /\ h_stores h ⊆ h_stores h' /\ h_logs h ⊆ h_logs h') /\
  match r with
  | Err _ => True
  | Ok (mux, probers, plugins) => exists bs, table opts (Services cfg) mux probers plugins bs /\
      well_owned h' bs /\ pristine h' bs /\ NoDup (probed probers) /\ NoDup (loggers plugins) /\
      forall bs0, well_owned h bs0 -> well_owned h' bs0 /\ apart bs0 bs
  end.
Proof.
  intros (o & Hg & Hown)%buildMux_grows h h'. subst h h'. split; [by destruct Hg as [[] [] [] []]|].
  destruct r as [[[mux probers] plugins]|]; [|done]. destruct Hown as (bs & Ht & ->). exists bs.
  pose proof (table_probed _ _ _ _ _ _ Ht) as Hsub.
  destruct Hg as [(Ho & Hod & Hof) (Hn & Hnd & Hnf) (Hs & Hsd & Hsf) (Hl & Hld & Hlf)].
  split_and!; [done| | | | |].
  - split; (split; [done|]); intros a Ha; [apply Hof in Ha|apply Hnf in Ha|apply Hsf in Ha|apply Hlf in Ha];
      destruct Ha as [_ ->]; eauto.
  - split; intros a Ha; [apply Hof in Ha|apply Hnf in Ha|apply Hsf in Ha|apply Hlf in Ha]; tauto.
  - exact (sublist_NoDup _ _ Hod Hsub).
  - destruct Ht as (_ & _ & -> & _). done.
  - intros bs0 [[Ho1 Ho2] [Hn1 Hn2] [Hs1 Hs2] [Hl1 Hl2]]. split.
    + split; (split; [done|]); intros a Ha;
        [apply Ho2 in Ha|apply Hn2 in Ha|apply Hs2 in Ha|apply Hl2 in Ha];
        destruct Ha as [v Hv]; exists v; by eapply lookup_weaken.
    + split; intros a Ha Ha'; [apply Ho2 in Ha; apply Hof in Ha'|apply Hn2 in Ha; apply Hnf in Ha'|
        apply Hs2 in Ha; apply Hsf in Ha'|apply Hl2 in Ha; apply Hlf in Ha'];
        destruct Ha as [v Hv], Ha' as [Hnone _]; congruence.
Qed.

(** A tick of the flusher writes out all that the generation's logs hold. *)
Theorem flusher_writes_out plugins σ signals :
  NoDup (loggers plugins) ->
  exists σ1 σ', flush_loop plugins [Tick] σ = (σ1, Ret tt) /\
    log_flusher plugins (Tick :: signals) σ = flush_loop plugins signals σ1 /\
    stdout (w_events σ1) = (stdout (w_events σ) +:+ concat_str ((fun p => buffer p σ) <$> loggers plugins))%string /\
    (forall p, p ∈ loggers plugins -> buffer p σ1 = EmptyString) /\
    flush_loop plugins signals σ1 = (σ', Ret tt).
Proof.
  intros Hnd. destruct (FlushLoggers_empties plugins σ Hnd) as (σ1 & Hf & Ho & Hb).
  assert (Hloop : forall l σ, exists σ', flush_loop plugins l σ = (σ', Ret tt)).
  { induction l as [|[] l IH]; intros σ0; cbn [flush_loop]; [by eexists..|]. unfold bind.
    destruct (FlushLoggers_empties plugins σ0 Hnd) as (σ2 & -> & _). apply IH. }
  destruct (Hloop signals σ1) as [σ' Hrun]. exists σ1, σ'. split_and!; try done.
  - cbn [flush_loop]. unfold bind. by rewrite Hf.
  - cbn [flush_loop log_flusher]. unfold log_flusher, bind. cbn [flush_loop]. unfold NewTicker, bind. simpl. by rewrite Hf.
  - intros p Hp. rewrite Hb. by rewrite bool_decide_eq_true_2.
Qed.

End allocation.
