(* ===== verification/Pipeline.v ===== *)
(** * A request through the gateway

    The composition of [Gateway.ServeHTTP] (gateway/gateway.go): the client's
    address, the request id, the span, the routing table, and the backend of the
    service the table finds. *)

From stdpp Require Import sorting.
From S2P Require Import Prelude GoInt GoFloat OriginState Balancer GoStrings Header Value Http Url Tracing ClientIP Plugin Proxy Health Config Mux Router Gateway Generation.
From Stdlib Require Import Ascii.
#[local] Open Scope Z_scope.

(** ** Which route a request takes *)

(** The host and the path the table looks at: without the port and clean, but for
    CONNECT; and the host it looks at for the methods a 405 allows. *)
Definition routed_host (r : Request) : string :=
  if String.eqb (r_Method r) "CONNECT" then r_Host r else stripHostPort (r_Host r).
Definition routed_path (r : Request) : string :=
  if String.eqb (r_Method r) "CONNECT" then escaped_path r else cleanPath (escaped_path r).
Definition allowed_host (r : Request) : string :=
  if String.eqb (r_Method r) "CONNECT" then r_URLHost r else stripHostPort (r_Host r).

Definition route_of {A} (m : ServeMux A) (r : Request) : route A := findHandler m r.

Definition paired {A} (m : ServeMux A) : ServeMux (pattern * A) := (fun x => (x.1, x)) <$> m.

Lemma paired_elem {A} (m : ServeMux A) p x : (p, x) ∈ paired m <-> x.1 = p /\ x ∈ m.
Proof.
  unfold paired. rewrite list_elem_of_fmap. split.
  - by intros ([p' a] & [= -> ->] & Hin).
  - intros [<- Hin]. by exists x.
Qed.

(** A pattern of the table for a path, or for its tree, whatever the method. *)
Definition any_method {A} (m : ServeMux A) (host path : string) (p : pattern) : Prop :=
  (exists a, (p, a) ∈ m) /\ (p_host p = host \/ p_host p = EmptyString) /\ p_method p <> EmptyString /\
  (segs_match (p_segs p) (path_segs path) = true \/ segs_match (p_segs p) (path_segs (path +:+ "/")) = true).

Lemma matchingMethods_elem {A} (m : ServeMux A) host path me :
  me ∈ matchingMethods m host path ->
  exists p, any_method m host path p /\ (p_method p = me \/ me = "HEAD"%string /\ p_method p = "GET"%string).
Proof.
  unfold matchingMethods. cbv zeta. rewrite elem_of_remove_dups. set (ms := methods_at m host path ++ _).
  assert (Hms : forall me, me ∈ ms -> exists p, any_method m host path p /\ p_method p = me).
  { unfold any_method. intros me' [Hin|Hin]%elem_of_app; [|destruct (has_suffix_slash path); [by apply elem_of_nil in Hin|]];
      apply methods_at_elem in Hin as (p & a & ? & ? & ? & ? & ?); exists p; eauto 10. }
  case_bool_decide as Hget; [|intros (p & ? & ?)%Hms; eauto].
  intros [->|Hin]%elem_of_cons; [|apply Hms in Hin as (p & ? & ?); eauto].
  apply Hms in Hget as (p & ? & ?). eauto.
Qed.

Lemma matchingMethods_complete {A} (m : ServeMux A) host path p :
  any_method m host path p -> segs_match (p_segs p) (path_segs path) = true -> p_method p ∈ matchingMethods m host path.
Proof.
  intros ((a & Hin) & Hh & Hm & _) Es. unfold matchingMethods. cbv zeta. apply elem_of_remove_dups.
  assert (Hat : p_method p ∈ methods_at m host path) by (apply methods_at_elem; eauto 10).
  case_bool_decide; [right|]; apply elem_of_app; by left.
Qed.

Lemma matchingMethods_nil {A} (m : ServeMux A) host path p :
  matchingMethods m host path = [] -> any_method m host path p -> segs_match (p_segs p) (path_segs path) = false.
Proof.
  intros Hnil Ho. apply not_true_is_false. intros Hx%(matchingMethods_complete _ _ _ _ Ho).
  rewrite Hnil in Hx. by apply elem_of_nil in Hx.
Qed.

Lemma exactMatch_Some {A} (x : option (pattern * A)) path : exactMatch x path = true -> exists p a, x = Some (p, a).
Proof. destruct x as [[p a]|]; [eauto|done]. Qed.

Lemma route_of_match {A} (m : ServeMux A) r :
  match route_of m r with
  | Found h => (exists p, mux_match (paired m) (routed_host r) (r_Method r) (routed_path r) = Some (p, h)) /\
      routed_path r = escaped_path r
  | RedirectTo path query => query = r_RawQuery r /\
      (path = routed_path r /\ routed_path r <> escaped_path r \/
       path = (cleanPath (r_Path r) +:+ "/")%string /\ HasSuffixSlash (routed_path r) = false /\
       exists p h, mux_match (paired m) (allowed_host r) (r_Method r) (routed_path r +:+ "/") = Some (p, h))
  | MethodNotAllowed allow => mux_match (paired m) (routed_host r) (r_Method r) (routed_path r) = None /\
      allow = matchingMethods m (allowed_host r) (routed_path r) /\ allow <> []
  | NotFound => mux_match (paired m) (routed_host r) (r_Method r) (routed_path r) = None /\
      matchingMethods m (allowed_host r) (routed_path r) = []
  end.
Proof.
  unfold route_of, findHandler, routed_host, routed_path, allowed_host, wants_slash. fold (paired m). cbv zeta.
  destruct (String.eqb (r_Method r) "CONNECT").
  - destruct (_ && _) eqn:E.
    + apply andb_true_iff in E as [[_ E]%andb_true_iff E']. apply negb_true_iff in E. apply exactMatch_Some in E' as (p & h & E'). eauto 10.
    + destruct (mux_match (paired m) (r_Host r) _ _) as [[p h]|]; [eauto|]. by destruct (matchingMethods _ _ _).
  - destruct (_ && _) eqn:E.
    + apply andb_true_iff in E as [[_ E]%andb_true_iff E']. apply negb_true_iff in E. apply exactMatch_Some in E' as (p & h & E'). eauto 10.
    + destruct (String.eqb_spec (cleanPath (escaped_path r)) (escaped_path r)) as [Ec|Ec]; cbn [negb]; [|auto].
      destruct (mux_match (paired m) _ _ _) as [[p h]|]; [eauto|]. by destruct (matchingMethods _ _ _).
Qed.

(** In the table of some services: the handler found is that of a service with a
    route for the request, one for the request's host if there is any; where none is
    found no service has a route for it, and the answer says whether one has for
    another method. *)
Definition unserved (svcs : list Service) (r : Request) : Prop :=
  ~ host_serves svcs (routed_host r) (r_Method r) (path_segs (routed_path r)) /\
  ~ host_serves svcs EmptyString (r_Method r) (path_segs (routed_path r)).

Definition other_method (r : Request) (p : pattern) : Prop :=
  (p_host p = allowed_host r \/ p_host p = EmptyString) /\ p_method p <> EmptyString /\
  (segs_match (p_segs p) (path_segs (routed_path r)) = true \/
   segs_match (p_segs p) (path_segs (routed_path r +:+ "/")) = true).

(** The request lacks the slash of a tree that a service has a route for. *)
Definition tree_route (svcs : list Service) (r : Request) : Prop :=
  HasSuffixSlash (routed_path r) = false /\
  exists i p, serves svcs i p /\ (p_host p = allowed_host r \/ p_host p = EmptyString) /\
    admits p (r_Method r) (path_segs (routed_path r +:+ "/")) = true.

Lemma route_of_services {A} svcs (hs : list A) r :
  length hs = length svcs ->
  let segs := path_segs (routed_path r) in
  match route_of (concat (zip_with entries svcs hs)) r with
  | Found h => exists i p, hs !! i = Some h /\ serves svcs i p /\ admits p (r_Method r) segs = true /\
      (p_host p = routed_host r \/
       p_host p = EmptyString /\ ~ host_serves svcs (routed_host r) (r_Method r) segs)
  | RedirectTo path query => query = r_RawQuery r /\
      (path = routed_path r /\ routed_path r <> escaped_path r \/
       path = (cleanPath (r_Path r) +:+ "/")%string /\ tree_route svcs r)
  | MethodNotAllowed allow => unserved svcs r /\ allow <> [] /\
      (forall i p, serves svcs i p -> other_method r p -> segs_match (p_segs p) segs = true -> p_method p ∈ allow) /\
      forall me, me ∈ allow -> exists i p, serves svcs i p /\ other_method r p /\
        (p_method p = me \/ me = "HEAD"%string /\ p_method p = "GET"%string)
  | NotFound => unserved svcs r /\ forall i p, serves svcs i p -> other_method r p ->
      segs_match (p_segs p) segs = false
  end.
Proof.
  intros Hl segs. set (m := concat _).
  assert (Helem : forall p, (exists a, (p, a) ∈ m) <-> exists i, serves svcs i p).
  { intros p. unfold m. setoid_rewrite concat_entries_elem; [|done]. split; [naive_solver|]. intros (i & Hs).
    destruct (lookup_lt_is_Some_2 hs i) as [a Hi]; [|eauto].
    rewrite Hl. destruct Hs as (svc & ? & ?%lookup_lt_Some & _). lia. }
  assert (Hof : forall h, host_serves svcs h (r_Method r) segs ->
            exists p x, (p, x) ∈ paired m /\ p_host p = h /\ admits p (r_Method r) segs = true).
  { intros h (i & p & Hs & Hh & Ha). destruct (lookup_lt_is_Some_2 hs i) as [a Hi].
    { rewrite Hl. destruct Hs as (svc & ? & ?%lookup_lt_Some & _). lia. }
    exists p, (p, a). split_and!; [|done|done]. apply paired_elem. split; [done|].
    apply concat_entries_elem; eauto. }
  pose proof (mux_match_spec (paired m) (routed_host r) (r_Method r) (routed_path r)) as Hspec.
  simpl in Hspec. fold segs in Hspec. pose proof (route_of_match m r) as Hr.
  destruct (route_of m r) as [h|path query|allow|].
  2: { destruct Hr as (-> & [Hr|(Ep & Hsl & p' & x & Hr)]); (split; [done|]); [by left|right]. split; [done|]. split; [done|].
    pose proof (mux_match_spec (paired m) (allowed_host r) (r_Method r) (routed_path r +:+ "/")) as Hx. simpl in Hx. rewrite Hr in Hx.
    destruct Hx as (p & [Ep' Hin]%paired_elem & Ha & Hh). simpl in Ep', Hin. subst p'.
    assert (Hp : exists a, (p, a) ∈ m) by eauto. apply Helem in Hp as [i Hp]. exists i, p. naive_solver. }
  2: { destruct Hr as (Hr & Ea & Hne). rewrite Hr in Hspec. split; [split; naive_solver|]. split; [done|].
    split; [intros i p Hs Ho Hseg; rewrite Ea; apply matchingMethods_complete; [|exact Hseg]; split; [|exact Ho]; apply Helem; by exists i|].
    intros me Hme. rewrite Ea in Hme. apply matchingMethods_elem in Hme as (p & (Hp & Ho) & Hx).
    apply Helem in Hp as [i Hp]. by exists i, p. }
  2: { destruct Hr as (Hr & Ea). rewrite Hr in Hspec. split; [split; naive_solver|]. intros i p Hs Ho.
    eapply matchingMethods_nil; [exact Ea|]. split; [|exact Ho]. apply Helem. by exists i. }
  destruct Hr as [[p' Hr] _]. rewrite Hr in Hspec. destruct Hspec as (p & [Ep Hin]%paired_elem & Ha & Hh).
  simpl in Ep. subst p'. apply concat_entries_elem in Hin as (i & Hi & Hs); [|done].
  exists i, p. split_and!; try done. naive_solver.
Qed.

(** ** The middleware *)

Section pipeline.
Context `{Platform, MapRange, Env, OS, SugarNode, JWT, TraceContext, Tracer, ConfigSource}.

(** The request as the routing table gets it. *)
Definition admitted (s : settings) (n : nat) (r : Request) : Request :=
  let id := request_id (set_trustRequestID s) r n in
  let span := tracer_Start (set_provider s) (ctx_span (r_ctx r)) (r_Method r +:+ " " +:+ r_Path r) in
  with_Header (Set_ HeaderName id (r_Header r))
    (WithContext (mkContext (Some (Resolve (Some (set_proxies s)) r)) (Some id)
                    (Some (Get (r_Header r) HeaderName)) span) r).

Lemma middleware_run trust r n (next : Handler) w σ :
  w_tick σ = n ->
  exists σ', w_heap σ' = w_heap σ /\ w_now σ' = w_now σ /\
    Tracing.Middleware trust next w r σ =
    next (update_Header (Set_ HeaderName (request_id trust r n)) w)
      (with_Header (Set_ HeaderName (request_id trust r n) (r_Header r))
         (WithContext (with_inboundID (Get (r_Header r) HeaderName) (with_requestID (request_id trust r n) (r_ctx r))) r)) σ'.
Proof.
  intros <-. unfold Tracing.Middleware, request_id, bind, newID, reading, ret.
  destruct trust; [destruct (String.eqb (Get (r_Header r) HeaderName) "") eqn:E|]; cbn [andb negb];
    rewrite ?E; (eexists; split_and!; [| |reflexivity]; done).
Qed.

Lemma span_run tp (next : Handler) w r σ :
  exists σ', w_heap σ' = w_heap σ /\ w_now σ' = w_now σ /\
    SpanMiddleware tp next w r σ =
    let '(σ2, o) := next w (WithContext (with_span (tracer_Start tp (ctx_span (r_ctx r))
                       (r_Method r +:+ " " +:+ r_Path r)) (r_ctx r)) r) σ' in
    (mkWorld (w_now σ2) (w_tick σ2) (w_events σ2 ++ [EvSpanEnd]) (w_heap σ2), o).
Proof.
  unfold SpanMiddleware, defer, bind, emit, modify. simpl.
  match goal with |- context [if String.eqb ?i "" then _ else _] => destruct (String.eqb i "") end; simpl;
  match goal with |- context [next w ?q ?s] => exists s; (split_and!; [done|done|]);
    by destruct (next w q s) as [σ2 [a|why]] end.
Qed.

(** [ServeHTTP] is the table on the admitted request, inside a span. *)
Lemma ServeHTTP_run s g w r σ :
  exists σ', w_heap σ' = w_heap σ /\ w_now σ' = w_now σ /\
    Gateway_ServeHTTP s g w r σ =
    let '(σ2, o) := ServeMux_ServeHTTP (gw_mux g)
      (update_Header (Set_ HeaderName (request_id (set_trustRequestID s) r (w_tick σ))) w)
      (admitted s (w_tick σ) r) σ' in
    (mkWorld (w_now σ2) (w_tick σ2) (w_events σ2 ++ [EvSpanEnd]) (w_heap σ2), o).
Proof.
  unfold Gateway_ServeHTTP, ClientIP.Middleware.
  destruct (middleware_run (set_trustRequestID s) (WithContext (with_clientIP (Resolve (Some (set_proxies s)) r) (r_ctx r)) r)
    (w_tick σ) (SpanMiddleware (set_provider s) (ServeMux_ServeHTTP (gw_mux g))) w σ eq_refl) as (σ1 & Hh & Hn & ->).
  match goal with |- context [SpanMiddleware ?tp ?next ?w ?q σ1] =>
    destruct (span_run tp next w q σ1) as (σ2 & Hh' & Hn' & ->) end.
  exists σ2. split_and!; [congruence|congruence|]. destruct r as [? ? ? ? ? ? ? ? ? ? ? []]. done.
Qed.

(** ** Property *)


End pipeline.
