(* ===== verification/Frames.v ===== *)
(** * What the handlers leave alone

    Every handler between the listener and the origins (the middlewares, the metrics,
    the plugins, the proxy) followed for what it does to the clock, to a bucket of the
    rate limits and to the requests sent to origins: each passes a request on at most
    once, and is otherwise quiet. The theorems about the gateway as a whole that hold
    whatever else a service is configured with rest on this. *)

From S2P Require Import Prelude GoInt GoFloat OriginState Balancer RateLimit GoStrings Header Value Http Retry Tracing ClientIP HttpLog Cors ResponseHeaders Metrics Plugin Proxy Exchange Config Mux Router Gateway Generation Pipeline.
#[local] Open Scope Z_scope.

(** ** Computations whose steps are in a relation *)

Definition steps {A} (R : relation World) (m : M A) : Prop := forall σ, R σ (m σ).1.

Section steps.
Context (R : relation World) `{!PreOrder R}.

Lemma steps_ret {A} (a : A) : steps R (ret a). Proof. by intros σ. Qed.
Lemma steps_lift {A} (o : outcome A) : steps R (lift o). Proof. by intros σ. Qed.
Lemma steps_get {A} (f : World -> A) : steps R (get f). Proof. by intros σ. Qed.

Lemma steps_bind {A B} (m : M A) (k : A -> M B) :
  steps R m -> (forall a, steps R (k a)) -> steps R (bind m k).
Proof.
  intros Hm Hk σ. unfold bind. specialize (Hm σ). destruct (m σ) as [σ1 [a|why]]; simpl in *; [|done].
  etrans; [exact Hm|apply Hk].
Qed.

Lemma steps_defer {A} (d : M unit) (m : M A) : steps R d -> steps R m -> steps R (defer d m).
Proof.
  intros Hd Hm σ. unfold defer. specialize (Hm σ). destruct (m σ) as [σ1 [a|why]]; simpl in *; (etrans; [exact Hm|]).
  - apply (steps_bind d (fun _ => ret a) Hd). intros []. apply steps_ret.
  - apply (steps_bind d (fun _ => lift (Panic why)) Hd). intros []. apply steps_lift.
Qed.
End steps.

(** What changes nothing is in every preorder. *)
Ltac still := first [apply steps_ret | apply steps_lift | apply steps_get]; apply _.

(** *** One bucket, the clock, and the requests sent *)

Definition store_at (a : nat) (σ : World) : memoryStore float64 := default newMemoryStore (h_stores (w_heap σ) !! a).

Definition is_dial (e : event) : bool := match e with EvRoundTrip _ _ => true | _ => false end.

(** The requests sent to origins so far. *)
Definition dials (σ : World) : nat := length (base.filter (fun e => is_dial e = true) (w_events σ)).

(** Neither the clock nor the count of readings went back. *)
Definition onward : relation World := fun σ σ' => w_now σ <= w_now σ' /\ (w_tick σ <= w_tick σ')%nat.

(** And the bucket at [a] is as it was. *)
Definition untouched (a : nat) : relation World := fun σ σ' => store_at a σ' = store_at a σ /\ onward σ σ'.

(** Steps that keep the clock, the readings and the buckets. *)
Ltac onwards := split; [try done|split; simpl; lia].

(** What happened stays on the record. *)
Definition appends : relation World := fun σ σ' => w_events σ `prefix_of` w_events σ'.

(** Nor was anything sent to an origin. *)
Definition quiet (a : nat) : relation World := fun σ σ' => untouched a σ σ' /\ appends σ σ' /\ dials σ' = dials σ.

#[export] Instance onward_preorder : PreOrder onward.
Proof. split; [intros σ; split; lia|]. intros σ1 σ2 σ3 [] []. split; lia. Qed.

#[export] Instance untouched_preorder a : PreOrder (untouched a).
Proof. split; [intros σ; by split; [|reflexivity]|]. intros σ1 σ2 σ3 [] []. split; [congruence|by etrans]. Qed.

#[export] Instance appends_preorder : PreOrder appends.
Proof. unfold appends. split; [intros σ; reflexivity|]. intros σ1 σ2 σ3 E1 E2. by etrans. Qed.

Lemma appends_same σ σ' : w_events σ' = w_events σ -> appends σ σ'.
Proof. unfold appends. by intros ->. Qed.

#[export] Instance quiet_preorder a : PreOrder (quiet a).
Proof.
  split; [intros σ; split_and!; reflexivity|]. intros σ1 σ2 σ3 (E1 & E2 & E3) (E4 & E5 & E6).
  split_and!; [by etrans|by etrans|congruence].
Qed.

Lemma quiet_untouched a σ σ' : quiet a σ σ' -> untouched a σ σ'.
Proof. by intros []. Qed.

Lemma quiet_emit a e : is_dial e = false -> steps (quiet a) (emit e).
Proof.
  intros He σ. split; [onwards|]. split; [by eexists|]. unfold dials, emit, modify. cbn [w_events fst].
  rewrite filter_app, filter_cons_False by congruence. by rewrite filter_nil, app_nil_r.
Qed.

Lemma untouched_emit a e : steps (untouched a) (emit e).
Proof. intros σ. onwards. Qed.

Lemma quiet_reading {A} a (f : nat -> A) : steps (quiet a) (reading f).
Proof. intros σ. split; [onwards|split; [by apply appends_same|done]]. Qed.

Lemma untouched_elapse a d : 0 <= d -> steps (untouched a) (elapse d).
Proof. intros Hd σ. onwards. Qed.

Lemma quiet_on_heap a f : (forall h, h_stores (f h) = h_stores h) -> steps (quiet a) (on_heap f).
Proof. intros Hf σ. split; [|split; [by apply appends_same|done]]. onwards. unfold store_at, on_heap, modify. cbn. by rewrite Hf. Qed.

Lemma steps_untouched {A} a (m : M A) : steps (quiet a) m -> steps (untouched a) m.
Proof. intros Hm σ. apply quiet_untouched, Hm. Qed.

#[export] Hint Resolve quiet_preorder untouched_preorder steps_ret steps_lift steps_get steps_bind steps_defer
  quiet_emit untouched_emit quiet_reading untouched_elapse quiet_on_heap : frame.

(** ** Handlers that pass a request on at most once *)

(** A part of a request that the handlers of the program pass on as it is: the edits
    they make to a request, but for the headers a plugin is told to add, leave it. *)
Class Passed_on {V} (view : Request -> V) := {
  view_Body r b : view (with_Body b r) = view r;
  view_Context r c : ctx_clientIP c = ctx_clientIP (r_ctx r) -> view (WithContext c r) = view r;
  view_id r id : view (with_Header (Set_ HeaderName id (r_Header r)) r) = view r
}.

(** What tells clients and routes apart. *)
Definition routing (r : Request) : string * string * (string * string) * (string * string * string) :=
  (FromRequest r, r_Method r, (r_URLHost r, r_Host r), (r_Path r, r_RawPath r, r_RawQuery r)).

#[export] Instance routing_passed_on : Passed_on routing.
Proof. split; [done| |done]. intros r c Hc. unfold routing, FromRequest. simpl. by rewrite Hc. Qed.

Section via.
Context {V : Type} (view : Request -> V) (a : nat) (next : Handler) (v : V).

(** The computation is quiet, but for one call of [next] at most. *)
Definition via {A} (m : M A) : Prop := forall σ,
  quiet a σ (m σ).1 \/
  exists w' r' σ1, view r' = v /\ quiet a σ σ1 /\ quiet a (next w' r' σ1).1 (m σ).1.

Lemma via_next w r : view r = v -> via (next w r).
Proof. intros Hr σ. right. by exists w, r, σ. Qed.

Lemma via_quiet {A} (m : M A) : steps (quiet a) m -> via m.
Proof. intros Hm σ. by left. Qed.

Lemma via_before {A B} (m : M A) (k : A -> M B) :
  steps (quiet a) m -> (forall x, via (k x)) -> via (bind m k).
Proof.
  intros Hm Hk σ. unfold bind. specialize (Hm σ). destruct (m σ) as [σ1 [x|why]]; simpl in *; [|by left].
  destruct (Hk x σ1) as [Hq|(w' & r' & σ2 & Hv & H1 & H2)]; [left; by etrans|].
  right. exists w', r', σ2. split_and!; [done|by etrans|done].
Qed.

Lemma via_after {A B} (m : M A) (k : A -> M B) :
  via m -> (forall x, steps (quiet a) (k x)) -> via (bind m k).
Proof.
  intros Hm Hk σ. unfold bind. specialize (Hm σ). destruct (m σ) as [σ1 [x|why]]; simpl in *; [|done].
  specialize (Hk x σ1). destruct Hm as [Hq|(w' & r' & σ2 & Hv & H1 & H2)]; [left; by etrans|].
  right. exists w', r', σ2. split_and!; [done..|by etrans].
Qed.

Lemma via_defer {A} (d : M unit) (m : M A) : steps (quiet a) d -> via m -> via (defer d m).
Proof.
  intros Hd Hm σ. unfold defer. specialize (Hm σ). destruct (m σ) as [σ1 o]; simpl in *.
  assert (Hk : quiet a σ1 ((match o with Ret x => bind d (fun _ => ret x) | Panic why => bind d (fun _ => lift (Panic why)) end) σ1).1).
  { destruct o; apply (steps_bind (quiet a) d _ Hd); intros []; [still|still]. }
  destruct Hm as [Hq|(w' & r' & σ2 & Hv & H1 & H2)].
  - left. destruct o; by etrans.
  - right. exists w', r', σ2. split_and!; [done..|]. destruct o; by etrans.
Qed.
End via.

Definition calls_once {V} (view : Request -> V) (a : nat) (F : Handler -> Handler) : Prop :=
  forall next w r, via view a next (view r) (F next w r).

Lemma once_compose {V} (view : Request -> V) a F G :
  calls_once view a F -> calls_once view a G -> calls_once view a (fun h => F (G h)).
Proof.
  intros HF HG next w r σ. destruct (HF (G next) w r σ) as [Hq|(w1 & r1 & σ1 & Hv & E1 & E2)]; [by left|].
  destruct (HG next w1 r1 σ1) as [Hq|(w2 & r2 & σ2 & Hv2 & E3 & E4)].
  - left. etrans; [exact E1|]. by etrans.
  - right. exists w2, r2, σ2. split_and!; [congruence|by etrans|by etrans].
Qed.

(** The headers a plugin adds are outside the view. *)
Definition unseen {V} (view : Request -> V) `{MapRange} (p : Plugin) : Prop :=
  match p with
  | addHeader hs => forall r, view (with_Header (set_all (range_map hs) (r_Header r)) r) = view r
  | _ => True
  end.

(** A plugin whose bucket, if it has one, is not the one at [a]. *)
Definition other_bucket (a : nat) (p : Plugin) : Prop :=
  match p with rateLimiting _ _ (memoryAt b) => b <> a | _ => True end.

(** The buckets of some plugins are elsewhere. *)
Lemma others_elsewhere a ps : a ∉ stores ps -> Forall (other_bucket a) ps.
Proof.
  intros Ha. apply Forall_forall. intros p Hp. destruct p as [| | | | | |r b [x|]]; cbn; try done. intros ->.
  apply Ha, list_elem_of_omap. by exists (rateLimiting r b (memoryAt a)).
Qed.

Section handlers.
Context `{Platform, MapRange, Env, OS, SugarNode, JWT, TraceContext, Tracer}.

Lemma with_buffer_quiet a p f : steps (quiet a) (with_buffer p f).
Proof.
  assert (Hc : forall cs, steps (quiet a) (emit_chunks cs)).
  { induction cs as [|c cs IH]; simpl; [still|]. apply steps_bind; [apply _|by apply quiet_emit|done]. }
  apply steps_bind; [apply _|still|]. intros buf. destruct (f buf).
  apply steps_bind; [apply _|apply Hc|]. intros _. by apply quiet_on_heap.
Qed.

Lemma bucket_allow_quiet a store key rps burst now :
  match store with memoryAt b => b <> a | _ => True end -> steps (quiet a) (bucket_allow store key rps burst now).
Proof.
  intros Hne σ. destruct store as [b|prefix]; cbn [bucket_allow].
  - destruct (allow _ key rps burst now) as [s ok]. split; [|split; [by apply appends_same|done]]. onwards. unfold store_at. cbn.
    by rewrite lookup_insert_ne.
  - assert (Hd : forall evs, Forall (fun e => is_dial e = false) evs ->
      w_events σ `prefix_of` w_events σ ++ evs /\
      length (base.filter (fun e => is_dial e = true) (w_events σ ++ evs)) = dials σ).
    { intros evs Hevs. split; [by eexists|]. unfold dials. rewrite filter_app.
      rewrite (list_filter_none _ evs); [by rewrite app_nil_r|]. eapply Forall_impl; [exact Hevs|]. simpl. congruence. }
    unfold allow, namespaced_TokenBucketStore, allow, shared_store, sugarDBStore_allow, Incr, Expire, shared_SugarDB. cbn.
    destruct (env_incr _ _) as [c|]; [destruct (c =? 1); [destruct (env_expire _ _ _)|]|];
      (split; [onwards|]); unfold appends; rewrite (eq_refl : dials _ = length _); cbn; rewrite <- ?app_assoc; apply Hd;
      by repeat constructor.
Qed.

Lemma httpLog_quiet a p method path id : steps (quiet a) (httpLog_log p method path id).
Proof.
  unfold httpLog_log. cbv zeta. repeat (apply steps_bind; [apply _|first [apply with_buffer_quiet | still]|intros ?]).
  apply steps_bind; [apply _| |intros ?; apply with_buffer_quiet].
  destruct (String.eqb id ""); [still|]. apply steps_bind; [apply _|apply with_buffer_quiet|intros _; apply with_buffer_quiet].
Qed.

Context {V : Type} (view : Request -> V) `{!Passed_on view}.

Lemma Wrap_once a p : other_bucket a p -> unseen view p -> calls_once view a (Wrap p).
Proof.
  intros Hp Hu next w r. destruct p as [hs|p|p|n|secret|p|rps burst store]; simpl in *.
  - unfold addHeader_Wrap. by apply via_next, Hu.
  - unfold responseHeaders_Wrap. apply via_after; [by apply via_next|]. intros x. still.
  - unfold httpLog_Wrap. apply via_before; [apply httpLog_quiet|]. intros _. by apply via_next.
  - unfold requestSizeLimiting_Wrap. destruct (n <? r_ContentLength r); [apply via_quiet; still|apply via_next, view_Body].
  - unfold jwtAuth_Wrap. cbv zeta. destruct (String.eqb _ ""); [apply via_quiet; still|].
    apply via_before; [still|]. intros now.
    destruct (jwt_Parse _ _ _) as [[]|]; [by apply via_next|apply via_quiet; still..].
  - unfold cors_Wrap. cbv zeta. destruct (String.eqb _ ""), (is_preflight r);
      first [apply via_quiet; still | by apply via_next].
  - unfold rateLimiting_Wrap. apply via_before; [still|]. intros now.
    apply via_before; [apply bucket_allow_quiet; by destruct store|]. intros [|]; simpl;
      [by apply via_next|apply via_quiet; still].
Qed.

Lemma Recorder_once a service : calls_once view a (Recorder_Wrap service).
Proof.
  intros next w r. unfold Recorder_Wrap. apply via_before; [still|]. intros start.
  apply via_after; [by apply via_next|]. intros sw. apply steps_bind; [apply _|still|]. intros now.
  apply steps_bind; [apply _|by apply quiet_emit|]. intros _.
  apply steps_bind; [apply _|by apply quiet_emit|]. intros _. still.
Qed.

Lemma PreserveInbound_once a : calls_once view a PreserveInbound.
Proof. intros next w r. unfold PreserveInbound. cbv zeta. apply via_next. destruct (String.eqb _ ""); [done|apply view_id]. Qed.

Lemma Tracing_once a trust : calls_once view a (Tracing.Middleware trust).
Proof.
  intros next w r. unfold Tracing.Middleware. cbv zeta. apply via_before.
  - destruct (String.eqb _ ""); [|still]. unfold newID.
    apply steps_bind; [apply _|apply quiet_reading|]. intros b. still.
  - intros id. apply via_next. rewrite view_id. by apply view_Context.
Qed.

Lemma Span_once a tp : calls_once view a (SpanMiddleware tp).
Proof.
  intros next w r. unfold SpanMiddleware. cbv zeta. apply via_before; [by apply quiet_emit|]. intros _.
  apply via_defer; [by apply quiet_emit|]. do 2 (apply via_before; [by apply quiet_emit|]; intros _).
  apply via_before; [|intros _; by apply via_next, view_Context].
  destruct (String.eqb _ ""); [still|by apply quiet_emit].
Qed.

Lemma chain_once a ps : Forall (other_bucket a) ps -> Forall (unseen view) ps -> calls_once view a (Chain ps).
Proof.
  intros Hps Hu. induction Hps as [|p ps Hp Hps IH]; [intros next w r; by apply via_next|].
  apply Forall_cons in Hu as [Hup Hu]. intros next w r. rewrite Chain_cons.
  exact (once_compose _ _ _ _ (Wrap_once a p Hp Hup) (IH Hu) next w r).
Qed.

(** What a service has around its plugins. *)
Definition dress (svc : Service) (h : Handler) : Handler :=
  Recorder_Wrap (svc_Name svc) (if svc_PreserveRequestID svc then PreserveInbound h else h).

Lemma dress_once a svc : calls_once view a (dress svc).
Proof.
  unfold dress. destruct (svc_PreserveRequestID svc); [|apply Recorder_once].
  apply (once_compose _ _ _ PreserveInbound); [apply Recorder_once|apply PreserveInbound_once].
Qed.

Lemma backend_dressed svc b : backend_handler svc b = dress svc (Chain b.1 (originProxy_ServeHTTP b.2)).
Proof. done. Qed.

(** From the listener to the routing table. *)
Lemma gateway_once a s g w r σ :
  quiet a σ (Gateway_ServeHTTP s g w r σ).1 \/
  exists w' r' σ1, view r' = view (WithContext (with_clientIP (Resolve (Some (set_proxies s)) r) (r_ctx r)) r) /\
    quiet a σ σ1 /\ quiet a (ServeMux_ServeHTTP (gw_mux g) w' r' σ1).1 (Gateway_ServeHTTP s g w r σ).1.
Proof.
  apply (once_compose _ _ _ _ (Tracing_once a (set_trustRequestID s)) (Span_once a (set_provider s)) (ServeMux_ServeHTTP (gw_mux g))).
Qed.

(** Whose bucket a request counts against. *)
Definition client_of (s : settings) (r : Request) : string :=
  let ip := Resolve (Some (set_proxies s)) r in if String.eqb ip "" then peerAddr r else ip.

Lemma client_of_routing s r :
  routing (WithContext (with_clientIP (Resolve (Some (set_proxies s)) r) (r_ctx r)) r) =
  (client_of s r, r_Method r, (r_URLHost r, r_Host r), (r_Path r, r_RawPath r, r_RawQuery r)).
Proof. done. Qed.

End handlers.

(** ** The origins of a service *)

(** A relation that holds of the steps a request takes through a proxy: those that
    leave the buckets alone. *)
Class Calm `{Env} (R : relation World) : Prop := {
  #[export] calm_preorder :: PreOrder R;
  calm_emit e : steps R (emit e);
  calm_reading A (f : nat -> A) : steps R (reading f);
  calm_elapse d : 0 <= d -> steps R (elapse d);
  calm_heap f : (forall h, h_stores (f h) = h_stores h) -> steps R (on_heap f);
  calm_transport req : steps R (transport req)
}.

(** The record of events only grows. *)
#[export] Instance appends_calm `{Env} : Calm appends.
Proof.
  split; [apply _|..]; try (intros; intros σ; by apply appends_same).
  - intros e σ. by eexists.
  - intros req σ. unfold transport, bind, reading, ret, emit, elapse, modify.
    destruct (readBody req); [|by eexists]. destruct (env_net (w_tick σ) req). by eexists.
Qed.

(** Nothing but its own plugin touches a bucket, if a round trip takes time. *)
Lemma untouched_calm `{Env} (Hnet : forall n req, 0 <= (env_net n req).1) a : Calm (untouched a).
Proof.
  split.
  - apply _.
  - intros e. apply untouched_emit.
  - intros A f. apply steps_untouched, quiet_reading.
  - apply untouched_elapse.
  - intros f Hf. by apply steps_untouched, quiet_on_heap.
  - intros req. unfold transport. destruct (readBody req) as [sent|e].
    + intros σ. unfold bind, reading, ret, emit, elapse, modify. specialize (Hnet (w_tick σ) req).
      destruct (env_net (w_tick σ) req) as [took o]. simpl in *. onwards.
    + apply steps_bind; [apply _|apply untouched_emit|intros _; still].
Qed.

Section origins.
Context `{MapRange, Env, TraceContext} (R : relation World) `{!Calm R}.

Abbreviation leaves m := (steps R m).

Lemma attempts_leaves t req b fuel : forall n last, leaves (attempts t req b n fuel last).
Proof.
  induction fuel as [|fuel IH]; intros n last; cbn [attempts]; [still|].
  apply steps_bind; [apply _|apply calm_transport|]. intros r. destruct (final t n r); [still|].
  apply steps_bind; [apply _| |intros d].
  - unfold backoff, Int63n. apply steps_bind; [apply _| |intros j; still].
    destruct (_ <=? 0); [still|]. apply steps_bind; [apply _|apply calm_reading|intros v; still].
  - unfold Sleep. apply steps_bind; [apply _| |intros _; apply IH].
    apply steps_bind; [apply _|apply calm_emit|]. intros _. apply calm_elapse. lia.
Qed.

Lemma RoundTripper_leaves t req : leaves (RoundTripper_RoundTrip t req).
Proof.
  destruct t as [t|inner t]; simpl; [apply calm_transport|]. unfold RoundTrip.
  case_match; [apply calm_transport|]. case_match; [apply attempts_leaves|still].
Qed.

Lemma writeBadGateway_leaves w name : leaves (writeBadGateway w name).
Proof. unfold writeBadGateway. cbv zeta. apply steps_bind; [apply _|still|intros; still]. Qed.

Lemma update_state_leaves o f : leaves (update_state o f).
Proof. by apply calm_heap. Qed.

(** The hooks [NewOriginProxy] puts around a proxy of [NewReverseProxy]. *)
Lemma wired_leaves name o :
  wired name o ->
  (forall res, leaves (ModifyResponse (lo_handler o) res)) /\
  (forall w r e, leaves (ErrorHandler (lo_handler o) w r e)).
Proof.
  intros (timeout & retry & rp & (t & _ & _ & _ & _ & Hmod & Herr)%NewReverseProxy_Ok & ->). split.
  - intros res. apply steps_bind; [apply _|apply update_state_leaves|]. intros _ σ. by rewrite Hmod.
  - intros w r e. apply steps_bind; [apply _|still|]. intros now.
    apply steps_bind; [apply _|apply update_state_leaves|]. intros _ σ. rewrite Herr.
    refine (steps_bind R _ _ _ _ σ); [apply calm_emit|intros _; apply writeBadGateway_leaves].
Qed.

Lemma ReverseProxy_leaves name o w r : wired name o -> leaves (ReverseProxy_ServeHTTP (lo_handler o) w r).
Proof.
  intros [Hmod Herr]%wired_leaves. unfold ReverseProxy_ServeHTTP. cbv zeta.
  destruct (negb (IsPrint _)); [apply Herr|].
  apply steps_bind; [apply _|apply RoundTripper_leaves|]. intros [res|e]; [|apply Herr].
  apply steps_bind; [apply _|still|]. intros w1. destruct (s_Status res =? 101).
  - apply steps_bind; [apply _|apply Hmod|]. intros res'. unfold handleUpgradeResponse. cbv zeta.
    do 2 (destruct (negb _); [apply Herr|]). destruct (Hijack w1) as [w2 [e|]]; [apply Herr|].
    destruct (Switch _ _) as [w3 [e|]]; [apply Herr|still].
  - apply steps_bind; [apply _|apply Hmod|]. intros res'. cbv zeta.
    apply steps_bind; [apply _|still|]. intros w2. apply steps_bind; [apply _|still|]. intros w3.
    destruct (s_broken res'); still.
Qed.

Lemma originProxy_leaves lb w r : Forall (wired (op_name lb)) (op_origins lb) -> leaves (originProxy_ServeHTTP lb w r).
Proof.
  intros Hw. unfold originProxy_ServeHTTP. apply steps_bind; [apply _|still|]. intros now.
  apply steps_bind; [apply _|still|]. intros h. destruct (choose (snapshot lb h) now) as [lb' d].
  apply steps_bind; [apply _|by apply calm_heap|]. intros _. destruct d as [k|k].
  - destruct (op_origins lb !! k) as [o|] eqn:Ho; [|still]. apply (ReverseProxy_leaves (op_name lb)).
    rewrite Forall_forall in Hw. by eapply Hw, list_elem_of_lookup_2.
  - apply steps_bind; [apply _|apply calm_emit|]. intros _. apply writeBadGateway_leaves.
Qed.

End origins.

(** ** Which service a request is for *)

(** The position of the service whose route the request takes. *)
Definition service_of (svcs : list Service) (r : Request) : option nat :=
  match route_of (concat (zip_with entries svcs (seq 0 (length svcs)))) r with
  | Found i => Some i
  | _ => None
  end.

(** The table looks at nothing but the routing of a request. *)
Lemma service_of_routing svcs r r' : (routing r').1.1.2 = r_Method r -> (routing r').1.2 = (routing r).1.2 ->
  (routing r').2 = (routing r).2 -> service_of svcs r' = service_of svcs r.
Proof.
  unfold routing. cbn. intros Hm [= Hu Hh] [= Hp Hrp Hq].
  unfold service_of, route_of, findHandler, escaped_path. by rewrite Hm, Hu, Hh, Hp, Hrp, Hq.
Qed.

Lemma entries_fmap {A B} (f : A -> B) svc h : entries svc (f h) = prod_map id f <$> entries svc h.
Proof.
  unfold entries. rewrite <- (omap_fmap_comm _ (fun s => (fun p => (p, f h)) <$> parsePattern s) id).
  - by rewrite list_fmap_id.
  - intros s. unfold id. by destruct (parsePattern s).
Qed.

Lemma table_fmap {A B} (f : A -> B) svcs hs :
  concat (zip_with entries svcs (f <$> hs)) = prod_map id f <$> concat (zip_with entries svcs hs).
Proof.
  revert hs. induction svcs as [|svc svcs IH]; intros [|h hs]; [done..|]. cbn [fmap list_fmap zip_with concat].
  by rewrite fmap_app, <- IH, entries_fmap.
Qed.

Lemma seq_lookups {A} (hs : list A) : (fun i => hs !! i) <$> seq 0 (length hs) = Some <$> hs.
Proof.
  apply list_eq. intros i. rewrite !list_lookup_fmap. destruct (hs !! i) as [h|] eqn:E.
  - rewrite lookup_seq_lt by (by eapply lookup_lt_Some). simpl. by rewrite E.
  - by rewrite lookup_seq_ge by (by apply lookup_ge_None).
Qed.

(** The handler the table finds is the one of that service. *)
Lemma route_of_service {A} svcs (hs : list A) r :
  length hs = length svcs ->
  match route_of (concat (zip_with entries svcs hs)) r with
  | Found h => exists i, service_of svcs r = Some i /\ hs !! i = Some h
  | _ => service_of svcs r = None
  end.
Proof.
  intros Hl. unfold service_of, route_of.
  assert (Hm : route_map (fun i => hs !! i) (findHandler (concat (zip_with entries svcs (seq 0 (length svcs)))) r) =
               route_map Some (findHandler (concat (zip_with entries svcs hs)) r)).
  { by rewrite <- !findHandler_fmap, <- !table_fmap, <- Hl, seq_lookups. }
  destruct (findHandler (concat (zip_with entries svcs (seq _ _))) _) as [i| | |],
    (findHandler (concat (zip_with entries svcs hs)) _) as [h| | |]; try done.
  injection Hm as Hm. by exists i.
Qed.
