(* ===== verification/Limited.v ===== *)
(** * Rate limits, end to end

    What a [rate_limiting] entry of the configuration means for the clients of the
    gateway (gateway/gateway.go, gateway/internal/plugin/rate_limiting.go): the bound
    on the calls of a bucket becomes one on the requests of a client. *)

From S2P Require Import Prelude GoInt GoFloat GoFloatRound OriginState Balancer RateLimit RateLimitRound Mutex RateLimitConc GoStrings Header Value Http Retry Tracing ClientIP HttpLog Cors ResponseHeaders Metrics Plugin Proxy Exchange Config Mux Router Gateway Generation Pipeline Frames.
From Stdlib Require Import QArith Lqa.
#[local] Open Scope Z_scope.

(** ** The handler of a service *)

Section service.
Context `{Platform, MapRange, Env, OS, SugarNode, JWT, TraceContext, Tracer}.
Context (Hnet : forall n req, 0 <= (env_net n req).1) (a : nat) (rps burst : float64).

(** Nothing happened to the bucket, and nothing was sent; or one call of [allow] with
    this key, at the time it was then, and nothing was sent unless it said yes. *)
Definition spent (key : string) : relation World := fun σ σ' =>
  quiet a σ σ' \/
  exists σ1, quiet a σ σ1 /\
    let '(s, ok) := memoryStore_allow (store_at a σ1) key rps burst (w_now σ1) in
    store_at a σ' = s /\ w_now σ1 <= w_now σ' /\ (ok = false -> dials σ' = dials σ).

(** A handler in front of which the limit stands. *)
Definition guards (h : Handler) : Prop := forall w r σ, spent (FromRequest r) σ (h w r σ).1.

Definition leaves (h : Handler) : Prop := forall w r, steps (untouched a) (h w r).

Lemma spent_around key σ0 σ σ' σ2 : quiet a σ0 σ -> spent key σ σ' -> quiet a σ' σ2 -> spent key σ0 σ2.
Proof.
  intros E1 [Hq|(σ1 & Hq & Hs)] E2; [left; etrans; [exact E1|]; by etrans|]. destruct E2 as ([E2 [E3 _]] & _ & E4).
  right. exists σ1. split; [by etrans|]. destruct (memoryStore_allow _ key rps burst _) as [s ok].
  destruct Hs as (Hs & Ht & Hd). split_and!; [congruence|lia|]. intros Hok. destruct E1 as (_ & _ & E1). rewrite E4, Hd; done.
Qed.

Lemma once_guards F h : calls_once routing a F -> guards h -> guards (F h).
Proof.
  intros HF Hh w r σ. destruct (HF h w r σ) as [Hq|(w' & r' & σ1 & Hv & E1 & E2)]; [by left|].
  eapply spent_around; [exact E1| |exact E2]. injection Hv as Hv. rewrite <- Hv. apply Hh.
Qed.

Lemma once_leaves F h : calls_once routing a F -> leaves h -> leaves (F h).
Proof.
  intros HF Hh w r σ. destruct (HF h w r σ) as [Hq|(w' & r' & σ1 & Hv & E1 & E2)]; [by apply quiet_untouched|].
  etrans; [by apply quiet_untouched|]. etrans; [apply Hh|by apply quiet_untouched].
Qed.

Lemma limiter_run next w r σ :
  Wrap (rateLimiting rps burst (memoryAt a)) next w r σ =
  let '(s, ok) := memoryStore_allow (store_at a σ) (FromRequest r) rps burst (w_now σ) in
  (if ok then next w r else lift (http_Error w "rate limit exceeded" 429))
    (mkWorld (w_now σ) (w_tick σ) (w_events σ) (set_stores (insert a s) (w_heap σ))).
Proof.
  cbn [Wrap]. unfold rateLimiting_Wrap. unfold bind at 1, Now, get. unfold bind at 1. cbn [bucket_allow].
  unfold allow, memory_TokenBucketStore. fold (store_at a σ).
  by destruct (memoryStore_allow (store_at a σ) (FromRequest r) rps burst (w_now σ)) as [s [|]].
Qed.

Lemma limiter_guards next : leaves next -> guards (Wrap (rateLimiting rps burst (memoryAt a)) next).
Proof.
  intros Hnext w r σ. right. exists σ. split; [done|]. rewrite limiter_run.
  destruct (memoryStore_allow (store_at a σ) (FromRequest r) rps burst (w_now σ)) as [s ok].
  set (σ1 := mkWorld _ _ _ _). assert (Hs : store_at a σ1 = s) by (unfold store_at, σ1; cbn; by rewrite lookup_insert_eq).
  destruct ok; [|done]. destruct (Hnext w r σ1) as [E1 [E2 _]]. split_and!; [by rewrite E1|exact E2|done].
Qed.

Lemma routing_chain ps : a ∉ stores ps -> calls_once routing a (Chain ps).
Proof.
  intros Ha. refine (chain_once routing a ps _ _); [by apply others_elsewhere|]. apply Forall_forall. by intros [] _.
Qed.

Lemma origins_leave opts svc b : built_for opts svc b -> leaves (originProxy_ServeHTTP b.2).
Proof.
  intros Hb w r. destruct (bf_proxy _ _ _ Hb) as (σ & σ' & (Hw & Hn & _)%NewOriginProxy_wired).
  pose proof (untouched_calm Hnet a). apply (originProxy_leaves (untouched a)). by rewrite Hn.
Qed.

(** The backend whose limit it is, and the others. *)
Lemma backend_guards opts svc b :
  built_for opts svc b -> rateLimiting rps burst (memoryAt a) ∈ b.1 -> NoDup (stores b.1) -> guards (backend_handler svc b).
Proof.
  intros Hb (ps1 & ps2 & Hps)%list_elem_of_split Hnd. rewrite backend_dressed. apply once_guards; [apply dress_once; apply _|].
  rewrite Hps, stores_app in *. apply NoDup_app in Hnd as (_ & E1 & [E2 _]%NoDup_cons).
  rewrite Chain_app, Chain_cons. apply once_guards; [apply routing_chain|].
  - intros Ha. apply (E1 a Ha). cbn. by left.
  - apply limiter_guards, once_leaves; [by apply routing_chain|by eapply origins_leave].
Qed.

Lemma backend_leaves opts svc b : built_for opts svc b -> a ∉ stores b.1 -> leaves (backend_handler svc b).
Proof.
  intros Hb Ha. rewrite backend_dressed. apply once_leaves, once_leaves; [apply dress_once; apply _| |by eapply origins_leave].
  by apply routing_chain.
Qed.

End service.

(** ** The gateway *)

(** In a concatenation without duplicates the parts have none, and nothing in common. *)
Lemma concat_apart {A} (ls : list (list A)) i l :
  NoDup (concat ls) -> ls !! i = Some l ->
  NoDup l /\ forall j l' x, ls !! j = Some l' -> j <> i -> x ∈ l -> x ∉ l'.
Proof.
  revert i. induction ls as [|l0 ls IH]; intros i; [done|]. intros (Hl0 & Hout & Hrest)%NoDup_app Hi.
  assert (Hin : forall k l' x, ls !! k = Some l' -> x ∈ l' -> x ∈ concat ls).
  { intros k l' x Hk Hx. apply list_elem_of_In, in_concat. exists l'. split; apply list_elem_of_In; [|done].
    by eapply list_elem_of_lookup_2. }
  destruct i as [|i]; [injection Hi as <-|destruct (IH i Hrest Hi) as [Hl Hapart]]; (split; [done|]);
    intros [|j] l' x Hj Hne Hx Hx'; [done| |injection Hj as <-|].
  - eapply Hout; [exact Hx|by eapply Hin].
  - eapply Hout; [exact Hx'|by eapply Hin].
  - eapply Hapart; [exact Hj| |exact Hx|exact Hx']. congruence.
Qed.

Lemma backend_stores (bs : list backend) j b : bs !! j = Some b -> (stores <$> bs.*1) !! j = Some (stores b.1).
Proof. intros Hj. rewrite !list_lookup_fmap. unfold backend in *. by rewrite Hj. Qed.

Lemma stores_concat pss : stores (concat pss) = concat (stores <$> pss).
Proof. induction pss as [|ps pss IH]; [done|]. cbn [concat fmap list_fmap]. by rewrite stores_app, IH. Qed.

Section gateway.
Context `{Platform, MapRange, Env, OS, SugarNode, JWT, TraceContext, Tracer}.
Context (Hnet : forall n req, 0 <= (env_net n req).1) (a : nat) (rps burst : float64).

(** The service whose limit it is, the [i]-th. *)
Context (opts : resolvedOptions) (svcs : list Service) (bs : list backend) (i : nat) (b : backend).
Context (Hbs : Forall2 (built_for opts) svcs bs) (Hb : bs !! i = Some b).
Context (Ha : rateLimiting rps burst (memoryAt a) ∈ b.1) (Hnd : NoDup (stores (concat bs.*1))).

Abbreviation mux := (concat (zip_with entries svcs (zip_with backend_handler svcs bs))).

(** The bucket belongs to that service only. *)
Lemma bucket_owner : NoDup (stores b.1) /\ forall j b', bs !! j = Some b' -> j <> i -> a ∉ stores b'.1.
Proof.
  rewrite stores_concat in Hnd. destruct (concat_apart _ i (stores b.1) Hnd (backend_stores _ _ _ Hb)) as [Hnd' Hapart].
  split; [done|]. intros j b' Hj Hne. eapply Hapart; [by apply backend_stores|done|].
  apply list_elem_of_omap. by exists (rateLimiting rps burst (memoryAt a)).
Qed.

Lemma table_serves w r σ :
  match service_of svcs r with
  | Some j => if decide (j = i) then spent a rps burst (FromRequest r) σ (ServeMux_ServeHTTP mux w r σ).1
              else untouched a σ (ServeMux_ServeHTTP mux w r σ).1
  | None => quiet a σ (ServeMux_ServeHTTP mux w r σ).1
  end.
Proof.
  assert (Hl : length (zip_with backend_handler svcs bs) = length svcs).
  { rewrite length_zip_with. apply Forall2_length in Hbs. lia. }
  pose proof (route_of_service svcs (zip_with backend_handler svcs bs) r Hl) as Hr.
  unfold ServeMux_ServeHTTP. fold (route_of mux r). destruct (route_of mux r) as [h|path query|allow|].
  - destruct Hr as (j & -> & (svc & b' & -> & Hsvc & Hb')%lookup_zip_with_Some).
    assert (Hbf : built_for opts svc b') by by eapply Forall2_lookup_lr.
    case_decide as Hj; [subst j|].
    + rewrite Hb in Hb'. injection Hb' as <-. by eapply backend_guards; [| | |apply bucket_owner].
    + eapply backend_leaves; [done..|]. by eapply bucket_owner.
  - by rewrite Hr.
  - by rewrite Hr.
  - by rewrite Hr.
Qed.

Context (s : settings) (g : Gateway) (Hg : gw_mux g = mux).

(** What serving a request does to the bucket. *)
Lemma gateway_serves w r σ :
  let σ' := (Gateway_ServeHTTP s g w r σ).1 in
  if decide (service_of svcs r = Some i) then spent a rps burst (client_of s r) σ σ' else untouched a σ σ'.
Proof.
  cbv zeta. destruct (gateway_once routing a s g w r σ) as [Hq|(w' & r' & σ1 & Hv & E1 & E2)].
  { case_decide; [by left|by apply quiet_untouched]. }
  rewrite Hg in E2. rewrite client_of_routing in Hv.
  assert (Hs : service_of svcs r' = service_of svcs r) by (apply service_of_routing; by rewrite Hv).
  injection Hv as Hc _.
  pose proof (table_serves w' r' σ1) as Ht. rewrite Hs, Hc in Ht.
  destruct (service_of svcs r) as [j|]; [destruct (decide (j = i)) as [->|Hj]|].
  - rewrite decide_True by done. by eapply spent_around.
  - rewrite decide_False by congruence. etrans; [by apply quiet_untouched|]. etrans; [exact Ht|by apply quiet_untouched].
  - rewrite decide_False by done. etrans; [by apply quiet_untouched|]. etrans; by apply quiet_untouched.
Qed.

(** ** Any number of requests *)

(** The requests served so far, each with whether something was sent to an origin
    meanwhile. Between two of them, and before the first, the process may do anything
    else that leaves the bucket alone: probe, reload, serve other generations. *)
Inductive traffic (σ0 : World) : list (Request * bool) -> World -> Prop :=
| traffic_start : traffic σ0 [] σ0
| traffic_request l σ w r :
    traffic σ0 l σ ->
    let σ' := (Gateway_ServeHTTP s g w r σ).1 in
    traffic σ0 (l ++ [(r, Nat.ltb (dials σ) (dials σ'))]) σ'
| traffic_other l σ σ' : traffic σ0 l σ -> untouched a σ σ' -> traffic σ0 l σ'.

(** How many of the requests of a client for the service reached an origin. *)
Definition reached (client : string) (l : list (Request * bool)) : Z :=
  Z.of_nat (length (base.filter (fun x => client_of s x.1 = client /\ service_of svcs x.1 = Some i /\ x.2 = true) l)).

(** How many requests of the client for the service there were. *)
Definition requested (client : string) (l : list (Request * bool)) : nat :=
  length (base.filter (fun x => client_of s x.1 = client /\ service_of svcs x.1 = Some i) l).

Lemma requested_snoc client l r d :
  requested client (l ++ [(r, d)]) =
  (requested client l + if bool_decide (client_of s r = client) && bool_decide (service_of svcs r = Some i) then 1 else 0)%nat.
Proof.
  unfold requested. rewrite filter_app, length_app. f_equal. rewrite filter_cons, filter_nil. cbn [fst snd].
  repeat case_bool_decide; case_decide; first [reflexivity | exfalso; tauto | exfalso; intuition congruence].
Qed.

Lemma reached_snoc client l r d :
  reached client (l ++ [(r, d)]) =
  reached client l + if bool_decide (client_of s r = client) && bool_decide (service_of svcs r = Some i) && d then 1 else 0.
Proof.
  unfold reached. rewrite filter_app, length_app, Nat2Z.inj_add. f_equal. rewrite filter_cons, filter_nil. cbn [fst snd].
  repeat case_bool_decide; destruct d; case_decide; first [reflexivity | exfalso; tauto | exfalso; intuition congruence].
Qed.

Lemma near_order_snoc t0 now top hist k t :
  near_order 0 t0 now top hist -> t0 <= t -> top <= t -> now <= t -> near_order 0 t0 t top (hist ++ [(k, t)]).
Proof.
  revert top. induction hist as [|[k' t'] hist IH]; intros top; cbn [near_order app]; [lia|].
  intros (E1 & E2 & E3) ???. split_and!; [lia..|]. apply IH; [done|lia..].
Qed.

Lemma near_order_later t0 now now' top hist : near_order 0 t0 now top hist -> now <= now' -> near_order 0 t0 now' top hist.
Proof.
  revert top. induction hist as [|[k' t'] hist IH]; intros top; cbn [near_order]; [done|].
  intros (E1 & E2 & E3) ?. split_and!; [lia..|]. by apply IH.
Qed.

(** The calls of the bucket they amount to. *)
Definition amounts (client : string) (t0 : Time) (l : list (Request * bool)) (σ : World) : Prop :=
  t0 <= w_now σ /\ exists hist log,
    run_calls (allow_body rps burst) hist (newMemoryStore, []) = (store_at a σ, log) /\
    near_order 0 t0 (w_now σ) t0 hist /\ (of_key client hist <= requested client l)%nat /\ reached client l <= RateLimit.admitted client log.

Lemma amounts_untouched client t0 l σ σ' : amounts client t0 l σ -> untouched a σ σ' -> amounts client t0 l σ'.
Proof.
  intros (Ht & hist & log & E1 & E2 & E3 & E4) [Hs [Hn _]]. split; [lia|]. exists hist, log. rewrite Hs.
  split_and!; [done|by eapply near_order_later|done|done].
Qed.

Lemma amounts_request client t0 l r d σ σ' :
  amounts client t0 l σ -> (d = true -> service_of svcs r = Some i -> client_of s r = client -> False) ->
  untouched a σ σ' -> amounts client t0 (l ++ [(r, d)]) σ'.
Proof.
  intros Ha0 Hd Hu. destruct (amounts_untouched _ _ _ _ _ Ha0 Hu) as (Ht & hist & log & E1 & E2 & E3 & E4).
  split; [done|]. exists hist, log. rewrite reached_snoc, requested_snoc. split_and!; [done..|lia|].
  repeat case_bool_decide; destruct d; cbn [andb]; [exfalso; auto|lia..].
Qed.

Lemma amounts_spent client t0 l r d σ σ' :
  amounts client t0 l σ -> service_of svcs r = Some i ->
  spent a rps burst (client_of s r) σ σ' -> d = Nat.ltb (dials σ) (dials σ') ->
  amounts client t0 (l ++ [(r, d)]) σ'.
Proof.
  intros Ha0 Hsvc [(Hu & _ & Hq)|(σ1 & (Hu & _ & Hq) & Hsp)] ->.
  { apply (amounts_request client t0 l r _ σ); [done| |done]. rewrite Hq, Nat.ltb_irrefl. done. }
  destruct (amounts_untouched _ _ _ _ _ Ha0 Hu) as (Ht & hist & log & E1 & E2 & E3 & E4).
  destruct (memoryStore_allow (store_at a σ1) (client_of s r) rps burst (w_now σ1)) as [st ok] eqn:Hal.
  destruct Hsp as (Hst & Hn & Hok). split; [lia|].
  exists (hist ++ [(client_of s r, w_now σ1)]), (log ++ [(client_of s r, ok)]). split_and!.
  - rewrite run_calls_snoc, E1, allow_body_run. cbn [fst snd]. by rewrite Hal, Hst.
  - apply near_order_later with (w_now σ1); [|done]. by eapply near_order_snoc.
  - rewrite of_key_app, requested_snoc, (bool_decide_true (service_of _ _ = _)), andb_true_r by done.
    rewrite of_key_cons. change (of_key client []) with 0%nat. lia.
  - rewrite reached_snoc, admitted_snoc. destruct ok.
    + repeat case_bool_decide; cbn [andb]; try (lia || congruence). destruct (Nat.ltb _ _); lia.
    + rewrite Hok, Nat.ltb_irrefl, !andb_false_r by done. lia.
Qed.

Lemma traffic_amounts client σ0 l σ :
  store_at a σ0 = newMemoryStore -> traffic σ0 l σ -> amounts client (w_now σ0) l σ.
Proof.
  intros Hnew Htr. induction Htr as [|l σ w r Htr IH σ'|l σ σ' Htr IH Hu].
  - split; [lia|]. exists [], []. split_and!; [by rewrite Hnew|done..].
  - pose proof (gateway_serves w r σ) as Hg'. cbv zeta in Hg'. fold σ' in Hg'. case_decide as Hs.
    + by eapply amounts_spent.
    + eapply amounts_request; [done| |done]. done.
  - by eapply amounts_untouched.
Qed.

End gateway.

Section limited.
Context `{Platform, MapRange, Env, OS, SugarNode, JWT, TraceContext, Tracer}.

(** A rate limit of the configuration, in the table built from it: a bucket of its
    own, new and not in use before. *)
Lemma limit_built cfg opts σ σ0 mux probers plugins i svc pc :
  buildMux cfg opts σ = (σ0, Ret (Ok (mux, probers, plugins))) ->
  Services cfg !! i = Some svc -> pc ∈ svc_Plugins svc -> pc_Name pc = "rate_limiting"%string ->
  in_memory (pc_Config pc) = true ->
  exists bs b rps burst a, Forall2 (built_for opts) (Services cfg) bs /\ bs !! i = Some b /\
    mux = concat (zip_with entries (Services cfg) (zip_with backend_handler (Services cfg) bs)) /\
    NoDup (stores (concat bs.*1)) /\ rateLimiting rps burst (memoryAt a) ∈ b.1 /\
    rate_config (pc_Config pc) = Ok (rps, burst) /\
    h_stores (w_heap σ) !! a = None /\ store_at a σ0 = newMemoryStore.
Proof.
  intros (o & [_ _ (_ & Hnd & Hnew) _] & bs & (Hbs & Hmux & _) & ->)%buildMux_grows Hsvc Hpc Hname Hmode.
  destruct (Forall2_lookup_l _ _ _ _ _ Hbs Hsvc) as (b & Hb & Hbf).
  destruct (bf_plugins _ _ _ Hbf) as (own & Hown & Hmade).
  apply list_elem_of_split in Hpc as (pre & post & Hpcs). rewrite Hpcs in Hmade.
  apply made_split in Hmade as (ps1 & p & ps2 & -> & _ & _ & σ1 & σ2 & Hrun).
  unfold Plugin.Build in Hrun. rewrite Hname in Hrun. cbn in Hrun.
  destruct (newRateLimiting_memory _ _ _ _ _ Hrun Hmode) as (rps & burst & a & Hrate & ->).
  assert (Hin : rateLimiting rps burst (memoryAt a) ∈ b.1) by (rewrite Hown; set_solver).
  assert (Ha : a ∈ stores (concat bs.*1)).
  { apply list_elem_of_omap. exists (rateLimiting rps burst (memoryAt a)). split; [|done].
    apply list_elem_of_In, in_concat. exists b.1. split; apply list_elem_of_In; [|done].
    eapply list_elem_of_fmap_2'; [by eapply list_elem_of_lookup_2|done]. }
  destruct (Hnew a Ha) as [Hnone Hsome]. exists bs, b, rps, burst, a. split_and!; try done.
  unfold store_at. by rewrite Hsome.
Qed.

(** C13. A rate limit holds for the clients of the gateway, end to end. Let a service of
    the configuration in force have a [rate_limiting] entry in memory mode, among
    whatever other plugins and services, whose rate and burst are finite (the parser also
    accepts [.nan]), with a burst of at least one that an idle
    client has back when its bucket is swept. However many requests the gateway serves
    one after the other, for any routes, with anything going on between them that
    leaves the bucket alone, no more of one client's requests for that service have
    anything sent to an origin than [burst + rps * duration], over a time that a
    [time.Duration] holds, and twice what the floating-point arithmetic can be off by: for each of that client's requests for that
    service, [2^-49] of the magnitude of the numbers involved, which is to be below
    [2^49]. The client is known by the address the
    gateway resolves for it; the bucket is this entry's own, and new with the
    configuration. *)
Theorem clients_limited cfg opts σ σ0 mux probers plugins s g i svc pc rps burst
    (Hnet : forall n req, 0 <= (env_net n req).1)
    (Hbuild : buildMux cfg opts σ = (σ0, Ret (Ok (mux, probers, plugins)))) (Hg : gw_mux g = mux)
    (Hsvc : Services cfg !! i = Some svc) (Hpc : pc ∈ svc_Plugins svc) (Hname : pc_Name pc = "rate_limiting"%string)
    (Hmode : in_memory (pc_Config pc) = true) (Hrate : rate_config (pc_Config pc) = Ok (rps, burst))
    (Hfinite : finite rps = true /\ finite burst = true)
    (Hdefault : pc_Config pc !! "burst"%string = None -> (1 <= value rps)%Q)
    (Hsafe : (value burst <= secs staleAfter * value rps)%Q) :
  exists a, h_stores (w_heap σ) !! a = None /\
    forall client l σ', traffic a s g σ0 l σ' ->
      let duration := w_now σ' - w_now σ0 in
      let off := (inject_Z (Z.of_nat (requested (Services cfg) i s client l)) * pow2 (-49) * magnitude rps burst duration)%Q in
      duration <= maxInt64 -> (magnitude rps burst duration <= pow2 49)%Q ->
      (inject_Z (reached (Services cfg) i s client l) <= value burst + secs duration * value rps + 2 * off)%Q.
Proof.
  destruct (limit_built _ _ _ _ _ _ _ _ _ _ Hbuild Hsvc Hpc Hname Hmode)
    as (bs & b & rps' & burst' & a & Hbs & Hb & Hmux & Hnd & Hin & Hrate' & Hnone & Hnew).
  rewrite Hrate in Hrate'. injection Hrate' as <- <-. rewrite Hmux in Hg.
  destruct Hfinite as [Fr Fb], (accepted_rate _ _ _ Hrate Fr Fb) as [Hrps Hburst].
  assert (Hburst1 : (1 <= value burst)%Q).
  { destruct (pc_Config pc !! "burst"%string); [done|]. subst burst. by apply Hdefault. }
  exists a. split; [done|]. intros client l σ' Htr. cbv zeta. intros Hmax Hsize.
  destruct (traffic_amounts Hnet a rps burst opts (Services cfg) bs i b Hbs Hb Hin Hnd s g Hg client σ0 l σ' Hnew Htr)
    as (Ht & hist & log & Hrun & Hnear & Hlen & Hle).
  rewrite <- drifted_float64 in *.
  pose proof (sequential_rate_bound rps burst client 0 (w_now σ0) (w_now σ') hist (requested (Services cfg) i s client l) Fr Fb Hrps Hburst1) as Hbound.
  rewrite Hrun in Hbound. cbn [snd] in Hbound. apply Qle_trans with (inject_Z (RateLimit.admitted client log)); [by rewrite <- Zle_Qle|].
  destruct (magnitude_float64 _ _ _ Hsize). apply Hbound; [lia|lia| |done|done|by left|done..]. rewrite Z.mul_0_r.
  assert (Hz : (secs 0 * value rps == 0)%Q) by (unfold secs, Qeq; simpl; lia). rewrite Hz. lra.
Qed.

End limited.
