(* ===== verification/Gates.v ===== *)
(** * Plugins that stand in the way of a request

    Some plugins let a request through only on a condition. For such a condition, on
    what the plugin sees of the request and on the process at that moment, this file
    shows once what an entry of the configuration that makes such a plugin means for
    the gateway as a whole (gateway/gateway.go): nothing is sent to an origin on
    account of a request for its service unless the plugin saw the condition hold
    first. *)

From S2P Require Import Prelude GoInt GoFloat OriginState Balancer RateLimit GoStrings Header Value Http Tracing ClientIP Plugin Proxy Exchange Config Mux Router Gateway Generation Pipeline Frames.
#[local] Open Scope Z_scope.

(** The request as the middlewares find it: the client's address resolved. *)
Definition resolved (s : settings) (r : Request) : Request :=
  WithContext (with_clientIP (Resolve (Some (set_proxies s)) r) (r_ctx r)) r.

Section gate.
Context `{Platform, MapRange, Env, OS, SugarNode, JWT, TraceContext, Tracer}.
(** What the plugin sees of a request, its route included, and its condition. *)
Context {V : Type} (view : Request -> V) `{!Passed_on view}.
Context (Hroute : forall r r', view r' = view r -> routing r' = routing r).
Context (Q : Request -> relation World) (HQ : forall r r' σ σ', view r' = view r -> Q r' σ σ' -> Q r σ σ').

(** Time passed and things happened, nothing sent to an origin among them. *)
Definition idle : relation World := fun σ σ' => onward σ σ' /\ appends σ σ' /\ dials σ' = dials σ.

Lemma no_dials_filter evs : Forall (fun e => is_dial e = false) evs -> base.filter (fun e => is_dial e = true) evs = [].
Proof. intros Hevs. apply list_filter_none. eapply Forall_impl; [exact Hevs|]. congruence. Qed.

Lemma no_dials σ σ' evs : w_events σ' = w_events σ ++ evs -> dials σ' = dials σ -> Forall (fun e => is_dial e = false) evs.
Proof.
  unfold dials. intros ->. rewrite filter_app, length_app. intros Hl.
  assert (Hn : base.filter (fun e => is_dial e = true) evs = []) by (apply nil_length_inv; lia).
  apply Forall_forall. intros e He. apply not_true_is_false. intros Hd.
  assert (Hin : e ∈ base.filter (fun e => is_dial e = true) evs) by by apply list_elem_of_filter.
  rewrite Hn in Hin. by apply elem_of_nil in Hin.
Qed.

Lemma idle_refl σ : idle σ σ.
Proof. split_and!; reflexivity. Qed.

Lemma quiet_idle a σ0 σ σ' : quiet a σ0 σ -> idle σ σ' -> idle σ0 σ'.
Proof. intros ([_ E1] & E2 & E3) (E4 & E5 & E6). split_and!; [by etrans|by etrans|congruence]. Qed.

(** Nothing was sent to an origin; or before anything was, the condition held of what
    the plugin did, and what it did is on record. *)
Definition cleared (r : Request) : relation World := fun σ σ' =>
  dials σ' = dials σ \/ exists σ1 σ2, idle σ σ1 /\ Q r σ1 σ2 /\ appends σ2 σ'.

Definition gated (h : Handler) : Prop := forall w r σ, cleared r σ (h w r σ).1.

Lemma cleared_around a r r' σ0 σ σ' σ2 :
  quiet a σ0 σ -> cleared r' σ σ' -> quiet a σ' σ2 -> view r' = view r -> cleared r σ0 σ2.
Proof.
  intros E1 [Hc|(σ1 & σ3 & Hi & Hq & Ha)] (_ & E2 & E3) Hv; [left; rewrite E3, Hc; apply E1|].
  right. exists σ1, σ3. split_and!; [by eapply quiet_idle|by eapply HQ|by etrans].
Qed.

Lemma once_gated a F h : calls_once view a F -> gated h -> gated (F h).
Proof.
  intros HF Hh w r σ. destruct (HF h w r σ) as [(_ & _ & Hq)|(w' & r' & σ1 & Hv & E1 & E2)]; [by left|].
  eapply cleared_around; [exact E1|apply Hh|exact E2|exact Hv].
Qed.

(** A handler whose steps stay on the record. *)
Definition recorded_on (h : Handler) : Prop := forall w r, steps appends (h w r).

Lemma chain_recorded ps next : recorded_on next -> recorded_on (Chain ps next).
Proof.
  intros Hn w r σ. set (a := fresh (list_to_set (C := gset nat) (stores ps))).
  assert (Ha : a ∉ stores ps) by (rewrite <- (elem_of_list_to_set (C := gset nat)); apply is_fresh).
  assert (Hu : Forall (unseen routing) ps) by (apply Forall_forall; by intros [] _).
  destruct (chain_once routing a ps (others_elsewhere a ps Ha) Hu next w r σ) as [(_ & Hq & _)|(w' & r' & σ1 & _ & E1 & E2)]; [done|].
  etrans; [apply E1|]. etrans; [apply Hn|apply E2].
Qed.

Lemma origins_recorded opts svc b : built_for opts svc b -> recorded_on (originProxy_ServeHTTP b.2).
Proof.
  intros Hb w r. destruct (bf_proxy _ _ _ Hb) as (σ & σ' & (Hw & Hn & _)%NewOriginProxy_wired).
  apply (originProxy_leaves appends). by rewrite Hn.
Qed.

(** The plugin in its chain, behind others that hide nothing from it. *)
Lemma chain_gated (a : nat) n ps1 p ps2 next :
  (forall next, recorded_on next -> gated (Wrap p next)) -> Forall (unseen view) ps1 -> a ∉ stores ps1 ->
  recorded_on next -> gated (Chain (NewRequestSizeLimiting n :: ps1 ++ p :: ps2) next).
Proof.
  intros Hp Hu Ha Hn. change (?x :: ps1 ++ ?l) with ((x :: ps1) ++ l). rewrite Chain_app, (Chain_cons p).
  eapply once_gated; [|by apply Hp, chain_recorded]. refine (chain_once view a _ _ _); [|by constructor].
  constructor; [done|by apply others_elsewhere].
Qed.

(** A request the table gives to the service. *)
Lemma table_gated (a : nat) svcs (bs : list backend) i svc (b : backend) w r σ :
  length bs = length svcs -> svcs !! i = Some svc -> bs !! i = Some b -> gated (Chain b.1 (originProxy_ServeHTTP b.2)) ->
  service_of svcs r = Some i ->
  cleared r σ (ServeMux_ServeHTTP (concat (zip_with entries svcs (zip_with backend_handler svcs bs))) w r σ).1.
Proof.
  intros Hl Hsvc Hb Hg Hi.
  assert (Hl' : length (zip_with backend_handler svcs bs) = length svcs) by (rewrite length_zip_with; lia).
  pose proof (route_of_service svcs (zip_with backend_handler svcs bs) r Hl') as Hr.
  unfold ServeMux_ServeHTTP. fold (route_of (concat (zip_with entries svcs (zip_with backend_handler svcs bs))) r).
  destruct (route_of _ r) as [h|path query|allow|]; [|by left..].
  destruct Hr as (j & Hj & (svc' & b' & -> & Hsvc' & Hb')%lookup_zip_with_Some).
  rewrite Hi in Hj. injection Hj as <-. rewrite Hb in Hb'. rewrite Hsvc in Hsvc'. injection Hb' as <-. injection Hsvc' as <-.
  rewrite backend_dressed. eapply once_gated; [|exact Hg]. refine (dress_once view a svc).
Qed.

(** An entry of the configuration, in the table built from it: its place in the chain of
    its service. *)
Lemma entry_built cfg opts σ σ0 mux probers plugins i svc pre pc post :
  buildMux cfg opts σ = (σ0, Ret (Ok (mux, probers, plugins))) ->
  Services cfg !! i = Some svc -> svc_Plugins svc = pre ++ pc :: post ->
  exists bs b ps1 p ps2, length bs = length (Services cfg) /\ bs !! i = Some b /\
    mux = concat (zip_with entries (Services cfg) (zip_with backend_handler (Services cfg) bs)) /\
    built_for opts svc b /\ b.1 = NewRequestSizeLimiting (maxBodyBytes opts) :: ps1 ++ p :: ps2 /\
    made (svc_Name svc) 0 pre ps1 /\ makes (instance_id (svc_Name svc) (length pre)) pc p.
Proof.
  intros (o & _ & bs & (Hbs & Hmux & _) & _)%buildMux_grows Hsvc Hpcs.
  destruct (Forall2_lookup_l _ _ _ _ _ Hbs Hsvc) as (b & Hb & Hbf).
  destruct (bf_plugins _ _ _ Hbf) as (own & Hown & Hmade). rewrite Hpcs in Hmade.
  apply made_split in Hmade as (ps1 & p & ps2 & -> & Hps & Hp).
  exists bs, b, ps1, p, ps2. split_and!; try done. symmetry. by eapply Forall2_length.
Qed.

(** The gateway, when an entry of the service makes a plugin with the condition. *)
Lemma service_gated cfg opts σ0 σ0' mux probers plugins s g i svc pre pc post w r σ :
  buildMux cfg opts σ0 = (σ0', Ret (Ok (mux, probers, plugins))) -> gw_mux g = mux ->
  Services cfg !! i = Some svc -> svc_Plugins svc = pre ++ pc :: post ->
  (forall p next, makes (instance_id (svc_Name svc) (length pre)) pc p -> recorded_on next -> gated (Wrap p next)) ->
  Forall (fun pc => forall id p, makes id pc p -> unseen view p) pre ->
  service_of (Services cfg) r = Some i ->
  cleared (resolved s r) σ (Gateway_ServeHTTP s g w r σ).1.
Proof.
  intros Hbuild Hg Hsvc Hpcs Hp Hpre Hi.
  destruct (entry_built _ _ _ _ _ _ _ _ _ _ _ _ Hbuild Hsvc Hpcs) as (bs & b & ps1 & p & ps2 & Hl & Hb & -> & Hbf & Hps & Hmade & Hmp).
  set (a := fresh (list_to_set (C := gset nat) (stores ps1))).
  assert (Ha : a ∉ stores ps1) by (rewrite <- (elem_of_list_to_set (C := gset nat)); apply is_fresh).
  assert (Hu : Forall (unseen view) ps1).
  { apply Forall_forall. intros q Hq. apply list_elem_of_lookup in Hq as [k Hk].
    destruct (Forall2_lookup_r _ _ _ _ _ (made_each _ _ _ _ Hmade) Hk) as (pc' & Hk' & id & Hq).
    rewrite Forall_forall in Hpre. eapply Hpre; [by eapply list_elem_of_lookup_2|exact Hq]. }
  destruct (gateway_once view a s g w r σ) as [(_ & _ & Hq)|(w' & r' & σ1 & Hv & E1 & E2)]; [by left|]. rewrite Hg in E2.
  eapply (cleared_around a _ r'); [exact E1| |exact E2|exact Hv].
  apply (table_gated a (Services cfg) bs i svc b); [done..| |].
  - rewrite Hps. apply (chain_gated a); [intros next; by apply Hp|done..|by eapply origins_recorded].
  - rewrite <- Hi. apply Hroute in Hv. apply service_of_routing; by rewrite Hv.
Qed.

End gate.
