(* ===== verification/Guarded.v ===== *)
(** * Authentication, end to end

    What a [jwt_auth] entry of the configuration means for the origins of its service
    (gateway/gateway.go, gateway/internal/plugin/jwt_auth.go): whatever else the
    service is configured with, no request without a token reaches them. *)

From S2P Require Import Prelude GoInt GoFloat OriginState Balancer RateLimit GoStrings Header Value Http Tracing ClientIP Plugin Proxy Exchange Config Mux Router Gateway Generation Pipeline Frames Gates.
#[local] Open Scope Z_scope.

(** ** What the plugin looks at *)

(** The routing of a request and its credentials. *)
Definition credentials (r : Request) := (routing r, Get (r_Header r) "Authorization").

#[export] Instance credentials_passed_on : Passed_on credentials.
Proof.
  split.
  - done.
  - intros r c Hc. unfold credentials. f_equal. by apply view_Context.
  - intros r id. unfold credentials. f_equal. simpl. by rewrite Get_Set_ne by by vm_compute.
Qed.

Lemma extractToken_credentials r r' : credentials r' = credentials r -> extractToken r' = extractToken r.
Proof. intros [= _ _ _ _ _ _ Hq Ha]. unfold extractToken. by rewrite Hq, Ha. Qed.

Section guarded.
Context `{Platform, MapRange, Env, OS, SugarNode, JWT, TraceContext, Tracer}.

(** An [add_header] entry that gives requests an Authorization header itself. *)
Definition sets_authorization (pc : PluginConfig) : bool :=
  String.eqb (pc_Name pc) "add_header" &&
  match newAddHeader (pc_Config pc) with
  | Ok (addHeader hs) => existsb (fun kv => String.eqb (CanonicalHeaderKey kv.1) "Authorization") (range_map hs)
  | _ => false
  end.

Lemma addHeader_unseen hs :
  existsb (fun kv => String.eqb (CanonicalHeaderKey kv.1) "Authorization") (range_map hs) = false ->
  unseen credentials (addHeader hs).
Proof.
  intros Hno r. unfold credentials. f_equal. simpl. unfold Get. rewrite set_all_other; [done|].
  apply existsb_false in Hno. eapply Forall_impl; [exact Hno|]. intros kv E%String.eqb_neq Hk.
  by apply E.
Qed.

Lemma made_unseen id pc p : makes id pc p -> sets_authorization pc = false -> unseen credentials p.
Proof.
  intros (Hn & σ & σ' & Hrun) Hno. destruct p as [hs| | | | | |]; try done.
  apply addHeader_unseen. unfold sets_authorization in Hno. rewrite <- Hn in Hno. simpl in Hno.
  unfold Plugin.Build in Hrun. rewrite <- Hn in Hrun. simpl in Hrun. unfold ret in Hrun.
  destruct (newAddHeader (pc_Config pc)) as [q|]; [|done]. by injection Hrun as _ ->.
Qed.

Lemma made_jwt id pc p : makes id pc p -> pc_Name pc = "jwt_auth"%string ->
  let secret := Getenv (as_string (pc_Config pc !! "secret_env"%string)) in
  p = jwtAuth secret /\ secret <> EmptyString.
Proof.
  intros (_ & σ & σ' & Hrun) Hn. unfold Plugin.Build in Hrun. rewrite Hn in Hrun. simpl in Hrun.
  unfold ret, newJWTAuth in Hrun. cbv zeta in *. destruct (String.eqb _ ""); [done|].
  destruct (String.eqb_spec (Getenv (as_string (pc_Config pc !! "secret_env"%string))) ""); [done|].
  by injection Hrun as _ <-.
Qed.

(** A token, signed with the secret and within its time. *)
Definition has_token `{!JWTLaws} (secret : string) (r : Request) : relation World := fun σ σ' =>
  σ' = σ /\ extractToken r <> EmptyString /\ authentic secret (w_now σ) (extractToken r) = true.

Lemma jwt_gated `{!JWTLaws} secret next : recorded_on next -> gated (has_token secret) (Wrap (jwtAuth secret) next).
Proof.
  intros Hn w r σ. cbn [Wrap]. rewrite jwt_auth_gate. cbv zeta. destruct (String.eqb_spec (extractToken r) ""); [by left|].
  destruct (authentic secret (w_now σ) (extractToken r)) eqn:E; [right|by left].
  exists σ, σ. split; [apply idle_refl|]. split; [done|apply Hn].
Qed.

End guarded.

(** C24. A service with authentication is closed to those without a token. Let a service
    of the configuration in force have a [jwt_auth] entry, anywhere among whatever other
    plugins, none of those before it adding an Authorization header of its own. Then the
    gateway sends nothing to an origin on account of a request for that service, unless
    the request came with a token, in its Authorization header or its token parameter,
    signed with the configured secret by an HMAC method and within its time at some
    moment not before the request arrived; and that secret is not empty. *)
Theorem protected_service `{Platform, MapRange, Env, OS, SugarNode, JWT, TraceContext, Tracer} `{!JWTLaws}
    cfg opts σ0 σ0' mux probers plugins s g i svc pre pc post w r σ
    (Hbuild : buildMux cfg opts σ0 = (σ0', Ret (Ok (mux, probers, plugins)))) (Hg : gw_mux g = mux)
    (Hsvc : Services cfg !! i = Some svc) (Hpcs : svc_Plugins svc = pre ++ pc :: post)
    (Hname : pc_Name pc = "jwt_auth"%string) (Hpre : forallb (fun pc => negb (sets_authorization pc)) pre = true)
    (Hroute : service_of (Services cfg) r = Some i) :
  let secret := Getenv (as_string (pc_Config pc !! "secret_env"%string)) in
  dials (Gateway_ServeHTTP s g w r σ).1 <> dials σ ->
  secret <> EmptyString /\ extractToken r <> EmptyString /\
  exists now, w_now σ <= now /\ authentic secret now (extractToken r) = true.
Proof.
  intros secret Hd.
  assert (Hsecret : secret <> EmptyString).
  { destruct (entry_built _ _ _ _ _ _ _ _ _ _ _ _ Hbuild Hsvc Hpcs) as (bs & b & ps1 & p & ps2 & _ & _ & _ & _ & _ & _ & Hp).
    by apply (made_jwt _ _ _ Hp Hname). }
  assert (Hc : cleared (has_token secret) (resolved s r) σ (Gateway_ServeHTTP s g w r σ).1).
  { refine (service_gated credentials (fun r r' E => f_equal fst E) (has_token secret) _ _ _ _ _ _ _ _ s g i svc pre pc post
      w r σ Hbuild Hg Hsvc Hpcs _ _ Hroute).
    - intros r1 r2 σ1 σ2 Hv. unfold has_token. by rewrite (extractToken_credentials _ _ Hv).
    - intros p next Hp. destruct (made_jwt _ _ _ Hp Hname) as [-> _]. by apply jwt_gated.
    - rewrite forallb_forall in Hpre. apply Forall_forall. intros pc' Hin id p Hp. eapply made_unseen; [exact Hp|].
      by apply negb_true_iff, Hpre, list_elem_of_In. }
  destruct Hc as [Hq|(σ1 & σ2 & [[Hn _] _] & (_ & Ht & Hau) & _)]; [done|]. split_and!; [done..|]. by exists (w_now σ1).
Qed.
