(* ===== verification/Distributed.v ===== *)
(** * Distributed rate limits, end to end

    What a [rate_limiting] entry in distributed mode means for the requests of its
    service (gateway/gateway.go, gateway/internal/plugin/rate_limiting.go and
    ratelimit_sugardb.go): which counter of the shared store a request counts against,
    and that it goes no further unless that counter allows it. *)

From S2P Require Import Prelude GoInt GoFloat OriginState Balancer RateLimit GoStrings Header Value Http Netip NetipText Tracing ClientIP Plugin Proxy Exchange Config Mux Router Gateway Generation Pipeline Frames Gates.
From Stdlib Require Import Ascii.
From stdpp Require Import pretty.
#[local] Open Scope Z_scope.

(** ** Which counter *)

(** The key of the counter for a client, a service and the position of the entry among
    its plugins. *)
Definition counter_key (svcName : string) (j : nat) (client : string) : string :=
  namespaced_key (instance_id svcName j) client.

Definition no_colon (s : string) : bool := string_forallb (fun a => negb (Ascii.eqb a ":")) s.

Lemma pretty_go_no_colon n s : no_colon s = true -> no_colon (pretty_N_go n s) = true.
Proof.
  revert s. induction (N.lt_wf_0 n) as [n _ IH]. intros s Hs.
  destruct (decide (0 < n)%N) as [Hn|Hn].
  - rewrite pretty_N_go_step by done. apply IH; [apply N.div_lt; lia|]. unfold no_colon. cbn [string_forallb].
    fold (no_colon s). rewrite Hs, andb_true_r. pose proof (N.mod_lt n 10 ltac:(done)) as Hm.
    generalize dependent (n mod 10)%N. intros m Hm. assert (Hall : forallb (fun m => negb (Ascii.eqb (pretty_N_char m) ":"))
      (N.of_nat <$> seq 0 10) = true) by done.
    rewrite forallb_forall in Hall. apply Hall, list_elem_of_In, list_elem_of_fmap. exists (N.to_nat m).
    split; [lia|]. apply elem_of_seq. lia.
  - replace n with 0%N by lia. by rewrite pretty_N_go_0.
Qed.

Lemma Itoa_no_colon (i : nat) : no_colon (Itoa (Z.of_nat i)) = true.
Proof.
  destruct i as [|i]; [done|]. change (no_colon (pretty_N_go (N.pos (Pos.of_succ_nat i)) "") = true). by apply pretty_go_no_colon.
Qed.

Lemma counter_key_split svcName j client :
  no_colon svcName = true ->
  Split ":" (counter_key svcName j client) = svcName :: Itoa (Z.of_nat j) :: Split ":" client.
Proof.
  intros Hn. unfold counter_key, namespaced_key, instance_id. rewrite <- !str_app_assoc.
  assert (Hc : forall s, (":" +:+ s)%string = String ":" s) by done.
  rewrite !Hc, Split_app by done. by rewrite Split_app by apply Itoa_no_colon.
Qed.

Lemma counter_key_inj svcName svcName' j j' client client' :
  no_colon svcName = true -> no_colon svcName' = true ->
  counter_key svcName j client = counter_key svcName' j' client' ->
  svcName = svcName' /\ j = j' /\ client = client'.
Proof.
  intros Hn Hn' Hk%(f_equal (Split ":")). rewrite !counter_key_split in Hk by done. injection Hk as -> Hj Hc.
  apply Itoa_inj in Hj. split_and!; [done|lia|]. by rewrite <- (Join_Split ":" client), Hc, Join_Split.
Qed.

(** Two services whose names have colons can have one counter for two clients. *)
Theorem colon_names_share_counters :
  counter_key "shop:1" 2 "1::2" = counter_key "shop" 1 "2:1::2" /\
  is_Some (ParseAddr "1::2") /\ is_Some (ParseAddr "2:1::2").
Proof. split_and!; [done|by vm_compute; eauto..]. Qed.

(** And the parser accepts services of one name, whose entries at the same position have
    the same counters. *)
Theorem same_names_share_counters client :
  let limited host := mkService "shop" "/" host "http://origin" [] []
    [mkPluginConfig "rate_limiting" {["mode"%string := Str "distributed"]}] None false false in
  let here := limited "a.example.com"%string in
  let there := limited "b.example.com"%string in
  check_services 0 [here; there] = Ok tt /\
  counter_key (svc_Name here) 0 client = counter_key (svc_Name there) 0 client.
Proof. split; [by vm_compute|done]. Qed.

(** ** The gate *)

Section distributed.
Context `{Platform, MapRange, Env, OS, SugarNode, JWT, TraceContext, Tracer}.

(** The commands of the shared store that admit a request, when [INCR] is the [n]-th
    reading and answers [c]. *)
Definition commands (n : nat) (key : string) (c : Z) : list event :=
  EvIncr n key :: (if c =? 1 then [EvExpire (S n) key 1] else []).

(** The shared store counted the request under the key and found it within the limit:
    the command [INCR] was sent and answered by at most the limit, and the first request
    of a window set the expiry. *)
Definition counted (prefix : string) (burst : float64) (r : Request) : relation World := fun σ σ' =>
  let key := namespaced_key prefix (FromRequest r) in
  exists c, env_incr (w_tick σ) key = Ok c /\ c <= sugar_limit burst /\
    (c = 1 -> is_ok (env_expire (S (w_tick σ)) key 1) = true) /\
    w_events σ' = w_events σ ++ commands (w_tick σ) key c.

Lemma limiter_gated prefix rps burst next :
  recorded_on next -> gated (counted prefix burst) (Wrap (rateLimiting rps burst (namespacedSugar prefix)) next).
Proof.
  intros Hn w r σ. cbn [Wrap]. unfold rateLimiting_Wrap. unfold bind at 1, Now, get. unfold bind at 1. cbn [bucket_allow].
  unfold allow, namespaced_TokenBucketStore, allow, shared_store, sugarDBStore_allow, Incr, Expire, shared_SugarDB. cbn [ns_inner ns_prefix].
  set (key := namespaced_key prefix (FromRequest r)).
  assert (Hno : forall evs, Forall (fun e => is_dial e = false) evs ->
    length (base.filter (fun e => is_dial e = true) (w_events σ ++ evs)) = dials σ).
  { intros evs Hevs. unfold dials. rewrite filter_app, length_app, (no_dials_filter evs) by done. simpl. lia. }
  destruct (env_incr (w_tick σ) key) as [c|] eqn:Ec; [|left; apply (Hno [_]); by constructor].
  assert (Hend : forall n ok, (ok = true -> c <= sugar_limit burst /\ (c = 1 -> is_ok (env_expire (S (w_tick σ)) key 1) = true)) ->
    cleared (counted prefix burst) r σ ((if negb ok then lift (http_Error w "rate limit exceeded" 429) else next w r)
      (mkWorld (w_now σ) n (w_events σ ++ commands (w_tick σ) key c) (w_heap σ))).1).
  { intros n [] Hok; [right|left; apply Hno; unfold commands; destruct (c =? 1); by repeat constructor].
    exists σ. eexists. split; [apply idle_refl|]. split; [|apply Hn]. exists c. destruct (Hok eq_refl). by split_and!. }
  unfold commands in Hend. destruct (Z.eqb_spec c 1) as [->|Hne].
  - destruct (env_expire (S (w_tick σ)) key 1) as [x|] eqn:Ex; cbn [fst snd].
    + rewrite <- app_assoc. apply Hend. by intros Hle%Z.leb_le.
    + left. cbn. unfold dials at 1. cbn [w_events]. rewrite <- app_assoc. apply Hno. by repeat constructor.
  - apply Hend. by intros Hle%Z.leb_le.
Qed.

Lemma newRateLimiting_distributed cfg id σ σ' p :
  newRateLimiting cfg id σ = (σ', Ret (Ok p)) -> as_string (cfg !! "mode"%string) = "distributed"%string ->
  exists rps burst, rate_config cfg = Ok (rps, burst) /\ p = rateLimiting rps burst (namespacedSugar id).
Proof.
  unfold newRateLimiting, in_memory. destruct (rate_config cfg) as [[rps burst]|]; [|done]. intros Hrun Hm. revert Hrun.
  rewrite Hm. cbn. unfold bind. destruct (getSharedSugarDBStore σ) as [σ1 [[[]|]|]]; try done.
  intros [= _ <-]. eauto.
Qed.

End distributed.

(** C19. A distributed rate limit holds for the requests of its service, end to end. Let a
    service of the configuration in force have a [rate_limiting] entry in distributed
    mode, among whatever other plugins. Then the gateway sends nothing to an origin on
    account of a request for that service unless, while it served this request and
    before anything was sent, it had the shared store count it, under the key of the
    service's name, the entry's position and the client's resolved address; the store
    answered with a count within the entry's burst, and, when it was the first count of a
    window, accepted the one second's expiry that came right after. A store that fails
    any of the commands stops the request. As long as the names of services have no
    colon, no entry at another position or of a service of another name has that key,
    nor has another client. *)
Theorem distributed_limit `{Platform, MapRange, Env, OS, SugarNode, JWT, TraceContext, Tracer}
    cfg opts σ0 σ0' mux probers plugins s g i svc pre pc post rps burst w r σ
    (Hbuild : buildMux cfg opts σ0 = (σ0', Ret (Ok (mux, probers, plugins)))) (Hg : gw_mux g = mux)
    (Hsvc : Services cfg !! i = Some svc) (Hpcs : svc_Plugins svc = pre ++ pc :: post)
    (Hname : pc_Name pc = "rate_limiting"%string) (Hmode : as_string (pc_Config pc !! "mode"%string) = "distributed"%string)
    (Hrate : rate_config (pc_Config pc) = Ok (rps, burst)) (Hroute : service_of (Services cfg) r = Some i) :
  let key := counter_key (svc_Name svc) (length pre) (client_of s r) in
  (dials (Gateway_ServeHTTP s g w r σ).1 <> dials σ ->
   exists n c before after, w_events (Gateway_ServeHTTP s g w r σ).1 = w_events σ ++ before ++ commands n key c ++ after /\
     Forall (fun e => is_dial e = false) before /\
     env_incr n key = Ok c /\ c <= sugar_limit burst /\ (c = 1 -> is_ok (env_expire (S n) key 1) = true)) /\
  (no_colon (svc_Name svc) = true -> forall svcName' j' client', no_colon svcName' = true ->
   counter_key svcName' j' client' = key -> svcName' = svc_Name svc /\ j' = length pre /\ client' = client_of s r).
Proof.
  intros key. split; [|intros Hn svcName' j' client' Hn' Hk; by apply counter_key_inj].
  intros Hd. set (prefix := instance_id (svc_Name svc) (length pre)).
  assert (Hc : cleared (counted prefix burst) (resolved s r) σ (Gateway_ServeHTTP s g w r σ).1).
  { refine (service_gated routing (fun r r' E => E) (counted prefix burst) _ _ _ _ _ _ _ _ s g i svc pre pc post
      w r σ Hbuild Hg Hsvc Hpcs _ _ Hroute).
    - intros r1 r2 σ1 σ2 [= Hv _ _ _ _ _ _]. unfold counted. by rewrite Hv.
    - intros p next (_ & σ1 & σ2 & Hrun). unfold Plugin.Build in Hrun. rewrite Hname in Hrun. cbn in Hrun.
      destruct (newRateLimiting_distributed _ _ _ _ _ Hrun Hmode) as (rps' & burst' & Hrate' & ->).
      rewrite Hrate in Hrate'. injection Hrate' as <- <-. by apply limiter_gated.
    - apply Forall_forall. by intros pc' _ id [] _. }
  destruct Hc as [Hq|(σ1 & σ2 & (_ & [before Hb] & Hd1) & (c & Hc & Hle & Hx & Hev) & [after Ha])]; [done|].
  exists (w_tick σ1), c, before, after. split_and!; [|by eapply no_dials|done..].
  rewrite Ha, Hev, Hb. by rewrite <- !app_assoc.
Qed.
