(* ===== verification/Watcher.v ===== *)
(** * Polling for changes: the configuration and the TLS key pair

    gateway/internal/config/watcher.go and cmd/dealer/internal/tlscert/reloader.go.
    What a poll finds on disk is its input; the loops stop at the signal of
    their context. *)

From S2P Require Import Prelude GoInt GoFloat Value Http Health Config.
From Stdlib Require Import Ascii.
#[local] Open Scope Z_scope.

(** ** The configuration watcher *)

(** What [os.Stat] gives: modification time and size. *)
Record FileInfo := mkFileInfo {
  fi_ModTime : Time;
  fi_Size : Z
}.

Record Watcher := mkWatcher {
  wa_path : string;
  wa_interval : Duration;
  lastModTime : Time;
  lastSize : Z
}.

(** The file as one poll finds it: what [os.Stat] and [Load] return. *)
Record sight := mkSight {
  seen_stat : result error FileInfo;
  seen_load : result error Config
}.

Definition NewWatcher (path : string) (interval : Duration) (stat : result error FileInfo) : Watcher :=
  match stat with
  | Ok info => mkWatcher path interval (fi_ModTime info) (fi_Size info)
  | Err _ => mkWatcher path interval zeroTime 0
  end.

Section watcher.
(** The state [onReload] works on, and [onReload]. *)
Context {X : Type} (onReload : Config -> X -> M (X * option error)).

Definition unchanged (w : Watcher) (info : FileInfo) : bool :=
  (fi_ModTime info =? lastModTime w) && (fi_Size info =? lastSize w).

Definition pollOnce (w : Watcher) (x : X) (s : sight) : M (Watcher * X) :=
  match seen_stat s with
  | Err _ =>
      emit (EvLog "config watcher: stat %s: %v" [wa_path w]);;
      ret (w, x)
  | Ok info =>
      if unchanged w info then ret (w, x)
      else match seen_load s with
      | Err _ =>
          emit (EvLog "config watcher: reload %s: %v" [wa_path w]);;
          ret (w, x)
      | Ok cfg =>
          let* (x, err) := onReload cfg x in
          match err with
          | Some _ =>
              emit (EvLog "config watcher: apply reload of %s: %v" [wa_path w]);;
              ret (w, x)
          | None => ret (mkWatcher (wa_path w) (wa_interval w) (fi_ModTime info) (fi_Size info), x)
          end
      end
  end.

Fixpoint poll_loop (w : Watcher) (x : X) (ticks : list (option sight)) : M (Watcher * X) :=
  match ticks with
  | [] | None :: _ => ret (w, x)          (* ctx.Done() *)
  | Some s :: ticks =>
      let* (w, x) := pollOnce w x s in
      poll_loop w x ticks
  end.

Definition Watcher_Start (w : Watcher) (x : X) (ticks : list (option sight)) : M (Watcher * X) :=
  NewTicker (wa_interval w);;
  poll_loop w x ticks.

(** ** Properties of the watcher *)

(** The file at a poll is a new, loadable configuration. *)
Definition applicable (w : Watcher) (s : sight) : option (Config * FileInfo) :=
  match seen_stat s, seen_load s with
  | Ok info, Ok cfg => if unchanged w info then None else Some (cfg, info)
  | _, _ => None
  end.

(** A poll applies the file exactly when it changed and loads, and remembers it
    exactly when it was applied. A file that cannot be read, parsed or applied
    leaves the watcher and the gateway as they were, so every later poll tries
    again until an edit is applied. *)
Theorem poll_applies w x s σ :
  match applicable w s with
  | None => exists σ', pollOnce w x s σ = (σ', Ret (w, x)) /\ w_heap σ' = w_heap σ
  | Some (cfg, info) =>
      match onReload cfg x σ with
      | (σ1, Ret (x', None)) =>
          pollOnce w x s σ = (σ1, Ret (mkWatcher (wa_path w) (wa_interval w) (fi_ModTime info) (fi_Size info), x')) /\
          forall s', seen_stat s' = Ok info ->
            applicable (mkWatcher (wa_path w) (wa_interval w) (fi_ModTime info) (fi_Size info)) s' = None
      | (σ1, Ret (x', Some _)) => exists σ', pollOnce w x s σ = (σ', Ret (w, x')) /\ w_heap σ' = w_heap σ1
      | (σ1, Panic why) => pollOnce w x s σ = (σ1, Panic why)
      end
  end.
Proof.
  unfold pollOnce, applicable. destruct (seen_stat s) as [info|e]; [|by eexists].
  destruct (seen_load s) as [cfg|e]; destruct (unchanged w info) eqn:E; try by eexists.
  unfold bind. destruct (onReload cfg x σ) as [σ1 [[x' [e|]]|why]]; [by eexists| |done].
  split; [done|]. intros s' ->. destruct (seen_load s'); [|done].
  unfold unchanged. simpl. by rewrite !Z.eqb_refl.
Qed.

(** As long as the file looks as it did when it was last applied, polls change
    nothing, whatever it holds: an edit between loading the configuration and
    [NewWatcher]'s own [os.Stat], or one that keeps time and size, is lost. *)
Lemma same_stamp_ignored w x ticks σ :
  Forall (fun t => match t with
                   | Some s => exists info, seen_stat s = Ok info /\ unchanged w info = true
                   | None => True
                   end) ticks ->
  poll_loop w x ticks σ = (σ, Ret (w, x)).
Proof.
  induction 1 as [|[s|] ticks Ht Hall IH]; simpl; [done| |done].
  destruct Ht as (info & Hs & Hu). unfold bind, pollOnce. by rewrite Hs, Hu.
Qed.

End watcher.

(** ** The TLS reloader *)

(** crypto/tls: a parsed key pair, opaque. *)
Section reloader.
Context {Certificate : Type}.

Record Reloader := mkReloader {
  certFile : string;
  keyFile : string;
  cert : option Certificate;
  lastCertModTime : Time;
  lastKeyModTime : Time
}.

(** The two files as one poll finds them: their modification times, and what
    [tls.LoadX509KeyPair] gives. *)
Record pair_sight := mkPairSight {
  cert_stat : result error Time;
  key_stat : result error Time;
  key_pair : result error Certificate
}.

Definition Reload (r : Reloader) (pair : result error Certificate) : Reloader * option error :=
  match pair with
  | Err e => (r, Some (Wrapf "tlscert: load key pair: %w" e))
  | Ok c => (mkReloader (certFile r) (keyFile r) (Some c) (lastCertModTime r) (lastKeyModTime r), None)
  end.

Definition NewReloader (certFile keyFile : string) (s : pair_sight) : result error Reloader :=
  let r := mkReloader certFile keyFile None zeroTime zeroTime in
  match Reload r (key_pair s) with
  | (_, Some e) => Err e
  | (r, None) =>
      let time t := match t with Ok t => t | Err _ => zeroTime end in
      Ok (mkReloader certFile keyFile (cert r) (time (cert_stat s)) (time (key_stat s)))
  end.

Definition GetCertificate (r : Reloader) : option Certificate := cert r.

Definition Reloader_pollOnce (r : Reloader) (s : pair_sight) : M Reloader :=
  match cert_stat s with
  | Err _ => emit (EvLog "tlscert: stat %s: %v" [certFile r]);; ret r
  | Ok certTime =>
      match key_stat s with
      | Err _ => emit (EvLog "tlscert: stat %s: %v" [keyFile r]);; ret r
      | Ok keyTime =>
          if (certTime =? lastCertModTime r) && (keyTime =? lastKeyModTime r) then ret r
          else match Reload r (key_pair s) with
          | (r, Some _) => emit (EvLog "tlscert: reload: %v" []);; ret r
          | (r, None) => ret (mkReloader (certFile r) (keyFile r) (cert r) certTime keyTime)
          end
      end
  end.

Fixpoint Reloader_loop (r : Reloader) (ticks : list (option pair_sight)) : M Reloader :=
  match ticks with
  | [] | None :: _ => ret r
  | Some s :: ticks => let* r := Reloader_pollOnce r s in Reloader_loop r ticks
  end.

Definition Reloader_Start (r : Reloader) (interval : Duration) (ticks : list (option pair_sight)) : M Reloader :=
  NewTicker interval;;
  Reloader_loop r ticks.

(** The sights of the polls made. *)
Fixpoint sights (ticks : list (option pair_sight)) : list pair_sight :=
  match ticks with
  | Some s :: ticks => s :: sights ticks
  | None :: _ | [] => []
  end.

(** The files' times, zero for a file that could not be looked at; and whether both
    could, and hold a pair. *)
Definition stat_time (t : result error Time) : Time := match t with Ok t => t | Err _ => zeroTime end.
Definition times (s : pair_sight) : Time * Time := (stat_time (cert_stat s), stat_time (key_stat s)).
Definition loads (s : pair_sight) : bool := is_ok (cert_stat s) && is_ok (key_stat s) && is_ok (key_pair s).

(** The reloader has the pair of a sight, and its times. *)
Definition holds (r : Reloader) (s : pair_sight) (c : Certificate) : Prop :=
  cert r = Some c /\ key_pair s = Ok c /\ (lastCertModTime r, lastKeyModTime r) = times s.

Lemma NewReloader_holds certFile keyFile s r :
  NewReloader certFile keyFile s = Ok r -> exists c, holds r s c.
Proof. unfold NewReloader, Reload, holds. destruct (key_pair s) as [c|]; [|done]. intros [= <-]. by exists c. Qed.

Lemma poll_holds r s0 c0 s σ :
  holds r s0 c0 ->
  exists σ' r', Reloader_pollOnce r s σ = (σ', Ret r') /\
    ((exists c, holds r' s c) \/ r' = r /\ (loads s = true -> times s = times s0)).
Proof.
  intros (Hc & Hk & Ht). unfold Reloader_pollOnce, holds, loads. rewrite <- Ht.
  destruct (cert_stat s) as [ct|] eqn:E1; [|by eexists _, r; split; [done|by right]].
  destruct (key_stat s) as [kt|] eqn:E2; [|by eexists _, r; split; [done|by right]].
  destruct ((ct =? lastCertModTime r) && (kt =? lastKeyModTime r)) eqn:Eu.
  { apply andb_true_iff in Eu as [->%Z.eqb_eq ->%Z.eqb_eq]. eexists _, r. split; [done|right]. unfold times. by rewrite E1, E2. }
  unfold Reload. destruct (key_pair s) as [c|]; [|by eexists _, r; split; [done|by right]].
  do 2 eexists. split; [done|]. left. exists c. unfold times. by rewrite E1, E2.
Qed.

Lemma loop_holds r s0 c0 ticks σ :
  holds r s0 c0 ->
  exists σ' r' c before s after, Reloader_loop r ticks σ = (σ', Ret r') /\ holds r' s c /\
    s0 :: sights ticks = before ++ s :: after /\ Forall (fun s' => loads s' = true -> times s' = times s) after.
Proof.
  revert r s0 c0 σ. induction ticks as [|[s|] ticks IH]; intros r s0 c0 σ Hh; simpl.
  - by exists σ, r, c0, [], s0, [].
  - unfold bind. destruct (poll_holds r s0 c0 s σ Hh) as (σ1 & r1 & -> & [[c1 H1]|[-> Hsame]]).
    + destruct (IH r1 s c1 σ1 H1) as (σ' & r' & c & before & s' & after & -> & Hr & Hl & Ha).
      exists σ', r', c, (s0 :: before), s', after. split_and!; [done..| |done]. by rewrite Hl.
    + destruct (IH r s0 c0 σ1 Hh) as (σ' & r' & c & [|b before] & s' & after & -> & Hr & [= <- Hl] & Ha).
      * exists σ', r', c, [], s0, (s :: sights ticks). split_and!; [done..|]. constructor; [done|by rewrite Hl].
      * exists σ', r', c, (s0 :: s :: before), s', after. split_and!; [done..| |done]. by rewrite Hl.
  - by exists σ, r, c0, [], s0, [].
Qed.

(** C38. The listener always has a certificate, and it is the last pair that loaded:
    once started, whatever the polls find (files missing, half written, or not a
    pair), no poll fails, and [GetCertificate] answers with a pair that was loaded whole,
    that of the start or of a poll; and no poll after that one found a pair it could
    load, except with the modification times the files had then. *)
Theorem certificate_survives certFile keyFile s0 r ticks σ :
  NewReloader certFile keyFile s0 = Ok r ->
  exists σ' r' c before s after, Reloader_loop r ticks σ = (σ', Ret r') /\ GetCertificate r' = Some c /\
    s0 :: sights ticks = before ++ s :: after /\ key_pair s = Ok c /\
    Forall (fun s' => loads s' = true -> times s' = times s) after.
Proof.
  intros [c0 Hnew]%NewReloader_holds.
  destruct (loop_holds r s0 c0 ticks σ Hnew) as (σ' & r' & c & before & s & after & Hrun & (Hc & Hk & _) & Hl & Ha).
  by exists σ', r', c, before, s, after.
Qed.

End reloader.
Arguments Reloader : clear implicits.
Arguments pair_sight : clear implicits.
