(* ===== verification/Follow.v ===== *)
(** * The gateway follows its file

    The composition of the watcher (config/watcher.go) with the callback [New] gives
    it (gateway/gateway.go): what the gateway serves after any sequence of polls. *)

From S2P Require Import Prelude GoInt GoFloat GoStrings Header Value Http Tracing ClientIP Plugin Proxy Health Config Mux Router Gateway Watcher.
From Stdlib Require Import Ascii.
#[local] Open Scope Z_scope.

Section follow.
Context `{Platform, MapRange, Env, OS, SugarNode, JWT, TraceContext, Tracer, ConfigSource}.

(** The gateway has the routes, the hosts and the plugins of a configuration. *)
Definition in_force (opts : resolvedOptions) (cfg : Config) (g : Gateway) : Prop :=
  gw_hosts g = Some (Hosts cfg) /\
  exists σ σ' probers plugins,
    buildMux cfg opts σ = (σ', Ret (Ok (gw_mux g, probers, plugins))) /\ gw_plugins g = Some plugins.

(** What the file held when it had a stamp: the time and the size tell its contents
    apart. *)
Definition stamped (contents : FileInfo -> result error Config) (s : sight) : Prop :=
  forall info, seen_stat s = Ok info -> seen_load s = contents info.

Definition stamp (w : Watcher) : FileInfo := mkFileInfo (lastModTime w) (lastSize w).

(** The watcher's stamp is that of the configuration in force. *)
Definition in_step (opts : resolvedOptions) (contents : FileInfo -> result error Config) (w : Watcher) (g : Gateway)
    : Prop :=
  exists cfg, contents (stamp w) = Ok cfg /\ in_force opts cfg g.

Lemma install_in_force opts cfg mux probers plugins g σ σ' :
  buildMux cfg opts σ = (σ', Ret (Ok (mux, probers, plugins))) ->
  in_force opts cfg (install cfg mux probers plugins g).
Proof. intros Hb. split; [done|]. by exists σ, σ', probers, plugins. Qed.

Lemma unchanged_stamp w info : unchanged w info = true -> info = stamp w.
Proof.
  unfold unchanged. intros [Hm Hs]%andb_true_iff. destruct info. unfold stamp. simpl in *. f_equal; lia.
Qed.

(** What a poll comes to, when the gateway it finds is [g]: the file is in force, if it
    can be read, loads and can be built; otherwise nothing changed. The poll panics when
    building the file's configuration does. *)
Definition polled (opts : resolvedOptions) (w : Watcher) (g : Gateway) (s : sight) (σ : World)
    (o : outcome (Watcher * Gateway)) : Prop :=
  match o, seen_stat s, seen_load s with
  | Ret (w', g'), Ok _, Ok cfg => in_force opts cfg g' \/
      g' = g /\ w' = w /\ exists σ' e, buildMux cfg opts σ = (σ', Ret (Err e))
  | Ret (w', g'), _, _ => g' = g /\ w' = w
  | Panic why, Ok info, Ok cfg => unchanged w info = false /\ exists σ', buildMux cfg opts σ = (σ', Panic why)
  | Panic _, _, _ => False
  end.

(** One poll keeps them in step. *)
Lemma poll_in_step opts contents w g s σ :
  stamped contents s -> in_step opts contents w g ->
  let o := (pollOnce (reload opts) w g s σ).2 in
  polled opts w g s σ o /\ match o with Ret (w', g') => in_step opts contents w' g' | Panic _ => True end.
Proof.
  intros Hst Hstep. unfold pollOnce, polled.
  destruct (seen_stat s) as [info|e] eqn:Es; [|done].
  specialize (Hst info Es). destruct (unchanged w info) eqn:Eu.
  { apply unchanged_stamp in Eu as ->. cbn. destruct Hstep as (cfg & Hc & Hf). rewrite Hst, Hc.
    split; [by left|]. by exists cfg. }
  destruct (seen_load s) as [cfg|e]; [|done].
  unfold reload, bind. destruct (buildMux cfg opts σ) as [σ1 [[[[mux probers] plugins]|e]|why]] eqn:Eb; cbn.
  - pose proof (install_in_force opts cfg mux probers plugins g _ _ Eb) as Hf. split; [by left|].
    exists cfg. split; [|done]. destruct info. by rewrite Hst.
  - split; [right; eauto|done].
  - split; [eauto|done].
Qed.

(** Polls keep them in step, up to one that panics. *)
Lemma polls_in_step opts contents w g ticks σ :
  Forall (fun t => forall s, t = Some s -> stamped contents s) ticks -> in_step opts contents w g ->
  match poll_loop (reload opts) w g ticks σ with
  | (_, Ret (w', g')) => in_step opts contents w' g'
  | (_, Panic why) => exists s w' g' σ', Some s ∈ ticks /\ in_step opts contents w' g' /\ polled opts w' g' s σ' (Panic why)
  end.
Proof.
  intros Hall. revert w g σ. induction Hall as [|[s|] ticks Hs Hall IH]; intros w g σ Hstep; cbn [poll_loop]; [done| |done].
  pose proof (poll_in_step opts contents w g s σ (Hs s eq_refl) Hstep) as [Hp Hstep'].
  unfold bind. destruct (pollOnce _ w g s σ) as [σ1 [[w1 g1]|why]]; cbn in *.
  - specialize (IH w1 g1 σ1 Hstep'). destruct (poll_loop _ w1 g1 ticks σ1) as [σ2 [[w2 g2]|why]]; [done|].
    destruct IH as (s' & w' & g' & σ' & Hin & IH). exists s', w', g', σ'. split; [by right|done].
  - exists s, w, g, σ. split; [by left|done].
Qed.

(** C37. The gateway follows its file. Suppose the file's time and size tell its
    contents apart, and its first stamp is that of what [New] loaded. Then after any
    sequence of polls none of which panicked, the gateway serves a configuration that
    was in the file, whole (its routes, hosts and plugins), and it is the one the
    watcher's stamp stands for; and the next poll that can read and load the file
    leaves the gateway serving exactly what it loaded, unless building that returns an
    error, in which case, as when the file cannot be read or loaded, nothing changes and
    the poll after it tries again. A poll panics, which ends the process, only when it
    finds the file changed and loads a configuration that makes [buildMux] panic. *)
Theorem gateway_follows_file contents path opts info σ σ1 s g ticks :
  New path opts σ = (σ1, Ret (Ok (s, g))) -> contents info = Load path ->
  Forall (fun t => forall s, t = Some s -> stamped contents s) ticks ->
  match poll_loop (reload (set_resolved s)) (NewWatcher path (set_interval s) (Ok info)) g ticks σ1 with
  | (σ2, Ret (w', g')) =>
      (exists cfg, contents (stamp w') = Ok cfg /\ in_force (set_resolved s) cfg g') /\
      forall sight, stamped contents sight ->
        polled (set_resolved s) w' g' sight σ2 (pollOnce (reload (set_resolved s)) w' g' sight σ2).2
  | (_, Panic why) => exists sight w' g' σ3, Some sight ∈ ticks /\
      (exists cfg, contents (stamp w') = Ok cfg /\ in_force (set_resolved s) cfg g') /\
      polled (set_resolved s) w' g' sight σ3 (Panic why)
  end.
Proof.
  intros (cfg & mux & ps & pl & Hload & Hb & -> & Es)%New_Ok Hinfo Hall. rewrite Es in *.
  assert (Hstep : in_step (resolve opts) contents (NewWatcher path (set_interval s) (Ok info))
            (startWatcher (install cfg mux ps pl emptyGateway))).
  { exists cfg. split; [|exact (install_in_force _ _ _ _ _ emptyGateway _ _ Hb)].
    destruct info. by rewrite <- Hload, <- Hinfo. }
  pose proof (polls_in_step _ _ _ _ ticks σ1 Hall Hstep) as Hpolls.
  destruct (poll_loop _ _ _ ticks σ1) as [σ2 [[w' g']|why]].
  - split; [done|]. intros sight Hs. by apply (poll_in_step _ contents).
  - exact Hpolls.
Qed.

End follow.
