(* ===== verification/Acme.v ===== *)
(** * ACME certificates (cmd/dealer/internal/acmecert/acmecert.go)

    The manager itself is golang.org/x/crypto/acme/autocert; [Manager] is how the
    program configures it, and [HostPolicy] is the program's. *)

From S2P Require Import Prelude Value.

Definition DefaultCacheDir : string := "acme-cache".

(** [Allowed] is [None] for the nil function. *)
Record Options := mkOptions {
  Email : string;
  CacheDir : string;
  DirectoryURL : string;
  Allowed : option (string -> bool)
}.

Record Manager := mkManager {
  m_Cache : string;
  m_Email : string;
  m_HostPolicy : string -> option error;
  m_DirectoryURL : option string       (* [None]: the library's default client *)
}.

Definition HostPolicy (allowed : string -> bool) (host : string) : option error :=
  if allowed host then None
  else Some (Errorf1 "acmecert: host %q is not served by this gateway" host).

Definition New (opts : Options) : result error Manager :=
  if String.eqb (Email opts) "" then Err (Errorf0 "acmecert: an email is required")
  else match Allowed opts with
  | None => Err (Errorf0 "acmecert: a host check is required")
  | Some allowed =>
      let cacheDir := if String.eqb (CacheDir opts) "" then DefaultCacheDir else CacheDir opts in
      Ok (mkManager cacheDir (Email opts) (HostPolicy allowed)
            (if String.eqb (DirectoryURL opts) "" then None else Some (DirectoryURL opts)))
  end.

(** A manager asks for a certificate only for a host the check allows. *)
Lemma New_policy opts m host :
  New opts = Ok m -> m_HostPolicy m host = None <-> exists f, Allowed opts = Some f /\ f host = true.
Proof.
  unfold New. destruct (String.eqb (Email opts) ""); [done|]. destruct (Allowed opts) as [f|]; [|done].
  intros [= <-]. unfold HostPolicy. simpl.
  destruct (f host) eqn:E; split; [by exists f|done|done|]. intros (f' & [= <-] & Hf). congruence.
Qed.
