(* ===== verification/Main.v ===== *)
(** * The program (cmd/dealer/main.go, config/info.go)

    What [main] reads from the environment, the servers it starts with it, and how
    it stops. A [log.Fatalf] is a [Fatal] result: the process exits without
    running deferred calls. Sockets, the delivery of signals and the accept loops are
    not modelled; a server is its configuration. *)

From S2P Require Import Prelude GoInt GoFloat GoStrings Header Value GoDuration Http Tracing ClientIP Metrics Plugin Proxy Config Mux Router Gateway Watcher Netip Json Url.
From S2P Require Acme.
From Stdlib Require Import Ascii.
#[local] Open Scope Z_scope.

(** ** Constants *)

Definition readHeaderTimeout : Duration := 5 * Second.
Definition readTimeout : Duration := 15 * Second.
Definition writeTimeout : Duration := 15 * Second.
Definition idleTimeout : Duration := 60 * Second.
Definition shutdownTimeout : Duration := 10 * Second.
Definition DefaultTLSReloadInterval : Duration := 30 * Second.
Definition DefaultListenAddr : string := "0.0.0.0:3000".
Definition DefaultACMEListenAddr : string := "0.0.0.0:443".
Definition DefaultACMEHTTPAddr : string := "0.0.0.0:80".

(** ** config/info.go *)

Record Info := mkInfo {
  ProjectName : string;
  Description : string;
  Author : string;
  Version : string
}.

(** The variable of config/version.go, which the linker can be told to set. *)
Definition linked_Version (ldflags : option string) : string := default "dev"%string ldflags.

Definition ProjectInfo (ldflags : option string) : Info :=
  mkInfo "Dealer API Gateway" "A basic API Gateway developed with Go" "Gabriel Barboza" (linked_Version ldflags).

(** ** Reading the environment *)

(** [strconv.ParseInt(s, 10, 64)] and [strconv.Atoi]. *)
Definition ParseInt (s : string) : result error Z :=
  let '(neg, digits) := match s with
                        | String "-" s => (true, s)
                        | String "+" s => (false, s)
                        | s => (false, s)
                        end in
  match decimal digits with
  | None => Err (OpaqueError "strconv.ParseInt: invalid syntax")
  | Some n =>
      let n := if neg then - n else n in
      if (minInt64 <=? n) && (n <=? maxInt64) then Ok n
      else Err (OpaqueError "strconv.ParseInt: value out of range")
  end.

Section env.
Context `{OS}.

Definition envOr (key fallback : string) : string :=
  let v := Getenv key in if String.eqb v "" then fallback else v.

(** [if raw := os.Getenv(key); raw != "" { v, err := parse(raw); if err != nil {
    log.Fatalf(...) } }]. *)
Definition env_parsed {A} (key : string) (parse : string -> result error A) (default : A) : result error A :=
  let raw := Getenv key in
  if String.eqb raw "" then Ok default
  else rmap_err (fun e => Errorf ("main: invalid " +:+ key +:+ " %q: %v") [raw] (Some e)) (parse raw).

(** The options of the gateway, up to [trustRequestID]. *)
Definition read_options : result error Gateway.Options :=
  let? pollInterval := env_parsed "DEALER_CONFIG_POLL_INTERVAL" ParseDuration DefaultPollInterval in
  let? originTimeout := env_parsed "DEALER_ORIGIN_TIMEOUT" ParseDuration DefaultOriginTimeout in
  let? maxBodyBytes := env_parsed "DEALER_MAX_BODY_BYTES" ParseInt DefaultMaxRequestBodyBytes in
  let? unhealthyCooldown := env_parsed "DEALER_UNHEALTHY_COOLDOWN" ParseDuration DefaultUnhealthyCooldown in
  let? healthCheckInterval := env_parsed "DEALER_HEALTH_CHECK_INTERVAL" ParseDuration DefaultHealthCheckInterval in
  let? healthCheckTimeout := env_parsed "DEALER_HEALTH_CHECK_TIMEOUT" ParseDuration DefaultHealthCheckTimeout in
  let? retryMaxAttempts := env_parsed "DEALER_RETRY_MAX_ATTEMPTS" ParseInt DefaultRetryMaxAttempts in
  let? retryBackoffBase := env_parsed "DEALER_RETRY_BACKOFF_BASE" ParseDuration DefaultRetryBackoffBase in
  let? breakerThreshold := env_parsed "DEALER_CIRCUIT_BREAKER_THRESHOLD" ParseInt 0 in
  let? breakerCooldown := env_parsed "DEALER_CIRCUIT_BREAKER_COOLDOWN" ParseDuration DefaultBreakerCooldown in
  let? trustRequestID := env_parsed "DEALER_TRUST_REQUEST_ID" ParseBool false in
  Ok (Gateway.mkOptions pollInterval originTimeout maxBodyBytes unhealthyCooldown
        (Getenv "DEALER_HEALTH_CHECK_PATH") healthCheckInterval healthCheckTimeout retryMaxAttempts
        retryBackoffBase breakerThreshold breakerCooldown trustRequestID (Getenv "DEALER_TRUSTED_PROXIES")
        (Getenv "OTEL_EXPORTER_OTLP_ENDPOINT") (Getenv "OTEL_SERVICE_NAME")).

End env.

(** ** Servers *)

(** A [tls.Config]: certificates from the reloader, or from the ACME manager. *)
Inductive tls_Config (Certificate : Type) :=
| fromReloader (r : Reloader Certificate)
| fromManager (m : Acme.Manager).
Arguments fromReloader {Certificate} r.
Arguments fromManager {Certificate} m.

(** What a server serves. *)
Inductive site :=
| gatewaySite (mux : ServeMux Handler)
| debugSite                            (* http.DefaultServeMux, with net/http/pprof *)
| metricsSite (mux : ServeMux Handler)
| challengeSite (m : Acme.Manager).    (* manager.HTTPHandler(nil) *)

Record http_Server (Certificate : Type) := mkServer {
  Addr : string;
  srv_Handler : site;
  TLSConfig : option (tls_Config Certificate);
  ReadHeaderTimeout : Duration;
  ReadTimeout : Duration;
  WriteTimeout : Duration;
  IdleTimeout : Duration
}.
Arguments mkServer {Certificate} _ _ _ _ _ _ _.
Arguments Addr {Certificate} _.
Arguments TLSConfig {Certificate} _.
Arguments srv_Handler {Certificate} _.

Section servers.
Context {Certificate : Type}.

(** The files are as the start finds them. *)
Definition buildTLSConfig (certFile keyFile : string) (s : pair_sight Certificate)
    : result error (option (tls_Config Certificate * Reloader Certificate)) :=
  if String.eqb certFile "" && String.eqb keyFile "" then Ok None
  else if String.eqb certFile "" || String.eqb keyFile "" then
    Err (Errorf0 "DEALER_TLS_CERT_FILE and DEALER_TLS_KEY_FILE must be set together")
  else
    let? reloader := rmap_err (Wrapf "tls: %w") (NewReloader certFile keyFile s) in
    Ok (Some (fromReloader reloader, reloader)).

Definition newDebugServer (addr : string) : option (http_Server Certificate) :=
  if String.eqb addr "" then None
  else Some (mkServer addr debugSite None readHeaderTimeout 0 0 0).

Definition newMetricsServer (addr : string) (handler : Handler) : outcome (option (http_Server Certificate)) :=
  if String.eqb addr "" then Ret None
  else
    let! mux := Handle NewServeMux "GET /metrics" handler in
    Ret (Some (mkServer addr (metricsSite mux) None readHeaderTimeout 0 0 0)).

End servers.

Section main.
Context `{Platform, MapRange, Env, OS, SugarNode, JWT, TraceContext, Tracer, ConfigSource, Promhttp}.
Context {Certificate : Type}.

(** The body is [json.Encoder]'s. *)
Definition infoHandler (ldflags : option string) : Handler := fun w r =>
  let i := ProjectInfo ldflags in
  let body := json_Encode [("project_name", JString (ProjectName i)); ("description", JString (Description i));
                           ("author", JString (Author i)); ("version", JString (Version i))]%string in
  lift (Write (update_Header (Set_ "Content-Type" "application/json") w) body).

Definition newRootMux (ldflags : option string) (gw : Handler) (infoPath : string)
    : outcome (result error (ServeMux Handler)) :=
  let root (mux : ServeMux Handler) : outcome (result error (ServeMux Handler)) :=
    let! mux := Handle mux "/" gw in Ret (Ok mux) in
  if String.eqb infoPath "" then root NewServeMux
  else if negb (HasPrefix infoPath "/") then
    Ret (Err (Errorf0 ("must start with " +:+ dquote +:+ "/" +:+ dquote)))
  else if String.eqb infoPath "/" then
    let! mux := Handle NewServeMux "GET /{$}" (infoHandler ldflags) in root mux
  else
    let! mux := Handle NewServeMux ("GET " +:+ infoPath) (infoHandler ldflags) in root mux.

(** What [main] has set up when it starts to serve. The root handler dispatches to
    the gateway as it is at each request. *)
Record startup := mkStartup {
  st_settings : settings;
  st_gateway : Gateway;
  st_server : http_Server Certificate;
  st_debug : option (http_Server Certificate);
  st_metrics : option (http_Server Certificate);
  st_acme : option (http_Server Certificate);
  st_reloader : option (Reloader Certificate * Duration);
  st_profiling : option (Z * Z)         (* the mutex profile's fraction and the block profile's rate *)
}.

(** The certificate source, from the files and from ACME. *)
Definition choose_tls (acmeEmail : string)
    (files : option (tls_Config Certificate * Reloader Certificate)) (hasHost : string -> bool)
    : result error (option (tls_Config Certificate) * option (http_Server Certificate)) :=
  if String.eqb acmeEmail "" then Ok (fst <$> files, None)
  else match files with
  | Some _ =>
      Err (Errorf0 "main: DEALER_ACME_EMAIL and DEALER_TLS_CERT_FILE/DEALER_TLS_KEY_FILE are mutually exclusive")
  | None =>
      let? manager := rmap_err (Wrapf "main: %v")
        (Acme.New (Acme.mkOptions acmeEmail (Getenv "DEALER_ACME_CACHE_DIR") (Getenv "DEALER_ACME_DIRECTORY_URL")
                     (Some hasHost))) in
      Ok (Some (fromManager manager),
          Some (mkServer (envOr "DEALER_ACME_HTTP_ADDR" DefaultACMEHTTPAddr) (challengeSite manager) None
                  readHeaderTimeout 0 0 0))
  end.

(** From the gateway on: the gateway, the certificates, the other servers, the root. *)
Definition start (ldflags : option string) (configPath listenAddr acmeEmail : string) (lookupInfo : option string)
    (opts : Gateway.Options) (files : option (tls_Config Certificate * Reloader Certificate))
    (tlsReloadInterval : Duration) : M (result error startup) :=
  let debugSrv := newDebugServer (Getenv "DEALER_DEBUG_ADDR") in
  let* gw := Gateway.New configPath opts in
  match rmap_err (Wrapf "gateway: %v") gw with
  | Err e => ret (Err e)
  | Ok (settings, gw) =>
      match choose_tls acmeEmail files (HasHost gw) with
      | Err e => ret (Err e)
      | Ok (tlsConfig, acmeHTTPSrv) =>
          let* metricsSrv := lift (newMetricsServer (Getenv "DEALER_METRICS_ADDR") MetricsHandler) in
          let infoPath := default "/"%string lookupInfo in
          let* mux := lift (newRootMux ldflags (Gateway_ServeHTTP settings gw) infoPath) in
          ret (let? mux := rmap_err (fun e => Errorf "main: invalid DEALER_INFO_PATH %q: %v" [infoPath] (Some e)) mux in
               Ok (mkStartup settings gw
                     (mkServer listenAddr (gatewaySite mux) tlsConfig readHeaderTimeout readTimeout
                        writeTimeout idleTimeout)
                     debugSrv metricsSrv acmeHTTPSrv ((fun f => (f.2, tlsReloadInterval)) <$> files)
                     ((fun _ => (1, 1)) <$> debugSrv)))
      end
  end.

(** [main] up to the servers; an [Err] is a [log.Fatalf]. [lookupInfo] is
    [os.LookupEnv] of DEALER_INFO_PATH. *)
Definition main (ldflags lookupInfo : option string) (s : pair_sight Certificate)
    : M (result error startup) :=
  let configPath := envOr "DEALER_CONFIG_PATH" "config.yml" in
  let acmeEmail := Getenv "DEALER_ACME_EMAIL" in
  let defaultListen := if String.eqb acmeEmail "" then DefaultListenAddr else DefaultACMEListenAddr in
  let listenAddr := envOr "DEALER_LISTEN_ADDR" defaultListen in
  match (
    let? opts := read_options in
    let? files := rmap_err (Wrapf "main: %v")
      (buildTLSConfig (Getenv "DEALER_TLS_CERT_FILE") (Getenv "DEALER_TLS_KEY_FILE") s) in
    let? tlsReloadInterval := env_parsed "DEALER_TLS_RELOAD_INTERVAL" ParseDuration DefaultTLSReloadInterval in
    Ok (opts, files, tlsReloadInterval))
  with
  | Err e => ret (Err e)
  | Ok (opts, files, tlsReloadInterval) =>
      start ldflags configPath listenAddr acmeEmail lookupInfo opts files tlsReloadInterval
  end.

(** How [main] ends: the listener's error, [None] for [http.ErrServerClosed]; or a
    signal, after which the listener's own shutdown may time out. *)
Inductive ending :=
| ServerError (err : option error)
| Signalled (shutdown : option error).

Inductive exit_status :=
| Exit0                     (* main returned: the deferred gw.Close ran *)
| Fatal (e : error).        (* log.Fatalf: os.Exit(1) *)

Definition finish (s : settings) (gw : Gateway) (e : ending) : M exit_status :=
  match e with
  | ServerError (Some err) => ret (Fatal (Wrapf "main: server error: %v" err))
  | Signalled (Some err) => ret (Fatal (Wrapf "main: graceful shutdown failed: %v" err))
  | _ => let* _ := Close s gw in ret Exit0
  end.

(** ** Properties *)

(** C39. The listener is never plaintext by accident. When [main] gets as far as
    serving, it serves plaintext only if neither certificate files nor an ACME
    email were configured; with both files it serves their pair, loaded; with an
    email it serves certificates the manager gets, and only for hosts the gateway
    has; and one file alone, or files and an email together, never start. *)
Theorem tls_as_configured ldflags lookupInfo s σ σ' st :
  main ldflags lookupInfo s σ = (σ', Ret (Ok st)) ->
  let certFile := Getenv "DEALER_TLS_CERT_FILE" in
  let keyFile := Getenv "DEALER_TLS_KEY_FILE" in
  let acmeEmail := Getenv "DEALER_ACME_EMAIL" in
  (certFile = EmptyString <-> keyFile = EmptyString) /\
  match TLSConfig (st_server st) with
  | None => certFile = EmptyString /\ acmeEmail = EmptyString
  | Some (fromReloader r) => acmeEmail = EmptyString /\ NewReloader certFile keyFile s = Ok r /\
      exists c, GetCertificate r = Some c
  | Some (fromManager m) => certFile = EmptyString /\ acmeEmail <> EmptyString /\
      forall host, Acme.m_HostPolicy m host = None <-> HasHost (st_gateway st) host = true
  end.
Proof.
  intros Hrun certFile keyFile acmeEmail. unfold main, start in Hrun. fold certFile keyFile acmeEmail in Hrun.
  destruct read_options as [opts|]; simpl in Hrun; [|done].
  destruct (buildTLSConfig certFile keyFile s) as [files|] eqn:Ef; simpl in Hrun; [|done].
  destruct (env_parsed _ _ DefaultTLSReloadInterval) as [ti|]; simpl in Hrun; [|done].
  unfold bind at 1 in Hrun. destruct (Gateway.New _ opts σ) as [σ1 [[[se gw]|]|]]; simpl in Hrun; [|done..].
  destruct (choose_tls acmeEmail files (HasHost gw)) as [[tc acme]|] eqn:Et; simpl in Hrun; [|done].
  unfold bind, lift in Hrun. destruct (newMetricsServer _ _) as [metrics|]; simpl in Hrun; [|done].
  destruct (newRootMux _ _ _) as [[mux|]|]; simpl in Hrun; [|done..].
  injection Hrun as <- <-. simpl.
  unfold buildTLSConfig in Ef. unfold choose_tls in Et.
  destruct (String.eqb_spec certFile "") as [Ec|Ec], (String.eqb_spec keyFile "") as [Ek|Ek]; simpl in Ef; try done.
  - injection Ef as <-. split; [done|]. destruct (String.eqb_spec acmeEmail "") as [Ea|Ea].
    + by injection Et as <- <-.
    + destruct (Acme.New _) as [m|] eqn:Em; [|done]. injection Et as <- <-. simpl. split_and!; [done..|].
      intros host. rewrite (Acme.New_policy _ m host Em). simpl. naive_solver.
  - destruct (NewReloader certFile keyFile s) as [r|] eqn:Er; simpl in Ef; [|done]. injection Ef as <-.
    split; [done|]. destruct (String.eqb_spec acmeEmail "") as [Ea|Ea]; [|done]. injection Et as <- <-. simpl.
    split_and!; [done..|]. unfold NewReloader, Reload in Er. destruct (key_pair s) as [c|]; [|done].
    injection Er as <-. by exists c.
Qed.

(** The root of the site. By default the information page answers GET and HEAD
    of exactly "/" and the gateway everything else; with an empty path the gateway
    answers everything. *)
Theorem root_mux_routes ldflags gw host method path :
  HasPrefix path "/" = true ->
  (exists mux, newRootMux ldflags gw "/" = Ret (Ok mux) /\
     mux_match mux host method path =
       Some (if (String.eqb method "GET" || String.eqb method "HEAD") && bool_decide (path_segs path = ["/"%string])
             then infoHandler ldflags else gw)) /\
  (exists mux, newRootMux ldflags gw "" = Ret (Ok mux) /\ mux_match mux host method path = Some gw).
Proof.
  intros Hpath%path_segs_nonempty. split.
  - exists [(mkPattern "GET" "" [Lit "/"], infoHandler ldflags); (mkPattern "" "" [Multi ""], gw)].
    split; [reflexivity|]. unfold mux_match, matchMethodAndPath, with_host_method.
    generalize dependent (path_segs path). intros segs Hne. cbn [omap list_omap p_host p_method p_segs fst snd].
    rewrite !(String.eqb_sym "" host), !(String.eqb_sym "GET" method), !(String.eqb_sym "" method).
    destruct (String.eqb_spec host "") as [Eh|Eh], (String.eqb_spec method "GET") as [Eg|Eg],
      (String.eqb_spec method "HEAD") as [Ee|Ee], (String.eqb_spec method "") as [Ea|Ea]; try congruence;
      cbn [andb orb String.eqb Ascii.eqb Bool.eqb or_else];
      rewrite ?matchPath_nil, ?matchPath_lit, ?matchPath_rest by done; simpl; repeat case_bool_decide; done.
  - exists [(mkPattern "" "" [Multi ""], gw)].
    split; [reflexivity|]. unfold mux_match, matchMethodAndPath, with_host_method.
    generalize dependent (path_segs path). intros segs Hne. cbn [omap list_omap p_host p_method p_segs fst snd].
    rewrite !(String.eqb_sym "" host), !(String.eqb_sym "" method).
    destruct (String.eqb_spec host "") as [Eh|Eh], (String.eqb_spec method "") as [Ea|Ea];
      cbn [andb orb String.eqb Ascii.eqb Bool.eqb or_else];
      rewrite ?matchPath_nil, ?matchPath_rest by done; simpl; by destruct (String.eqb method "HEAD").
Qed.

(** The metrics server answers GET and HEAD of /metrics with the registry of the
    gateway, and nothing else. *)
Theorem metrics_server_routes addr handler host method esc path :
  addr <> EmptyString -> HasPrefix esc "/" = true -> PathUnescape esc = Some path ->
  exists mux, newMetricsServer (Certificate := Certificate) addr handler =
      Ret (Some (mkServer addr (metricsSite mux) None readHeaderTimeout 0 0 0)) /\
    mux_match mux host method esc =
      if (String.eqb method "GET" || String.eqb method "HEAD") && bool_decide (path = "/metrics"%string)
      then Some handler else None.
Proof.
  intros Haddr Hpath Hun. pose proof (path_segs_single esc path "metrics" Hpath Hun ltac:(done) ltac:(done) eq_refl) as Hseg.
  exists [(mkPattern "GET" "" [Lit "metrics"], handler)].
  unfold newMetricsServer. destruct (String.eqb_spec addr "") as [|_]; [done|]. split; [reflexivity|].
  unfold mux_match, matchMethodAndPath, with_host_method.
  cbn [omap list_omap p_host p_method p_segs fst snd]. rewrite !(String.eqb_sym "" host), !(String.eqb_sym "GET" method).
  rewrite <- (bool_decide_ext _ _ Hseg). destruct (String.eqb_spec host "") as [Eh|Eh], (String.eqb_spec method "GET") as [Eg|Eg],
    (String.eqb_spec method "HEAD") as [Ee|Ee]; try congruence;
    cbn [andb orb String.eqb Ascii.eqb Bool.eqb or_else]; rewrite ?matchPath_nil, ?matchPath_lit; simpl;
    repeat case_bool_decide; done.
Qed.

End main.
