(* ===== verification/Serve.v ===== *)
(** * Serving and stopping (cmd/dealer/main.go)

    [main] from the moment its servers listen: the goroutines it starts, what the
    [select] waits for, and the shutdown. What happens to the servers from outside
    is a list of happenings, in their order; where two are ready at once when the
    [select] looks, either order is a run. *)

From S2P Require Import Prelude GoInt GoFloat GoStrings Header Value Http Tracing ClientIP Plugin Proxy Health Config Mux Router Gateway Watcher Main.
From S2P Require Acme.
From Stdlib Require Import Ascii.
#[local] Open Scope Z_scope.

Section serve.
Context `{Platform, MapRange, Env, OS, SugarNode, JWT, TraceContext, Tracer, ConfigSource}.
Context {Certificate : Type}.
Abbreviation startup := (startup (Certificate := Certificate)).

Inductive server := Listener | Debug | ACMEHTTP | MetricsServer.

#[global] Instance server_eq_dec : EqDecision server.
Proof. solve_decision. Defined.

(** The goroutines of [main], in the order it starts them. *)
Inductive goroutine :=
| reloading (interval : Duration)
| serving (s : server) (tls : bool).     (* [ListenAndServeTLS], or [ListenAndServe] *)

Definition started (st : startup) : list goroutine :=
  option_list ((fun x => reloading x.2) <$> st_reloader st) ++
  [serving Listener (bool_decide (is_Some (TLSConfig (st_server st))))] ++
  option_list ((fun _ => serving Debug false) <$> st_debug st) ++
  option_list ((fun _ => serving ACMEHTTP false) <$> st_acme st) ++
  option_list ((fun _ => serving MetricsServer false) <$> st_metrics st).

(** The goroutine of an auxiliary server announces it; a server stops, with [None]
    for [http.ErrServerClosed]; or the process gets an interrupt or a SIGTERM, after
    which the listener's [Shutdown] gives an error if its connections outlive the
    timeout. *)
Inductive happening :=
| Listening (s : server)
| Stopped (s : server) (err : option error)
| Signal (shutdown : option error).

Definition server_announced (s : server) : string :=
  match s with
  | Debug => "main: debug/pprof server listening on %s"
  | ACMEHTTP => "main: ACME challenge and HTTPS redirect server listening on %s"
  | MetricsServer => "main: metrics server listening on %s"
  | Listener => ""
  end.

Definition server_at (st : startup) (s : server) : option (http_Server Certificate) :=
  match s with
  | Debug => st_debug st
  | ACMEHTTP => st_acme st
  | MetricsServer => st_metrics st
  | Listener => Some (st_server st)
  end.

(** The listener's goroutine says nothing. *)
Definition announce (st : startup) (s : server) : M unit :=
  match s, server_at st s with
  | Listener, _ | _, None => ret tt
  | _, Some srv => emit (EvLog (server_announced s) [Addr srv])
  end.

(** The texts of the errors are left out of the log. *)
Definition server_error (s : server) : string :=
  match s with
  | Debug => "main: debug server error: %v"
  | ACMEHTTP => "main: ACME challenge server error: %v"
  | MetricsServer => "main: metrics server error: %v"
  | Listener => "main: server error: %v"
  end.

(** [Shutdown] of a server, if it was started. *)
Definition Shutdown (srv : option (http_Server Certificate)) : M unit :=
  match srv with Some srv => emit (EvShutdown (Addr srv)) | None => ret tt end.

(** How the process ends; [None] while it serves. [gw] is the gateway as the reloads
    have left it by then. *)
Fixpoint serve (st : startup) (gw : Gateway) (hs : list happening) : M (option exit_status) :=
  match hs with
  | [] => ret None
  | Listening s :: hs => announce st s;; serve st gw hs
  | Stopped Listener err :: _ =>
      let* status := finish (st_settings st) gw (ServerError err) in
      ret (Some status)
  | Stopped s err :: hs =>
      match server_at st s, err with Some _, Some _ => emit (EvLog (server_error s) []) | _, _ => ret tt end;;
      serve st gw hs
  | Signal shutdown :: _ =>
      emit (EvLog "main: shutting down gracefully" []);;
      Shutdown (st_debug st);;
      Shutdown (st_metrics st);;
      Shutdown (st_acme st);;
      Shutdown (Some (st_server st));;
      let* status := finish (st_settings st) gw (Signalled shutdown) in
      ret (Some status)
  end.

(** ** What is expected of it *)

(** The servers running, in the order in which they are to be shut down. *)
Definition shutdowns (st : startup) : list server :=
  option_list ((fun _ => Debug) <$> st_debug st) ++
  option_list ((fun _ => MetricsServer) <$> st_metrics st) ++
  option_list ((fun _ => ACMEHTTP) <$> st_acme st) ++
  [Listener].

(** Things were observed, and nothing else changed. *)
Definition observed (evs : list event) (σ : World) : World :=
  mkWorld (w_now σ) (w_tick σ) (w_events σ ++ evs) (w_heap σ).

(** What an auxiliary server says: its address when it starts, its error when it fails. *)
Definition said (st : startup) (h : happening) : list event :=
  match h with
  | Listening Listener | Stopped Listener _ | Stopped _ None | Signal _ => []
  | Listening s => option_list ((fun srv => EvLog (server_announced s) [Addr srv]) <$> server_at st s)
  | Stopped s (Some _) => option_list ((fun _ => EvLog (server_error s) []) <$> server_at st s)
  end.

(** What a signal sets off before the gateway is closed. *)
Definition farewell (st : startup) : list event :=
  EvLog "main: shutting down gracefully" [] ::
  (EvShutdown ∘ Addr <$> omap (server_at st) (shutdowns st)).

(** ** Lemmas *)

(** What concerns [main]: the listener, and signals. *)
Definition decisive (h : happening) : bool :=
  match h with
  | Stopped Listener _ | Signal _ => true
  | Stopped _ _ | Listening _ => false
  end.

(** What happens until then. *)
Fixpoint meanwhile (hs : list happening) : list happening :=
  match hs with
  | h :: hs => if decisive h then [] else h :: meanwhile hs
  | [] => []
  end.

Lemma observed_nil σ : observed [] σ = σ.
Proof. destruct σ. unfold observed. cbn. by rewrite app_nil_r. Qed.

Lemma observed_app evs evs' σ : observed evs' (observed evs σ) = observed (evs ++ evs') σ.
Proof. unfold observed. cbn. by rewrite app_assoc. Qed.

(** What main does at a happening that does not concern it. *)
Lemma serve_said st gw h hs σ : decisive h = false -> serve st gw (h :: hs) σ = serve st gw hs (observed (said st h) σ).
Proof.
  destruct h as [s|s err|]; [| |done]; destruct s; try done; intros _; cbn [serve said];
    unfold announce; cbn [server_at]; try destruct err; rewrite ?observed_nil;
    repeat match goal with |- context [match ?o with Some _ => _ | None => _ end] => destruct o end;
    by rewrite ?observed_nil.
Qed.

Lemma serve_meanwhile st gw hs σ :
  serve st gw hs σ =
  serve st gw (option_list (List.find decisive hs)) (observed (concat (said st <$> meanwhile hs)) σ).
Proof.
  revert σ. induction hs as [|h hs IH]; intros σ; cbn [List.find meanwhile]; [by rewrite observed_nil|].
  destruct (decisive h) eqn:E; [|by rewrite serve_said, IH, observed_app].
  rewrite observed_nil. destruct h as [|[] ?|]; done.
Qed.

(** The calls of [Shutdown] are those expected. *)
Lemma serve_signal st gw err hs σ :
  serve st gw (Signal err :: hs) σ =
  (let* status := finish (st_settings st) gw (Signalled err) in ret (Some status)) (observed (farewell st) σ).
Proof.
  cbn [serve]. unfold farewell, shutdowns. unfold bind, Shutdown, emit, modify, ret.
  destruct (st_debug st) eqn:Ed, (st_metrics st) eqn:Em, (st_acme st) eqn:Ea; cbn;
    rewrite ?Ed, ?Em, ?Ea; cbn; unfold observed; by rewrite <- ?app_assoc.
Qed.

Lemma shutdowns_NoDup st : NoDup (shutdowns st).
Proof.
  unfold shutdowns. by destruct (st_debug st), (st_metrics st), (st_acme st); apply (bool_decide_unpack _).
Qed.


End serve.
