(* ===== verification/Stubs.v ===== *)
(** * The test origins (loadtest/stubs/main.go)

    The stand-ins the gateway is load tested against: three origins that answer
    every path after a fixed latency, count the connections they accept and the
    requests they serve, and report both counts at /__stats. An operation on an
    [atomic.Int64] is one step; requests and connections interleave in any order. *)

From S2P Require Import Prelude GoInt GoStrings Header Value GoDuration Http Json Plugin Mux Router.
From Stdlib Require Import Ascii.
#[local] Open Scope Z_scope.

(** ** Configuration *)

Record origin := mkOrigin {
  o_name : string;
  o_addr : string;
  o_latency : Duration;
  o_status : Z
}.

Section stubs.
Context `{OS}.

Definition envOr (key fallback : string) : string :=
  let v := Getenv key in if String.eqb v "" then fallback else v.

(** The error stands for the [log.Fatalf] that ends the process. *)
Definition durationEnvOr (key : string) (fallback : Duration) : result error Duration :=
  let v := Getenv key in
  if String.eqb v "" then Ok fallback
  else rmap_err (fun e => Errorf "stubs: invalid %s %q: %v" [key; v] (Some e)) (ParseDuration v).

(** The origins [main] starts. *)
Definition origins : result error (list origin) :=
  let? catalog := durationEnvOr "CATALOG_LATENCY" (15 * Millisecond) in
  let? payments := durationEnvOr "PAYMENTS_LATENCY" (40 * Millisecond) in
  let? orders := durationEnvOr "ORDERS_LATENCY" (25 * Millisecond) in
  Ok [mkOrigin "catalog" (envOr "CATALOG_ADDR" "0.0.0.0:3001") catalog 200;
      mkOrigin "payments" (envOr "PAYMENTS_ADDR" "0.0.0.0:3002") payments 201;
      mkOrigin "orders" (envOr "ORDERS_ADDR" "0.0.0.0:3003") orders 200].

(** What an origin's goroutine sends on [errc]: the error of [net.Listen], or else
    the one [http.Serve] ends with. *)
Definition serve (listen : result error unit) (served : error) : error :=
  match listen with
  | Err e => e
  | Ok _ => served
  end.

(** The first error to arrive ends the process; until one does it serves. *)
Inductive progress :=
| serving (l : list origin)
| fatal (e : error).

Definition main (errc : list error) : progress :=
  match origins with
  | Err e => fatal e
  | Ok l => match errc with
            | [] => serving l
            | e :: _ => fatal e
            end
  end.

End stubs.

(** ** An origin at work *)

Record counters := mkCounters {
  accepts : Z;
  requests : Z
}.

Definition newCounters : counters := mkCounters 0 0.

(** [countingListener.Accept]: the listener below gives a connection or an error. *)
Definition Accept {C} (res : result error C) (c : counters) : counters * result error C :=
  match res with
  | Ok _ => (mkCounters (wrap64 (accepts c + 1)) (requests c), res)
  | Err _ => (c, res)
  end.

Definition count_request (c : counters) : counters := mkCounters (accepts c) (wrap64 (requests c + 1)).

Definition Sleep (d : Duration) (now : Time) : Time := now + Z.max 0 d.

(** The reply, once the latency has passed. *)
Definition reply (o : origin) (w : rw) (r : Request) : outcome rw :=
  let w := update_Header (Set_ "Content-Type" "application/json") w in
  let! w := WriteHeader w (o_status o) in
  Write w (json_Encode [("method", JString (r_Method r)); ("path", JString (r_Path r));
                        ("service", JString (o_name o)); ("status", JString "ok")]%string).

(** The handler on its own: count, sleep, reply. *)
Definition handler (o : origin) (w : rw) (r : Request) (c : counters) (now : Time)
    : counters * Time * outcome rw :=
  (count_request c, Sleep (o_latency o) now, reply o w r).

(** The two counters are loaded one after the other: [c1] and [c2] are what they
    stand at then. *)
Definition statsHandler (w : rw) (c1 c2 : counters) : outcome rw :=
  let w := update_Header (Set_ "Content-Type" "application/json") w in
  Write w (json_Encode [("accepts", JInt (accepts c1)); ("requests", JInt (requests c2))]%string).

Inductive endpoint := stats | business.

Definition mux : outcome (ServeMux endpoint) :=
  let! m := Handle NewServeMux "/__stats" stats in
  Handle m "/" business.

(** What changes the counters, in the order it happens: a connection, accepted or
    not, and the start of a request, which the mux sends to one of the endpoints. *)
Inductive event :=
| connection (accepted : bool)
| arrival (r : Request).

Definition endpoint_of (r : Request) : option endpoint :=
  match mux with
  | Ret m => match findHandler m r with
             | Found h => Some h
             | _ => None
             end
  | Panic _ => None
  end.

Definition step (c : counters) (e : event) : counters :=
  match e with
  | connection ok => (Accept (if ok then Ok tt else Err (OpaqueError "accept")) c).1
  | arrival r => match endpoint_of r with
                 | Some business => count_request c
                 | _ => c
                 end
  end.

Definition after (c : counters) (hist : list event) : counters := foldl step c hist.

(** ** Lemmas *)

Definition accepted (e : event) : bool := match e with connection ok => ok | arrival _ => false end.
Definition served (e : event) : bool :=
  match e with
  | arrival r => match endpoint_of r with Some business => true | _ => false end
  | connection _ => false
  end.

Definition count (f : event -> bool) (hist : list event) : Z := Z.of_nat (length (List.filter f hist)).

Lemma wrap64_succ z n : wrap64 (wrap64 z + n) = wrap64 (z + n).
Proof.
  unfold wrap64. f_equal. replace ((z + two63) mod two64 - two63 + n + two63) with ((z + two63) mod two64 + n) by ring.
  rewrite Z.add_mod_idemp_l by done. f_equal. ring.
Qed.

Lemma step_counts c e :
  accepts (step c e) = (if accepted e then wrap64 (accepts c + 1) else accepts c) /\
  requests (step c e) = (if served e then wrap64 (requests c + 1) else requests c).
Proof. destruct e as [[]|r]; simpl; [done..|]. by destruct (endpoint_of r) as [[]|]. Qed.

Lemma after_wrapped (get : counters -> Z) (f : event -> bool) c hist :
  (forall c e, get (step c e) = if f e then wrap64 (get c + 1) else get c) ->
  int64_ok (get c) -> get (after c hist) = wrap64 (get c + count f hist).
Proof.
  intros Hstep. unfold after, count. revert c. induction hist as [|e hist IH]; intros c Hc.
  - simpl. by rewrite Z.add_0_r, wrap64_id.
  - cbn [foldl List.filter]. specialize (Hstep c e). destruct (f e).
    + rewrite IH, Hstep by (rewrite Hstep; apply wrap64_ok). rewrite wrap64_succ. cbn [length]. f_equal. lia.
    + rewrite IH; by rewrite Hstep.
Qed.

(** The counters hold the counts, on 64 bits. *)
Lemma after_counts hist :
  accepts (after newCounters hist) = wrap64 (count accepted hist) /\
  requests (after newCounters hist) = wrap64 (count served hist).
Proof.
  split; [apply (after_wrapped accepts accepted) | apply (after_wrapped requests served)];
    try done; intros; apply step_counts.
Qed.

Lemma endpoint_of_clean r :
  HasPrefix (escaped_path r) "/" = true -> cleanPath (escaped_path r) = escaped_path r ->
  endpoint_of r = Some (if bool_decide (r_Path r = "/__stats"%string) then stats else business).
Proof.
  intros Hp Hclean. unfold endpoint_of.
  assert (mux = Ret (two_sites "__stats" stats business)) as -> by reflexivity.
  by rewrite (two_sites_find "__stats" stats business).
Qed.

(** ** Properties *)

(** What /__stats says is true. Whatever connections and requests came, in
    whatever order, and came again between its two loads, the body it writes reads
    back as two numbers: the connections accepted by the first load, and the
    requests begun by the second, where a request counts when its clean path is any
    but /__stats itself. Every other answer is the origin's status and an object
    that names the origin and echoes the request. *)
Theorem stats_count_arrivals `{MapRange} hist hist' :
  count accepted hist <= maxInt64 -> count served (hist ++ hist') <= maxInt64 ->
  (forall r, HasPrefix (escaped_path r) "/" = true -> cleanPath (escaped_path r) = escaped_path r ->
     served (arrival r) = negb (bool_decide (r_Path r = "/__stats"%string))) /\
  (exists w body, statsHandler (mkRw [] newConn) (after newCounters hist) (after newCounters (hist ++ hist')) = Ret w /\
    c_body (rw_conn w) = [body] /\
    json_read body = Some ([("accepts", JInt (count accepted hist));
                            ("requests", JInt (count served (hist ++ hist')))]%string, newline)) /\
  (forall o r, 200 <= o_status o <= 999 -> exists w body, reply o (mkRw [] newConn) r = Ret w /\
    fst <$> c_sent (rw_conn w) = Some (o_status o) /\ c_body (rw_conn w) = [body] /\
    json_read body = Some (valid_field <$> [("method", JString (r_Method r)); ("path", JString (r_Path r));
                             ("service", JString (o_name o)); ("status", JString "ok")]%string, newline)).
Proof.
  intros Ha Hr. split_and!.
  - intros r Hp Hc. unfold served. rewrite endpoint_of_clean by done. by destruct (bool_decide _).
  - destruct (after_counts hist) as [Ea _], (after_counts (hist ++ hist')) as [_ Er].
    unfold statsHandler. rewrite Ea, Er, !wrap64_id by (unfold count in *; int_lia).
    eexists _, _. split; [reflexivity|]. split; [reflexivity|]. apply json_read_object.
  - intros o r Hs. unfold reply, WriteHeader, Write, on_rw.
    cbn [update_Header rw_wrappers rw_conn newConn writeHeader write conn_update c_header c_sent c_info c_body c_hijacked].
    unfold conn_WriteHeader. cbn [c_header c_sent c_info c_body c_hijacked].
    assert ((o_status o <? 100) || (999 <? o_status o) = false) as -> by lia.
    assert ((o_status o <=? 199) && negb (o_status o =? 101) = false) as -> by lia.
    eexists _, _. split; [reflexivity|]. split; [reflexivity|]. split; [reflexivity|]. apply json_read_object.
Qed.
