(* ===== verification/Witness.v ===== *)
(** * The hypotheses hold of concrete inputs

    An environment in which everything the program does not contain is a concrete
    function, and for each property with hypotheses an input where they hold. *)

From S2P Require Import Prelude GoInt GoFloat GoFloatRound OriginState Balancer BalancerConc RateLimit RateLimitRound Mutex RateLimitConc GoStrings Header Value Http Retry Netip Tracing ClientIP Url Cors HttpLog HttpLogConc ResponseHeaders Metrics Plugin Proxy Exchange Health Config Mux Router Gateway Watcher Follow Main.
From S2P Require Acme Base64 Sha256 Json JwtGen Stubs Generation Pipeline Frames Limited Guarded Distributed Serve.
From Stdlib Require Import Ascii QArith Lqa SpecFloat.
#[local] Open Scope Z_scope.

(** ** An environment *)

Definition demo_response : Response :=
  mkResponse 200 {["Content-Type"%string := ["text/plain"%string]]} ["hello"%string] false [].

(** Round trips at even ticks time out, the others answer. *)
#[local] Instance demo_Env : Env := {
  env_net n _ := (Second, if Nat.even n then Err (mkGerror "i/o timeout" true) else Ok demo_response);
  env_get n _ := (Second, if Nat.even n then None else Some 204);
  env_rand n := 7;
  env_bytes n := Some [1; 2; 3];
  env_incr n _ := Ok 1;
  env_expire n _ _ := Ok true;
  env_stamp _ := "2024/01/01 00:00:00"%string
}.

(** The names of the vectors, one a line. *)
#[local] Instance demo_Promhttp : Promhttp := fun vecs w _ =>
  lift (Write w (concat_str ((fun v => v_Name v +:+ newline)%string <$> vecs))).

#[local] Instance demo_OS : OS := {
  Getenv k := if String.eqb k "DEALER_TLS_CERT_FILE" then "cert.pem"%string
              else if String.eqb k "DEALER_TLS_KEY_FILE" then "key.pem"%string
              else if String.eqb k "JWT_SECRET" then "s3cret"%string
              else EmptyString;
  MkdirTemp _ := Ok "/tmp/dealer"%string
}.

#[local] Instance demo_SugarNode : SugarNode := {
  DefaultConfig := mkSugarConfig "localhost" "" false "1" "" 7946;
  NewSugarDB _ := Ok tt
}.

(** A token of the form "HS256.secret" is signed by that secret. *)
Definition demo_header (s : string) : option jwt_token :=
  match CutPrefix s "HS256." with Some _ => Some (mkToken true "HS256") | None => None end.
Definition demo_signed (key s : string) : bool := String.eqb s ("HS256." +:+ key).

#[local] Instance demo_JWT : JWT := {
  jwt_Parse now s keyfunc :=
    match demo_header s with
    | None => Err (OpaqueError "token is malformed")
    | Some t => match keyfunc t with
                | Err e => Err e
                | Ok key => if demo_signed key s then Ok true else Err (OpaqueError "signature is invalid")
                end
    end
}.

#[local] Instance demo_JWTLaws : JWTLaws.
Proof.
  refine {| jwt_header := demo_header; jwt_signed := demo_signed; jwt_in_time := fun _ _ => true |}.
  intros now s keyfunc. simpl. split.
  - destruct (demo_header s) as [t|]; [|done]. destruct (keyfunc t) as [key|e] eqn:Ek; [|done].
    destruct (demo_signed key s) eqn:Es; [|done]. intros _. by exists t, key.
  - intros (t & key & -> & -> & Hs & _). by rewrite Hs.
Defined.

#[local] Instance demo_TraceContext : TraceContext := { Inject _ := [] }.

#[local] Instance demo_Tracer : Tracer := {
  otlp_New _ := Ok tt;
  resource_New _ := Ok tt;
  tracer_Start _ parent _ := parent
}.

Definition demo_service : Service :=
  mkService "shop" "/shop/" "" "http://origin:8080" [] ["GET"%string] []
    (Some (mkHealthCheckConfig "/health" "5s")) false false.

Definition demo_config : Config := mkConfig [demo_service].

#[local] Instance demo_ConfigSource : ConfigSource := {
  yaml_Unmarshal _ := Ok demo_config;
  ReadFile _ := Ok "services: []"%string
}.

(** A counter database whose commands succeed. *)
Abbreviation demoDB := (gmap string (Z * bool)).

Definition demo_counter (db : demoDB) (k : string) : Z := Z.abs (default (0, false) (db !! k)).1.
Definition demo_expires (db : demoDB) (k : string) : bool := (default (0, false) (db !! k)).2.

#[local] Instance demo_SugarDB : SugarDB demoDB := {
  Incr db k := (<[k := (demo_counter db k + 1, demo_expires db k)]> db, Ok (demo_counter db k + 1));
  Expire db k _ := (<[k := (demo_counter db k, true)]> db, Ok true)
}.

Definition demo_Heap : Heap := mkHeap ∅ ∅ ∅ ∅ None.
Definition demo_World : World := mkWorld 1000 0 [] demo_Heap.
Definition demo_rw : rw := mkRw [] newConn.

Definition demo_request (method : string) (h : header) (b : option body) (n : Z) : Request :=
  mkRequest method "" "" "/shop/cart" "" "" "shop.example.com" "10.0.0.1:4711" h b n background.

Definition demo_get : Request := demo_request "GET" ∅ None 0.

Definition demo_next : Handler := fun w _ => lift (WriteHeader w 200).

(** The counter database obeys the laws. *)
Lemma demo_counter_insert (db : demoDB) (k : string) c x k' :
  demo_counter (<[k := (c, x)]> db) k' = if decide (k = k') then Z.abs c else demo_counter db k'.
Proof. unfold demo_counter. rewrite lookup_insert. by case_decide. Qed.

Lemma demo_expires_insert (db : demoDB) (k : string) c x k' :
  demo_expires (<[k := (c, x)]> db) k' = if decide (k = k') then x else demo_expires db k'.
Proof. unfold demo_expires. rewrite lookup_insert. by case_decide. Qed.

Lemma demo_counter_pos db k : 0 <= demo_counter db k.
Proof. unfold demo_counter. lia. Qed.

#[local] Instance demo_SugarDBLaws : SugarDBLaws demoDB.
Proof.
  refine {| counter := demo_counter; expires := demo_expires; counter_nonneg := demo_counter_pos |}.
  - intros db k db' c [= <- <-]. pose proof (demo_counter_pos db k).
    rewrite demo_counter_insert, demo_expires_insert, !decide_True by done. split_and!; try done; try lia.
    intros k' Hk. by rewrite demo_counter_insert, demo_expires_insert, !decide_False by done.
  - done.
  - intros db k n db' r [= <- <-] k'. rewrite demo_counter_insert. case_decide as E; [|done].
    subst k'. pose proof (demo_counter_pos db k). lia.
  - intros db k n db' r [= <- <-]. split; [|by rewrite demo_expires_insert, decide_True].
    intros k' Hk. by rewrite demo_expires_insert, decide_False.
Defined.

(** ** Witnesses: origins and load balancing *)

Lemma demo_history : history_ok [RecordFailure 500; RecordFailure 400; SetForcedDown false].
Proof. split; [repeat constructor|by vm_compute]. Qed.

Lemma origin_refines_history_witness :
  let h := [RecordFailure 500; RecordFailure 400; SetForcedDown false] in
  run h = mkOriginState (default zeroTime (lastFailure h)) (probedDown h) (streak h) /\
  (IsZero (lastFailureAt (run h)) = true <-> streak h = 0).
Proof. apply origin_refines_history, demo_history. Defined.

Lemma available_iff_witness :
  let h := [RecordFailure 500; RecordFailure 400; SetForcedDown false] in
  available (run h) 800 100 2 50 = true <->
  probedDown h = false /\
  (streak h = 0 \/ exists t, lastFailure h = Some t /\ effectiveCooldown h 100 2 50 < 800 - t).
Proof. apply available_iff; [apply demo_history|by vm_compute..]. Defined.

Lemma origin_recovers_witness :
  let h := [RecordFailure 500] in
  (forall now, available (run (RecordSuccess :: h)) now 100 2 50 = negb (probedDown h)) /\
  (forall now t, probedDown h = false -> lastFailure h = Some t ->
     Z.max 100 (50 * 2 ^ maxBreakerCooldownShift) < now - t -> available (run h) now 100 2 50 = true).
Proof.
  apply origin_recovers; [|by vm_compute..]. split; [repeat constructor|by vm_compute].
Defined.

Lemma escalation_schedule_witness :
  escalatedCooldown Second 0 = Second /\
  escalatedCooldown Second (3 + 1) =
    (if 3 <? maxBreakerCooldownShift then 2 * escalatedCooldown Second 3 else escalatedCooldown Second 3) /\
  Second <= escalatedCooldown Second 3 <= Second * 2 ^ maxBreakerCooldownShift.
Proof. apply (escalation_schedule Second 3); by vm_compute. Defined.

(** Two origins; the second is cooling down after a failure at 500. *)
Definition demo_lb : roundRobinProxy :=
  mkRoundRobinProxy "shop"
    [mkRoundRobinOrigin "http://a" (run []); mkRoundRobinOrigin "http://b" (run [RecordFailure 500])]
    100 (mkBreakerOptions 1 1000) 0.

Lemma choose_complete_witness :
  (exists k before after,
      snd (choose demo_lb 700) = Dial k /\ available_at demo_lb 700 k = true /\
      rotation 2 (lb_next demo_lb + 1) = before ++ k :: after /\
      Forall (fun j => available_at demo_lb 700 j = false) before)
  \/ (forall k, (k < 2)%nat -> available_at demo_lb 700 k = false).
Proof. apply (choose_complete demo_lb 700); [simpl; lia|by vm_compute..|done]. Defined.

Lemma choose_never_dials_open_witness :
  origin_open demo_lb 700 (mkRoundRobinOrigin "http://a" (run [])) = false.
Proof.
  apply (choose_never_dials_open demo_lb 700 0); [|by vm_compute|done].
  repeat constructor; (eexists; split; [|reflexivity]; split; [repeat constructor|by vm_compute]).
Defined.

Lemma choose_fair_witness : choose_all demo_lb [5000; 6000] ≡ₚ Dial <$> seq 0 2.
Proof.
  apply (choose_fair demo_lb); [simpl; lia|by vm_compute..|done|].
  repeat constructor; intros [|[|k]] Hk; (by vm_compute) || (simpl in Hk; lia).
Defined.

(** One request has arrived, and goes on to dial the only origin. *)
Definition demo_arrived : sys := mkSys 1 [newOriginState] {[0%nat := Scanning 1 0 700]}.

Lemma demo_reach : reach 100 (mkBreakerOptions 1 1000) 1 1 demo_arrived.
Proof.
  apply (reach_step _ _ _ 0 (init 1)); [constructor|].
  apply (step_arrive _ _ 0%nat 700 0 [newOriginState] ∅); by vm_compute.
Qed.

Lemma concurrent_never_dials_open_witness : isopen (mkBreakerOptions 1 1000) newOriginState 700 = false.
Proof.
  apply (concurrent_never_dials_open 100 (mkBreakerOptions 1 1000) 1 1 demo_arrived
           (mkSys 1 [newOriginState] (<[0%nat := Dialing 0]> {[0%nat := Scanning 1 0 700]})) 0 0 1 0 700);
    [apply demo_reach|by vm_compute| |done..].
  apply (step_try _ _ 0%nat 1 0 700 newOriginState 1 [newOriginState]); by vm_compute.
Defined.

Lemma scanning_progress_witness :
  0 <= 0 <= Z.of_nat 1 /\
  exists σ' p, step 100 (mkBreakerOptions 1 1000) demo_arrived σ' /\ threads σ' !! 0%nat = Some p /\
    moves_on 1 1 0 700 p.
Proof.
  destruct (scanning_progress 100 (mkBreakerOptions 1 1000) 1 1 demo_arrived 0 1 0 700) as (Hi & Hs & _);
    [lia|apply demo_reach|done|]. done.
Defined.

(** The second of two origins is cooling down. The rotation starts there, and the
    request goes to the first. *)
Definition demo_states : list originState := [newOriginState; run [RecordFailure 650]].

Lemma alone_refines_choose_witness :
  snd (choose (balancer 100 (mkBreakerOptions 1 1000) (mkSys 0 demo_states ∅)) 700) = Dial 0 /\
  rtc (step 100 (mkBreakerOptions 1 1000)) (mkSys 0 demo_states ∅)
    (mkSys 1 demo_states (<[0%nat := Dialing 0]> ∅)).
Proof.
  split; [by vm_compute|].
  apply (alone_refines_choose 100 (mkBreakerOptions 1 1000) 0 700 0 demo_states ∅); [simpl; lia|by vm_compute|done].
Defined.

(** ** Witnesses: retries and rate limiting *)

Definition demo_retry : retryTransport := newRetryTransport 3 (100 * Millisecond) false.

Lemma retry_schedule_witness :
  let req' := attempt_request demo_get None in
  exists ds σ',
    RoundTrip demo_retry demo_get demo_World = (σ', Ret (answer 0 req' (length ds))) /\
    w_events σ' = attempt_trace req' None ds /\
    Z.of_nat (length ds) < 3 /\
    (forall i d, ds !! i = Some d ->
       backoff_ok (100 * Millisecond) (Z.of_nat (S i)) d /\
       exists e, answer 0 req' i = Err e /\ isRetryableError e = true) /\
    final demo_retry (Z.of_nat (S (length ds))) (answer 0 req' (length ds)) = true.
Proof. apply (retry_schedule demo_retry demo_get None demo_World); [by vm_compute|done..]. Defined.

Lemma unsafe_never_repeated_witness :
  exists sent, w_events (RoundTrip demo_retry (demo_request "POST" ∅ None 0) demo_World).1 =
    [EvRoundTrip (demo_request "POST" ∅ None 0) sent].
Proof.
  apply (unsafe_never_repeated demo_retry (demo_request "POST" ∅ None 0) demo_World). right.
  split; [done|]. apply (bool_decide_unpack _). by vm_compute.
Defined.

(** The second and the fourth request read their clock before the one ahead of them. *)
Definition demo_requests : list (string * Time) :=
  [("a", 2 * Second); ("a", Second); ("b", 2 * Second); ("a", 2 * Second - 1)]%string.

Definition demo_drift : Q := (inject_Z 3 * pow2 (-49) * magnitude (fofZ 1 : float64) (fofZ 2) (3 * Second))%Q.

Lemma concurrent_rate_bound_witness :
  exists σ, mreach (allow_body (fofZ 1 : float64) (fofZ 2)) (newMemoryStore, []) demo_requests σ /\
    (shared σ).2 = [("a", true); ("a", false); ("b", true); ("a", false)]%string /\
    (inject_Z (admitted "a" (shared σ).2) <=
     value (fofZ 2 : float64) + secs (3 * Second - 0) * value (fofZ 1 : float64) + 2 * demo_drift)%Q.
Proof.
  destruct (mreach_sequential (allow_body (fofZ 1 : float64) (fofZ 2)) (newMemoryStore, []) demo_requests) as [ts Hr].
  eexists. split; [exact Hr|]. split; [by vm_compute|].
  apply (concurrent_rate_bound (fofZ 1) (fofZ 2) "a" Second 0 (3 * Second) demo_requests _); [by vm_compute..|right; by vm_compute| |exact Hr].
  by vm_compute.
Defined.

Definition demo_store : memoryStore Q := mkMemoryStore {["a"%string := mkVisitor 1%Q 50]} 3.

Lemma demo_store_ok : store_ok 2 demo_store 100.
Proof.
  intros k v. unfold demo_store. simpl. intros [<- <-]%lookup_singleton_Some.
  split_and!; by vm_compute.
Qed.

Definition demo_buckets : memoryStore float64 := mkMemoryStore {["a"%string := mkVisitor (fofZ 1) Second]} 3.

Lemma demo_buckets_ok : buckets_ok (fofZ 2) (10 * Second) demo_buckets (3 * Second).
Proof.
  intros k v. unfold demo_buckets. cbn [visitors]. intros [<- <-]%lookup_singleton_Some. unfold bucket_ok.
  split_and!; by vm_compute.
Qed.

Lemma allow_rounded_witness :
  let '(s', ok) := allow demo_buckets "a" (fofZ 1 : float64) (fofZ 2) (3 * Second) in
  ok = true /\
  (1 - drift (fofZ 1 : float64) (fofZ 2) (10 * Second)%Z <= level (fofZ 1) (fofZ 2) demo_buckets "a" (3 * Second)%Z)%Q /\
  buckets_ok (fofZ 2) (10 * Second) s' (3 * Second).
Proof.
  opose proof* (allow_rounded (fofZ 1) (fofZ 2) demo_buckets "a" (3 * Second) (10 * Second)) as H;
    [by vm_compute..|apply demo_buckets_ok|].
  assert (Hok : (allow demo_buckets "a" (fofZ 1 : float64) (fofZ 2) (3 * Second)).2 = true) by by vm_compute.
  destruct (allow demo_buckets "a" (fofZ 1 : float64) (fofZ 2) (3 * Second)) as [s' ok]. cbn [snd] in Hok. subst ok.
  destruct H as (H1 & _ & _ & H4). by split_and!.
Defined.

Lemma waiting_suffices_witness : snd (allow demo_store "a" 1%Q 2%Q (100 + Second)) = true.
Proof.
  apply (waiting_suffices 1 2 demo_store "a" 100); [by vm_compute..|apply demo_store_ok|by vm_compute|by vm_compute].
Defined.

Lemma window_limit_witness : admitted "a" [("a", true); ("a", true)]%string <= sugar_limit (2%Q).
Proof.
  apply (window_limit (DB := demoDB) "a" 1%Q 2%Q ∅
           (sugarDBStore_allow (sugarDBStore_allow (∅ : demoDB) "a" 1%Q 2%Q 100).1 "a" 1%Q 2%Q 100).1); [|done].
  apply (window_call _ _ _ _ _ 100 (sugarDBStore_allow (∅ : demoDB) "a" 1%Q 2%Q 100).1); [by vm_compute|].
  eapply (window_call _ _ _ _ _ 100); [|constructor]. by vm_compute.
Defined.

(** ** Witnesses: routing and reload *)

Definition demo_options : resolvedOptions := resolve (Gateway.mkOptions 0 0 0 0 "" 0 0 0 0 5 0 false "10.0.0.0/8" "" "").
Definition demo_Options : Gateway.Options := Gateway.mkOptions 0 0 0 0 "" 0 0 0 0 5 0 false "10.0.0.0/8" "" "".

Definition demo_handlerFor (_ : Service) (n : nat) : M (nat * result error nat) := ret (S n, Ok n).

Lemma requests_reach_services_witness :
  exists σ' acc' mux hs, Router.Build demo_config demo_handlerFor 0%nat demo_World = (σ', Ret (acc', Ok mux)) /\
  handlers (Services demo_config) demo_handlerFor 0%nat demo_World = (σ', Ret (acc', Ok hs)) /\
  length hs = length (Services demo_config) /\
  match mux_match mux "shop.example.com" "GET" "/shop/cart" with
  | Some h => exists i p, hs !! i = Some h /\ serves (Services demo_config) i p /\
      admits p "GET" (path_segs "/shop/cart") = true /\
      (p_host p = "shop.example.com"%string \/
       p_host p = EmptyString /\
       ~ host_serves (Services demo_config) "shop.example.com" "GET" (path_segs "/shop/cart"))
  | None => ~ host_serves (Services demo_config) "shop.example.com" "GET" (path_segs "/shop/cart") /\
            ~ host_serves (Services demo_config) EmptyString "GET" (path_segs "/shop/cart")
  end.
Proof.
  assert (Hb : exists σ' acc' mux, Router.Build demo_config demo_handlerFor 0%nat demo_World = (σ', Ret (acc', Ok mux)))
    by (do 3 eexists; reflexivity).
  destruct Hb as (σ' & acc' & mux & Hb). exists σ', acc', mux.
  destruct (requests_reach_services demo_config demo_handlerFor 0%nat demo_World σ' acc' mux
              "shop.example.com" "GET" "/shop/cart" Hb) as (hs & H). by exists hs.
Defined.

(** The gateway starts, and reloads. *)
Definition demo_life : bool :=
  match Gateway.New "config.yml" demo_Options demo_World with
  | (σ1, Ret (Ok (s, g))) =>
      match reloads (set_resolved s) [demo_config] g σ1, buildMux demo_config (set_resolved s) σ1 with
      | (_, Ret _), (_, Ret (Ok (_, probers, _))) => Nat.eqb (length probers) 1
      | _, _ => false
      end
  | _ => false
  end.

Lemma one_generation_runs_witness :
  exists σ1 σ2 s g g' mux probers plugins,
    Gateway.New "config.yml" demo_Options demo_World = (σ1, Ret (Ok (s, g))) /\
    reloads (set_resolved s) [demo_config] g σ1 = (σ2, Ret g') /\
    buildMux demo_config (set_resolved s) σ1 = (σ2, Ret (Ok (mux, probers, plugins))) /\
    length probers = 1%nat /\ gw_mux g' = mux /\
    running (gw_runtime g') ≡ₚ (probing <$> probers) ++ [flushing plugins; watching] /\
    exists σ3 g'', Close s g' σ2 = (σ3, Ret g'') /\ running (gw_runtime g'') = [].
Proof.
  assert (Hlife : demo_life = true) by by vm_compute. unfold demo_life in Hlife.
  destruct (Gateway.New "config.yml" demo_Options demo_World) as [σ1 [[[s g]|]|]] eqn:Hn; [|done..].
  destruct (reloads (set_resolved s) [demo_config] g σ1) as [σ2 [g'|]] eqn:Hr; [|done].
  destruct (one_generation_runs _ _ _ _ _ _ _ _ _ Hn Hr)
    as (cfg & first & mux & probers & plugins & _ & _ & Hlast & Hm & _ & Hrun & Hclose).
  cbn [last_built] in Hlast. unfold bind in Hlast.
  destruct (buildMux demo_config (set_resolved s) σ1) as [σ2' [[[[mux' probers'] plugins']|e]|]] eqn:Hb; [|done..].
  apply Nat.eqb_eq in Hlife. injection Hlast as -> -> -> ->. exists σ1, σ2, s, g, g', mux, probers, plugins. by split_and!.
Defined.

Definition demo_upload : Request := demo_request "GET" ∅ None 20000000.

Lemma every_service_limited_witness :
  exists σ' acc' h, handlerFor demo_options demo_service ([], []) demo_World = (σ', Ret (acc', Ok h)) /\
    forall σ0, h demo_rw demo_upload σ0 =
      Recorder_Wrap "shop" (fun w _ => lift (WriteHeader w 413)) demo_rw demo_upload σ0.
Proof.
  assert (Hh : exists σ' acc' h, handlerFor demo_options demo_service ([], []) demo_World = (σ', Ret (acc', Ok h))).
  { destruct (handlerFor demo_options demo_service ([], []) demo_World) as [σ' [[acc' [h|e]]|]] eqn:E;
      [by exists σ', acc', h|exfalso..].
    - by apply (f_equal (fun r => match r with (_, Ret (_, Ok _)) => true | _ => false end)) in E; vm_compute in E.
    - by apply (f_equal (fun r => match r with (_, Ret (_, Ok _)) => true | _ => false end)) in E; vm_compute in E. }
  destruct Hh as (σ' & acc' & h & Hh). exists σ', acc', h. split; [done|].
  apply (every_service_limited _ _ _ _ _ _ _ _ _ Hh). by vm_compute.
Defined.

(** ** Witnesses: clients, plugins, metrics *)

Definition forwarded (v : string) : header := {["X-Forwarded-For"%string := [v]]}.
Definition demo_resolver : Resolver := mkResolver [mkPrefix (V4 (10 * 2 ^ 24)) 8].

Definition demo_chain : Request :=
  demo_request "GET" (forwarded "1.1.1.1, 203.0.113.7, 10.1.2.3") None 0.

Lemma Resolve_spec_witness :
  Resolve (Some demo_resolver) demo_chain =
    if trusted_peer (Some demo_resolver) demo_chain
    then default (default (peerAddr demo_chain) (head ["10.1.2.3"%string] ≫= hop_string))
           (last ["1.1.1.1"%string; "203.0.113.7"%string] ≫= hop_string)
    else peerAddr demo_chain.
Proof.
  apply (Resolve_spec demo_resolver _ ["1.1.1.1"%string; "203.0.113.7"%string] ["10.1.2.3"%string]);
    [by vm_compute..|]. by intros h [= <-].
Defined.

(** One client, as two proxies wrote it. *)
Lemma clients_identified_witness :
  exists seen seen',
    (forall next w, Middleware (Some demo_resolver) next w (demo_request "GET" (forwarded "1.1.1.1, 2001:DB8:0::7, 10.1.2.3") None 0) = next w seen) /\
    (forall next w, Middleware (Some demo_resolver) next w (demo_request "GET" (forwarded "2001:db8::0007") None 0) = next w seen') /\
    FromRequest seen = FromRequest seen' /\ ParseAddr (FromRequest seen) = ParseAddr "2001:db8::7".
Proof.
  destruct (clients_identified demo_resolver (demo_request "GET" (forwarded "1.1.1.1, 2001:DB8:0::7, 10.1.2.3") None 0)
    (demo_request "GET" (forwarded "2001:db8::0007") None 0) (V6 42540766411282592856903984951653826567 "")
    (V6 42540766411282592856903984951653826567 "")) as (s & s' & H1 & H2 & Hp & H3).
  - split; [by vm_compute|]. exists ["1.1.1.1"%string], "2001:DB8:0::7"%string, ["10.1.2.3"%string]. by vm_compute.
  - split; [by vm_compute|]. exists [], "2001:db8::0007"%string, []. by vm_compute.
  - exists s, s'. split_and!; [done|done|by apply H3|]. rewrite Hp. by vm_compute.
Defined.

Lemma jwt_auth_gate_witness :
  let r := demo_request "GET" {["Authorization"%string := ["Bearer HS256.s3cret"%string]]} None 0 in
  jwtAuth_Wrap "s3cret" demo_next demo_rw r demo_World =
    (if String.eqb (extractToken r) "" then lift (http_Error demo_rw "missing jwt" 401) demo_World
     else if authentic "s3cret" (w_now demo_World) (extractToken r) then demo_next demo_rw r demo_World
     else lift (http_Error demo_rw "invalid jwt" 401) demo_World) /\
  authentic "s3cret" 1000 (extractToken r) = true /\ authentic "other" 1000 (extractToken r) = false.
Proof. split; [|by vm_compute]. apply (jwt_auth_gate "s3cret" demo_next demo_rw). Defined.

Definition demo_cors_config : config :=
  {["allowed_origins"%string := Slice [Str "https://shop.example.com"];
    "allow_credentials"%string := Bool true]}.
Definition demo_cors : cors := mkCors ["https://shop.example.com"%string] [] [] true "".

Lemma cors_decides_witness :
  let r := demo_request "OPTIONS" {["Origin"%string := ["https://shop.example.com"%string];
             "Access-Control-Request-Method"%string := ["PUT"%string]]} None 0 in
  exists h,
    cors_Wrap demo_cors demo_next demo_rw r =
      (if is_preflight r then lift (WriteHeader (update_Header (const h) demo_rw) 204)
       else demo_next (update_Header (const h) demo_rw) r) /\
    cors_decision demo_cors (Get (r_Header r) "Origin") h /\
    (Values h ACAC <> [] -> exists o, Values h ACAO = [o] /\ o <> "*"%string /\ o ∈ allowedOrigins demo_cors).
Proof. apply (cors_decides demo_cors_config demo_cors); by vm_compute. Defined.

Definition demo_edge : responseHeaders := mkResponseHeaders {["X-Frame-Options"%string := "DENY"%string]} [].

Lemma response_headers_applied_witness :
  exists w1 w2,
    do_calls [CallWriteHeader 200; CallWrite "hi"] demo_rw = Ret w1 /\
    do_calls [CallWriteHeader 200; CallWrite "hi"] (push (responseHeadersWriter demo_edge false) demo_rw) = Ret w2 /\
    rw_wrappers (pop w2) = rw_wrappers w1 /\
    c_info (rw_conn w2) = c_info (rw_conn w1) /\ c_body (rw_conn w2) = c_body (rw_conn w1) /\
    match c_sent (rw_conn w1) with
    | None => c_sent (rw_conn w2) = None
    | Some (code, h) => exists h', c_sent (rw_conn w2) = Some (code, h') /\
        forall k, Values h' k =
          if code =? 101 then Values h k
          else match override demo_edge h k with Some v => [v] | None => Values h k end
    end.
Proof.
  assert (Hr : exists w1, do_calls [CallWriteHeader 200; CallWrite "hi"] demo_rw = Ret w1) by (eexists; reflexivity).
  destruct Hr as (w1 & Hr). exists w1.
  pose proof (response_headers_applied demo_edge [CallWriteHeader 200; CallWrite "hi"] demo_rw) as H.
  rewrite Hr in H. destruct (do_calls _ (push _ demo_rw)) as [w2|]; [|exfalso; apply H].
  - exists w2. split; [done|]. split; [done|]. apply H; [constructor|done|].
    split; [|constructor]. unfold demo_edge. simpl. intros k k' [v [<- _]%lookup_singleton_Some] [v' [<- _]%lookup_singleton_Some] _. done.
  - constructor.
  - done.
  - split; [|constructor]. unfold demo_edge. simpl. intros k k' [v [<- _]%lookup_singleton_Some] [v' [<- _]%lookup_singleton_Some] _. done.
Defined.

Lemma size_limits_compose_witness :
  exists b,
    requestSizeLimiting_Wrap 10 (requestSizeLimiting_Wrap 4 demo_next) demo_rw
      (demo_request "POST" ∅ (Some (mkBody "hello" None [])) (-1)) =
    demo_next demo_rw (with_Body (Some b) (demo_request "POST" ∅ (Some (mkBody "hello" None [])) (-1))) /\
    ReadAll b = if Z.min 10 4 <? Z.of_nat (String.length "hello") then Err errTooLarge else Ok "hello"%string.
Proof.
  apply (size_limits_compose 10 4 demo_next demo_rw
           (demo_request "POST" ∅ (Some (mkBody "hello" None [])) (-1))); lia.
Defined.

Lemma metrics_status_sent_witness :
  exists w1 σ1 σ2,
    demo_next (push (statusWriter 200) demo_rw) demo_get demo_World = (σ1, Ret w1) /\
    Recorder_Wrap "shop" demo_next demo_rw demo_get demo_World = (σ2, Ret (pop w1)) /\
    w_events σ2 = w_events σ1 ++
      [EvObserve "shop" "GET" (Seconds (Sub (w_now σ1) (w_now demo_World)));
       EvInc "shop" "GET" (Itoa (final_status w1))].
Proof.
  assert (Hr : exists w1 σ1, demo_next (push (statusWriter 200) demo_rw) demo_get demo_World = (σ1, Ret w1) /\
            do_calls [CallWriteHeader 200] (push (statusWriter 200) demo_rw) = Ret w1)
    by (do 2 eexists; split; reflexivity).
  destruct Hr as (w1 & σ1 & Hn & Hc). exists w1, σ1.
  destruct (metrics_status_sent "shop" [CallWriteHeader 200] demo_next demo_rw demo_get demo_World w1 σ1 Sent
              eq_refl eq_refl eq_refl eq_refl ltac:(done) Hc Hn) as (σ2 & H).
  by exists σ2.
Defined.

Lemma http_log_line_witness :
  exists σ', httpLog_log 0 "GET" "/shop" "abc" demo_World = (σ', Ret tt) /\
    logged 0 (log_line (w_now demo_World) "GET" "/shop" "abc") demo_World σ'.
Proof. apply (http_log_line 0 "GET" "/shop" "abc" demo_World). vm_compute. lia. Defined.

Lemma FlushLoggers_empties_witness :
  exists σ', FlushLoggers [httpLog 0; jwtAuth "s"; httpLog 1] demo_World = (σ', Ret tt) /\
    stdout (w_events σ') =
      (stdout (w_events demo_World) +:+ concat_str ((fun p => buffer p demo_World) <$> [0; 1]%nat))%string /\
    forall p, buffer p σ' = if bool_decide (p ∈ [0; 1]%nat) then EmptyString else buffer p demo_World.
Proof.
  apply (FlushLoggers_empties [httpLog 0; jwtAuth "s"; httpLog 1] demo_World).
  apply (bool_decide_unpack _). by vm_compute.
Defined.

(** ** Witnesses: exchanges with an origin *)

Definition demo_World1 : World := mkWorld 1000 1 [] demo_Heap.
Definition demo_once : RetryOptions := mkRetryOptions 1 Second false.

Lemma failed_exchange_witness :
  exists rp e σ1 σ',
    NewReverseProxy "shop" "http://origin:8080" Second demo_once = Ok rp /\
    RoundTripper_RoundTrip (Transport rp) (outgoing (track 0 rp) demo_get) demo_World = (σ1, Ret (Err e)) /\
    ReverseProxy_ServeHTTP (track 0 rp) demo_rw demo_get demo_World = (σ', bad_gateway demo_rw "shop") /\
    only_origin 0 (recordFailure (w_now σ1)) σ1 σ'.
Proof.
  assert (Hrun : exists rp e σ1, NewReverseProxy "shop" "http://origin:8080" Second demo_once = Ok rp /\
    RoundTripper_RoundTrip (Transport rp) (outgoing (track 0 rp) demo_get) demo_World = (σ1, Ret (Err e)))
    by (do 3 eexists; split; reflexivity).
  destruct Hrun as (rp & e & σ1 & Hrp & Hrun). exists rp, e, σ1.
  destruct (failed_exchange "shop" "http://origin:8080" Second demo_once rp 0 demo_rw demo_get e demo_World σ1
              Hrp) as (σ' & H); [|done|by exists σ'].
  assert (asks_printable (track 0 rp) demo_get = true) by (injection Hrp as <-; by vm_compute). done.
Defined.

Lemma relayed_exchange_witness :
  exists rp σ1 σ',
    RoundTripper_RoundTrip (Transport rp) (outgoing (track 0 rp) demo_get) demo_World1 = (σ1, Ret (Ok demo_response)) /\
    ReverseProxy_ServeHTTP (track 0 rp) demo_rw demo_get demo_World1 = (σ', relayed demo_rw demo_response) /\
    only_origin 0 recordSuccess σ1 σ'.
Proof.
  assert (Hrun : exists rp σ1, NewReverseProxy "shop" "http://origin:8080" Second demo_once = Ok rp /\
    RoundTripper_RoundTrip (Transport rp) (outgoing (track 0 rp) demo_get) demo_World1 = (σ1, Ret (Ok demo_response)))
    by (do 2 eexists; split; reflexivity).
  destruct Hrun as (rp & σ1 & Hrp & Hrun). exists rp, σ1.
  destruct (relayed_exchange "shop" "http://origin:8080" Second demo_once rp 0 demo_rw demo_get demo_response
              demo_World1 σ1 Hrp) as [(_ & _ & σ' & Hs & Ho) _]; [|done|done| |by exists σ'].
  - injection Hrp as <-. by vm_compute.
  - unfold demo_response. simpl. by intros k [v [<- _]%lookup_singleton_Some].
Defined.

Lemma outgoing_headers_witness :
  exists rp target, Director rp = director target /\
    let r := demo_request "GET" {["X-Api-Key"%string := ["k"%string]; "Connection"%string := ["X-Api-Key"%string]]} None 0 in
    let req := outgoing rp r in
    Values (r_Header req) "X-Api-Key" =
      (if existsb (fun k' => String.eqb (CanonicalHeaderKey k') (CanonicalHeaderKey "X-Api-Key"))
            (hopHeaders ++ connection_names (r_Header r))
       then [] else Values (r_Header r) "X-Api-Key") /\
    r_Method req = r_Method r /\ r_Host req = r_Host r /\ r_ctx req = r_ctx r /\
    (r_Path req, r_RawPath req) = joinURLPath target (r_Path r) (r_RawPath r) /\
    (u_RawPath target = EmptyString -> r_RawPath r = EmptyString ->
     r_Path req = singleJoiningSlash (u_Path target) (r_Path r)).
Proof.
  assert (Hrun : exists rp target, NewReverseProxy "shop" "http://origin:8080" Second demo_once = Ok rp /\
    Director rp = director target) by (do 2 eexists; split; reflexivity).
  destruct Hrun as (rp & target & _ & Hd). exists rp, target. split; [done|].
  apply (outgoing_headers rp target _ "X-Api-Key" Hd); [|constructor].
  apply (bool_decide_unpack _). by vm_compute.
Defined.

(** A client that breaks its upload off. *)
Definition demo_broken : Request :=
  demo_request "POST" ∅ (Some (mkBody "hel" (Some (mkGerror "unexpected EOF" false)) [])) 5.

Lemma unreadable_body_blames_origin_witness :
  exists rp σ', ReverseProxy_ServeHTTP (track 0 rp) demo_rw demo_broken demo_World = (σ', bad_gateway demo_rw "shop") /\
    only_origin 0 (recordFailure (w_now demo_World)) demo_World σ' /\ w_tick σ' = w_tick demo_World.
Proof.
  assert (Hrun : exists rp, NewReverseProxy "shop" "http://origin:8080" Second demo_once = Ok rp)
    by (eexists; reflexivity).
  destruct Hrun as (rp & Hrp). exists rp.
  apply (unreadable_body_blames_origin "shop" "http://origin:8080" Second demo_once rp 0 demo_rw demo_broken
           (mkBody "hel" (Some (mkGerror "unexpected EOF" false)) []) (mkGerror "unexpected EOF" false));
    [done|by vm_compute|done|by vm_compute].
Defined.

(** ** Witnesses: probes, the TLS reloader, the program *)

Definition demo_prober : Prober :=
  NewProber [mkProbeTarget "http://a" 0; mkProbeTarget "http://b/" 1] "/health" (5 * Second) Second.

Lemma demo_prober_distinct : NoDup (pt_state <$> targets demo_prober).
Proof. apply (bool_decide_unpack _). by vm_compute. Qed.

Lemma Start_marks_witness :
  exists σ', Start demo_prober [Tick; Tick; CtxDone] demo_World = (σ', Ret tt) /\
    marked demo_prober 4 (w_heap demo_World) (w_heap σ') /\ w_tick σ' = 6%nat.
Proof. apply (Start_marks demo_prober [Tick; Tick; CtxDone] demo_World), demo_prober_distinct. Defined.

(** The pair at the start, a half-written one, and its replacement. *)
Definition demo_pair : pair_sight string := mkPairSight (Ok 10) (Ok 10) (Ok "first"%string).
Definition demo_torn : pair_sight string := mkPairSight (Ok 20) (Ok 10) (Err (OpaqueError "private key does not match")).
Definition demo_renewed : pair_sight string := mkPairSight (Ok 20) (Ok 21) (Ok "second"%string).

Lemma certificate_survives_witness :
  exists r σ' r' c before s after, NewReloader "cert.pem" "key.pem" demo_pair = Ok r /\
    Reloader_loop r [Some demo_torn; Some demo_renewed; Some demo_torn] demo_World = (σ', Ret r') /\ GetCertificate r' = Some c /\
    [demo_pair; demo_torn; demo_renewed; demo_torn] = before ++ s :: after /\ key_pair s = Ok c /\
    Forall (fun s' => loads s' = true -> times s' = times s) after.
Proof.
  assert (Hr : exists r, NewReloader "cert.pem" "key.pem" demo_pair = Ok r) by (eexists; reflexivity).
  destruct Hr as (r & Hr).
  destruct (certificate_survives "cert.pem" "key.pem" demo_pair r [Some demo_torn; Some demo_renewed; Some demo_torn] demo_World Hr)
    as (σ' & r' & c & before & s & after & H). by exists r, σ', r', c, before, s, after.
Defined.

(** The program starts. *)
Definition demo_started : bool :=
  match main (Some "1.0"%string) None demo_pair demo_World with (_, Ret (Ok _)) => true | _ => false end.

Lemma tls_as_configured_witness :
  exists σ' st, main (Some "1.0"%string) None demo_pair demo_World = (σ', Ret (Ok st)) /\
    match TLSConfig (st_server st) with
    | Some (fromReloader r) => NewReloader "cert.pem" "key.pem" demo_pair = Ok r /\ exists c, GetCertificate r = Some c
    | _ => False
    end.
Proof.
  assert (Hs : demo_started = true) by by vm_compute. unfold demo_started in Hs.
  destruct (main (Some "1.0"%string) None demo_pair demo_World) as [σ' [[st|]|]] eqn:Hm; [|done..]. exists σ', st.
  split; [done|]. pose proof (tls_as_configured (Some "1.0"%string) None demo_pair demo_World σ' st Hm) as [_ Ht].
  destruct (TLSConfig (st_server st)) as [[r|m]|]; [by destruct Ht as (_ & Hr & Hc)|by destruct Ht..].
Defined.

Lemma root_mux_routes_witness :
  (exists mux, newRootMux (Some "1.0"%string) demo_next "/" = Ret (Ok mux) /\
     mux_match mux "shop.example.com" "GET" "/cart" = Some demo_next) /\
  (exists mux, newRootMux (Some "1.0"%string) demo_next "" = Ret (Ok mux) /\
     mux_match mux "shop.example.com" "GET" "/cart" = Some demo_next).
Proof. apply (root_mux_routes (Some "1.0"%string) demo_next "shop.example.com" "GET" "/cart"). by vm_compute. Defined.

(** ** Witnesses: what requests share *)

(** One request holds the lock, its line not written yet. *)
Definition demo_call : log_call := LogCall 1000 "GET" "/shop" "abc".

Lemma log_lines_whole_witness :
  exists σ, mreach log_body (EmptyString, EmptyString) [demo_call] σ /\
    let out := (shared σ).1 in
    let buf := (shared σ).2 in
    (exists rest, (out +:+ buf +:+ rest)%string = concat_str (log_text <$> [demo_call]) /\
       (owner σ = None -> rest = EmptyString) /\
       (rest <> EmptyString -> exists before c, [demo_call] = before ++ [c] /\
          exists start, log_text c = (start +:+ rest)%string)) /\
    (String.length buf <= bufsize)%nat.
Proof.
  set (ts := <[0%nat := Waiting demo_call]> (∅ : gmap nat (mpc log_state log_call))).
  exists (mkMsys (EmptyString, EmptyString) (Some 0%nat) (<[0%nat := Inside (log_body demo_call)]> ts)).
  assert (Hr : mreach log_body (EmptyString, EmptyString) [demo_call]
            (mkMsys (EmptyString, EmptyString) (Some 0%nat) (<[0%nat := Inside (log_body demo_call)]> ts))).
  { apply (mreach_step log_body _ [] (Some demo_call) (mkMsys (EmptyString, EmptyString) None ts)).
    - apply (mreach_step log_body _ [] None (mkMsys (EmptyString, EmptyString) None ∅)); [constructor|].
      by apply mstep_call.
    - apply mstep_lock. unfold ts. by rewrite lookup_insert_eq. }
  split; [exact Hr|]. apply (log_lines_whole _ _ Hr).
Defined.

Lemma one_origin_charged_witness :
  exists σ1 lb, NewOriginProxy "shop" ["http://a"; "http://b"]%string Second Second demo_once (mkBreakerOptions 1 Second)
      demo_World1 = (σ1, Ret (Ok lb)) /\
  let '(lb', d) := choose (snapshot lb (w_heap σ1)) (w_now σ1) in
  let '(σ', out) := originProxy_ServeHTTP lb demo_rw demo_get σ1 in
  h_next (w_heap σ') !! op_next lb = Some (lb_next lb') /\
  match d with
  | FailFast _ => out = bad_gateway demo_rw "shop" /\ w_tick σ' = w_tick σ1 /\
      (forall a, state_at (w_heap σ') a = state_at (w_heap σ1) a)
  | Dial k => exists o σd, op_origins lb !! k = Some o /\ w_now σd = w_now σ1 /\ w_tick σd = w_tick σ1 /\
      charged "shop" (lo_handler o) demo_rw demo_get σd σ' out
        (state_at (w_heap σ1) (lo_state o)) (state_at (w_heap σ') (lo_state o)) /\
      (forall a, a <> lo_state o -> state_at (w_heap σ') a = state_at (w_heap σ1) a)
  end.
Proof.
  assert (Hrun : exists σ1 lb, NewOriginProxy "shop" ["http://a"; "http://b"]%string Second Second demo_once
    (mkBreakerOptions 1 Second) demo_World1 = (σ1, Ret (Ok lb))) by (do 2 eexists; reflexivity).
  destruct Hrun as (σ1 & lb & Hrun). exists σ1, lb. split; [done|].
  apply (one_origin_charged _ _ _ _ _ _ lb demo_rw demo_get _ _ σ1 Hrun).
Defined.

(** ** Witnesses: the gateway as a whole *)

(** The table of the example configuration is built. *)
Definition demo_built : bool :=
  match buildMux demo_config demo_options demo_World with (_, Ret (Ok _)) => true | _ => false end.

Lemma demo_table : exists σ mux probers plugins,
  buildMux demo_config demo_options demo_World = (σ, Ret (Ok (mux, probers, plugins))).
Proof.
  assert (Hb : demo_built = true) by by vm_compute. unfold demo_built in Hb.
  destruct (buildMux demo_config demo_options demo_World) as [σ [[[[mux probers] plugins]|]|]]; [|done..].
  by exists σ, mux, probers, plugins.
Qed.

Definition demo_settings : settings := mkSettings demo_resolver false None demo_options (2 * Second).


(** A service with a rate limit of one request in 64 seconds and a burst of two,
    between an added header and a response header, next to one without; three requests
    of one client for it, a second apart. *)
Definition demo_limit : PluginConfig :=
  mkPluginConfig "rate_limiting" {["requests_per_second"%string := Float64 (fdiv (fofZ 1) (fofZ 64)); "burst"%string := Int 2]}.

Definition demo_api : Service :=
  mkService "api" "/api/" "" "http://origin:9090" [] [] [mkPluginConfig "add_header" ∅; demo_limit; mkPluginConfig "http_log" ∅]
    None false false.

Definition demo_limited : Config := mkConfig [demo_service; demo_api].

Definition demo_item : Request :=
  mkRequest "GET" "" "" "/api/items" "" "" "shop.example.com" "10.0.0.1:4711" (forwarded "203.0.113.7") None 0 background.

Definition demo_serve (mux : ServeMux Handler) (σ : World) : World :=
  (Gateway_ServeHTTP demo_settings (mkGateway mux None None None None None newRuntime) demo_rw demo_item σ).1.

Definition demo_log (mux : ServeMux Handler) (σ : World) : list (Request * bool) :=
  let step σ σ' := (demo_item, Nat.ltb (Frames.dials σ) (Frames.dials σ')) in
  let σ1 := demo_serve mux σ in let σ2 := demo_serve mux σ1 in
  [step σ σ1; step σ1 σ2; step σ2 (demo_serve mux σ2)].

Definition demo_after (mux : ServeMux Handler) (σ : World) : World := demo_serve mux (demo_serve mux (demo_serve mux σ)).

(** How long the three take, and how many reach an origin. *)
Definition demo_reached : option (Z * Z) :=
  match buildMux demo_limited demo_options demo_World with
  | (σ, Ret (Ok (mux, _, _))) =>
      Some (w_now (demo_after mux σ) - w_now σ,
            Limited.reached (Services demo_limited) 1 demo_settings "203.0.113.7" (demo_log mux σ))
  | _ => None
  end.

Lemma demo_traffic a mux σ :
  Limited.traffic a demo_settings (mkGateway mux None None None None None newRuntime) σ (demo_log mux σ) (demo_after mux σ).
Proof.
  pose proof (Limited.traffic_start a demo_settings (mkGateway mux None None None None None newRuntime) σ) as H.
  do 3 apply (Limited.traffic_request a demo_settings _ _ _ _ demo_rw demo_item) in H. exact H.
Qed.

Lemma clients_limited_witness :
  exists σ mux probers plugins a,
    buildMux demo_limited demo_options demo_World = (σ, Ret (Ok (mux, probers, plugins))) /\
    Limited.traffic a demo_settings (mkGateway mux None None None None None newRuntime) σ (demo_log mux σ) (demo_after mux σ) /\
    Limited.reached (Services demo_limited) 1 demo_settings "203.0.113.7" (demo_log mux σ) = 2 /\
    (inject_Z (Limited.reached (Services demo_limited) 1 demo_settings "203.0.113.7" (demo_log mux σ)) <=
     value (fofZ 2 : float64) + secs (2 * Second) * value (fdiv (fofZ 1) (fofZ 64) : float64) + 2 * (inject_Z 3 * pow2 (-49) * magnitude (fdiv (fofZ 1) (fofZ 64) : float64) (fofZ 2) (2 * Second)))%Q.
Proof.
  assert (Hrun : demo_reached = Some (2 * Second, 2)) by by vm_compute. unfold demo_reached in Hrun.
  destruct (buildMux demo_limited demo_options demo_World) as [σ [[[[mux probers] plugins]|]|]] eqn:Hb; [|done..].
  injection Hrun as Hd Hr.
  destruct (Limited.clients_limited demo_limited demo_options demo_World σ mux probers plugins demo_settings
    (mkGateway mux None None None None None newRuntime) 1 demo_api demo_limit (fdiv (fofZ 1) (fofZ 64)) (fofZ 2))
    as (a & _ & H); [done|exact Hb|done|done|by right; left|done|by vm_compute..|].
  exists σ, mux, probers, plugins, a. split_and!; [done|apply demo_traffic|exact Hr|].
  pose proof (H "203.0.113.7"%string _ _ (demo_traffic a mux σ)) as Hq. cbv zeta in Hq. rewrite Hd in Hq.
  assert (Hreq : Limited.requested (Services demo_limited) 1 demo_settings "203.0.113.7" (demo_log mux σ) = 3%nat) by by vm_compute.
  rewrite Hreq in Hq. apply Hq; by vm_compute.
Defined.

(** A service with authentication, a second with a distributed rate limit, and a request
    for each that goes through. *)
Definition demo_auth : PluginConfig := mkPluginConfig "jwt_auth" {["secret_env"%string := Str "JWT_SECRET"]}.
Definition demo_shared : PluginConfig :=
  mkPluginConfig "rate_limiting"
    {["requests_per_second"%string := Int 1; "burst"%string := Int 2; "mode"%string := Str "distributed"]}.

Definition demo_guarded : Config := mkConfig
  [mkService "account" "/account" "" "http://origin:9090" [] [] [mkPluginConfig "add_header" ∅; demo_auth; demo_limit]
     None false false;
   mkService "search" "/search" "" "http://origin:9091" [] [] [mkPluginConfig "http_log" ∅; demo_shared] None false false].

Definition demo_bearer : Request :=
  mkRequest "GET" "" "" "/account" "" "" "shop.example.com" "10.0.0.1:4711"
    {["Authorization"%string := ["Bearer HS256.s3cret"%string]]} None 0 background.

Definition demo_find : Request :=
  mkRequest "GET" "" "" "/search" "" "" "shop.example.com" "10.0.0.1:4711" (forwarded "203.0.113.7") None 0 background.

Definition demo_passes (r : Request) : bool :=
  match buildMux demo_guarded demo_options demo_World with
  | (σ, Ret (Ok (mux, _, _))) =>
      negb (Nat.eqb (Frames.dials (Gateway_ServeHTTP demo_settings (mkGateway mux None None None None None newRuntime) demo_rw r σ).1)
                    (Frames.dials σ))
  | _ => false
  end.

Lemma protected_service_witness :
  exists σ mux probers plugins,
    buildMux demo_guarded demo_options demo_World = (σ, Ret (Ok (mux, probers, plugins))) /\
    exists now, w_now σ <= now /\ authentic "s3cret" now (extractToken demo_bearer) = true.
Proof.
  assert (Hrun : demo_passes demo_bearer = true) by by vm_compute. unfold demo_passes in Hrun.
  destruct (buildMux demo_guarded demo_options demo_World) as [σ [[[[mux probers] plugins]|]|]] eqn:Hb; [|done..].
  apply negb_true_iff, Nat.eqb_neq in Hrun. exists σ, mux, probers, plugins. split; [done|].
  apply (Guarded.protected_service demo_guarded demo_options demo_World σ mux probers plugins demo_settings
    (mkGateway mux None None None None None newRuntime) 0 _ [mkPluginConfig "add_header" ∅] demo_auth [demo_limit]
    demo_rw demo_bearer σ Hb eq_refl eq_refl eq_refl eq_refl eq_refl); [by vm_compute|exact Hrun].
Defined.

Lemma distributed_limit_witness :
  exists σ mux probers plugins,
    buildMux demo_guarded demo_options demo_World = (σ, Ret (Ok (mux, probers, plugins))) /\
    (exists n c before after,
       w_events (Gateway_ServeHTTP demo_settings (mkGateway mux None None None None None newRuntime) demo_rw demo_find σ).1 =
         w_events σ ++ before ++ Distributed.commands n "search:1:203.0.113.7" c ++ after /\
       env_incr n "search:1:203.0.113.7" = Ok c /\ c <= 2) /\
    (forall svcName' j' client', Distributed.no_colon svcName' = true ->
     Distributed.counter_key svcName' j' client' = "search:1:203.0.113.7"%string ->
     svcName' = "search"%string /\ j' = 1%nat /\ client' = "203.0.113.7"%string).
Proof.
  assert (Hrun : demo_passes demo_find = true) by by vm_compute. unfold demo_passes in Hrun.
  destruct (buildMux demo_guarded demo_options demo_World) as [σ [[[[mux probers] plugins]|]|]] eqn:Hb; [|done..].
  apply negb_true_iff, Nat.eqb_neq in Hrun. exists σ, mux, probers, plugins. split; [done|].
  assert (Hi : Frames.service_of (Services demo_guarded) demo_find = Some 1%nat) by by vm_compute.
  destruct (Distributed.distributed_limit demo_guarded demo_options demo_World σ mux probers plugins demo_settings
    (mkGateway mux None None None None None newRuntime) 1 _ [mkPluginConfig "http_log" ∅] demo_shared []
    (fofZ 1) (fofZ 2) demo_rw demo_find σ Hb eq_refl eq_refl eq_refl eq_refl eq_refl eq_refl Hi) as [Hn Hk].
  assert (Hc : Frames.client_of demo_settings demo_find = "203.0.113.7"%string) by by vm_compute. rewrite Hc in Hn, Hk.
  split; [destruct (Hn Hrun) as (n & c & before & after & Hev & _ & Hi' & Hb' & _); exists n, c, before, after; by split_and!|by apply Hk].
Defined.

Lemma buildMux_fresh_witness :
  exists σ mux probers plugins bs,
    buildMux demo_config demo_options demo_World = (σ, Ret (Ok (mux, probers, plugins))) /\
    Generation.table demo_options (Services demo_config) mux probers plugins bs /\
    Generation.well_owned (w_heap σ) bs /\ NoDup (Generation.probed probers).
Proof.
  destruct demo_table as (σ & mux & probers & plugins & Hb).
  destruct (Generation.buildMux_fresh _ _ _ _ _ Hb) as (_ & bs & Ht & Hw & _ & Hp & _).
  by exists σ, mux, probers, plugins, bs.
Defined.

(** The gateway starts, the file is unreadable at one poll and edited at the next. *)
Definition demo_contents (info : FileInfo) : result error Config :=
  if fi_ModTime info =? 5 then Load "config.yml" else Ok (mkConfig []).

Definition demo_sights : list (option sight) :=
  [Some (mkSight (Err (OpaqueError "no such file")) (Err (OpaqueError "no such file")));
   Some (mkSight (Ok (mkFileInfo 9 100)) (Ok (mkConfig [])))].

Definition demo_followed : bool :=
  match Gateway.New "config.yml" demo_Options demo_World with
  | (σ1, Ret (Ok (s, g))) =>
      match poll_loop (reload (set_resolved s)) (NewWatcher "config.yml" (set_interval s) (Ok (mkFileInfo 5 80)))
              g demo_sights σ1 with
      | (_, Ret (w, g')) => (lastModTime w =? 9) && bool_decide (gw_hosts g' = Some (Hosts (mkConfig [])))
      | _ => false
      end
  | _ => false
  end.

Lemma gateway_follows_file_witness :
  exists σ1 s g σ2 w' g',
    Gateway.New "config.yml" demo_Options demo_World = (σ1, Ret (Ok (s, g))) /\
    poll_loop (reload (set_resolved s)) (NewWatcher "config.yml" (set_interval s) (Ok (mkFileInfo 5 80)))
      g demo_sights σ1 = (σ2, Ret (w', g')) /\
    lastModTime w' = 9 /\
    exists cfg, demo_contents (stamp w') = Ok cfg /\ in_force (set_resolved s) cfg g'.
Proof.
  assert (Hf : demo_followed = true) by by vm_compute. unfold demo_followed in Hf.
  destruct (Gateway.New "config.yml" demo_Options demo_World) as [σ1 [[[s g]|]|]] eqn:Hn; [|done..].
  destruct (poll_loop (reload (set_resolved s)) (NewWatcher "config.yml" (set_interval s) (Ok (mkFileInfo 5 80)))
              g demo_sights σ1) as [σ2 [[w' g']|]] eqn:Hp; [|done].
  exists σ1, s, g, σ2, w', g'. split_and!; [done|done|by apply andb_true_iff in Hf as [Hf%Z.eqb_eq _]|].
  pose proof (gateway_follows_file demo_contents "config.yml" demo_Options (mkFileInfo 5 80) demo_World σ1 s g
    demo_sights Hn eq_refl) as Hg. rewrite Hp in Hg. apply Hg.
  repeat constructor; intros ? [= <-] info [= <-]; done.
Defined.

(** ** Witnesses: the load test tools *)

Lemma stats_count_arrivals_witness :
  let hist := [Stubs.connection true; Stubs.arrival demo_get; Stubs.connection false] in
  exists w body, Stubs.statsHandler (mkRw [] newConn) (Stubs.after Stubs.newCounters hist)
      (Stubs.after Stubs.newCounters (hist ++ [Stubs.arrival demo_get])) = Ret w /\
    c_body (rw_conn w) = [body] /\
    Json.json_read body = Some ([("accepts", Json.JInt 1); ("requests", Json.JInt 2)]%string, newline).
Proof.
  apply (Stubs.stats_count_arrivals [Stubs.connection true; Stubs.arrival demo_get; Stubs.connection false]
    [Stubs.arrival demo_get]); by vm_compute.
Defined.

(** A verifier written after RFC 7515 and RFC 7519. *)
Definition rfc_parts (s : string) : option (string * string * string) :=
  match Split "." s with [h; c; g] => Some (h, c, g) | _ => None end.

Definition rfc_header (s : string) : option jwt_token :=
  match rfc_parts s with
  | Some (h, c, _) =>
      match JwtGen.part_object h, JwtGen.part_object c with
      | Some fields, Some _ =>
          match JwtGen.json_get "alg" fields with
          | Some (Json.JString alg) => Some (mkToken (String.eqb alg "HS256") alg)
          | _ => None
          end
      | _, _ => None
      end
  | None => None
  end.

Definition rfc_signed (key s : string) : bool :=
  match rfc_parts s with
  | Some (h, c, g) => match Base64.DecodeString g with
                      | Some sig => String.eqb sig (Sha256.HMAC key (h +:+ "." +:+ c))
                      | None => false
                      end
  | None => false
  end.

(** A time claim, and what is asked of it. *)
Definition rfc_claim (k : string) (fields : list (string * Json.json_value)) (ok : Z -> bool) : bool :=
  match JwtGen.json_get k fields with
  | None => true
  | Some (Json.JInt n) => (n =? 0) || ok n
  | Some _ => false
  end.

Definition rfc_in_time (now : Time) (s : string) : bool :=
  match rfc_parts s with
  | Some (_, c, _) => match JwtGen.part_object c with
                      | Some fields => rfc_claim "exp" fields (fun e => JwtGen.Unix now <? e) &&
                                       rfc_claim "nbf" fields (fun n => n <=? JwtGen.Unix now)
                      | None => false
                      end
  | None => false
  end.

Definition rfc_JWT : JWT := {|
  jwt_Parse now s keyfunc :=
    match rfc_header s with
    | None => Err (OpaqueError "token is malformed")
    | Some t => match keyfunc t with
                | Err e => Err e
                | Ok key => if rfc_signed key s && rfc_in_time now s then Ok true
                            else Err (OpaqueError "token is invalid")
                end
    end
|}.

Definition rfc_JWTLaws : @JWTLaws rfc_JWT.
Proof.
  refine {| jwt_header := rfc_header; jwt_signed := rfc_signed; jwt_in_time := rfc_in_time |}.
  intros now s keyfunc. simpl. split.
  - destruct (rfc_header s) as [t|]; [|done]. destruct (keyfunc t) as [key|e] eqn:Ek; [|done].
    destruct (rfc_signed key s && rfc_in_time now s) eqn:Es; [|done]. intros _.
    apply andb_true_iff in Es as [Hs Ht]. by exists t, key.
  - intros (t & key & -> & -> & -> & ->). done.
Defined.

Lemma rfc_parts_compact h c s :
  Base64.no_dot h = true -> Base64.no_dot c = true -> Base64.no_dot s = true ->
  rfc_parts (JwtGen.compact h c s) = Some (h, c, s).
Proof.
  intros Hh Hc Hs. unfold rfc_parts, JwtGen.compact.
  change ("." +:+ c +:+ "." +:+ s)%string with (String "." (c +:+ String "." s)).
  by rewrite !Split_app, Split_single by done.
Qed.

Definition rfc_HS256 : @JwtGen.HS256Laws rfc_JWT rfc_JWTLaws.
Proof.
  split.
  - intros h c s fields Hh Hc Hs Hp _ Ha Hne. cbn [jwt_header rfc_JWTLaws]. unfold rfc_header.
    rewrite rfc_parts_compact, Hp, Ha by done. by destruct (JwtGen.part_object c).
  - intros key h c s fields sig Hh Hc Hs _ _ _ _ Hsig. cbn [jwt_signed rfc_JWTLaws]. unfold rfc_signed.
    by rewrite rfc_parts_compact, Hsig.
  - intros now h c s fields e Hh Hc Hs _ Hp _ He Hn [Hpos _]. cbn [jwt_in_time rfc_JWTLaws]. unfold rfc_in_time, rfc_claim.
    rewrite rfc_parts_compact, Hp, He, Hn, andb_true_r by done. by destruct (Z.eqb_spec e 0); [lia|].
Defined.

Definition secret_OS : OS := {|
  Getenv k := if String.eqb k "JWT_SECRET" then "s3cret"%string else EmptyString;
  MkdirTemp _ := Ok "/tmp/dealer"%string
|}.

(** A token minted in November 2023 for an hour, a minute later and two hours later. *)
Definition demo_mint : Time := (JwtGen.unixEpoch + 1700000000) * Second.

Lemma minted_token_admitted_witness :
  exists token, @JwtGen.main secret_OS (Some "bob"%string) None demo_mint = JwtGen.Println token /\
    let r := demo_request "GET" {["Authorization"%string := [("Bearer " +:+ token)%string]]} None 0 in
    forall next w, @jwtAuth_Wrap sorted_range rfc_JWT "s3cret" next w r (mkWorld (demo_mint + 60 * Second) 0 [] demo_Heap) =
        next w r (mkWorld (demo_mint + 60 * Second) 0 [] demo_Heap) /\
      @jwtAuth_Wrap sorted_range rfc_JWT "s3cret" next w r (mkWorld (demo_mint + 2 * Hour) 0 [] demo_Heap) =
        lift (http_Error w "invalid jwt" 401) (mkWorld (demo_mint + 2 * Hour) 0 [] demo_Heap).
Proof.
  assert (Hm : exists token, @JwtGen.main secret_OS (Some "bob"%string) None demo_mint = JwtGen.Println token)
    by (eexists; vm_compute; reflexivity).
  destruct Hm as (token & Hm). exists token. split; [done|]. intros r next w.
  assert (Hd : JwtGen.numeric_date (JwtGen.Unix (demo_mint + JwtGen.ttl_flag None))) by (split; by vm_compute).
  destruct (@JwtGen.minted_token_admitted rfc_JWT rfc_JWTLaws rfc_HS256 sorted_range secret_OS
    (Some "bob"%string) None demo_mint token {["secret_env"%string := Str "JWT_SECRET"]} r Hm Hd) as [_ Hg]; [done|done|].
  split; [rewrite (Hg "s3cret"%string next w (mkWorld (demo_mint + 60 * Second) 0 [] demo_Heap))
         |rewrite (Hg "s3cret"%string next w (mkWorld (demo_mint + 2 * Hour) 0 [] demo_Heap))];
    cbn [Getenv secret_OS]; by rewrite String.eqb_refl.
Defined.
